(** * A shallow embedding of the json-gui-addon-kit display slave

    The development follows the firmware sources: the COBS codec
    (src/common/cobs.c), the shared arena and its runtime nodes
    (ui_runtime.c), the tree helpers (ui_tree.c), focus and navigation
    (ui_focus.c), numeric helpers (ui_numeric.c), the protocol layer
    (ui_protocol.c), the asynchronous frame engine of the panel driver
    (ssd1306_driver.c) and the framing and response reader of the SPI
    master (master_spi.c).

    Conventions.  Every C integer is a [Z]; a narrowing store is written
    with [u8], [u16] or [i16].  Global C state is threaded explicitly.
    Fixed arrays are lists, written by index with stdpp's [<[i:=x]>].
    A C function that returns a value and mutates globals returns a pair. *)

From Stdlib Require Import String Ascii ZArith List Bool Lia.
From stdpp Require Import base list.
Import ListNotations.
Open Scope Z_scope.

(** ** Machine integers *)

Definition u8 (x : Z) : Z := x mod 256.
Definition u16 (x : Z) : Z := x mod 65536.
Definition i16 (x : Z) : Z := (x + 32768) mod 65536 - 32768.
Definition i32 (x : Z) : Z := (x + 2147483648) mod 4294967296 - 2147483648.

Definition is_byte (b : Z) : Prop := 0 <= b < 256.

Definition len {A} (l : list A) : Z := Z.of_nat (length l).

(** [blit new old]: the bytes [new] stored at the start of buffer [old]. *)
Definition blit {A} (new old : list A) : list A :=
  new ++ drop (length new) old.

(** Element ids [0 .. n-1], the range of every [for (i = 0; i < n; i++)]. *)
Definition ids (n : Z) : list Z := map Z.of_nat (seq 0 (Z.to_nat n)).

(** ** COBS codec (src/common/cobs.c)

    The output buffer is modelled by the list of bytes written so far, so
    [write_index] is its length; [out[code_index] = v] is an in-place
    update.  Both functions return the C return value together with the
    bytes they stored (on error: 0 and the bytes stored before giving up). *)

Fixpoint cobs_encode_loop (inp : list Z) (out_max : Z) (out : list Z)
    (code_index : nat) (code : Z) : bool * (list Z * nat * Z) :=
  match inp with
  | [] => (true, (out, code_index, code))
  | b :: rest =>
      if b =? 0 then
        let out1 := <[code_index := code]> out in
        if len out1 + 1 >? out_max then (false, (out1, code_index, 1))
        else cobs_encode_loop rest out_max (out1 ++ [0]) (length out1) 1
      else if len out >=? out_max then (false, (out, code_index, code))
      else
        let out1 := out ++ [b] in
        let code1 := u8 (code + 1) in
        if code1 =? 255 then
          let out2 := <[code_index := 255]> out1 in
          if len out2 + 1 >? out_max then (false, (out2, code_index, 1))
          else cobs_encode_loop rest out_max (out2 ++ [0]) (length out2) 1
        else cobs_encode_loop rest out_max out1 code_index code1
  end.

Definition cobs_encode (inp : list Z) (out_max : Z) : Z * list Z :=
  if out_max =? 0 then (0, [])
  else
    match cobs_encode_loop inp out_max [0] 0%nat 1 with
    | (false, (out, _, _)) => (0, out)
    | (true, (out, code_index, code)) =>
        let out' := <[code_index := code]> out in (len out', out')
    end.

(** Inner [for] loop of the decoder: copy [n] bytes. *)
Fixpoint cobs_decode_copy (n : nat) (inp out : list Z) (out_max : Z)
    : option (list Z * list Z) :=
  match n with
  | O => Some (inp, out)
  | S n' =>
      match inp with
      | [] => None
      | b :: rest =>
          if len out >=? out_max then None
          else cobs_decode_copy n' rest (out ++ [b]) out_max
      end
  end.

(** Outer [while] loop.  Each round consumes at least the code byte, so the
    length of the input is enough fuel (see [cobs_decode_loop_fuel]). *)
Fixpoint cobs_decode_loop (fuel : nat) (inp out : list Z) (out_max : Z)
    : Z * list Z :=
  match inp with
  | [] => (len out, out)
  | code :: rest =>
      match fuel with
      | O => (0, out)
      | S fuel' =>
          if code =? 0 then (0, out)
          else
            match cobs_decode_copy (Z.to_nat (code - 1)) rest out out_max with
            | None => (0, out)
            | Some (rest', out') =>
                match rest' with
                | [] => cobs_decode_loop fuel' rest' out' out_max
                | _ :: _ =>
                    if negb (code =? 255) then
                      if len out' >=? out_max then (0, out')
                      else cobs_decode_loop fuel' rest' (out' ++ [0]) out_max
                    else cobs_decode_loop fuel' rest' out' out_max
                end
            end
      end
  end.

Definition cobs_decode (inp : list Z) (out_max : Z) : Z * list Z :=
  cobs_decode_loop (length inp) inp [] out_max.

(** ** Constants (status_codes.h, ui_protocol.h, ui_runtime.h, element_types.h) *)

Definition RES_OK : Z := 0.
Definition RES_BAD_LEN : Z := -1.
Definition RES_BAD_STATE : Z := -2.
Definition RES_UNKNOWN_ID : Z := -3.
Definition RES_RANGE : Z := -4.
Definition RES_INTERNAL : Z := -5.
Definition RES_NO_SPACE : Z := -6.
Definition RES_PARSE_FAIL : Z := -10.

Definition RC_OK : Z := 0.
Definition RC_BAD_LEN : Z := 1.
Definition RC_BAD_STATE : Z := 2.
Definition RC_UNKNOWN_ID : Z := 3.
Definition RC_RANGE : Z := 4.
Definition RC_INTERNAL : Z := 5.
Definition RC_PARSE_FAIL : Z := 11.
Definition RC_NO_SPACE : Z := 12.

Definition PROTOCOL_RESP_SENT : Z := 127.

Definition SPI_CMD_PING : Z := 0.
Definition SPI_CMD_JSON : Z := 1.
Definition SPI_CMD_JSON_ABORT : Z := 3.
Definition SPI_CMD_SET_ACTIVE_SCREEN : Z := 16.
Definition SPI_CMD_GET_STATUS : Z := 32.
Definition SPI_CMD_SCROLL_TO_SCREEN : Z := 33.
Definition SPI_CMD_GET_ELEMENT_STATE : Z := 34.
Definition SPI_CMD_SHOW_OVERLAY : Z := 48.
Definition SPI_CMD_INPUT_EVENT : Z := 65.
Definition SPI_CMD_GOTO_STANDBY : Z := 80.

Definition SPI_BUFFER_SIZE : Z := 64.
Definition SPI_TX_QUEUE_SIZE : Z := 64.
Definition SPI_RESP_SYNC0 : Z := 165.
Definition SPI_RESP_SYNC1 : Z := 90.
Definition RX_ENC_BUF_SIZE : Z := 112.

Definition INVALID_ELEMENT_ID : Z := 255.
Definition NAV_STACK_MAX_DEPTH : Z := 4.
Definition NAV_CTX_LIST : Z := 0.
Definition NAV_CTX_LOCAL_SCREEN : Z := 1.
Definition OVERLAY_NONE : Z := 0.
Definition OVERLAY_FULL : Z := 1.
Definition INPUT_SRC_NONE : Z := 0.

Definition JSON_FLAG_HEAD : Z := 1.
Definition JSON_FLAG_COMMIT : Z := 2.
Definition STATUS_FLAG_INITIALIZED : Z := 1.
Definition STATUS_FLAG_DIRTY : Z := 2.
Definition STATUS_FLAG_OVERLAY : Z := 4.

Definition UI_ATTR_ARENA_CAP : Z := 768.
Definition UI_ATTR_TAG_TEXT : Z := 16.
Definition UI_ATTR_TAG_SCREEN_ROLE : Z := 17.
Definition UI_ATTR_SIZE_TEXT_HDR : Z := 3.
Definition UI_ATTR_SIZE_SCREEN_ROLE : Z := 3.

Definition ELEMENT_TEXT : Z := 0.
Definition ELEMENT_LIST_VIEW : Z := 9.
Definition ELEMENT_SCREEN : Z := 10.
Definition ELEMENT_NUMBER_EDIT : Z := 8.
Definition ELEMENT_BARREL : Z := 12.
Definition ELEMENT_TRIGGER : Z := 14.

(** [sizeof] of the element reference and of the three runtime nodes
    (packed bytes after a 16-bit link; the barrel value is 2-aligned). *)
Definition SIZEOF_ELEMENT : Z := 2.
Definition SIZEOF_LIST_NODE : Z := 12.
Definition SIZEOF_TRIGGER_NODE : Z := 4.
Definition SIZEOF_BARREL_NODE : Z := 6.

(** ** Data model (ui_runtime.h, ui_protocol.h) *)

Record element : Type := mk_element {
  parent_id : Z;
  type : Z
}.

Record ur_list_state : Type := mk_ur_list_state {
  l_element_id : Z;
  cursor : Z;
  top_index : Z;
  visible_rows : Z;
  anim_active : Z;
  anim_dir : Z;
  anim_pix : Z;
  pending_top : Z;
  pending_cursor : Z;
  last_text_child : Z
}.

Definition set_cursor (v : Z) (s : ur_list_state) : ur_list_state :=
  {| l_element_id := l_element_id s; cursor := v; top_index := top_index s; visible_rows := visible_rows s; anim_active := anim_active s; anim_dir := anim_dir s; anim_pix := anim_pix s; pending_top := pending_top s; pending_cursor := pending_cursor s; last_text_child := last_text_child s |}.
Definition set_top_index (v : Z) (s : ur_list_state) : ur_list_state :=
  {| l_element_id := l_element_id s; cursor := cursor s; top_index := v; visible_rows := visible_rows s; anim_active := anim_active s; anim_dir := anim_dir s; anim_pix := anim_pix s; pending_top := pending_top s; pending_cursor := pending_cursor s; last_text_child := last_text_child s |}.
Definition set_visible_rows (v : Z) (s : ur_list_state) : ur_list_state :=
  {| l_element_id := l_element_id s; cursor := cursor s; top_index := top_index s; visible_rows := v; anim_active := anim_active s; anim_dir := anim_dir s; anim_pix := anim_pix s; pending_top := pending_top s; pending_cursor := pending_cursor s; last_text_child := last_text_child s |}.
Definition set_anim_active (v : Z) (s : ur_list_state) : ur_list_state :=
  {| l_element_id := l_element_id s; cursor := cursor s; top_index := top_index s; visible_rows := visible_rows s; anim_active := v; anim_dir := anim_dir s; anim_pix := anim_pix s; pending_top := pending_top s; pending_cursor := pending_cursor s; last_text_child := last_text_child s |}.
Definition set_anim_dir (v : Z) (s : ur_list_state) : ur_list_state :=
  {| l_element_id := l_element_id s; cursor := cursor s; top_index := top_index s; visible_rows := visible_rows s; anim_active := anim_active s; anim_dir := v; anim_pix := anim_pix s; pending_top := pending_top s; pending_cursor := pending_cursor s; last_text_child := last_text_child s |}.
Definition set_anim_pix (v : Z) (s : ur_list_state) : ur_list_state :=
  {| l_element_id := l_element_id s; cursor := cursor s; top_index := top_index s; visible_rows := visible_rows s; anim_active := anim_active s; anim_dir := anim_dir s; anim_pix := v; pending_top := pending_top s; pending_cursor := pending_cursor s; last_text_child := last_text_child s |}.
Definition set_last_text_child (v : Z) (s : ur_list_state) : ur_list_state :=
  {| l_element_id := l_element_id s; cursor := cursor s; top_index := top_index s; visible_rows := visible_rows s; anim_active := anim_active s; anim_dir := anim_dir s; anim_pix := anim_pix s; pending_top := pending_top s; pending_cursor := pending_cursor s; last_text_child := v |}.

Record ur_barrel_state : Type := mk_ur_barrel_state {
  b_element_id : Z;
  aux : Z;
  value : Z
}.

Definition set_aux (v : Z) (s : ur_barrel_state) : ur_barrel_state :=
  {| b_element_id := b_element_id s; aux := v; value := value s |}.
Definition set_value (v : Z) (s : ur_barrel_state) : ur_barrel_state :=
  {| b_element_id := b_element_id s; aux := aux s; value := v |}.

Record ur_trigger_state : Type := mk_ur_trigger_state {
  t_element_id : Z;
  version : Z
}.

(** An attribute entry of the arena head: tag byte, owner byte and the
    bytes that follow (text: the size byte then the payload; screen role:
    the role byte). *)
Record attr_entry : Type := mk_attr_entry {
  a_tag : Z;
  a_element_id : Z;
  a_body : list Z
}.

(** The arena.  The head holds the element tables and the attribute
    entries in append order; the tail holds the three linked lists, each
    kept here most-recent-first, which is the order the links are walked. *)
Record ui_runtime : Type := mk_ui_runtime {
  head_used : Z;
  used_tail : Z;
  attr_base : Z;
  attrs : list attr_entry;
  triggers : list ur_trigger_state;
  lists : list ur_list_state;
  barrels : list ur_barrel_state
}.

Definition set_head_used (v : Z) (s : ui_runtime) : ui_runtime :=
  {| head_used := v; used_tail := used_tail s; attr_base := attr_base s; attrs := attrs s; triggers := triggers s; lists := lists s; barrels := barrels s |}.
Definition set_used_tail (v : Z) (s : ui_runtime) : ui_runtime :=
  {| head_used := head_used s; used_tail := v; attr_base := attr_base s; attrs := attrs s; triggers := triggers s; lists := lists s; barrels := barrels s |}.
Definition set_attr_base (v : Z) (s : ui_runtime) : ui_runtime :=
  {| head_used := head_used s; used_tail := used_tail s; attr_base := v; attrs := attrs s; triggers := triggers s; lists := lists s; barrels := barrels s |}.
Definition set_attrs (v : list attr_entry) (s : ui_runtime) : ui_runtime :=
  {| head_used := head_used s; used_tail := used_tail s; attr_base := attr_base s; attrs := v; triggers := triggers s; lists := lists s; barrels := barrels s |}.
Definition set_triggers (v : list ur_trigger_state) (s : ui_runtime) : ui_runtime :=
  {| head_used := head_used s; used_tail := used_tail s; attr_base := attr_base s; attrs := attrs s; triggers := v; lists := lists s; barrels := barrels s |}.
Definition set_lists (v : list ur_list_state) (s : ui_runtime) : ui_runtime :=
  {| head_used := head_used s; used_tail := used_tail s; attr_base := attr_base s; attrs := attrs s; triggers := triggers s; lists := v; barrels := barrels s |}.
Definition set_barrels (v : list ur_barrel_state) (s : ui_runtime) : ui_runtime :=
  {| head_used := head_used s; used_tail := used_tail s; attr_base := attr_base s; attrs := attrs s; triggers := triggers s; lists := lists s; barrels := v |}.

Record nav_stack_entry : Type := mk_nav_stack_entry {
  ctx_type : Z;
  target_element : Z;
  return_list : Z;
  saved_cursor : Z;
  saved_top : Z;
  saved_focus : Z;
  saved_active_screen : Z
}.

Record overlay_runtime : Type := mk_overlay_runtime {
  active_overlay_screen_id : Z;
  remaining_ms : Z;
  mask_input : Z;
  prev_focus : Z
}.

Record screen_anim_state : Type := mk_screen_anim_state {
  sa_active : Z;
  from_screen : Z;
  to_screen : Z;
  offset_px : Z;
  dir : Z
}.

(** [protocol_state_t].  The three table pointers are null exactly when
    the corresponding list is empty. *)
Record protocol_state : Type := mk_protocol_state {
  active_screen : Z;
  screen_count : Z;
  element_count : Z;
  element_capacity : Z;
  elements : list element;
  pos_x : list Z;
  pos_y : list Z;
  scroll_x : Z;
  initialized : Z;
  status_dirty : Z;
  status_dirty_id : Z;
  trigger_count : Z;
  runtime : ui_runtime;
  overlay : overlay_runtime;
  protocol_version : Z;
  capabilities : Z;
  focused_element : Z;
  input_source : Z;
  nav_stack : list nav_stack_entry;
  active_local_screen : Z;
  nav_depth : Z;
  screen_anim : screen_anim_state;
  edit_blink_active : Z;
  edit_blink_phase : Z;
  edit_blink_counter : Z;
  header_seen : Z
}.

Definition set_active_screen (v : Z) (s : protocol_state) : protocol_state :=
  {| active_screen := v; screen_count := screen_count s; element_count := element_count s; element_capacity := element_capacity s; elements := elements s; pos_x := pos_x s; pos_y := pos_y s; scroll_x := scroll_x s; initialized := initialized s; status_dirty := status_dirty s; status_dirty_id := status_dirty_id s; trigger_count := trigger_count s; runtime := runtime s; overlay := overlay s; protocol_version := protocol_version s; capabilities := capabilities s; focused_element := focused_element s; input_source := input_source s; nav_stack := nav_stack s; active_local_screen := active_local_screen s; nav_depth := nav_depth s; screen_anim := screen_anim s; edit_blink_active := edit_blink_active s; edit_blink_phase := edit_blink_phase s; edit_blink_counter := edit_blink_counter s; header_seen := header_seen s |}.
Definition set_screen_count (v : Z) (s : protocol_state) : protocol_state :=
  {| active_screen := active_screen s; screen_count := v; element_count := element_count s; element_capacity := element_capacity s; elements := elements s; pos_x := pos_x s; pos_y := pos_y s; scroll_x := scroll_x s; initialized := initialized s; status_dirty := status_dirty s; status_dirty_id := status_dirty_id s; trigger_count := trigger_count s; runtime := runtime s; overlay := overlay s; protocol_version := protocol_version s; capabilities := capabilities s; focused_element := focused_element s; input_source := input_source s; nav_stack := nav_stack s; active_local_screen := active_local_screen s; nav_depth := nav_depth s; screen_anim := screen_anim s; edit_blink_active := edit_blink_active s; edit_blink_phase := edit_blink_phase s; edit_blink_counter := edit_blink_counter s; header_seen := header_seen s |}.
Definition set_element_count (v : Z) (s : protocol_state) : protocol_state :=
  {| active_screen := active_screen s; screen_count := screen_count s; element_count := v; element_capacity := element_capacity s; elements := elements s; pos_x := pos_x s; pos_y := pos_y s; scroll_x := scroll_x s; initialized := initialized s; status_dirty := status_dirty s; status_dirty_id := status_dirty_id s; trigger_count := trigger_count s; runtime := runtime s; overlay := overlay s; protocol_version := protocol_version s; capabilities := capabilities s; focused_element := focused_element s; input_source := input_source s; nav_stack := nav_stack s; active_local_screen := active_local_screen s; nav_depth := nav_depth s; screen_anim := screen_anim s; edit_blink_active := edit_blink_active s; edit_blink_phase := edit_blink_phase s; edit_blink_counter := edit_blink_counter s; header_seen := header_seen s |}.
Definition set_element_capacity (v : Z) (s : protocol_state) : protocol_state :=
  {| active_screen := active_screen s; screen_count := screen_count s; element_count := element_count s; element_capacity := v; elements := elements s; pos_x := pos_x s; pos_y := pos_y s; scroll_x := scroll_x s; initialized := initialized s; status_dirty := status_dirty s; status_dirty_id := status_dirty_id s; trigger_count := trigger_count s; runtime := runtime s; overlay := overlay s; protocol_version := protocol_version s; capabilities := capabilities s; focused_element := focused_element s; input_source := input_source s; nav_stack := nav_stack s; active_local_screen := active_local_screen s; nav_depth := nav_depth s; screen_anim := screen_anim s; edit_blink_active := edit_blink_active s; edit_blink_phase := edit_blink_phase s; edit_blink_counter := edit_blink_counter s; header_seen := header_seen s |}.
Definition set_elements (v : list element) (s : protocol_state) : protocol_state :=
  {| active_screen := active_screen s; screen_count := screen_count s; element_count := element_count s; element_capacity := element_capacity s; elements := v; pos_x := pos_x s; pos_y := pos_y s; scroll_x := scroll_x s; initialized := initialized s; status_dirty := status_dirty s; status_dirty_id := status_dirty_id s; trigger_count := trigger_count s; runtime := runtime s; overlay := overlay s; protocol_version := protocol_version s; capabilities := capabilities s; focused_element := focused_element s; input_source := input_source s; nav_stack := nav_stack s; active_local_screen := active_local_screen s; nav_depth := nav_depth s; screen_anim := screen_anim s; edit_blink_active := edit_blink_active s; edit_blink_phase := edit_blink_phase s; edit_blink_counter := edit_blink_counter s; header_seen := header_seen s |}.
Definition set_pos_x (v : list Z) (s : protocol_state) : protocol_state :=
  {| active_screen := active_screen s; screen_count := screen_count s; element_count := element_count s; element_capacity := element_capacity s; elements := elements s; pos_x := v; pos_y := pos_y s; scroll_x := scroll_x s; initialized := initialized s; status_dirty := status_dirty s; status_dirty_id := status_dirty_id s; trigger_count := trigger_count s; runtime := runtime s; overlay := overlay s; protocol_version := protocol_version s; capabilities := capabilities s; focused_element := focused_element s; input_source := input_source s; nav_stack := nav_stack s; active_local_screen := active_local_screen s; nav_depth := nav_depth s; screen_anim := screen_anim s; edit_blink_active := edit_blink_active s; edit_blink_phase := edit_blink_phase s; edit_blink_counter := edit_blink_counter s; header_seen := header_seen s |}.
Definition set_pos_y (v : list Z) (s : protocol_state) : protocol_state :=
  {| active_screen := active_screen s; screen_count := screen_count s; element_count := element_count s; element_capacity := element_capacity s; elements := elements s; pos_x := pos_x s; pos_y := v; scroll_x := scroll_x s; initialized := initialized s; status_dirty := status_dirty s; status_dirty_id := status_dirty_id s; trigger_count := trigger_count s; runtime := runtime s; overlay := overlay s; protocol_version := protocol_version s; capabilities := capabilities s; focused_element := focused_element s; input_source := input_source s; nav_stack := nav_stack s; active_local_screen := active_local_screen s; nav_depth := nav_depth s; screen_anim := screen_anim s; edit_blink_active := edit_blink_active s; edit_blink_phase := edit_blink_phase s; edit_blink_counter := edit_blink_counter s; header_seen := header_seen s |}.
Definition set_scroll_x (v : Z) (s : protocol_state) : protocol_state :=
  {| active_screen := active_screen s; screen_count := screen_count s; element_count := element_count s; element_capacity := element_capacity s; elements := elements s; pos_x := pos_x s; pos_y := pos_y s; scroll_x := v; initialized := initialized s; status_dirty := status_dirty s; status_dirty_id := status_dirty_id s; trigger_count := trigger_count s; runtime := runtime s; overlay := overlay s; protocol_version := protocol_version s; capabilities := capabilities s; focused_element := focused_element s; input_source := input_source s; nav_stack := nav_stack s; active_local_screen := active_local_screen s; nav_depth := nav_depth s; screen_anim := screen_anim s; edit_blink_active := edit_blink_active s; edit_blink_phase := edit_blink_phase s; edit_blink_counter := edit_blink_counter s; header_seen := header_seen s |}.
Definition set_initialized (v : Z) (s : protocol_state) : protocol_state :=
  {| active_screen := active_screen s; screen_count := screen_count s; element_count := element_count s; element_capacity := element_capacity s; elements := elements s; pos_x := pos_x s; pos_y := pos_y s; scroll_x := scroll_x s; initialized := v; status_dirty := status_dirty s; status_dirty_id := status_dirty_id s; trigger_count := trigger_count s; runtime := runtime s; overlay := overlay s; protocol_version := protocol_version s; capabilities := capabilities s; focused_element := focused_element s; input_source := input_source s; nav_stack := nav_stack s; active_local_screen := active_local_screen s; nav_depth := nav_depth s; screen_anim := screen_anim s; edit_blink_active := edit_blink_active s; edit_blink_phase := edit_blink_phase s; edit_blink_counter := edit_blink_counter s; header_seen := header_seen s |}.
Definition set_status_dirty (v : Z) (s : protocol_state) : protocol_state :=
  {| active_screen := active_screen s; screen_count := screen_count s; element_count := element_count s; element_capacity := element_capacity s; elements := elements s; pos_x := pos_x s; pos_y := pos_y s; scroll_x := scroll_x s; initialized := initialized s; status_dirty := v; status_dirty_id := status_dirty_id s; trigger_count := trigger_count s; runtime := runtime s; overlay := overlay s; protocol_version := protocol_version s; capabilities := capabilities s; focused_element := focused_element s; input_source := input_source s; nav_stack := nav_stack s; active_local_screen := active_local_screen s; nav_depth := nav_depth s; screen_anim := screen_anim s; edit_blink_active := edit_blink_active s; edit_blink_phase := edit_blink_phase s; edit_blink_counter := edit_blink_counter s; header_seen := header_seen s |}.
Definition set_status_dirty_id (v : Z) (s : protocol_state) : protocol_state :=
  {| active_screen := active_screen s; screen_count := screen_count s; element_count := element_count s; element_capacity := element_capacity s; elements := elements s; pos_x := pos_x s; pos_y := pos_y s; scroll_x := scroll_x s; initialized := initialized s; status_dirty := status_dirty s; status_dirty_id := v; trigger_count := trigger_count s; runtime := runtime s; overlay := overlay s; protocol_version := protocol_version s; capabilities := capabilities s; focused_element := focused_element s; input_source := input_source s; nav_stack := nav_stack s; active_local_screen := active_local_screen s; nav_depth := nav_depth s; screen_anim := screen_anim s; edit_blink_active := edit_blink_active s; edit_blink_phase := edit_blink_phase s; edit_blink_counter := edit_blink_counter s; header_seen := header_seen s |}.
Definition set_trigger_count (v : Z) (s : protocol_state) : protocol_state :=
  {| active_screen := active_screen s; screen_count := screen_count s; element_count := element_count s; element_capacity := element_capacity s; elements := elements s; pos_x := pos_x s; pos_y := pos_y s; scroll_x := scroll_x s; initialized := initialized s; status_dirty := status_dirty s; status_dirty_id := status_dirty_id s; trigger_count := v; runtime := runtime s; overlay := overlay s; protocol_version := protocol_version s; capabilities := capabilities s; focused_element := focused_element s; input_source := input_source s; nav_stack := nav_stack s; active_local_screen := active_local_screen s; nav_depth := nav_depth s; screen_anim := screen_anim s; edit_blink_active := edit_blink_active s; edit_blink_phase := edit_blink_phase s; edit_blink_counter := edit_blink_counter s; header_seen := header_seen s |}.
Definition set_runtime (v : ui_runtime) (s : protocol_state) : protocol_state :=
  {| active_screen := active_screen s; screen_count := screen_count s; element_count := element_count s; element_capacity := element_capacity s; elements := elements s; pos_x := pos_x s; pos_y := pos_y s; scroll_x := scroll_x s; initialized := initialized s; status_dirty := status_dirty s; status_dirty_id := status_dirty_id s; trigger_count := trigger_count s; runtime := v; overlay := overlay s; protocol_version := protocol_version s; capabilities := capabilities s; focused_element := focused_element s; input_source := input_source s; nav_stack := nav_stack s; active_local_screen := active_local_screen s; nav_depth := nav_depth s; screen_anim := screen_anim s; edit_blink_active := edit_blink_active s; edit_blink_phase := edit_blink_phase s; edit_blink_counter := edit_blink_counter s; header_seen := header_seen s |}.
Definition set_overlay (v : overlay_runtime) (s : protocol_state) : protocol_state :=
  {| active_screen := active_screen s; screen_count := screen_count s; element_count := element_count s; element_capacity := element_capacity s; elements := elements s; pos_x := pos_x s; pos_y := pos_y s; scroll_x := scroll_x s; initialized := initialized s; status_dirty := status_dirty s; status_dirty_id := status_dirty_id s; trigger_count := trigger_count s; runtime := runtime s; overlay := v; protocol_version := protocol_version s; capabilities := capabilities s; focused_element := focused_element s; input_source := input_source s; nav_stack := nav_stack s; active_local_screen := active_local_screen s; nav_depth := nav_depth s; screen_anim := screen_anim s; edit_blink_active := edit_blink_active s; edit_blink_phase := edit_blink_phase s; edit_blink_counter := edit_blink_counter s; header_seen := header_seen s |}.
Definition set_focused_element (v : Z) (s : protocol_state) : protocol_state :=
  {| active_screen := active_screen s; screen_count := screen_count s; element_count := element_count s; element_capacity := element_capacity s; elements := elements s; pos_x := pos_x s; pos_y := pos_y s; scroll_x := scroll_x s; initialized := initialized s; status_dirty := status_dirty s; status_dirty_id := status_dirty_id s; trigger_count := trigger_count s; runtime := runtime s; overlay := overlay s; protocol_version := protocol_version s; capabilities := capabilities s; focused_element := v; input_source := input_source s; nav_stack := nav_stack s; active_local_screen := active_local_screen s; nav_depth := nav_depth s; screen_anim := screen_anim s; edit_blink_active := edit_blink_active s; edit_blink_phase := edit_blink_phase s; edit_blink_counter := edit_blink_counter s; header_seen := header_seen s |}.
Definition set_nav_stack (v : list nav_stack_entry) (s : protocol_state) : protocol_state :=
  {| active_screen := active_screen s; screen_count := screen_count s; element_count := element_count s; element_capacity := element_capacity s; elements := elements s; pos_x := pos_x s; pos_y := pos_y s; scroll_x := scroll_x s; initialized := initialized s; status_dirty := status_dirty s; status_dirty_id := status_dirty_id s; trigger_count := trigger_count s; runtime := runtime s; overlay := overlay s; protocol_version := protocol_version s; capabilities := capabilities s; focused_element := focused_element s; input_source := input_source s; nav_stack := v; active_local_screen := active_local_screen s; nav_depth := nav_depth s; screen_anim := screen_anim s; edit_blink_active := edit_blink_active s; edit_blink_phase := edit_blink_phase s; edit_blink_counter := edit_blink_counter s; header_seen := header_seen s |}.
Definition set_active_local_screen (v : Z) (s : protocol_state) : protocol_state :=
  {| active_screen := active_screen s; screen_count := screen_count s; element_count := element_count s; element_capacity := element_capacity s; elements := elements s; pos_x := pos_x s; pos_y := pos_y s; scroll_x := scroll_x s; initialized := initialized s; status_dirty := status_dirty s; status_dirty_id := status_dirty_id s; trigger_count := trigger_count s; runtime := runtime s; overlay := overlay s; protocol_version := protocol_version s; capabilities := capabilities s; focused_element := focused_element s; input_source := input_source s; nav_stack := nav_stack s; active_local_screen := v; nav_depth := nav_depth s; screen_anim := screen_anim s; edit_blink_active := edit_blink_active s; edit_blink_phase := edit_blink_phase s; edit_blink_counter := edit_blink_counter s; header_seen := header_seen s |}.
Definition set_nav_depth (v : Z) (s : protocol_state) : protocol_state :=
  {| active_screen := active_screen s; screen_count := screen_count s; element_count := element_count s; element_capacity := element_capacity s; elements := elements s; pos_x := pos_x s; pos_y := pos_y s; scroll_x := scroll_x s; initialized := initialized s; status_dirty := status_dirty s; status_dirty_id := status_dirty_id s; trigger_count := trigger_count s; runtime := runtime s; overlay := overlay s; protocol_version := protocol_version s; capabilities := capabilities s; focused_element := focused_element s; input_source := input_source s; nav_stack := nav_stack s; active_local_screen := active_local_screen s; nav_depth := v; screen_anim := screen_anim s; edit_blink_active := edit_blink_active s; edit_blink_phase := edit_blink_phase s; edit_blink_counter := edit_blink_counter s; header_seen := header_seen s |}.
Definition set_screen_anim (v : screen_anim_state) (s : protocol_state) : protocol_state :=
  {| active_screen := active_screen s; screen_count := screen_count s; element_count := element_count s; element_capacity := element_capacity s; elements := elements s; pos_x := pos_x s; pos_y := pos_y s; scroll_x := scroll_x s; initialized := initialized s; status_dirty := status_dirty s; status_dirty_id := status_dirty_id s; trigger_count := trigger_count s; runtime := runtime s; overlay := overlay s; protocol_version := protocol_version s; capabilities := capabilities s; focused_element := focused_element s; input_source := input_source s; nav_stack := nav_stack s; active_local_screen := active_local_screen s; nav_depth := nav_depth s; screen_anim := v; edit_blink_active := edit_blink_active s; edit_blink_phase := edit_blink_phase s; edit_blink_counter := edit_blink_counter s; header_seen := header_seen s |}.
Definition set_header_seen (v : Z) (s : protocol_state) : protocol_state :=
  {| active_screen := active_screen s; screen_count := screen_count s; element_count := element_count s; element_capacity := element_capacity s; elements := elements s; pos_x := pos_x s; pos_y := pos_y s; scroll_x := scroll_x s; initialized := initialized s; status_dirty := status_dirty s; status_dirty_id := status_dirty_id s; trigger_count := trigger_count s; runtime := runtime s; overlay := overlay s; protocol_version := protocol_version s; capabilities := capabilities s; focused_element := focused_element s; input_source := input_source s; nav_stack := nav_stack s; active_local_screen := active_local_screen s; nav_depth := nav_depth s; screen_anim := screen_anim s; edit_blink_active := edit_blink_active s; edit_blink_phase := edit_blink_phase s; edit_blink_counter := edit_blink_counter s; header_seen := v |}.

(** ** Arena helpers (ui_runtime.c) *)

Definition ur_init : ui_runtime :=
  {| head_used := 0; used_tail := 0; attr_base := 0; attrs := [];
     triggers := []; lists := []; barrels := [] |}.

(** [ur__off]: offset of a pointer into the arena; 0 stands for null, so a
    node placed at the very base of the arena cannot be linked. *)
Definition ur__off (off : Z) : Z :=
  if (off <? 0) || (off >=? UI_ATTR_ARENA_CAP) then 0 else off.

(** [ur__alloc_tail]: the offset of the new block, or [None] for null. *)
Definition ur__alloc_tail (rt : ui_runtime) (size : Z) : option Z * ui_runtime :=
  if head_used rt + used_tail rt + size >? UI_ATTR_ARENA_CAP then (None, rt)
  else (Some (u16 (UI_ATTR_ARENA_CAP - used_tail rt - size)),
        set_used_tail (u16 (used_tail rt + size)) rt).

Fixpoint ur_list_find_in (l : list ur_list_state) (element_id : Z)
    : option ur_list_state :=
  match l with
  | [] => None
  | n :: rest =>
      if l_element_id n =? element_id then Some n
      else ur_list_find_in rest element_id
  end.

Definition ur_list_find (rt : ui_runtime) (element_id : Z) : option ur_list_state :=
  ur_list_find_in (lists rt) element_id.

Definition ur_list_node_init (element_id : Z) : ur_list_state :=
  {| l_element_id := element_id; cursor := 0; top_index := 0;
     visible_rows := 4; anim_active := 0; anim_dir := 0; anim_pix := 0;
     pending_top := 0; pending_cursor := 0;
     last_text_child := INVALID_ELEMENT_ID |}.

(** The result is the node the returned pointer designates ([None] for a
    null pointer) and the arena afterwards. *)
Definition ur_list_get_or_add (rt : ui_runtime) (element_id : Z)
    : option ur_list_state * ui_runtime :=
  match ur_list_find rt element_id with
  | Some s => (Some s, rt)
  | None =>
      match ur__alloc_tail rt SIZEOF_LIST_NODE with
      | (None, _) => (None, rt)
      | (Some off, rt1) =>
          let n := ur_list_node_init element_id in
          (Some n,
           set_lists (if ur__off off =? 0 then [] else n :: lists rt1) rt1)
      end
  end.

(** A store through the pointer that [ur_list_find] or [ur_list_get_or_add]
    gave for [element_id]: it reaches the first linked node of that id. *)
Fixpoint ur_list_modify_in (f : ur_list_state -> ur_list_state)
    (l : list ur_list_state) (element_id : Z) : list ur_list_state :=
  match l with
  | [] => []
  | n :: rest =>
      if l_element_id n =? element_id then f n :: rest
      else n :: ur_list_modify_in f rest element_id
  end.

Definition ur_list_modify (f : ur_list_state -> ur_list_state)
    (rt : ui_runtime) (element_id : Z) : ui_runtime :=
  set_lists (ur_list_modify_in f (lists rt) element_id) rt.

Fixpoint ur_trigger_find_in (l : list ur_trigger_state) (element_id : Z)
    : option ur_trigger_state :=
  match l with
  | [] => None
  | n :: rest =>
      if t_element_id n =? element_id then Some n
      else ur_trigger_find_in rest element_id
  end.

Definition ur_trigger_find (rt : ui_runtime) (element_id : Z)
    : option ur_trigger_state :=
  ur_trigger_find_in (triggers rt) element_id.

Definition ur_trigger_get_or_add (rt : ui_runtime) (element_id : Z)
    : option ur_trigger_state * ui_runtime :=
  match ur_trigger_find rt element_id with
  | Some s => (Some s, rt)
  | None =>
      match ur__alloc_tail rt SIZEOF_TRIGGER_NODE with
      | (None, _) => (None, rt)
      | (Some off, rt1) =>
          let n := {| t_element_id := element_id; version := 0 |} in
          (Some n,
           set_triggers (if ur__off off =? 0 then [] else n :: triggers rt1) rt1)
      end
  end.

Fixpoint ur_barrel_find_in (l : list ur_barrel_state) (element_id : Z)
    : option ur_barrel_state :=
  match l with
  | [] => None
  | n :: rest =>
      if b_element_id n =? element_id then Some n
      else ur_barrel_find_in rest element_id
  end.

Definition ur_barrel_find (rt : ui_runtime) (element_id : Z)
    : option ur_barrel_state :=
  ur_barrel_find_in (barrels rt) element_id.

Definition ur_barrel_get_or_add (rt : ui_runtime) (element_id : Z)
    : option ur_barrel_state * ui_runtime :=
  match ur_barrel_find rt element_id with
  | Some s => (Some s, rt)
  | None =>
      match ur__alloc_tail rt SIZEOF_BARREL_NODE with
      | (None, _) => (None, rt)
      | (Some off, rt1) =>
          let n := {| b_element_id := element_id; aux := 0; value := 0 |} in
          (Some n,
           set_barrels (if ur__off off =? 0 then [] else n :: barrels rt1) rt1)
      end
  end.

Fixpoint ur_barrel_modify_in (f : ur_barrel_state -> ur_barrel_state)
    (l : list ur_barrel_state) (element_id : Z) : list ur_barrel_state :=
  match l with
  | [] => []
  | n :: rest =>
      if b_element_id n =? element_id then f n :: rest
      else n :: ur_barrel_modify_in f rest element_id
  end.

Definition ur_barrel_modify (f : ur_barrel_state -> ur_barrel_state)
    (rt : ui_runtime) (element_id : Z) : ui_runtime :=
  set_barrels (ur_barrel_modify_in f (barrels rt) element_id) rt.

(** *** Attribute entries (head allocation) *)

Definition ui_attr_get_memory_usage (rt : ui_runtime) : Z := head_used rt.

Definition ui_attr_skip_entry (e : attr_entry) : Z :=
  if a_tag e =? UI_ATTR_TAG_TEXT then
    u16 (UI_ATTR_SIZE_TEXT_HDR + nth 0 (a_body e) 0)
  else if a_tag e =? UI_ATTR_TAG_SCREEN_ROLE then UI_ATTR_SIZE_SCREEN_ROLE
  else 0.

Fixpoint ui_attr_find_in (l : list attr_entry) (element_id tag : Z)
    : option attr_entry :=
  match l with
  | [] => None
  | e :: rest =>
      if (a_tag e =? tag) && (a_element_id e =? element_id) then Some e
      else if ui_attr_skip_entry e =? 0 then None
      else ui_attr_find_in rest element_id tag
  end.

Definition ui_attr_find (ps : protocol_state) (element_id tag : Z)
    : option attr_entry :=
  if element_id >=? element_capacity ps then None
  else ui_attr_find_in (attrs (runtime ps)) element_id tag.

(** A store through the pointer returned by [ui_attr_find]. *)
Fixpoint ui_attr_modify_in (f : attr_entry -> attr_entry)
    (l : list attr_entry) (element_id tag : Z) : list attr_entry :=
  match l with
  | [] => []
  | e :: rest =>
      if (a_tag e =? tag) && (a_element_id e =? element_id) then f e :: rest
      else if ui_attr_skip_entry e =? 0 then e :: rest
      else e :: ui_attr_modify_in f rest element_id tag
  end.

Definition ui_attr_modify (f : attr_entry -> attr_entry)
    (ps : protocol_state) (element_id tag : Z) : protocol_state :=
  set_runtime
    (set_attrs (ui_attr_modify_in f (attrs (runtime ps)) element_id tag)
       (runtime ps)) ps.

(** [payload = None] is the null payload: the entry keeps the bytes the
    arena holds there, which are zero since the last reset. *)
Definition ui_attr_append (ps : protocol_state) (element_id tag : Z)
    (payload : option (list Z)) (len_prefix payload_len : Z)
    : Z * protocol_state :=
  if negb (initialized ps =? 0) then (RES_BAD_STATE, ps)
  else if element_id >=? element_capacity ps then (RES_RANGE, ps)
  else
    let rt := runtime ps in
    let need := u16 (2 + payload_len + (if len_prefix =? 0 then 0 else 1)) in
    if head_used rt + need + used_tail rt >? UI_ATTR_ARENA_CAP
    then (RES_NO_SPACE, ps)
    else
      let bytes :=
        match payload with
        | Some p => take (Z.to_nat payload_len) p
        | None => repeat 0 (Z.to_nat payload_len)
        end in
      let e := {| a_tag := tag; a_element_id := element_id;
                  a_body := (if len_prefix =? 0 then [] else [u8 payload_len])
                            ++ bytes |} in
      (RES_OK,
       set_runtime
         (set_head_used (u16 (head_used rt + need))
            (set_attrs (attrs rt ++ [e]) rt)) ps).

(** Write [w] characters of [text] and a terminator into a text entry. *)
Definition text_entry_write (text : list Z) (w : Z) (e : attr_entry) : attr_entry :=
  {| a_tag := a_tag e; a_element_id := a_element_id e;
     a_body := take 1 (a_body e)
               ++ blit (take (Z.to_nat w) text ++ [0]) (drop 1 (a_body e)) |}.

Definition ui_attr_store_text_with_cap (ps : protocol_state)
    (element_id : Z) (text : list Z) (capacity : Z) : Z * protocol_state :=
  let tlen := u8 (len text) in
  match ui_attr_find ps element_id UI_ATTR_TAG_TEXT with
  | Some e =>
      let size := nth 0 (a_body e) 0 in
      if size =? 0 then (RES_NO_SPACE, ps)
      else
        let w := if tlen <? u8 (size - 1) then tlen else u8 (size - 1) in
        (RES_OK, ui_attr_modify (text_entry_write text w) ps element_id UI_ATTR_TAG_TEXT)
  | None =>
      let cap := if capacity =? 0 then tlen else capacity in
      let '(res, ps1) :=
        ui_attr_append ps element_id UI_ATTR_TAG_TEXT None 1 (u16 (cap + 1)) in
      if negb (res =? RES_OK) then (res, ps1)
      else
        match ui_attr_find ps1 element_id UI_ATTR_TAG_TEXT with
        | None => (RES_UNKNOWN_ID, ps1)
        | Some _ =>
            let w := if tlen <? cap then tlen else cap in
            (RES_OK,
             ui_attr_modify (text_entry_write text w) ps1 element_id UI_ATTR_TAG_TEXT)
        end
  end.

Definition ui_attr_store_text (ps : protocol_state) (element_id : Z)
    (text : list Z) : Z * protocol_state :=
  ui_attr_store_text_with_cap ps element_id text 0.

(** The stored string: the payload up to its terminator. *)
Fixpoint c_string (bytes : list Z) : list Z :=
  match bytes with
  | [] => []
  | b :: rest => if b =? 0 then [] else b :: c_string rest
  end.

Definition ui_attr_get_text (ps : protocol_state) (element_id : Z)
    : option (list Z) :=
  match ui_attr_find ps element_id UI_ATTR_TAG_TEXT with
  | None => None
  | Some e => Some (c_string (drop 1 (a_body e)))
  end.

Definition ui_attr_update_text (ps : protocol_state) (element_id : Z)
    (new_text : list Z) : Z * protocol_state :=
  match ui_attr_find ps element_id UI_ATTR_TAG_TEXT with
  | None => (RES_UNKNOWN_ID, ps)
  | Some e =>
      let size := nth 0 (a_body e) 0 in
      let nlen := u8 (len new_text) in
      if size =? 0 then (RES_NO_SPACE, ps)
      else
        let w := if nlen <? u8 (size - 1) then nlen else u8 (size - 1) in
        (RES_OK,
         ui_attr_modify (text_entry_write new_text w) ps element_id UI_ATTR_TAG_TEXT)
  end.

Definition ui_attr_store_position (ps : protocol_state)
    (element_id x y : Z) : Z * protocol_state :=
  match pos_x ps, pos_y ps with
  | [], _ | _, [] => (RES_BAD_STATE, ps)
  | _, _ =>
      if element_id >=? element_capacity ps then (RES_RANGE, ps)
      else
        (RES_OK,
         set_pos_y (<[Z.to_nat element_id := y]> (pos_y ps))
           (set_pos_x (<[Z.to_nat element_id := x]> (pos_x ps)) ps))
  end.

Definition ui_attr_store_screen_role (ps : protocol_state)
    (element_id role : Z) : Z * protocol_state :=
  match ui_attr_find ps element_id UI_ATTR_TAG_SCREEN_ROLE with
  | Some _ =>
      (RES_OK,
       ui_attr_modify
         (fun e => {| a_tag := a_tag e; a_element_id := a_element_id e;
                      a_body := <[0%nat := role]> (a_body e) |})
         ps element_id UI_ATTR_TAG_SCREEN_ROLE)
  | None =>
      ui_attr_append ps element_id UI_ATTR_TAG_SCREEN_ROLE (Some [role]) 0 1
  end.

(** Returns the result code and the role stored through [out_role]. *)
Definition ui_attr_get_screen_role (ps : protocol_state) (element_id : Z)
    : Z * Z :=
  match ui_attr_find ps element_id UI_ATTR_TAG_SCREEN_ROLE with
  | None => (RES_UNKNOWN_ID, OVERLAY_NONE)
  | Some e => (RES_OK, nth 0 (a_body e) 0)
  end.

(** ** Element table access and accessors of ui_protocol.c *)

Definition el (ps : protocol_state) (i : Z) : element :=
  nth (Z.to_nat i) (elements ps) {| parent_id := 255; type := 255 |}.

Definition protocol_element_capacity (ps : protocol_state) : Z :=
  element_capacity ps.

Definition protocol_screen_role (ps : protocol_state) (element_id : Z) : Z :=
  if element_id >=? element_count ps then OVERLAY_NONE
  else
    match elements ps with
    | [] => OVERLAY_NONE
    | _ =>
        if negb (type (el ps element_id) =? ELEMENT_SCREEN) then OVERLAY_NONE
        else
          let '(res, role) := ui_attr_get_screen_role ps element_id in
          if negb (res =? RES_OK) then OVERLAY_NONE else role
    end.

Definition protocol_numeric_value (ps : protocol_state) (element_id : Z) : Z :=
  match ur_barrel_find (runtime ps) element_id with
  | None => 0
  | Some st => value st
  end.

Definition protocol_numeric_aux (ps : protocol_state) (element_id : Z) : Z :=
  match ur_barrel_find (runtime ps) element_id with
  | None => 0
  | Some st => aux st
  end.

(** ** Numeric helpers (ui_numeric.c) *)

Definition clamp_i16 (v : Z) : Z :=
  if v <? -32768 then -32768 else if v >? 32767 then 32767 else v.

Definition numeric_store (ps : protocol_state) (id v a : Z) : protocol_state :=
  if id >=? element_count ps then ps
  else
    let v1 := clamp_i16 v in
    match ur_barrel_get_or_add (runtime ps) id with
    | (None, _) => ps
    | (Some _, rt1) =>
        set_runtime
          (ur_barrel_modify (fun st => set_aux a (set_value (i16 v1) st)) rt1 id)
          ps
    end.

Definition numeric_set_value (ps : protocol_state) (id v : Z) : protocol_state :=
  if id >=? element_count ps then ps
  else
    let v1 := clamp_i16 v in
    match ur_barrel_get_or_add (runtime ps) id with
    | (None, _) => ps
    | (Some _, rt1) =>
        set_runtime (ur_barrel_modify (set_value (i16 v1)) rt1 id) ps
    end.

(** ** Tree helpers (ui_tree.c) *)

Definition list_item_count (ps : protocol_state) (list_eid : Z) : Z :=
  fold_left
    (fun cnt i =>
       if (parent_id (el ps i) =? list_eid) && (type (el ps i) =? ELEMENT_TEXT)
       then u8 (cnt + 1) else cnt)
    (ids (element_count ps)) 0.

Fixpoint first_id (p : Z -> bool) (l : list Z) : Z :=
  match l with
  | [] => INVALID_ELEMENT_ID
  | i :: rest => if p i then i else first_id p rest
  end.

Definition text_inline_barrel_id (ps : protocol_state) (text_eid : Z) : Z :=
  first_id
    (fun eid => (parent_id (el ps eid) =? text_eid)
                && (type (el ps eid) =? ELEMENT_BARREL))
    (ids (element_count ps)).

(** The parent walks are bounded by [element_count] rounds. *)
Fixpoint element_parent_list_walk (ps : protocol_state) (rounds : nat)
    (current : Z) : Z :=
  match rounds with
  | O => INVALID_ELEMENT_ID
  | S r =>
      if current =? INVALID_ELEMENT_ID then INVALID_ELEMENT_ID
      else if current >=? element_count ps then INVALID_ELEMENT_ID
      else if type (el ps current) =? ELEMENT_LIST_VIEW then current
      else element_parent_list_walk ps r (parent_id (el ps current))
  end.

Definition element_parent_list (ps : protocol_state) (eid : Z) : Z :=
  if eid >=? element_count ps then INVALID_ELEMENT_ID
  else element_parent_list_walk ps (Z.to_nat (element_count ps))
         (parent_id (el ps eid)).

Fixpoint find_screen_id_by_ordinal_loop (ps : protocol_state) (sord : Z)
    (l : list Z) (seen : Z) : Z :=
  match l with
  | [] => INVALID_ELEMENT_ID
  | i :: rest =>
      if (type (el ps i) =? ELEMENT_SCREEN)
         && (protocol_screen_role ps i =? OVERLAY_NONE)
         && (parent_id (el ps i) =? INVALID_ELEMENT_ID)
      then
        if seen =? sord then i
        else find_screen_id_by_ordinal_loop ps sord rest (u8 (seen + 1))
      else find_screen_id_by_ordinal_loop ps sord rest seen
  end.

Definition find_screen_id_by_ordinal (ps : protocol_state) (sord : Z) : Z :=
  find_screen_id_by_ordinal_loop ps sord (ids (element_count ps)) 0.

Fixpoint find_screen_ordinal_by_id_loop (ps : protocol_state) (screen_id : Z)
    (l : list Z) (ord : Z) : Z :=
  match l with
  | [] => INVALID_ELEMENT_ID
  | i :: rest =>
      if negb (type (el ps i) =? ELEMENT_SCREEN) then
        find_screen_ordinal_by_id_loop ps screen_id rest ord
      else if negb (protocol_screen_role ps i =? OVERLAY_NONE) then
        find_screen_ordinal_by_id_loop ps screen_id rest ord
      else if i =? screen_id then ord
      else find_screen_ordinal_by_id_loop ps screen_id rest (u8 (ord + 1))
  end.

Definition find_screen_ordinal_by_id (ps : protocol_state) (screen_id : Z) : Z :=
  if screen_id >=? element_count ps then INVALID_ELEMENT_ID
  else if negb (type (el ps screen_id) =? ELEMENT_SCREEN) then INVALID_ELEMENT_ID
  else if negb (parent_id (el ps screen_id) =? INVALID_ELEMENT_ID)
  then INVALID_ELEMENT_ID
  else find_screen_ordinal_by_id_loop ps screen_id (ids (element_count ps)) 0.

Fixpoint element_root_screen_walk (ps : protocol_state) (rounds : nat)
    (current : Z) : Z :=
  match rounds with
  | O => INVALID_ELEMENT_ID
  | S r =>
      if current =? INVALID_ELEMENT_ID then INVALID_ELEMENT_ID
      else if current >=? element_count ps then INVALID_ELEMENT_ID
      else if type (el ps current) =? ELEMENT_SCREEN then current
      else element_root_screen_walk ps r (parent_id (el ps current))
  end.

Definition element_root_screen (ps : protocol_state) (eid : Z) : Z :=
  if eid >=? element_count ps then INVALID_ELEMENT_ID
  else element_root_screen_walk ps (Z.to_nat (element_count ps)) eid.

Fixpoint is_descendant_of_walk (ps : protocol_state) (rounds : nat)
    (current ancestor : Z) : Z :=
  match rounds with
  | O => 0
  | S r =>
      if current =? INVALID_ELEMENT_ID then 0
      else if current >=? element_count ps then 0
      else if current =? ancestor then 1
      else is_descendant_of_walk ps r (parent_id (el ps current)) ancestor
  end.

Definition is_descendant_of (ps : protocol_state) (eid ancestor : Z) : Z :=
  if ancestor =? INVALID_ELEMENT_ID then 0
  else is_descendant_of_walk ps (Z.to_nat (element_count ps)) eid ancestor.

(** ** Focus and navigation (ui_focus.c) *)

Definition default_entry : nav_stack_entry :=
  {| ctx_type := NAV_CTX_LIST; target_element := INVALID_ELEMENT_ID;
     return_list := INVALID_ELEMENT_ID; saved_cursor := 0; saved_top := 0;
     saved_focus := INVALID_ELEMENT_ID; saved_active_screen := 0 |}.

Definition nav_entry (ps : protocol_state) (i : Z) : nav_stack_entry :=
  nth (Z.to_nat i) (nav_stack ps) default_entry.

Definition nav_active_context (ps : protocol_state) : Z :=
  if nav_depth ps =? 0 then find_screen_id_by_ordinal ps (active_screen ps)
  else
    let top := u8 (nav_depth ps - 1) in
    if top >=? NAV_STACK_MAX_DEPTH then INVALID_ELEMENT_ID
    else target_element (nav_entry ps top).

Definition nav_update_active_local_screen (ps : protocol_state) : protocol_state :=
  let ps1 := set_active_local_screen INVALID_ELEMENT_ID ps in
  if nav_depth ps1 =? 0 then ps1
  else
    let top := u8 (nav_depth ps1 - 1) in
    if top >=? NAV_STACK_MAX_DEPTH then ps1
    else if ctx_type (nav_entry ps1 top) =? NAV_CTX_LOCAL_SCREEN then
      set_active_local_screen (target_element (nav_entry ps1 top)) ps1
    else ps1.

Definition nav_target_active (ps : protocol_state) (target_id : Z) : Z :=
  if target_id =? INVALID_ELEMENT_ID then 0
  else
    let depth :=
      if nav_depth ps >? NAV_STACK_MAX_DEPTH then NAV_STACK_MAX_DEPTH
      else nav_depth ps in
    if existsb (fun i => target_element (nav_entry ps i) =? target_id) (ids depth)
    then 1 else 0.

Definition screen_is_local (ps : protocol_state) (screen_id : Z) : Z :=
  if screen_id >=? element_count ps then 0
  else if negb (type (el ps screen_id) =? ELEMENT_SCREEN) then 0
  else
    let parent := parent_id (el ps screen_id) in
    if (parent =? INVALID_ELEMENT_ID) || (parent >=? element_count ps) then 0
    else if type (el ps parent) =? ELEMENT_TEXT then 1 else 0.

(** Last loop of [protocol_is_element_visible]: every nested list on the
    way up must be a navigation target. *)
Fixpoint nested_lists_entered (ps : protocol_state) (rounds : nat)
    (current : Z) : Z :=
  match rounds with
  | O => 1
  | S r =>
      if current =? INVALID_ELEMENT_ID then 1
      else if current >=? element_count ps then 1
      else
        let current_el := el ps current in
        let owner_text := parent_id current_el in
        let list_parent := parent_id (el ps owner_text) in
        if (type current_el =? ELEMENT_LIST_VIEW)
           && negb (owner_text =? INVALID_ELEMENT_ID)
           && (owner_text <? element_count ps)
           && (type (el ps owner_text) =? ELEMENT_TEXT)
           && negb (list_parent =? INVALID_ELEMENT_ID)
           && (list_parent <? element_count ps)
           && (type (el ps list_parent) =? ELEMENT_LIST_VIEW)
           && (nav_target_active ps current =? 0)
        then 0
        else nested_lists_entered ps r (parent_id current_el)
  end.

Definition protocol_is_element_visible (ps : protocol_state) (eid : Z) : Z :=
  if eid >=? element_count ps then 0
  else
    let context := nav_active_context ps in
    let extra_screen :=
      if (nav_depth ps =? 0) && negb (sa_active (screen_anim ps) =? 0) then
        let extra := find_screen_id_by_ordinal ps (from_screen (screen_anim ps)) in
        if extra =? context then INVALID_ELEMENT_ID else extra
      else INVALID_ELEMENT_ID in
    if (context =? INVALID_ELEMENT_ID) && (extra_screen =? INVALID_ELEMENT_ID)
    then 0
    else
      let top := u8 (nav_depth ps - 1) in
      if negb (nav_depth ps =? 0) && (top >=? NAV_STACK_MAX_DEPTH) then 0
      else
        let visible :=
          if nav_depth ps =? 0 then
            let v1 :=
              if negb (context =? INVALID_ELEMENT_ID)
              then is_descendant_of ps eid context else 0 in
            if (v1 =? 0) && negb (extra_screen =? INVALID_ELEMENT_ID)
            then is_descendant_of ps eid extra_screen else v1
          else
            if eid =? target_element (nav_entry ps top) then 1
            else is_descendant_of ps eid (target_element (nav_entry ps top)) in
        if visible =? 0 then 0
        else
          let root_screen := element_root_screen ps eid in
          if root_screen =? INVALID_ELEMENT_ID then 0
          else if negb (screen_is_local ps root_screen =? 0)
                  && (nav_target_active ps root_screen =? 0) then 0
          else nested_lists_entered ps (Z.to_nat (element_count ps)) eid.

Definition element_focusable (ps : protocol_state) (eid : Z) : Z :=
  if eid >=? element_count ps then 0
  else
    let t := type (el ps eid) in
    if (t =? ELEMENT_LIST_VIEW) || (t =? ELEMENT_NUMBER_EDIT)
       || (t =? ELEMENT_TRIGGER) || (t =? ELEMENT_BARREL)
    then 1 else 0.

Definition protocol_set_focus (ps : protocol_state) (element_id : Z)
    : protocol_state :=
  if element_id >=? element_count ps then ps
  else if protocol_is_element_visible ps element_id =? 0 then ps
  else if element_focusable ps element_id =? 0 then ps
  else set_focused_element element_id ps.

Definition protocol_get_focused (ps : protocol_state) : Z := focused_element ps.

Definition protocol_clear_focus (ps : protocol_state) : protocol_state :=
  set_focused_element INVALID_ELEMENT_ID ps.

Fixpoint protocol_focus_first_under_loop (ps : protocol_state) (owner_id : Z)
    (l : list Z) : protocol_state :=
  match l with
  | [] => protocol_clear_focus ps
  | i :: rest =>
      if protocol_is_element_visible ps i =? 0 then
        protocol_focus_first_under_loop ps owner_id rest
      else if negb (i =? owner_id) && (is_descendant_of ps i owner_id =? 0) then
        protocol_focus_first_under_loop ps owner_id rest
      else if negb (element_focusable ps i =? 0) then protocol_set_focus ps i
      else protocol_focus_first_under_loop ps owner_id rest
  end.

Definition protocol_focus_first_under (ps : protocol_state) (owner_id : Z)
    : protocol_state :=
  protocol_focus_first_under_loop ps owner_id (ids (element_count ps)).

Fixpoint protocol_focus_first_on_screen_loop (ps : protocol_state)
    (screen_eid : Z) (l : list Z) : protocol_state :=
  match l with
  | [] => protocol_clear_focus ps
  | i :: rest =>
      if protocol_is_element_visible ps i =? 0 then
        protocol_focus_first_on_screen_loop ps screen_eid rest
      else if is_descendant_of ps i screen_eid =? 0 then
        protocol_focus_first_on_screen_loop ps screen_eid rest
      else if element_focusable ps i =? 0 then
        protocol_focus_first_on_screen_loop ps screen_eid rest
      else protocol_set_focus ps i
  end.

Definition protocol_focus_first_on_screen (ps : protocol_state) (sord : Z)
    : protocol_state :=
  if negb (nav_depth ps =? 0) then ps
  else
    let screen_eid := find_screen_id_by_ordinal ps sord in
    if screen_eid =? INVALID_ELEMENT_ID then protocol_clear_focus ps
    else protocol_focus_first_on_screen_loop ps screen_eid
           (ids (element_count ps)).

Definition protocol_register_local_screen (ps : protocol_state)
    (screen_id owner_text : Z) : protocol_state :=
  if screen_id >=? element_count ps then ps
  else
    let owner := if owner_text >=? element_count ps
                 then INVALID_ELEMENT_ID else owner_text in
    if negb (owner =? INVALID_ELEMENT_ID) then
      set_elements
        (<[Z.to_nat screen_id :=
             {| parent_id := owner; type := type (el ps screen_id) |}]>
           (elements ps)) ps
    else ps.

Definition protocol_text_local_screen (ps : protocol_state) (text_id : Z) : Z :=
  if text_id >=? element_count ps then INVALID_ELEMENT_ID
  else
    first_id
      (fun eid => (parent_id (el ps eid) =? text_id)
                  && (type (el ps eid) =? ELEMENT_SCREEN))
      (ids (element_count ps)).

Definition list_enter (st : ur_list_state) : ur_list_state :=
  set_anim_dir 0 (set_anim_pix 0 (set_anim_active 0
    (set_top_index 0 (set_cursor 0 st)))).

Definition nav_push_list (ps : protocol_state) (parent_list target_list : Z)
    : Z * protocol_state :=
  if nav_depth ps >=? NAV_STACK_MAX_DEPTH then (0, ps)
  else
    let '(parent_state, rt1) := ur_list_get_or_add (runtime ps) parent_list in
    let '(child_state, rt2) := ur_list_get_or_add rt1 target_list in
    match parent_state, child_state with
    | Some pst, Some _ =>
        let entry :=
          {| ctx_type := NAV_CTX_LIST; target_element := target_list;
             return_list := parent_list; saved_cursor := cursor pst;
             saved_top := top_index pst; saved_focus := focused_element ps;
             saved_active_screen := active_screen ps |} in
        let ps1 :=
          set_nav_stack (<[Z.to_nat (nav_depth ps) := entry]> (nav_stack ps))
            (set_runtime (ur_list_modify list_enter rt2 target_list) ps) in
        let ps2 := set_nav_depth (u8 (nav_depth ps1 + 1)) ps1 in
        (1, protocol_set_focus (nav_update_active_local_screen ps2) target_list)
    | _, _ => (0, set_runtime rt2 ps)
    end.

Definition nav_push_local_screen (ps : protocol_state)
    (parent_list screen_id : Z) : Z * protocol_state :=
  if nav_depth ps >=? NAV_STACK_MAX_DEPTH then (0, ps)
  else
    match ur_list_get_or_add (runtime ps) parent_list with
    | (None, rt1) => (0, set_runtime rt1 ps)
    | (Some pst, rt1) =>
        let entry :=
          {| ctx_type := NAV_CTX_LOCAL_SCREEN; target_element := screen_id;
             return_list := parent_list; saved_cursor := cursor pst;
             saved_top := top_index pst; saved_focus := focused_element ps;
             saved_active_screen := active_screen ps |} in
        let ps1 :=
          set_nav_stack (<[Z.to_nat (nav_depth ps) := entry]> (nav_stack ps))
            (set_runtime rt1 ps) in
        let new_ord := find_screen_ordinal_by_id ps1 screen_id in
        let ps2 :=
          if negb (new_ord =? INVALID_ELEMENT_ID) then
            set_scroll_x (i16 (i16 new_ord * 128)) (set_active_screen new_ord ps1)
          else ps1 in
        let ps3 := set_nav_depth (u8 (nav_depth ps2 + 1)) ps2 in
        let ps4 := protocol_focus_first_under
                     (nav_update_active_local_screen ps3) screen_id in
        (1, if focused_element ps4 =? INVALID_ELEMENT_ID
            then protocol_set_focus ps4 parent_list else ps4)
    end.

Definition list_leave (entry : nav_stack_entry) (st : ur_list_state)
    : ur_list_state :=
  set_anim_dir 0 (set_anim_pix 0 (set_anim_active 0
    (set_top_index (saved_top entry) (set_cursor (saved_cursor entry) st)))).

Definition nav_pop (ps : protocol_state) : Z * protocol_state :=
  if nav_depth ps =? 0 then (0, ps)
  else
    let top_index := u8 (nav_depth ps - 1) in
    if top_index >=? NAV_STACK_MAX_DEPTH then (0, ps)
    else
      let entry := nav_entry ps top_index in
      let ps1 := nav_update_active_local_screen (set_nav_depth top_index ps) in
      let ps2 :=
        if negb (return_list entry =? INVALID_ELEMENT_ID) then
          match ur_list_get_or_add (runtime ps1) (return_list entry) with
          | (None, rt1) => set_runtime rt1 ps1
          | (Some _, rt1) =>
              set_runtime
                (ur_list_modify (list_leave entry) rt1 (return_list entry)) ps1
          end
        else ps1 in
      let ps3 :=
        if ctx_type entry =? NAV_CTX_LOCAL_SCREEN then
          set_scroll_x (i16 (i16 (saved_active_screen entry) * 128))
            (set_active_screen (saved_active_screen entry) ps2)
        else ps2 in
      (1, if negb (return_list entry =? INVALID_ELEMENT_ID)
          then protocol_set_focus ps3 (return_list entry)
          else protocol_clear_focus ps3).

(** ** Protocol state lifecycle (ui_protocol.c) *)

Definition protocol_reset_state : protocol_state :=
  {| active_screen := 0; screen_count := 0; element_count := 0;
     element_capacity := 0; elements := []; pos_x := []; pos_y := [];
     scroll_x := 0; initialized := 0; status_dirty := 0;
     status_dirty_id := INVALID_ELEMENT_ID; trigger_count := 0;
     runtime := ur_init;
     overlay := {| active_overlay_screen_id := INVALID_ELEMENT_ID;
                   remaining_ms := 0; mask_input := 0;
                   prev_focus := INVALID_ELEMENT_ID |};
     protocol_version := 1; capabilities := 0;
     focused_element := INVALID_ELEMENT_ID; input_source := INPUT_SRC_NONE;
     nav_stack := repeat default_entry (Z.to_nat NAV_STACK_MAX_DEPTH);
     active_local_screen := INVALID_ELEMENT_ID; nav_depth := 0;
     screen_anim := {| sa_active := 0; from_screen := 0; to_screen := 0;
                       offset_px := 0; dir := 0 |};
     edit_blink_active := 0; edit_blink_phase := 0; edit_blink_counter := 0;
     header_seen := 0 |}.

Definition protocol_init : protocol_state := protocol_reset_state.

Definition protocol_element_changed (ps : protocol_state) (eid : Z)
    : protocol_state :=
  if eid >=? element_count ps then ps
  else set_status_dirty_id eid (set_status_dirty 1 ps).

Definition protocol_map_result_to_rc (r : Z) : Z :=
  if r =? RES_OK then RC_OK
  else if r =? PROTOCOL_RESP_SENT then RC_OK
  else if r =? RES_BAD_LEN then RC_BAD_LEN
  else if r =? RES_BAD_STATE then RC_BAD_STATE
  else if r =? RES_UNKNOWN_ID then RC_UNKNOWN_ID
  else if r =? RES_RANGE then RC_RANGE
  else if r =? RES_INTERNAL then RC_INTERNAL
  else if r =? RES_NO_SPACE then RC_NO_SPACE
  else if r =? RES_PARSE_FAIL then RC_PARSE_FAIL
  else RC_INTERNAL.

Definition protocol_reserve_element_storage (ps : protocol_state)
    (capacity : Z) : Z * protocol_state :=
  if capacity =? 0 then (RES_RANGE, ps)
  else if negb (element_capacity ps =? 0) then (RES_BAD_STATE, ps)
  else
    let need := u16 (capacity * (SIZEOF_ELEMENT + 2)) in
    if need >? UI_ATTR_ARENA_CAP then (RES_NO_SPACE, ps)
    else
      let off := u16 (u16 (u16 (capacity * SIZEOF_ELEMENT) + capacity) + capacity) in
      let n := Z.to_nat capacity in
      (RES_OK,
       set_pos_y (repeat 0 n)
         (set_pos_x (repeat 0 n)
            (set_elements (repeat {| parent_id := 255; type := 255 |} n)
               (set_runtime
                  (set_head_used off (set_attr_base off (runtime ps)))
                  (set_element_capacity capacity ps))))).

Definition add_basic_element (ps : protocol_state) (parent type x y : Z)
    : Z * protocol_state :=
  if element_capacity ps =? 0 then (255, ps)
  else if element_count ps >=? element_capacity ps then (255, ps)
  else
    match elements ps, pos_x ps, pos_y ps with
    | [], _, _ | _, [], _ | _, _, [] => (255, ps)
    | _, _, _ =>
        let id := element_count ps in
        let ps1 := set_element_count (u8 (id + 1)) ps in
        let ps2 :=
          set_elements
            (<[Z.to_nat id := {| parent_id := parent; type := type |}]>
               (elements ps1)) ps1 in
        (id, snd (ui_attr_store_position ps2 id (u8 x) (u8 y)))
    end.

(** ** Descriptor parser (ui_protocol.c)

    An object span [os, oe) is the list of its characters: [oe] points at
    the closing brace, which the extractors never read. *)

Definition is_space_char (c : Z) : bool :=
  (c =? 32) || (c =? 9) || (c =? 10) || (c =? 13) || (c =? 12) || (c =? 11).

Definition is_digit_char (c : Z) : bool := (48 <=? c) && (c <=? 57).

Definition err : Z := RES_PARSE_FAIL.

Fixpoint skip_spaces (q : list Z) : list Z :=
  match q with
  | c :: r => if is_space_char c then skip_spaces r else q
  | [] => []
  end.

Fixpoint starts_with (key q : list Z) : bool :=
  match key, q with
  | [], _ => true
  | k :: key', c :: q' => (c =? k) && starts_with key' q'
  | _ :: _, [] => false
  end.

(** Digit loop of [extract_int_key]; [int] arithmetic wraps at 32 bits. *)
Fixpoint parse_digits (q : list Z) (val : Z) (any : bool) : Z * bool :=
  match q with
  | c :: r =>
      if is_digit_char c then parse_digits r (i32 (val * 10 + (c - 48))) true
      else (val, any)
  | [] => (val, any)
  end.

(** Outcome of one candidate position: keep scanning, fail, or a value. *)
Inductive scan (A : Type) : Type :=
  | ScanNext : scan A
  | ScanFail : scan A
  | ScanOk : A -> scan A.
Arguments ScanNext {A}.
Arguments ScanFail {A}.
Arguments ScanOk {A} _.

Definition int_value_at (q0 : list Z) : scan Z :=
  match skip_spaces q0 with
  | [] => ScanNext
  | c :: q2 =>
      if negb (c =? 58) then ScanNext
      else
        match skip_spaces q2 with
        | [] => ScanFail
        | c3 :: r3 =>
            let q4 := if c3 =? 34 then r3 else c3 :: r3 in
            let '(sign, q5) :=
              match q4 with
              | c4 :: r4 => if c4 =? 45 then (-1, r4) else (1, q4)
              | [] => (1, q4)
              end in
            let '(val, any) := parse_digits q5 0 false in
            if any then ScanOk (i32 (sign * val)) else ScanFail
        end
  end.

Fixpoint extract_int_scan (key p : list Z) : option Z :=
  match p with
  | [] => None
  | c :: rest =>
      if len p <? len key + 3 then None
      else if negb (c =? 34) then extract_int_scan key rest
      else if starts_with key rest && (nth (length key) rest 0 =? 34) then
        match int_value_at (drop (length key + 1) rest) with
        | ScanNext => extract_int_scan key rest
        | ScanFail => None
        | ScanOk v => Some v
        end
      else extract_int_scan key rest
  end.

(** [None] is [RES_PARSE_FAIL] with [*out] untouched; [Some v] is 0 with
    [*out = v]. *)
Definition extract_int_key (obj key : list Z) : option Z :=
  match key with
  | [] => None
  | _ => extract_int_scan key obj
  end.

(** Copy loop of [extract_string_key]: up to the closing quote or until
    [outsz - 1] characters are stored.  Returns the rest and the copy. *)
Fixpoint copy_string (q : list Z) (room : nat) (acc : list Z)
    : list Z * list Z :=
  match q, room with
  | c :: r, S room' =>
      if c =? 34 then (q, acc) else copy_string r room' (acc ++ [c])
  | _, _ => (q, acc)
  end.

Definition string_value_at (q0 : list Z) (outsz : Z) : scan (list Z) * list Z :=
  match skip_spaces q0 with
  | [] => (ScanNext, [])
  | c :: q2 =>
      if negb (c =? 58) then (ScanNext, [])
      else
        match skip_spaces q2 with
        | [] => (ScanFail, [])
        | c3 :: r3 =>
            if negb (c3 =? 34) then (ScanFail, [])
            else
              let '(q4, copied) := copy_string r3 (Z.to_nat (outsz - 1)) [] in
              match q4 with
              | [] => (ScanFail, copied)
              | _ :: _ => (ScanOk copied, copied)
              end
        end
  end.

Fixpoint extract_string_scan (key p : list Z) (outsz : Z)
    : option (list Z) * list Z :=
  match p with
  | [] => (None, [])
  | c :: rest =>
      if len p <? len key + 3 then (None, [])
      else if negb (c =? 34) then extract_string_scan key rest outsz
      else if starts_with key rest && (nth (length key) rest 0 =? 34) then
        match string_value_at (drop (length key + 1) rest) outsz with
        | (ScanNext, _) => extract_string_scan key rest outsz
        | (ScanFail, w) => (None, w)
        | (ScanOk v, w) => (Some v, w)
        end
      else extract_string_scan key rest outsz
  end.

(** First component: [Some v] for return 0 with the terminated string [v]
    in [out], [None] for [RES_PARSE_FAIL].  Second component: the
    characters stored in [out] in either case (a failure after the opening
    quote leaves them there without a terminator). *)
Definition extract_string_key (obj key : list Z) (outsz : Z)
    : option (list Z) * list Z :=
  match key with
  | [] => (None, [])
  | _ => if outsz =? 0 then (None, []) else extract_string_scan key obj outsz
  end.

Definition map_type_key (s : list Z) : Z :=
  match s with
  | [] => 255
  | [c] =>
      if c =? 115 then ELEMENT_SCREEN
      else if c =? 116 then ELEMENT_TEXT
      else if c =? 108 then ELEMENT_LIST_VIEW
      else if c =? 98 then ELEMENT_BARREL
      else if c =? 105 then ELEMENT_TRIGGER
      else 255
  | [c0; c1] =>
      if (c0 =? 116) && (c1 =? 101) then ELEMENT_TEXT
      else if (c0 =? 108) && (c1 =? 105) then ELEMENT_LIST_VIEW
      else if (c0 =? 98) && (c1 =? 97) then ELEMENT_BARREL
      else if (c0 =? 116) && (c1 =? 114) then ELEMENT_TRIGGER
      else 255
  | _ => 255
  end.

(** Key names as character codes. *)
Definition key_t : list Z := [116].
Definition key_n : list Z := [110].
Definition key_p : list Z := [112].
Definition key_e : list Z := [101].
Definition key_x : list Z := [120].
Definition key_y : list Z := [121].
Definition key_v : list Z := [118].
Definition key_c : list Z := [99].
Definition key_r : list Z := [114].
Definition key_ov : list Z := [111; 118].
Definition key_tx : list Z := [116; 120].

Definition int_key_or (obj key : list Z) (dflt : Z) : Z :=
  match extract_int_key obj key with
  | Some v => v
  | None => dflt
  end.

Record element_create_ctx_t : Type := mk_create_ctx {
  c_parent_id : Z;
  c_x : Z;
  c_y : Z;
  c_type_code : Z;
  c_obj : list Z
}.

Definition list_set_last_text_child (ps : protocol_state) (list_id id : Z)
    : protocol_state :=
  match ur_list_get_or_add (runtime ps) list_id with
  | (None, rt1) => set_runtime rt1 ps
  | (Some _, rt1) =>
      set_runtime (ur_list_modify (set_last_text_child id) rt1 list_id) ps
  end.

Definition handle_create_screen (ps : protocol_state)
    (ctx : element_create_ctx_t) : Z * protocol_state :=
  let '(sid, ps1) :=
    add_basic_element ps (c_parent_id ctx) ELEMENT_SCREEN (c_x ctx) (c_y ctx) in
  if sid =? 255 then (err, ps1)
  else
    let ps2 :=
      if c_parent_id ctx =? INVALID_ELEMENT_ID then
        let ov :=
          match extract_int_key (c_obj ctx) key_ov with
          | Some v => if v <? 0 then 0 else if v >? 1 then 1 else v
          | None => 0
          end in
        let ps_role :=
          if negb (ov =? 0) then snd (ui_attr_store_screen_role ps1 sid (u8 ov))
          else ps1 in
        if ov =? 0 then
          let ps_cnt := set_screen_count (u8 (screen_count ps_role + 1)) ps_role in
          if screen_count ps_cnt =? 1 then set_active_screen 0 ps_cnt else ps_cnt
        else ps_role
      else ps1 in
    let '(owner_text, ps3) :=
      if negb (c_parent_id ctx =? INVALID_ELEMENT_ID) then
        let parent_type := type (el ps2 (c_parent_id ctx)) in
        if parent_type =? ELEMENT_TEXT then (c_parent_id ctx, ps2)
        else if parent_type =? ELEMENT_LIST_VIEW then
          match ur_list_get_or_add (runtime ps2) (c_parent_id ctx) with
          | (None, rt1) => (INVALID_ELEMENT_ID, set_runtime rt1 ps2)
          | (Some ls, rt1) => (last_text_child ls, set_runtime rt1 ps2)
          end
        else (INVALID_ELEMENT_ID, ps2)
      else (INVALID_ELEMENT_ID, ps2) in
    (0, protocol_register_local_screen ps3 sid owner_text).

Definition handle_create_list (ps : protocol_state)
    (ctx : element_create_ctx_t) : Z * protocol_state :=
  let '(lid, ps1) :=
    add_basic_element ps (c_parent_id ctx) ELEMENT_LIST_VIEW (c_x ctx) (c_y ctx) in
  if lid =? 255 then (err, ps1)
  else
    match ur_list_get_or_add (runtime ps1) lid with
    | (None, rt1) => (0, set_runtime rt1 ps1)
    | (Some _, rt1) =>
        let rows :=
          match extract_int_key (c_obj ctx) key_r with
          | Some r => u8 (if r <? 1 then 1 else if r >? 6 then 6 else r)
          | None => 4
          end in
        (0,
         set_runtime
           (ur_list_modify
              (fun st => set_visible_rows rows
                 (set_last_text_child INVALID_ELEMENT_ID st)) rt1 lid) ps1)
    end.

Definition text_key_values (obj : list Z) : list Z * Z :=
  let tb :=
    match extract_string_key obj key_tx 21 with
    | (Some v, _) => c_string v
    | (None, _) => []
    end in
  let cap0 := int_key_or obj key_c 0 in
  let cap := if cap0 <? 0 then 0 else if cap0 >? 20 then 20 else cap0 in
  (tb, cap).

Definition handle_create_text (ps : protocol_state)
    (ctx : element_create_ctx_t) : Z * protocol_state :=
  let is_list_item :=
    negb (c_parent_id ctx =? INVALID_ELEMENT_ID)
    && (type (el ps (c_parent_id ctx)) =? ELEMENT_LIST_VIEW) in
  if is_list_item then
    let target_list := c_parent_id ctx in
    let row_y := u8 (list_item_count ps target_list * 8) in
    let '(id, ps1) :=
      add_basic_element ps (c_parent_id ctx) ELEMENT_TEXT (c_x ctx) row_y in
    if id =? 255 then (err, ps1)
    else
      let '(tb, cap) := text_key_values (c_obj ctx) in
      let ps2 := snd (ui_attr_store_text_with_cap ps1 id tb (u8 cap)) in
      (0, list_set_last_text_child ps2 target_list id)
  else
    let '(id, ps1) :=
      add_basic_element ps (c_parent_id ctx) ELEMENT_TEXT (c_x ctx) (c_y ctx) in
    if id =? 255 then (err, ps1)
    else
      let '(tb, cap) := text_key_values (c_obj ctx) in
      let ps2 := snd (ui_attr_store_text_with_cap ps1 id tb (u8 cap)) in
      if negb (c_parent_id ctx =? INVALID_ELEMENT_ID)
         && (type (el ps2 (c_parent_id ctx)) =? ELEMENT_LIST_VIEW)
      then (0, list_set_last_text_child ps2 (c_parent_id ctx) id)
      else (0, ps2).

Definition handle_create_barrel (ps : protocol_state)
    (ctx : element_create_ctx_t) : Z * protocol_state :=
  let '(id, ps1) :=
    add_basic_element ps (c_parent_id ctx) ELEMENT_BARREL (c_x ctx) (c_y ctx) in
  if id =? 255 then (err, ps1)
  else
    let val0 := int_key_or (c_obj ctx) key_v 0 in
    let val := if val0 <? 0 then 0 else val0 in
    (0, numeric_store ps1 id val 0).

Definition handle_create_trigger (ps : protocol_state)
    (ctx : element_create_ctx_t) : Z * protocol_state :=
  let '(id, ps1) :=
    add_basic_element ps (c_parent_id ctx) ELEMENT_TRIGGER (c_x ctx) (c_y ctx) in
  if id =? 255 then (err, ps1)
  else
    match ur_trigger_get_or_add (runtime ps1) id with
    | (None, rt1) => (err, set_runtime rt1 ps1)
    | (Some _, rt1) =>
        (0, set_trigger_count (u8 (trigger_count ps1 + 1)) (set_runtime rt1 ps1))
    end.

Definition handle_update_text (ps : protocol_state) (id : Z) (obj : list Z)
    : Z * protocol_state :=
  match extract_string_key obj key_tx 21 with
  | (Some tb, _) => (0, snd (ui_attr_update_text ps id (c_string tb)))
  | (None, _) => (0, ps)
  end.

Definition handle_update_barrel (ps : protocol_state) (id : Z) (obj : list Z)
    : Z * protocol_state :=
  let v := int_key_or obj key_v 0 in
  (0, numeric_set_value ps id v).

(** The handler table [k_element_handlers]. *)
Record element_handler_t : Type := mk_handler {
  h_type : Z;
  h_create : option (protocol_state -> element_create_ctx_t -> Z * protocol_state);
  h_update : option (protocol_state -> Z -> list Z -> Z * protocol_state)
}.

Definition k_element_handlers : list element_handler_t :=
  [ mk_handler ELEMENT_SCREEN (Some handle_create_screen) None;
    mk_handler ELEMENT_LIST_VIEW (Some handle_create_list) None;
    mk_handler ELEMENT_TEXT (Some handle_create_text) (Some handle_update_text);
    mk_handler ELEMENT_BARREL (Some handle_create_barrel) (Some handle_update_barrel);
    mk_handler ELEMENT_TRIGGER (Some handle_create_trigger) None ].

Definition find_handler (type : Z) : option element_handler_t :=
  List.find (fun h => h_type h =? type) k_element_handlers.

Definition handle_element_object (ps : protocol_state) (obj : list Z)
    : Z * protocol_state :=
  let type_buf := c_string (snd (extract_string_key obj key_t 16)) in
  if match type_buf with [c] => c =? 104 | _ => false end then
    match extract_int_key obj key_n with
    | None => (err, ps)
    | Some n =>
        if (n <=? 0) || (n >? 255) then (err, ps)
        else
          let '(res, ps1) := protocol_reserve_element_storage ps (u8 n) in
          if negb (res =? RES_OK) then (res, ps1)
          else (0, set_header_seen 1 ps1)
    end
  else if element_capacity ps =? 0 then (RES_BAD_STATE, ps)
  else
    let tcode := map_type_key type_buf in
    let parent := int_key_or obj key_p (-1) in
    let upd_id := int_key_or obj key_e (-1) in
    if match extract_int_key obj key_e with Some _ => true | None => false end
       && (upd_id >=? 0) && (upd_id <? element_count ps)
    then
      let uel := el ps (u8 upd_id) in
      if match type_buf with [] => false | _ => true end
         && negb (map_type_key type_buf =? type uel)
      then (0, ps)
      else
        match find_handler (type uel) with
        | Some {| h_update := Some update |} => update ps (u8 upd_id) obj
        | _ => (0, ps)
        end
    else
      let parent_id :=
        if (parent >=? 0) && (parent <? element_count ps) then u8 parent
        else INVALID_ELEMENT_ID in
      let x := int_key_or obj key_x 0 in
      let y := int_key_or obj key_y 0 in
      match find_handler tcode with
      | Some {| h_create := Some create |} =>
          create ps {| c_parent_id := parent_id; c_x := x; c_y := y;
                       c_type_code := tcode; c_obj := obj |}
      | _ => (0, ps)
      end.

Definition parse_single_element_object (ps : protocol_state) (buf : list Z)
    : Z * protocol_state :=
  if len buf <? 2 then (RES_BAD_LEN, ps)
  else
    let trimmed := rev (skip_spaces (rev (skip_spaces buf))) in
    if len trimmed <=? 1 then (RES_PARSE_FAIL, ps)
    else if negb (nth 0 trimmed 0 =? 123) || negb (List.last trimmed 0 =? 125)
    then (RES_PARSE_FAIL, ps)
    else handle_element_object ps (removelast trimmed).

(** ** Transport state (ui_protocol.c, spi_slave_dma.c) *)

Inductive rx_state_t : Type :=
  | RX_STATE_WAIT_SYNC0
  | RX_STATE_WAIT_SYNC1
  | RX_STATE_WAIT_LEN
  | RX_STATE_COLLECT_COBS.

Record rx_globals : Type := mk_rx_globals {
  g_rx_enc_buf : list Z;
  g_rx_enc_len : Z;
  g_rx_frame_len : Z;
  g_rx_frame_ready : Z;
  g_rx_last_byte_ms : Z;
  g_rx_state : rx_state_t;
  g_rx_overrun : Z
}.

Definition set_g_rx_enc_buf (v : list Z) (s : rx_globals) : rx_globals :=
  {| g_rx_enc_buf := v; g_rx_enc_len := g_rx_enc_len s; g_rx_frame_len := g_rx_frame_len s; g_rx_frame_ready := g_rx_frame_ready s; g_rx_last_byte_ms := g_rx_last_byte_ms s; g_rx_state := g_rx_state s; g_rx_overrun := g_rx_overrun s |}.
Definition set_g_rx_enc_len (v : Z) (s : rx_globals) : rx_globals :=
  {| g_rx_enc_buf := g_rx_enc_buf s; g_rx_enc_len := v; g_rx_frame_len := g_rx_frame_len s; g_rx_frame_ready := g_rx_frame_ready s; g_rx_last_byte_ms := g_rx_last_byte_ms s; g_rx_state := g_rx_state s; g_rx_overrun := g_rx_overrun s |}.
Definition set_g_rx_frame_len (v : Z) (s : rx_globals) : rx_globals :=
  {| g_rx_enc_buf := g_rx_enc_buf s; g_rx_enc_len := g_rx_enc_len s; g_rx_frame_len := v; g_rx_frame_ready := g_rx_frame_ready s; g_rx_last_byte_ms := g_rx_last_byte_ms s; g_rx_state := g_rx_state s; g_rx_overrun := g_rx_overrun s |}.
Definition set_g_rx_frame_ready (v : Z) (s : rx_globals) : rx_globals :=
  {| g_rx_enc_buf := g_rx_enc_buf s; g_rx_enc_len := g_rx_enc_len s; g_rx_frame_len := g_rx_frame_len s; g_rx_frame_ready := v; g_rx_last_byte_ms := g_rx_last_byte_ms s; g_rx_state := g_rx_state s; g_rx_overrun := g_rx_overrun s |}.
Definition set_g_rx_last_byte_ms (v : Z) (s : rx_globals) : rx_globals :=
  {| g_rx_enc_buf := g_rx_enc_buf s; g_rx_enc_len := g_rx_enc_len s; g_rx_frame_len := g_rx_frame_len s; g_rx_frame_ready := g_rx_frame_ready s; g_rx_last_byte_ms := v; g_rx_state := g_rx_state s; g_rx_overrun := g_rx_overrun s |}.
Definition set_g_rx_state (v : rx_state_t) (s : rx_globals) : rx_globals :=
  {| g_rx_enc_buf := g_rx_enc_buf s; g_rx_enc_len := g_rx_enc_len s; g_rx_frame_len := g_rx_frame_len s; g_rx_frame_ready := g_rx_frame_ready s; g_rx_last_byte_ms := g_rx_last_byte_ms s; g_rx_state := v; g_rx_overrun := g_rx_overrun s |}.
Definition set_g_rx_overrun (v : Z) (s : rx_globals) : rx_globals :=
  {| g_rx_enc_buf := g_rx_enc_buf s; g_rx_enc_len := g_rx_enc_len s; g_rx_frame_len := g_rx_frame_len s; g_rx_frame_ready := g_rx_frame_ready s; g_rx_last_byte_ms := g_rx_last_byte_ms s; g_rx_state := g_rx_state s; g_rx_overrun := v |}.

(** The TX side: response buffer, one-deep queue, and TX DMA channel 3
    (its remaining count and the bytes of the buffer it was started on). *)
Record tx_globals : Type := mk_tx_globals {
  g_tx_buf : list Z;
  g_tx_len : Z;
  g_tx_queue : list Z;
  g_tx_queue_len : Z;
  g_tx_queue_pending : Z;
  dma_cntr : Z;
  dma_frame : list Z
}.

Definition set_g_tx_buf (v : list Z) (s : tx_globals) : tx_globals :=
  {| g_tx_buf := v; g_tx_len := g_tx_len s; g_tx_queue := g_tx_queue s; g_tx_queue_len := g_tx_queue_len s; g_tx_queue_pending := g_tx_queue_pending s; dma_cntr := dma_cntr s; dma_frame := dma_frame s |}.
Definition set_g_tx_len (v : Z) (s : tx_globals) : tx_globals :=
  {| g_tx_buf := g_tx_buf s; g_tx_len := v; g_tx_queue := g_tx_queue s; g_tx_queue_len := g_tx_queue_len s; g_tx_queue_pending := g_tx_queue_pending s; dma_cntr := dma_cntr s; dma_frame := dma_frame s |}.
Definition set_g_tx_queue (v : list Z) (s : tx_globals) : tx_globals :=
  {| g_tx_buf := g_tx_buf s; g_tx_len := g_tx_len s; g_tx_queue := v; g_tx_queue_len := g_tx_queue_len s; g_tx_queue_pending := g_tx_queue_pending s; dma_cntr := dma_cntr s; dma_frame := dma_frame s |}.
Definition set_g_tx_queue_len (v : Z) (s : tx_globals) : tx_globals :=
  {| g_tx_buf := g_tx_buf s; g_tx_len := g_tx_len s; g_tx_queue := g_tx_queue s; g_tx_queue_len := v; g_tx_queue_pending := g_tx_queue_pending s; dma_cntr := dma_cntr s; dma_frame := dma_frame s |}.
Definition set_g_tx_queue_pending (v : Z) (s : tx_globals) : tx_globals :=
  {| g_tx_buf := g_tx_buf s; g_tx_len := g_tx_len s; g_tx_queue := g_tx_queue s; g_tx_queue_len := g_tx_queue_len s; g_tx_queue_pending := v; dma_cntr := dma_cntr s; dma_frame := dma_frame s |}.
Definition set_dma_cntr (v : Z) (s : tx_globals) : tx_globals :=
  {| g_tx_buf := g_tx_buf s; g_tx_len := g_tx_len s; g_tx_queue := g_tx_queue s; g_tx_queue_len := g_tx_queue_len s; g_tx_queue_pending := g_tx_queue_pending s; dma_cntr := v; dma_frame := dma_frame s |}.
Definition set_dma_frame (v : list Z) (s : tx_globals) : tx_globals :=
  {| g_tx_buf := g_tx_buf s; g_tx_len := g_tx_len s; g_tx_queue := g_tx_queue s; g_tx_queue_len := g_tx_queue_len s; g_tx_queue_pending := g_tx_queue_pending s; dma_cntr := dma_cntr s; dma_frame := v |}.

Record slave : Type := mk_slave {
  g_protocol_state : protocol_state;
  g_rx : rx_globals;
  g_tx : tx_globals;
  g_render_requested : Z;
  g_request_standby : Z
}.

Definition set_g_protocol_state (v : protocol_state) (s : slave) : slave :=
  {| g_protocol_state := v; g_rx := g_rx s; g_tx := g_tx s; g_render_requested := g_render_requested s; g_request_standby := g_request_standby s |}.
Definition set_g_rx (v : rx_globals) (s : slave) : slave :=
  {| g_protocol_state := g_protocol_state s; g_rx := v; g_tx := g_tx s; g_render_requested := g_render_requested s; g_request_standby := g_request_standby s |}.
Definition set_g_tx (v : tx_globals) (s : slave) : slave :=
  {| g_protocol_state := g_protocol_state s; g_rx := g_rx s; g_tx := v; g_render_requested := g_render_requested s; g_request_standby := g_request_standby s |}.
Definition set_g_render_requested (v : Z) (s : slave) : slave :=
  {| g_protocol_state := g_protocol_state s; g_rx := g_rx s; g_tx := g_tx s; g_render_requested := v; g_request_standby := g_request_standby s |}.
Definition set_g_request_standby (v : Z) (s : slave) : slave :=
  {| g_protocol_state := g_protocol_state s; g_rx := g_rx s; g_tx := g_tx s; g_render_requested := g_render_requested s; g_request_standby := v |}.

Definition rx_init : rx_globals :=
  {| g_rx_enc_buf := repeat 0 (Z.to_nat RX_ENC_BUF_SIZE); g_rx_enc_len := 0;
     g_rx_frame_len := 0; g_rx_frame_ready := 0; g_rx_last_byte_ms := 0;
     g_rx_state := RX_STATE_WAIT_SYNC0; g_rx_overrun := 0 |}.

Definition tx_init : tx_globals :=
  {| g_tx_buf := repeat 0 (Z.to_nat SPI_BUFFER_SIZE); g_tx_len := 0;
     g_tx_queue := repeat 0 (Z.to_nat SPI_TX_QUEUE_SIZE); g_tx_queue_len := 0;
     g_tx_queue_pending := 0; dma_cntr := 0; dma_frame := [] |}.

(** The slave after start-up: zeroed globals and [protocol_init]. *)
Definition slave_init : slave :=
  {| g_protocol_state := protocol_init; g_rx := rx_init; g_tx := tx_init;
     g_render_requested := 0; g_request_standby := 0 |}.

Definition spi_slave_tx_dma_is_complete (tx : tx_globals) : Z :=
  if dma_cntr tx =? 0 then 1 else 0.

(** Called only once the channel is idle; it is then pointed at [buffer]
    with [length] bytes to go. *)
Definition spi_slave_tx_dma_start (tx : tx_globals) (buffer : list Z)
    (length : Z) : tx_globals :=
  set_dma_frame (take (Z.to_nat length) buffer) (set_dma_cntr (u16 length) tx).

Definition protocol_tx_process_queue (tx : tx_globals) : tx_globals :=
  if g_tx_queue_pending tx =? 0 then tx
  else if spi_slave_tx_dma_is_complete tx =? 0 then tx
  else
    set_g_tx_queue_len 0
      (set_g_tx_queue_pending 0
         (spi_slave_tx_dma_start tx (g_tx_queue tx) (g_tx_queue_len tx))).

Definition protocol_send_response (tx : tx_globals) (cmd : Z)
    (payload : list Z) : Z * tx_globals :=
  let buf0 := <[1%nat := SPI_RESP_SYNC1]> (<[0%nat := SPI_RESP_SYNC0]> (g_tx_buf tx)) in
  let '(enc, bytes) := cobs_encode payload (SPI_BUFFER_SIZE - 3) in
  let buf1 := <[2%nat := u8 enc]> (take 3 buf0 ++ blit bytes (drop 3 buf0)) in
  let tx1 := set_g_tx_buf buf1 tx in
  if enc =? 0 then (RES_INTERNAL, tx1)
  else
    let tx2 := set_g_tx_len (u8 (2 + enc + 1)) tx1 in
    if negb (g_tx_queue_pending tx2 =? 0) then (RES_BAD_STATE, tx2)
    else if spi_slave_tx_dma_is_complete tx2 =? 0 then
      if g_tx_len tx2 >? SPI_TX_QUEUE_SIZE then (RES_BAD_LEN, tx2)
      else
        (RES_OK,
         set_g_tx_queue_pending 1
           (set_g_tx_queue_len (g_tx_len tx2)
              (set_g_tx_queue
                 (blit (take (Z.to_nat (g_tx_len tx2)) (g_tx_buf tx2))
                    (g_tx_queue tx2)) tx2)))
    else (RES_OK, spi_slave_tx_dma_start tx2 (g_tx_buf tx2) (g_tx_len tx2)).

Definition spi_rx_reset (rx : rx_globals) : rx_globals :=
  set_g_rx_last_byte_ms 0
    (set_g_rx_state RX_STATE_WAIT_SYNC0
       (set_g_rx_frame_len 0 (set_g_rx_enc_len 0 rx))).

(** One receive interrupt: [ovr] is the overrun flag of the status
    register, [b] the data register. *)
Definition ui_spi_rx_irq (rx : rx_globals) (ovr : bool) (b : Z) : rx_globals :=
  if ovr then set_g_rx_overrun 1 rx
  else if negb (g_rx_frame_ready rx =? 0) then rx
  else
    match g_rx_state rx with
    | RX_STATE_WAIT_SYNC0 =>
        if b =? SPI_RESP_SYNC0 then set_g_rx_state RX_STATE_WAIT_SYNC1 rx else rx
    | RX_STATE_WAIT_SYNC1 =>
        if b =? SPI_RESP_SYNC1 then set_g_rx_state RX_STATE_WAIT_LEN rx
        else set_g_rx_state RX_STATE_WAIT_SYNC0 rx
    | RX_STATE_WAIT_LEN =>
        let rx1 := set_g_rx_enc_len 0 (set_g_rx_frame_len b rx) in
        if (g_rx_frame_len rx1 >? 0) && (g_rx_frame_len rx1 <=? RX_ENC_BUF_SIZE)
        then set_g_rx_state RX_STATE_COLLECT_COBS rx1
        else set_g_rx_state RX_STATE_WAIT_SYNC0 rx1
    | RX_STATE_COLLECT_COBS =>
        if g_rx_enc_len rx <? RX_ENC_BUF_SIZE then
          let rx1 :=
            set_g_rx_enc_len (u8 (g_rx_enc_len rx + 1))
              (set_g_rx_enc_buf
                 (<[Z.to_nat (g_rx_enc_len rx) := b]> (g_rx_enc_buf rx)) rx) in
          if g_rx_enc_len rx1 >=? g_rx_frame_len rx1 then
            set_g_rx_state RX_STATE_WAIT_SYNC0 (set_g_rx_frame_ready 1 rx1)
          else rx1
        else set_g_rx_overrun 1 (set_g_rx_state RX_STATE_WAIT_SYNC0 rx)
    end.

(** ** Commands (ui_protocol.c) *)

Definition on_state (f : protocol_state -> protocol_state) (s : slave) : slave :=
  set_g_protocol_state (f (g_protocol_state s)) s.

Definition cmd_ping (s : slave) (p : list Z) (l : Z) : Z * slave :=
  if negb (l =? 0) then (RES_BAD_LEN, s)
  else
    let ps := g_protocol_state s in
    let out := [ RC_OK; u8 (protocol_version ps);
                 u8 (Z.land (capabilities ps) 255);
                 u8 (Z.land (Z.shiftr (capabilities ps) 8) 255) ] in
    (PROTOCOL_RESP_SENT,
     set_g_tx (snd (protocol_send_response (g_tx s) SPI_CMD_PING out)) s).

(** The ten bytes [out] that [cmd_get_status] hands to the sender. *)
Definition get_status_out (s : slave) : list Z :=
  let ps := g_protocol_state s in
  let f0 := 0 in
  let f1 := if negb (initialized ps =? 0)
            then Z.lor f0 STATUS_FLAG_INITIALIZED else f0 in
  let f2 := if negb (status_dirty ps =? 0)
            then Z.lor f1 STATUS_FLAG_DIRTY else f1 in
  let flags := if negb (active_overlay_screen_id (overlay ps) =? 255)
               then Z.lor f2 STATUS_FLAG_OVERLAY else f2 in
  [ RC_OK; flags; element_count ps; screen_count ps; active_screen ps;
    u8 (protocol_version ps);
    (if negb (status_dirty ps =? 0) then status_dirty_id ps
     else INVALID_ELEMENT_ID);
    0; 0; 0 ].

Definition cmd_get_status (s : slave) (p : list Z) (l : Z) : Z * slave :=
  let s1 :=
    set_g_tx (snd (protocol_send_response (g_tx s) SPI_CMD_GET_STATUS
                     (get_status_out s))) s in
  (PROTOCOL_RESP_SENT,
   on_state (fun ps => set_status_dirty_id INVALID_ELEMENT_ID
                         (set_status_dirty 0 ps)) s1).

Definition anim_snap (sid : Z) (ps : protocol_state) : protocol_state :=
  set_screen_anim {| sa_active := 0; from_screen := sid; to_screen := sid;
                     offset_px := 0; dir := 0 |} ps.

Definition cmd_set_active_screen (s : slave) (p : list Z) (l : Z) : Z * slave :=
  if negb (l =? 1) then (RES_BAD_LEN, s)
  else
    let sid := nth 0 p 0 in
    if sid >=? screen_count (g_protocol_state s) then (RES_RANGE, s)
    else
      (RES_OK,
       on_state
         (fun ps =>
            protocol_focus_first_on_screen
              (anim_snap sid
                 (set_scroll_x (i16 (sid * 128)) (set_active_screen sid ps)))
              sid) s).

Definition cmd_scroll_to_screen (s : slave) (p : list Z) (l : Z) : Z * slave :=
  let ps := g_protocol_state s in
  if l =? 1 then
    if negb (sa_active (screen_anim ps) =? 0) then (RES_OK, s)
    else
      let sid := nth 0 p 0 in
      if sid >=? screen_count ps then (RES_RANGE, s)
      else
        (RES_OK,
         on_state (fun ps => set_scroll_x (i16 (sid * 128))
                               (set_active_screen sid ps)) s)
  else if l =? 3 then
    if negb (sa_active (screen_anim ps) =? 0) then (RES_OK, s)
    else
      let off := i16 (Z.lor (nth 0 p 0) (Z.shiftl (nth 1 p 0) 8)) in
      let sid := nth 2 p 0 in
      if sid >=? screen_count ps then (RES_RANGE, s)
      else
        let max_off := i16 (i16 (screen_count ps - 1) * 128) in
        let off1 := if off <? 0 then 0 else off in
        let off2 := if off1 >? max_off then max_off else off1 in
        (RES_OK,
         on_state (fun ps => set_scroll_x off2 (set_active_screen sid ps)) s)
  else (RES_BAD_LEN, s).

Definition cmd_show_overlay (s : slave) (p : list Z) (l : Z) : Z * slave :=
  if l <? 1 then (RES_BAD_LEN, s)
  else
    let ps := g_protocol_state s in
    let sid := nth 0 p 0 in
    let dur :=
      if l >=? 3 then
        let d := u16 (Z.lor (nth 1 p 0) (u16 (Z.shiftl (nth 2 p 0) 8))) in
        if d =? 0 then 1 else d
      else 1200 in
    let mask :=
      if l >=? 4 then (if negb (Z.land (nth 3 p 0) 1 =? 0) then 1 else 0)
      else 0 in
    if sid >=? element_count ps then (RES_UNKNOWN_ID, s)
    else if negb (type (el ps sid) =? ELEMENT_SCREEN) then (RES_BAD_STATE, s)
    else if negb (protocol_screen_role ps sid =? OVERLAY_FULL)
    then (RES_BAD_STATE, s)
    else
      (RES_OK,
       set_g_render_requested 1
         (on_state
            (fun ps =>
               protocol_clear_focus
                 (set_overlay
                    {| active_overlay_screen_id := sid; remaining_ms := dur;
                       mask_input := mask;
                       prev_focus := focused_element ps |} ps)) s)).

Definition cmd_goto_standby (s : slave) (p : list Z) (l : Z) : Z * slave :=
  (PROTOCOL_RESP_SENT, if l =? 0 then set_g_request_standby 1 s else s).

Definition send (s : slave) (cmd : Z) (payload : list Z) : slave :=
  set_g_tx (snd (protocol_send_response (g_tx s) cmd payload)) s.

Definition cmd_get_element_state (s : slave) (payload : list Z) (length : Z)
    : Z * slave :=
  if negb (length =? 1) then (RES_BAD_LEN, s)
  else
    let ps := g_protocol_state s in
    let eid := nth 0 payload 0 in
    if eid >=? element_count ps then (RES_UNKNOWN_ID, s)
    else
      let ty := type (el ps eid) in
      if ty =? ELEMENT_TEXT then
        let t := match ui_attr_get_text ps eid with Some t => t | None => [] end in
        let l0 := u8 (len t) in
        let l := if l0 + 3 >? 13 then 10 else l0 in
        (PROTOCOL_RESP_SENT,
         send s SPI_CMD_GET_ELEMENT_STATE
           ([RC_OK; ty; l] ++ take (Z.to_nat l) t))
      else if ty =? ELEMENT_TRIGGER then
        match ur_trigger_find (runtime ps) eid with
        | Some ts =>
            (PROTOCOL_RESP_SENT,
             send s SPI_CMD_GET_ELEMENT_STATE [RC_OK; ty; version ts])
        | None => (RES_RANGE, s)
        end
      else if ty =? ELEMENT_BARREL then
        let v := protocol_numeric_value ps eid in
        (PROTOCOL_RESP_SENT,
         send s SPI_CMD_GET_ELEMENT_STATE
           [RC_OK; ty; u8 v; u8 (Z.shiftr v 8)])
      else
        (PROTOCOL_RESP_SENT,
         send s SPI_CMD_GET_ELEMENT_STATE [RC_OK; ty; 255]).

Definition protocol_apply_json_object_internal (s : slave) (buf : list Z)
    (flags : Z) : Z * slave :=
  let s1 :=
    if negb (Z.land flags JSON_FLAG_HEAD =? 0)
    then set_g_protocol_state protocol_reset_state s else s in
  let '(rc, s2) :=
    if len buf >? 0 then
      let '(rc, ps) := parse_single_element_object (g_protocol_state s1) buf in
      (rc, set_g_protocol_state ps s1)
    else (0, s1) in
  if negb (Z.land flags JSON_FLAG_COMMIT =? 0) then
    if element_capacity (g_protocol_state s2) =? 0 then
      ((if rc =? RES_OK then RES_BAD_STATE else rc), s2)
    else
      (rc, set_g_render_requested 1 (on_state (set_initialized 1) s2))
  else (rc, s2).

Definition cmd_json (s : slave) (p : list Z) (l : Z) : Z * slave :=
  if l =? 0 then (RES_BAD_LEN, s)
  else protocol_apply_json_object_internal s (drop 1 p) (nth 0 p 0).

Definition cmd_json_abort (s : slave) (p : list Z) (l : Z) : Z * slave :=
  (0, s).

Section Dispatch.

(** The input state machine (ui_input.c) is outside this development; the
    dispatcher takes its command handler as given. *)
Variable cmd_input_event : slave -> list Z -> Z -> Z * slave.

Definition handle_binary_command (s : slave) (cmd : Z) (payload : list Z)
    (length : Z) : Z * slave :=
  if cmd =? SPI_CMD_PING then cmd_ping s payload length
  else if cmd =? SPI_CMD_JSON then cmd_json s payload length
  else if cmd =? SPI_CMD_JSON_ABORT then cmd_json_abort s payload length
  else if cmd =? SPI_CMD_SET_ACTIVE_SCREEN then cmd_set_active_screen s payload length
  else if cmd =? SPI_CMD_GET_STATUS then cmd_get_status s payload length
  else if cmd =? SPI_CMD_SCROLL_TO_SCREEN then cmd_scroll_to_screen s payload length
  else if cmd =? SPI_CMD_GET_ELEMENT_STATE then cmd_get_element_state s payload length
  else if cmd =? SPI_CMD_SHOW_OVERLAY then cmd_show_overlay s payload length
  else if cmd =? SPI_CMD_INPUT_EVENT then cmd_input_event s payload length
  else if cmd =? SPI_CMD_GOTO_STANDBY then cmd_goto_standby s payload length
  else (RES_BAD_LEN, s).

Definition protocol_service_deferred_ops (s : slave) : slave :=
  let s1 :=
    if negb (g_rx_overrun (g_rx s) =? 0) then
      set_g_rx (set_g_rx_overrun 0
                  (set_g_rx_frame_ready 0 (spi_rx_reset (g_rx s)))) s
    else s in
  let s2 := set_g_tx (protocol_tx_process_queue (g_tx s1)) s1 in
  let s3 :=
    if negb (g_rx_frame_ready (g_rx s2) =? 0) then
      let '(dec, decoded_frame) :=
        cobs_decode (take (Z.to_nat (g_rx_enc_len (g_rx s2)))
                       (g_rx_enc_buf (g_rx s2))) SPI_BUFFER_SIZE in
      let s_cmd :=
        if (dec <=? SPI_BUFFER_SIZE) && (dec >=? 1) then
          let command := nth 0 decoded_frame 0 in
          let payload := if dec >? 1 then drop 1 decoded_frame else [] in
          let length := if dec >? 1 then u8 (dec - 1) else 0 in
          let '(cmd_result, s') := handle_binary_command s2 command payload length in
          if negb (cmd_result =? PROTOCOL_RESP_SENT) then
            send s' command [protocol_map_result_to_rc cmd_result]
          else s'
        else s2 in
      set_g_rx (spi_rx_reset (set_g_rx_frame_ready 0 (g_rx s_cmd))) s_cmd
    else s2 in
  set_g_tx (protocol_tx_process_queue (g_tx s3)) s3.

End Dispatch.

(** Bytes arriving one interrupt each, without overrun. *)
Definition receive_bytes (s : slave) (bytes : list Z) : slave :=
  fold_left (fun s b => set_g_rx (ui_spi_rx_irq (g_rx s) false b) s) bytes s.

(** ** Asynchronous frame engine (ssd1306_driver.c) *)

Definition SSD1306_ASYNC_STAGE_ADDR : Z := 0.
Definition SSD1306_ASYNC_STAGE_BUILD : Z := 1.
Definition SSD1306_ASYNC_STAGE_STREAM_START : Z := 2.
Definition SSD1306_ASYNC_STAGE_STREAMING : Z := 3.

(** [g_async] (the callback pointer is left out: it is only called) and
    the page count [g_pages] of the panel. *)
Record ssd1306_async_state_t : Type := mk_async {
  active : Z;
  page : Z;
  stage : Z;
  rerender_pending : Z;
  g_pages : Z
}.

Definition ssd1306_render_async_busy (a : ssd1306_async_state_t) : Z :=
  if negb (active a =? 0) then 1 else 0.

Definition ssd1306_render_async_request_rerender (a : ssd1306_async_state_t)
    : ssd1306_async_state_t :=
  if negb (active a =? 0) then
    {| active := active a; page := page a; stage := stage a;
       rerender_pending := 1; g_pages := g_pages a |}
  else a.

Definition ssd1306_render_async_begin (a : ssd1306_async_state_t)
    : Z * ssd1306_async_state_t :=
  if negb (active a =? 0) then (RES_BAD_STATE, a)
  else
    (RES_OK,
     {| active := 1; page := 0; stage := SSD1306_ASYNC_STAGE_ADDR;
        rerender_pending := 0; g_pages := g_pages a |}).

Definition ssd1306_render_async_start_or_request (a : ssd1306_async_state_t)
    : Z * ssd1306_async_state_t :=
  if ssd1306_render_async_busy a =? 0 then ssd1306_render_async_begin a
  else (1, ssd1306_render_async_request_rerender a).

Definition set_stage (v : Z) (a : ssd1306_async_state_t) : ssd1306_async_state_t :=
  {| active := active a; page := page a; stage := v;
     rerender_pending := rerender_pending a; g_pages := g_pages a |}.

(** One call from the main loop.  [i2c_busy] is what [i2c_tx_dma_busy]
    answers and [xfer_active] the flag of the chunked transfer after
    [ssd1306_dma_xfer_process] has run. *)
Definition ssd1306_render_async_process (a : ssd1306_async_state_t)
    (i2c_busy xfer_active : bool) : ssd1306_async_state_t :=
  if active a =? 0 then a
  else if stage a =? SSD1306_ASYNC_STAGE_ADDR then
    if i2c_busy then a else set_stage SSD1306_ASYNC_STAGE_BUILD a
  else if stage a =? SSD1306_ASYNC_STAGE_BUILD then
    if i2c_busy then a else set_stage SSD1306_ASYNC_STAGE_STREAM_START a
  else if stage a =? SSD1306_ASYNC_STAGE_STREAM_START then
    if i2c_busy then a else set_stage SSD1306_ASYNC_STAGE_STREAMING a
  else if stage a =? SSD1306_ASYNC_STAGE_STREAMING then
    if xfer_active then a
    else
      let page1 := u8 (page a + 1) in
      if page1 >=? g_pages a then
        if negb (rerender_pending a =? 0) then
          {| active := 1; page := 0; stage := SSD1306_ASYNC_STAGE_ADDR;
             rerender_pending := 0; g_pages := g_pages a |}
        else
          {| active := 0; page := page1; stage := stage a;
             rerender_pending := rerender_pending a; g_pages := g_pages a |}
      else
        {| active := active a; page := page1;
           stage := SSD1306_ASYNC_STAGE_ADDR;
           rerender_pending := rerender_pending a; g_pages := g_pages a |}
  else
    {| active := 0; page := page a; stage := stage a;
       rerender_pending := rerender_pending a; g_pages := g_pages a |}.

(** ** Vocabulary of the properties

    Descriptor text, command sequences and observers used to state the
    properties below.  None of this is firmware code. *)

Definition chars (s : string) : list Z :=
  map (fun a => Z.of_nat (nat_of_ascii a)) (list_ascii_of_string s).
Arguments chars s%_string.

Definition quoted (s : string) : list Z := 34 :: chars s ++ [34].
Arguments quoted s%_string.

(** ["k":"v"] and ["k":digits] *)
Definition field_str (k v : string) : list Z := quoted k ++ 58 :: quoted v.
Arguments field_str (k v)%_string.

Definition field_int (k digits : string) : list Z := quoted k ++ 58 :: chars digits.
Arguments field_int (k digits)%_string.

Fixpoint join_fields (fs : list (list Z)) : list Z :=
  match fs with
  | [] => []
  | [f] => f
  | f :: r => f ++ 44 :: join_fields r
  end.

(** [{f1,f2,...}] *)
Definition descriptor (fs : list (list Z)) : list Z :=
  123 :: join_fields fs ++ [125].

(** One json command (0x01) with its flags byte and descriptor. *)
Definition json_cmd (s : slave) (flags : Z) (fs : list (list Z)) : Z * slave :=
  cmd_json s (flags :: descriptor fs) (len (flags :: descriptor fs)).

Definition provision (descs : list (Z * list (list Z))) : slave :=
  fold_left (fun s d => snd (json_cmd s (fst d) (snd d))) descs slave_init.

(** A handler for input events that ignores them, for closed scenarios. *)
Definition ignore_input (s : slave) (p : list Z) (l : Z) : Z * slave := (RES_OK, s).

(** The type token as [handle_element_object] reads it from [type_buf]. *)
Definition descriptor_type (obj : list Z) : list Z :=
  c_string (snd (extract_string_key obj key_t 16)).

(** The descriptor is not an update of an existing element. *)
Definition not_an_update (ps : protocol_state) (obj : list Z) : Prop :=
  match extract_int_key obj key_e with
  | Some e => e < 0 \/ element_count ps <= e
  | None => True
  end.

Definition creatable_types : list Z :=
  [ELEMENT_SCREEN; ELEMENT_LIST_VIEW; ELEMENT_TEXT; ELEMENT_BARREL; ELEMENT_TRIGGER].

(** *** Arena operations *)

Inductive arena_op : Type :=
  | OpReserve (capacity : Z)
  | OpAppend (element_id tag : Z) (payload : option (list Z))
      (len_prefix payload_len : Z)
  | OpAllocTail (size : Z).

(** A null result of [ur__alloc_tail] is reported as no space. *)
Definition arena_step (ps : protocol_state) (op : arena_op)
    : Z * protocol_state :=
  match op with
  | OpReserve capacity => protocol_reserve_element_storage ps capacity
  | OpAppend element_id tag payload len_prefix payload_len =>
      ui_attr_append ps element_id tag payload len_prefix payload_len
  | OpAllocTail size =>
      match ur__alloc_tail (runtime ps) size with
      | (None, _) => (RES_NO_SPACE, ps)
      | (Some _, rt1) => (RES_OK, set_runtime rt1 ps)
      end
  end.

Definition arena_run (ps : protocol_state) (ops : list arena_op)
    : protocol_state :=
  fold_left (fun ps op => snd (arena_step ps op)) ops ps.

Definition arena_used (ps : protocol_state) : Z :=
  head_used (runtime ps) + used_tail (runtime ps).

Definition arena_ok (ps : protocol_state) : Prop :=
  0 <= head_used (runtime ps) /\ 0 <= used_tail (runtime ps)
  /\ arena_used ps <= UI_ATTR_ARENA_CAP.

(** Arguments as their C types allow. *)
Definition op_in_range (op : arena_op) : Prop :=
  match op with
  | OpReserve capacity => 0 <= capacity < 256
  | OpAppend _ _ _ _ payload_len => 0 <= payload_len < 65536
  | OpAllocTail size => 0 <= size < 65536
  end.

(** Every reservation of the run finds the tail empty. *)
Fixpoint reserve_on_empty_tail (ps : protocol_state) (ops : list arena_op)
    : Prop :=
  match ops with
  | [] => True
  | op :: rest =>
      match op with
      | OpReserve _ => used_tail (runtime ps) = 0
      | _ => True
      end
      /\ reserve_on_empty_tail (snd (arena_step ps op)) rest
  end.

(** The bytes the operation asks for do not fit. *)
Definition would_breach (ps : protocol_state) (op : arena_op) : Prop :=
  match op with
  | OpReserve capacity =>
      capacity * 4 + used_tail (runtime ps) > UI_ATTR_ARENA_CAP
  | OpAppend _ _ _ len_prefix payload_len =>
      head_used (runtime ps)
      + u16 (2 + payload_len + (if len_prefix =? 0 then 0 else 1))
      + used_tail (runtime ps) > UI_ATTR_ARENA_CAP
  | OpAllocTail size =>
      head_used (runtime ps) + used_tail (runtime ps) + size > UI_ATTR_ARENA_CAP
  end.

(** The checks an operation makes before it looks at the space. *)
Definition guards_pass (ps : protocol_state) (op : arena_op) : Prop :=
  match op with
  | OpReserve capacity => capacity <> 0 /\ element_capacity ps = 0
  | OpAppend element_id _ _ _ _ =>
      initialized ps = 0 /\ element_id < element_capacity ps
  | OpAllocTail _ => True
  end.

(** *** Events of the frame engine *)

Inductive async_event : Type :=
  | EvRequest
  | EvProcess (i2c_busy xfer_active : bool).

Definition async_step (a : ssd1306_async_state_t) (ev : async_event)
    : ssd1306_async_state_t :=
  match ev with
  | EvRequest => ssd1306_render_async_request_rerender a
  | EvProcess i2c_busy xfer_active =>
      ssd1306_render_async_process a i2c_busy xfer_active
  end.

Definition async_run (a : ssd1306_async_state_t) (evs : list async_event)
    : ssd1306_async_state_t :=
  fold_left async_step evs a.

Definition is_process (ev : async_event) : bool :=
  match ev with
  | EvRequest => false
  | EvProcess _ _ => true
  end.

(** The step sends the last page of the frame in flight. *)
Definition frame_completes (a : ssd1306_async_state_t) (ev : async_event)
    : bool :=
  match ev with
  | EvRequest => false
  | EvProcess _ xfer_active =>
      negb (active a =? 0) && (stage a =? SSD1306_ASYNC_STAGE_STREAMING)
      && negb xfer_active && (u8 (page a + 1) >=? g_pages a)
  end.

(** ... and a further frame is started right away. *)
Definition frame_restarts (a : ssd1306_async_state_t) (ev : async_event)
    : bool :=
  frame_completes a ev && negb (rerender_pending a =? 0).

Fixpoint count_completions (a : ssd1306_async_state_t)
    (evs : list async_event) : nat :=
  match evs with
  | [] => 0
  | ev :: rest =>
      ((if frame_completes a ev then 1 else 0)
       + count_completions (async_step a ev) rest)%nat
  end.

Fixpoint count_restarts (a : ssd1306_async_state_t)
    (evs : list async_event) : nat :=
  match evs with
  | [] => 0
  | ev :: rest =>
      ((if frame_restarts a ev then 1 else 0)
       + count_restarts (async_step a ev) rest)%nat
  end.

(** *** Navigation operations *)

Inductive nav_op : Type :=
  | NavPushList (parent_list target_list : Z)
  | NavPushLocalScreen (parent_list screen_id : Z)
  | NavPop.

Definition nav_step (ps : protocol_state) (op : nav_op) : Z * protocol_state :=
  match op with
  | NavPushList parent_list target_list => nav_push_list ps parent_list target_list
  | NavPushLocalScreen parent_list screen_id =>
      nav_push_local_screen ps parent_list screen_id
  | NavPop => nav_pop ps
  end.

Definition nav_run (ps : protocol_state) (ops : list nav_op) : protocol_state :=
  fold_left (fun ps op => snd (nav_step ps op)) ops ps.

(** Either kind of push, with [parent_list] as the list to return to. *)
Definition nav_push (local : bool) (ps : protocol_state)
    (parent_list target : Z) : Z * protocol_state :=
  if local then nav_push_local_screen ps parent_list target
  else nav_push_list ps parent_list target.

(** Two states that agree on the element tables and the attribute entries. *)
Definition same_tree (ps ps' : protocol_state) : Prop :=
  element_count ps = element_count ps'
  /\ elements ps = elements ps'
  /\ element_capacity ps = element_capacity ps'
  /\ attrs (runtime ps) = attrs (runtime ps').

(** Two states that agree on the element tables, the attribute entries,
    the live part of the navigation stack and the screen position. *)
Definition same_view (ps ps' : protocol_state) : Prop :=
  element_count ps = element_count ps'
  /\ elements ps = elements ps'
  /\ element_capacity ps = element_capacity ps'
  /\ attrs (runtime ps) = attrs (runtime ps')
  /\ nav_depth ps = nav_depth ps'
  /\ active_screen ps = active_screen ps'
  /\ screen_anim ps = screen_anim ps'
  /\ forall i, 0 <= i -> i < nav_depth ps \/ nav_depth ps < 0 ->
       nav_entry ps i = nav_entry ps' i.

(** The screen that the top of the stack makes the active local screen. *)
Definition local_screen_of (ps : protocol_state) : Z :=
  if nav_depth ps =? 0 then INVALID_ELEMENT_ID
  else if u8 (nav_depth ps - 1) >=? NAV_STACK_MAX_DEPTH then INVALID_ELEMENT_ID
  else if ctx_type (nav_entry ps (u8 (nav_depth ps - 1))) =? NAV_CTX_LOCAL_SCREEN
  then target_element (nav_entry ps (u8 (nav_depth ps - 1)))
  else INVALID_ELEMENT_ID.

(** The entry a push writes. *)
Definition pushed_entry (ps : protocol_state) (kind target parent : Z)
    (pst : ur_list_state) : nav_stack_entry :=
  {| ctx_type := kind; target_element := target; return_list := parent;
     saved_cursor := cursor pst; saved_top := top_index pst;
     saved_focus := focused_element ps;
     saved_active_screen := active_screen ps |}.

(** The state a push leaves before it chooses the focus: the entry written
    at the old depth, the depth raised, the active local screen synced. *)
Definition pushed (ps : protocol_state) (rt : ui_runtime)
    (entry : nav_stack_entry) : protocol_state :=
  let ps2 :=
    set_nav_depth (nav_depth ps + 1)
      (set_nav_stack (<[Z.to_nat (nav_depth ps) := entry]> (nav_stack ps))
         (set_runtime rt ps)) in
  set_active_local_screen (local_screen_of ps2) ps2.

(** [i] is the first visible, focusable element that is [owner] or below it. *)
Definition focus_candidate (ps : protocol_state) (owner i : Z) : bool :=
  negb (protocol_is_element_visible ps i =? 0)
  && ((i =? owner) || negb (is_descendant_of ps i owner =? 0))
  && negb (element_focusable ps i =? 0).

Definition first_focusable_under (ps : protocol_state) (owner : Z) : option Z :=
  List.find (focus_candidate ps owner) (ids (element_count ps)).

(** The element a search for the first focus candidate selects. *)
Definition focus_choice (ps : protocol_state) (owner : Z) (l : list Z) : Z :=
  match List.find (focus_candidate ps owner) l with
  | Some i => i
  | None => INVALID_ELEMENT_ID
  end.

(** The most recent change that named an existing element. *)
Definition last_change (ps : protocol_state) (changes : list Z) : Z :=
  List.last (List.filter (fun eid => eid <? element_count ps) changes)
    INVALID_ELEMENT_ID.

(** Block-structured reading of the COBS encoder: [d] is the data of the
    block under construction. *)
Fixpoint cobs_blocks (d inp : list Z) : list Z :=
  match inp with
  | [] => (1 + len d) :: d
  | b :: rest =>
      if b =? 0 then ((1 + len d) :: d) ++ cobs_blocks [] rest
      else cobs_blocks (d ++ [b]) rest
  end.

(** *** Scenarios *)

(** Two base screens with a local screen declared between them. *)
Definition tree_local_between : slave :=
  provision
    [ (1, [field_str "t" "h"; field_int "n" "5"]);
      (0, [field_str "t" "s"]);
      (0, [field_str "t" "l"; field_int "p" "0"]);
      (0, [field_str "t" "t"; field_int "p" "1"; field_str "tx" "A"]);
      (0, [field_str "t" "s"; field_int "p" "2"]);
      (2, [field_str "t" "s"]) ].

(** The state after the host has activated base screen 0. *)
Definition activated (s : slave) : protocol_state :=
  g_protocol_state (snd (cmd_set_active_screen s [0] 1)).

(** A list row that owns a local screen holding only a text. *)
Definition tree_local_text : slave :=
  provision
    [ (1, [field_str "t" "h"; field_int "n" "5"]);
      (0, [field_str "t" "s"]);
      (0, [field_str "t" "l"; field_int "p" "0"]);
      (0, [field_str "t" "t"; field_int "p" "1"; field_str "tx" "A"]);
      (0, [field_str "t" "s"; field_int "p" "2"]);
      (2, [field_str "t" "t"; field_int "p" "3"; field_str "tx" "B"]) ].

(** A list row that owns a local screen holding a trigger. *)
Definition tree_local_trigger : slave :=
  provision
    [ (1, [field_str "t" "h"; field_int "n" "5"]);
      (0, [field_str "t" "s"]);
      (0, [field_str "t" "l"; field_int "p" "0"]);
      (0, [field_str "t" "t"; field_int "p" "1"; field_str "tx" "A"]);
      (0, [field_str "t" "s"; field_int "p" "2"]);
      (2, [field_str "t" "i"; field_int "p" "3"]) ].

(** A list with a nested list in its row, next to a trigger on the screen. *)
Definition tree_nested_list : slave :=
  provision
    [ (1, [field_str "t" "h"; field_int "n" "5"]);
      (0, [field_str "t" "s"]);
      (0, [field_str "t" "l"; field_int "p" "0"]);
      (0, [field_str "t" "t"; field_int "p" "1"; field_str "tx" "A"]);
      (0, [field_str "t" "l"; field_int "p" "2"]);
      (2, [field_str "t" "i"; field_int "p" "0"]) ].

(** The runtime node of list [id], as stored. *)
Definition list_node (ps : protocol_state) (id : Z) : ur_list_state :=
  match ur_list_find (runtime ps) id with
  | Some st => st
  | None => ur_list_node_init id
  end.

(** ** Encoded frames of any length (cobs.c) *)

(** Block structure of an encoded frame of any length: a run of 254
    non-zero bytes closes a block with code 255. *)
Fixpoint cobs_frame (d inp : list Z) : list Z :=
  match inp with
  | [] => (1 + len d) :: d
  | b :: rest =>
      if b =? 0 then ((1 + len d) :: d) ++ cobs_frame [] rest
      else if len d =? 253 then (255 :: d ++ [b]) ++ cobs_frame [] rest
      else cobs_frame (d ++ [b]) rest
  end.

(** ** Master side of the link (master_spi.h, master_spi.c) *)

Definition MASTER_SPI_BUFFER_SIZE : Z := 96.
Definition MASTER_MAX_FRAME_BYTES : Z := 112.
Definition MASTER_MAX_COBS_BYTES : Z := 109.
Definition MASTER_MAX_COBS_LEN_LIMIT : Z := 108.
Definition RC_STREAM_ERR : Z := 13.

Definition master_map_rc_to_result (rc : Z) : Z :=
  if rc =? RC_OK then RES_OK
  else if rc =? RC_BAD_LEN then RES_BAD_LEN
  else if rc =? RC_BAD_STATE then RES_BAD_STATE
  else if rc =? RC_UNKNOWN_ID then RES_UNKNOWN_ID
  else if rc =? RC_RANGE then RES_RANGE
  else if rc =? RC_INTERNAL then RES_INTERNAL
  else if rc =? RC_PARSE_FAIL then RES_PARSE_FAIL
  else if rc =? RC_NO_SPACE then RES_NO_SPACE
  else if rc =? RC_STREAM_ERR then RES_INTERNAL
  else RES_INTERNAL.

(** [master_send_command_no_response]: the return value and the bytes
    clocked out while chip select is low ([payload] holds at least [plen]
    bytes). *)
Definition master_send_command_no_response (cmd : Z) (payload : list Z)
    (plen : Z) : Z * list Z :=
  let plen1 :=
    if plen >? u8 (MASTER_SPI_BUFFER_SIZE - 4) then u8 (MASTER_SPI_BUFFER_SIZE - 4)
    else plen in
  if plen1 >? u8 (MASTER_SPI_BUFFER_SIZE - 1) then (RES_BAD_LEN, [])
  else
    let raw := cmd :: take (Z.to_nat plen1) payload in
    let '(enc, bytes) := cobs_encode raw MASTER_MAX_COBS_BYTES in
    if (enc =? 0) || (enc >=? MASTER_MAX_COBS_BYTES) then (RES_INTERNAL, [])
    else
      let txbuf := [SPI_RESP_SYNC0; SPI_RESP_SYNC1; u8 enc] ++ bytes in
      (0, take (Z.to_nat (u8 (3 + enc))) txbuf).

(** The tail of [master_send_command], once the header [hdr2] = LEN has
    been read and [rxb] holds the LEN bytes that followed: the return
    value and the bytes copied to a response buffer of capacity [cap]. *)
Definition master_read_response (enc_len : Z) (rxb : list Z) (cap : Z)
    : Z * list Z :=
  if (enc_len =? 0) || (enc_len >? MASTER_MAX_COBS_LEN_LIMIT) then (RES_BAD_LEN, [])
  else
    let '(out_len, outb) := cobs_decode (take (Z.to_nat enc_len) rxb)
                              MASTER_SPI_BUFFER_SIZE in
    if out_len <? 1 then (RES_INTERNAL, [])
    else
      let want := u8 out_len in
      let cap1 := if cap >? want then want else cap in
      let resp := take (Z.to_nat cap1) outb in
      let rc := master_map_rc_to_result (nth 0 outb 0) in
      if negb (rc =? RES_OK) then (rc, resp) else (out_len, resp).

(** ** Further numeric helpers (ui_numeric.c, ui_protocol.c) *)

Definition numeric_set_aux (ps : protocol_state) (id a : Z) : protocol_state :=
  if id >=? element_count ps then ps
  else
    match ur_barrel_get_or_add (runtime ps) id with
    | (None, _) => ps
    | (Some _, rt1) => set_runtime (ur_barrel_modify (set_aux a) rt1 id) ps
    end.

Definition barrel_is_editing (ps : protocol_state) (eid : Z) : Z :=
  if eid >=? element_count ps then 0
  else if negb (Z.land (protocol_numeric_aux ps eid) 128 =? 0) then 1 else 0.

(** ** Positions (ui_runtime.c) *)

Definition LAYOUT_ABSOLUTE : Z := 0.

(** [ui_attr_get_position]: the result code and, on success, the values
    stored through [x], [y], [font_size] and [layout_type]. *)
Definition ui_attr_get_position (ps : protocol_state) (element_id : Z)
    : Z * option (Z * Z * Z * Z) :=
  if element_id >=? element_count ps then (RES_UNKNOWN_ID, None)
  else
    match pos_x ps, pos_y ps with
    | [], _ | _, [] => (RES_BAD_STATE, None)
    | _, _ =>
        (RES_OK,
         Some (nth (Z.to_nat element_id) (pos_x ps) 0,
               nth (Z.to_nat element_id) (pos_y ps) 0, 8, LAYOUT_ABSOLUTE))
    end.

(** An attribute entry laid out as [ui_attr_append] is asked to write it:
    a text entry holds its size byte and that many payload bytes, a screen
    role entry holds one byte. *)
Definition attr_entry_ok (e : attr_entry) : Prop :=
  (a_tag e = UI_ATTR_TAG_TEXT
   /\ 1 <= nth 0 (a_body e) 0 <= 255
   /\ len (a_body e) = 1 + nth 0 (a_body e) 0)
  \/ (a_tag e = UI_ATTR_TAG_SCREEN_ROLE /\ len (a_body e) = 1).

(** The test [ui_attr_find] makes on the first two bytes of an entry. *)
Definition attr_matches (e : attr_entry) (id tag : Z) : bool :=
  (a_tag e =? tag) && (a_element_id e =? id).

(** ** Focus stepping (ui_focus.c) *)

Fixpoint protocol_focus_next_loop (ps : protocol_state) (count start : Z)
    (steps : list Z) : protocol_state :=
  match steps with
  | [] => protocol_clear_focus ps
  | step :: rest =>
      let candidate := u8 ((start + step) mod count) in
      if protocol_is_element_visible ps candidate =? 0 then
        protocol_focus_next_loop ps count start rest
      else if element_focusable ps candidate =? 0 then
        protocol_focus_next_loop ps count start rest
      else protocol_set_focus ps candidate
  end.

Definition protocol_focus_next (ps : protocol_state) : protocol_state :=
  let count := element_count ps in
  if count =? 0 then protocol_clear_focus ps
  else
    let start :=
      if focused_element ps =? INVALID_ELEMENT_ID then 0
      else u8 ((focused_element ps + 1) mod count) in
    protocol_focus_next_loop ps count start (ids count).

(** [start] is the signed 16-bit cursor of the loop; it is decremented
    after a candidate that is skipped. *)
Fixpoint protocol_focus_prev_loop (ps : protocol_state) (count start : Z)
    (steps : nat) : protocol_state :=
  match steps with
  | O => protocol_clear_focus ps
  | S rest =>
      let start1 := if start <? 0 then i16 (count - 1) else start in
      let candidate := u8 start1 in
      if protocol_is_element_visible ps candidate =? 0 then
        protocol_focus_prev_loop ps count (i16 (start1 - 1)) rest
      else if element_focusable ps candidate =? 0 then
        protocol_focus_prev_loop ps count (i16 (start1 - 1)) rest
      else protocol_set_focus ps candidate
  end.

Definition protocol_focus_prev (ps : protocol_state) : protocol_state :=
  let count := element_count ps in
  if count =? 0 then protocol_clear_focus ps
  else
    let start :=
      if focused_element ps =? INVALID_ELEMENT_ID then i16 (count - 1)
      else i16 (focused_element ps - 1) in
    protocol_focus_prev_loop ps count start (Z.to_nat count).

(** An element the focus can land on: visible and focusable. *)
Definition focus_target (ps : protocol_state) (i : Z) : bool :=
  negb (protocol_is_element_visible ps i =? 0)
  && negb (element_focusable ps i =? 0).

(** ** List rows (ui_tree.c) *)

Definition list_row_count (ps : protocol_state) (list_eid : Z) : Z :=
  fold_left
    (fun count i =>
       if negb (parent_id (el ps i) =? list_eid) then count
       else if negb (type (el ps i) =? ELEMENT_TEXT) then count
       else if protocol_is_element_visible ps i =? 0 then count
       else u8 (count + 1))
    (ids (element_count ps)) 0.

Fixpoint list_child_by_index_loop (ps : protocol_state) (list_eid row_index : Z)
    (l : list Z) (count : Z) : Z :=
  match l with
  | [] => INVALID_ELEMENT_ID
  | i :: rest =>
      if negb (parent_id (el ps i) =? list_eid) then
        list_child_by_index_loop ps list_eid row_index rest count
      else if negb (type (el ps i) =? ELEMENT_TEXT) then
        list_child_by_index_loop ps list_eid row_index rest count
      else if protocol_is_element_visible ps i =? 0 then
        list_child_by_index_loop ps list_eid row_index rest count
      else if count =? row_index then i
      else list_child_by_index_loop ps list_eid row_index rest (u8 (count + 1))
  end.

Definition list_child_by_index (ps : protocol_state) (list_eid row_index : Z) : Z :=
  list_child_by_index_loop ps list_eid row_index (ids (element_count ps)) 0.

Fixpoint list_row_index_of_text_loop (ps : protocol_state) (list_eid text_eid : Z)
    (l : list Z) (row : Z) : Z :=
  match l with
  | [] => INVALID_ELEMENT_ID
  | i :: rest =>
      if negb (parent_id (el ps i) =? list_eid) then
        list_row_index_of_text_loop ps list_eid text_eid rest row
      else if negb (type (el ps i) =? ELEMENT_TEXT) then
        list_row_index_of_text_loop ps list_eid text_eid rest row
      else if protocol_is_element_visible ps i =? 0 then
        list_row_index_of_text_loop ps list_eid text_eid rest row
      else if i =? text_eid then row
      else list_row_index_of_text_loop ps list_eid text_eid rest (u8 (row + 1))
  end.

Definition list_row_index_of_text (ps : protocol_state) (list_eid text_eid : Z) : Z :=
  if list_eid >=? element_count ps then INVALID_ELEMENT_ID
  else if text_eid >=? element_count ps then INVALID_ELEMENT_ID
  else list_row_index_of_text_loop ps list_eid text_eid (ids (element_count ps)) 0.

(** ** Shape of a provisioned tree *)

(** The row a list node remembers as its last text child exists. *)
Definition list_child_ok (n : Z) (st : ur_list_state) : Prop :=
  last_text_child st = INVALID_ELEMENT_ID \/ 0 <= last_text_child st < n.

(** The element tables are as long as the reserved capacity, the elements
    created so far fit in them, and every parent was created before its
    child. *)
Definition tree_ok (ps : protocol_state) : Prop :=
  0 <= element_count ps <= element_capacity ps
  /\ element_capacity ps <= 255
  /\ len (elements ps) = element_capacity ps
  /\ len (pos_x ps) = element_capacity ps
  /\ len (pos_y ps) = element_capacity ps
  /\ (forall i, 0 <= i < element_count ps ->
        parent_id (el ps i) = INVALID_ELEMENT_ID
        \/ 0 <= parent_id (el ps i) < i)
  /\ Forall (list_child_ok (element_count ps)) (lists (runtime ps)).

(** Two states with the same element tables and list nodes. *)
Definition same_shape (ps ps' : protocol_state) : Prop :=
  element_count ps' = element_count ps
  /\ element_capacity ps' = element_capacity ps
  /\ elements ps' = elements ps
  /\ len (pos_x ps') = len (pos_x ps)
  /\ len (pos_y ps') = len (pos_y ps)
  /\ lists (runtime ps') = lists (runtime ps).

(** A sequence of json commands, each with its payload bytes. *)
Definition json_run (s : slave) (cmds : list (list Z)) : slave :=
  fold_left (fun s p => snd (cmd_json s p (len p))) cmds s.

(* ===================================================================== *)
(** * Properties *)
(* ===================================================================== *)

(** ** Basic facts and tactics *)

Lemma Zgtb_false a b : a <= b -> (a >? b) = false.
Proof. intros. rewrite Z.gtb_ltb. apply Z.ltb_ge. lia. Qed.

Lemma Zgtb_true a b : a > b -> (a >? b) = true.
Proof. intros. rewrite Z.gtb_ltb. apply Z.ltb_lt. lia. Qed.

Lemma Zgeb_false a b : a < b -> (a >=? b) = false.
Proof. intros. rewrite Z.geb_leb. apply Z.leb_gt. lia. Qed.

Lemma Zgeb_true a b : a >= b -> (a >=? b) = true.
Proof. intros. rewrite Z.geb_leb. apply Z.leb_le. lia. Qed.

Lemma Zltb_true a b : a < b -> (a <? b) = true.
Proof. intros. apply Z.ltb_lt. lia. Qed.

Lemma Zltb_false a b : a >= b -> (a <? b) = false.
Proof. intros. apply Z.ltb_ge. lia. Qed.

Lemma Zeqb_false a b : a <> b -> (a =? b) = false.
Proof. intros. apply Z.eqb_neq. assumption. Qed.

Lemma u8_small x : 0 <= x < 256 -> u8 x = x.
Proof. intros. unfold u8. apply Z.mod_small. lia. Qed.

Lemma u8_range x : 0 <= u8 x < 256.
Proof. unfold u8. apply Z.mod_pos_bound. lia. Qed.

Lemma u16_small x : 0 <= x < 65536 -> u16 x = x.
Proof. intros. unfold u16. apply Z.mod_small. lia. Qed.

Lemma u16_range x : 0 <= u16 x < 65536.
Proof. unfold u16. apply Z.mod_pos_bound. lia. Qed.

Lemma i16_small x : -32768 <= x <= 32767 -> i16 x = x.
Proof. intros. unfold i16. rewrite Z.mod_small by lia. lia. Qed.

Lemma len_app {A} (l1 l2 : list A) : len (l1 ++ l2) = len l1 + len l2.
Proof. unfold len. rewrite length_app. lia. Qed.

Lemma len_cons {A} (x : A) (l : list A) : len (x :: l) = 1 + len l.
Proof. unfold len. simpl length. lia. Qed.

Lemma len_nil {A} : len (@nil A) = 0.
Proof. reflexivity. Qed.

Lemma len_nonneg {A} (l : list A) : 0 <= len l.
Proof. unfold len. lia. Qed.

Lemma len_insert {A} (l : list A) i x : len (<[i:=x]> l) = len l.
Proof. unfold len. now rewrite length_insert. Qed.

Ltac len_simpl :=
  repeat (rewrite ?len_app, ?len_cons, ?len_nil, ?len_insert in *).

(** Reduce projections of updated records, and nothing else. *)
Ltac proj_simpl :=
  cbn [parent_id type l_element_id cursor top_index visible_rows anim_active
    anim_dir anim_pix pending_top pending_cursor last_text_child
    b_element_id aux value t_element_id version a_tag a_element_id
    a_body head_used used_tail attr_base attrs triggers lists barrels
    ctx_type target_element return_list saved_cursor saved_top
    saved_focus saved_active_screen active_overlay_screen_id
    remaining_ms mask_input prev_focus sa_active from_screen to_screen
    offset_px dir active_screen screen_count element_count
    element_capacity elements pos_x pos_y scroll_x initialized
    status_dirty status_dirty_id trigger_count runtime overlay
    protocol_version capabilities focused_element input_source
    nav_stack active_local_screen nav_depth screen_anim
    edit_blink_active edit_blink_phase edit_blink_counter header_seen
    c_parent_id c_x c_y c_type_code c_obj g_rx_enc_buf g_rx_enc_len
    g_rx_frame_len g_rx_frame_ready g_rx_last_byte_ms g_rx_state
    g_rx_overrun g_tx_buf g_tx_len g_tx_queue g_tx_queue_len
    g_tx_queue_pending dma_cntr dma_frame g_protocol_state g_rx g_tx
    g_render_requested g_request_standby active page stage
    rerender_pending g_pages set_cursor set_top_index set_visible_rows
    set_anim_active set_anim_dir set_anim_pix set_last_text_child
    set_aux set_value set_head_used set_used_tail set_attr_base
    set_attrs set_triggers set_lists set_barrels set_active_screen
    set_screen_count set_element_count set_element_capacity
    set_elements set_pos_x set_pos_y set_scroll_x set_initialized
    set_status_dirty set_status_dirty_id set_trigger_count set_runtime
    set_overlay set_focused_element set_nav_stack
    set_active_local_screen set_nav_depth set_screen_anim
    set_header_seen set_g_rx_enc_buf set_g_rx_enc_len
    set_g_rx_frame_len set_g_rx_frame_ready set_g_rx_last_byte_ms
    set_g_rx_state set_g_rx_overrun set_g_tx_buf set_g_tx_len
    set_g_tx_queue set_g_tx_queue_len set_g_tx_queue_pending
    set_dma_cntr set_dma_frame set_g_protocol_state set_g_rx set_g_tx
    set_g_render_requested set_g_request_standby set_stage on_state
    fst snd] in *.

Example cobs_encode_ping_body :
  cobs_encode [0; 1; 0; 0] 61 = (5, [1; 2; 1; 1; 1]).
Proof. reflexivity. Qed.

Example cobs_decode_ping_request : cobs_decode [2; 0] 64 = (1, [0]).
Proof. reflexivity. Qed.

Section CobsRoundTrip.

Lemma insert_middle {A} (E d : list A) (ph x : A) :
  <[length E := x]> (E ++ ph :: d) = E ++ x :: d.
Proof.
  rewrite insert_app_r_alt by lia.
  replace (length E - length E)%nat with 0%nat by lia. reflexivity.
Qed.

Lemma cobs_blocks_length d inp :
  len (cobs_blocks d inp) = 1 + len d + len inp.
Proof.
  revert d. induction inp as [|b rest IH]; intros d; simpl.
  - len_simpl. lia.
  - destruct (b =? 0).
    + rewrite len_cons, len_app, IH. len_simpl. lia.
    + rewrite IH. len_simpl. lia.
Qed.

Lemma cobs_encode_loop_blocks inp : forall E ph d out_max,
  Forall is_byte inp ->
  len d + len inp < 254 ->
  len E + 1 + len d + len inp <= out_max ->
  exists out ci code,
    cobs_encode_loop inp out_max (E ++ ph :: d) (length E) (1 + len d)
      = (true, (out, ci, code))
    /\ <[ci := code]> out = E ++ cobs_blocks d inp.
Proof.
  induction inp as [|b rest IH]; intros E ph d out_max Hb Hlen Hmax.
  - simpl. eexists _, _, _. split; [reflexivity|]. apply insert_middle.
  - inversion Hb as [|? ? Hb1 Hb2]; subst. rewrite len_cons in *.
    pose proof (len_nonneg rest). pose proof (len_nonneg d). pose proof (len_nonneg E).
    simpl. destruct (Z.eqb_spec b 0) as [->|Hnz].
    + rewrite insert_middle.
      replace (len (E ++ (1 + len d) :: d) + 1 >? out_max) with false
        by (symmetry; apply Zgtb_false; len_simpl; lia).
      replace ((E ++ (1 + len d) :: d) ++ [0]) with ((E ++ (1 + len d) :: d) ++ 0 :: [])
        by reflexivity.
      destruct (IH (E ++ (1 + len d) :: d) 0 [] out_max Hb2) as (out & ci & code & Hrun & Hout).
      * len_simpl. lia.
      * len_simpl. lia.
      * change (1 + len []) with 1 in Hrun. rewrite Hrun.
        eexists _, _, _. split; [reflexivity|]. rewrite Hout.
        rewrite <- app_assoc. reflexivity.
    + replace (len (E ++ ph :: d) >=? out_max) with false
        by (symmetry; apply Zgeb_false; len_simpl; lia).
      unfold u8. rewrite Z.mod_small by lia.
      destruct (Z.eqb_spec (1 + len d + 1) 255) as [Heq|_]; [lia|].
      replace ((E ++ ph :: d) ++ [b]) with (E ++ ph :: (d ++ [b]))
        by (rewrite <- app_assoc; reflexivity).
      destruct (IH E ph (d ++ [b]) out_max Hb2) as (out & ci & code & Hrun & Hout).
      * len_simpl. lia.
      * len_simpl. lia.
      * replace (1 + len (d ++ [b])) with (1 + len d + 1) in Hrun by (len_simpl; lia).
        rewrite Hrun. eexists _, _, _. split; [reflexivity|]. exact Hout.
Qed.

Lemma cobs_decode_copy_app d : forall R out out_max,
  len out + len d <= out_max ->
  cobs_decode_copy (length d) (d ++ R) out out_max = Some (R, out ++ d).
Proof.
  induction d as [|b d IH]; intros R out out_max Hmax; simpl.
  - now rewrite app_nil_r.
  - rewrite len_cons in Hmax. pose proof (len_nonneg d).
    replace (len out >=? out_max) with false
      by (symmetry; apply Zgeb_false; lia).
    rewrite IH by (len_simpl; lia).
    rewrite <- app_assoc. reflexivity.
Qed.

Lemma cobs_blocks_nonempty d inp : exists c r, cobs_blocks d inp = c :: r.
Proof.
  revert d. induction inp as [|b rest IH]; intros d; simpl.
  - eauto.
  - destruct (b =? 0); simpl; eauto.
Qed.

Lemma cobs_decode_loop_blocks inp : forall d out out_max fuel,
  Forall is_byte inp ->
  len d + len inp < 254 ->
  len out + len d + len inp <= out_max ->
  (length (cobs_blocks d inp) <= fuel)%nat ->
  cobs_decode_loop fuel (cobs_blocks d inp) out out_max
    = (len (out ++ d ++ inp), out ++ d ++ inp).
Proof.
  induction inp as [|b rest IH]; intros d out out_max fuel Hb Hlen Hmax Hfuel.
  - simpl in *. destruct fuel as [|fuel]; [lia|].
    pose proof (len_nonneg d). cbn [cobs_decode_loop].
    destruct (Z.eqb_spec (1 + len d) 0); [lia|].
    replace (Z.to_nat (1 + len d - 1)) with (length d) by (unfold len; lia).
    pose proof (cobs_decode_copy_app d [] out out_max) as Hc.
    rewrite app_nil_r in Hc. rewrite Hc by (len_simpl; lia).
    destruct fuel; simpl; rewrite app_nil_r; reflexivity.
  - inversion Hb as [|? ? Hb1 Hb2]; subst. rewrite len_cons in *.
    pose proof (len_nonneg rest). pose proof (len_nonneg d). pose proof (len_nonneg out).
    simpl in *. destruct (Z.eqb_spec b 0) as [->|Hnz].
    + destruct fuel as [|fuel]; [simpl in Hfuel; lia|].
      cbn [cobs_decode_loop app]. destruct (Z.eqb_spec (1 + len d) 0); [lia|].
      replace (Z.to_nat (1 + len d - 1)) with (length d) by (unfold len; lia).
      rewrite cobs_decode_copy_app by lia.
      destruct (cobs_blocks_nonempty [] rest) as (c & r & Hcr).
      rewrite Hcr. destruct (Z.eqb_spec (1 + len d) 255); [lia|]. simpl negb. cbv iota.
      replace (len (out ++ d) >=? out_max) with false
        by (symmetry; apply Zgeb_false; len_simpl; lia).
      rewrite <- Hcr.
      rewrite IH; try assumption.
      * simpl. rewrite <- !app_assoc. reflexivity.
      * len_simpl. lia.
      * len_simpl. lia.
      * simpl in Hfuel. rewrite length_app in Hfuel. lia.
    + rewrite IH; try assumption.
      * rewrite <- !app_assoc. reflexivity.
      * len_simpl. lia.
      * len_simpl. lia.
Qed.

Lemma cobs_decode_copy_shorter n : forall inp out out_max rest' out',
  cobs_decode_copy n inp out out_max = Some (rest', out') ->
  (length rest' <= length inp)%nat.
Proof.
  induction n as [|n IH]; intros inp out out_max rest' out' H; simpl in H.
  - injection H as <- <-. lia.
  - destruct inp as [|b rest]; [discriminate|].
    destruct (len out >=? out_max); [discriminate|].
    apply IH in H. simpl. lia.
Qed.

(** The fuel of [cobs_decode] never runs out: any fuel at least the input
    length gives the same result. *)
Lemma cobs_decode_loop_fuel fuel1 : forall fuel2 inp out out_max,
  (length inp <= fuel1)%nat -> (length inp <= fuel2)%nat ->
  cobs_decode_loop fuel1 inp out out_max = cobs_decode_loop fuel2 inp out out_max.
Proof.
  induction fuel1 as [|fuel1 IH]; intros fuel2 inp out out_max H1 H2.
  - destruct inp; [|simpl in H1; lia]. destruct fuel2; reflexivity.
  - destruct inp as [|code rest]; [destruct fuel2; reflexivity|].
    destruct fuel2 as [|fuel2]; [simpl in H2; lia|].
    cbn [cobs_decode_loop]. destruct (code =? 0); [reflexivity|].
    destruct (cobs_decode_copy _ rest out out_max) as [[rest' out']|] eqn:Hc;
      [|reflexivity].
    apply cobs_decode_copy_shorter in Hc. simpl in H1, H2.
    destruct rest' as [|c r]; [apply IH; simpl; lia|].
    destruct (negb (code =? 255)); [destruct (len out' >=? out_max); [reflexivity|]|];
      apply IH; simpl in *; lia.
Qed.

(** C7: for every byte sequence of length 0 to 111, [cobs_encode] into a
    buffer with room for one more byte than the input writes exactly that
    many bytes, and [cobs_decode] of those bytes, into a buffer that can hold
    the input, returns the length of the input and the input itself. *)
Theorem cobs_roundtrip (input : list Z) (out_max dec_max : Z) :
  Forall is_byte input ->
  len input <= 111 ->
  len input + 1 <= out_max ->
  len input <= dec_max ->
  exists enc,
    cobs_encode input out_max = (len input + 1, enc)
    /\ cobs_decode enc dec_max = (len input, input).
Proof.
  intros Hb Hlen Hout Hdec. pose proof (len_nonneg input) as Hnn.
  destruct (cobs_encode_loop_blocks input [] 0 [] out_max Hb)
    as (out & ci & code & Hrun & Hres); [len_simpl; lia ..|].
  exists (cobs_blocks [] input). split.
  - unfold cobs_encode. destruct (Z.eqb_spec out_max 0); [lia|].
    change ([] ++ [0]) with [0] in Hrun. change (1 + len []) with 1 in Hrun.
    cbn [length] in Hrun. rewrite Hrun, Hres. cbn [app].
    rewrite cobs_blocks_length. len_simpl. f_equal. lia.
  - unfold cobs_decode.
    rewrite (cobs_decode_loop_blocks input [] [] dec_max); try assumption;
      [reflexivity | len_simpl; lia ..| lia].
Qed.

(** The body of the ping response, through a 61-byte output buffer. *)
Lemma cobs_roundtrip_witness :
  exists enc,
    cobs_encode [0; 1; 0; 0] 61 = (len [0; 1; 0; 0] + 1, enc)
    /\ cobs_decode enc 64 = (len [0; 1; 0; 0], [0; 1; 0; 0]).
Proof.
  apply (cobs_roundtrip [0; 1; 0; 0] 61 64).
  - repeat constructor; unfold is_byte; lia.
  - vm_compute. discriminate.
  - vm_compute. discriminate.
  - vm_compute. discriminate.
Defined.

End CobsRoundTrip.

(** ** The ping exchange *)

(** C2 (counterexample): a fresh slave that receives the ping frame
    [A5 5A 02 02 00] hands the frame [A5 5A 05 01 02 01 01 01] to the TX
    DMA, not the frame [A5 5A 05 05 00 01 00 00] of the scenario. *)
Lemma ping_frame_not_as_listed :
  dma_frame (g_tx (protocol_service_deferred_ops ignore_input
                     (receive_bytes slave_init [165; 90; 2; 2; 0])))
    = [165; 90; 5; 1; 2; 1; 1; 1]
  /\ [165; 90; 5; 1; 2; 1; 1; 1] <> [165; 90; 5; 5; 0; 1; 0; 0].
Proof. split; [vm_compute; reflexivity | discriminate]. Qed.

(** C2 (amended): after the ping frame [A5 5A 02 02 00] a fresh slave
    starts the TX DMA on exactly [A5 5A 05 01 02 01 01 01]: sync bytes,
    length 5, and a 5-byte stuffed body that decodes to [00 01 00 00],
    that is rc = OK, version = 1, caps = 0. *)
Theorem ping_response_frame
    (cmd_input_event : slave -> list Z -> Z -> Z * slave) :
  let s := protocol_service_deferred_ops cmd_input_event
             (receive_bytes slave_init [165; 90; 2; 2; 0]) in
  dma_frame (g_tx s) = [165; 90; 5; 1; 2; 1; 1; 1]
  /\ dma_cntr (g_tx s) = 8
  /\ cobs_decode (drop 3 (dma_frame (g_tx s))) SPI_BUFFER_SIZE
     = (4, [RC_OK; 1; 0; 0])
  /\ g_rx_state (g_rx s) = RX_STATE_WAIT_SYNC0
  /\ g_rx_frame_ready (g_rx s) = 0.
Proof. repeat split; vm_compute; reflexivity. Qed.

(** ** Screen ordinals *)

(** C4 (code evaluated at the failing input): with a local screen (id 3)
    declared between two base screens (ids 0 and 4), ordinal 1 maps to
    screen 4 but screen 4 maps back to ordinal 2. *)
Theorem screen_ordinal_not_inverse :
  let ps := g_protocol_state tree_local_between in
  element_count ps = 5
  /\ screen_count ps = 2
  /\ parent_id (el ps 3) = 2 /\ type (el ps 3) = ELEMENT_SCREEN
  /\ find_screen_id_by_ordinal ps 1 = 4
  /\ find_screen_ordinal_by_id ps 4 = 2.
Proof. repeat split; vm_compute; reflexivity. Qed.

(** ** Status dirty id *)

Lemma changed_count ps eid :
  element_count (protocol_element_changed ps eid) = element_count ps.
Proof. unfold protocol_element_changed. destruct (eid >=? element_count ps); reflexivity. Qed.

Lemma last_nonempty_default {A} (x : A) (l : list A) (d1 d2 : A) :
  List.last (x :: l) d1 = List.last (x :: l) d2.
Proof.
  revert x. induction l as [|y l IH]; intros x; [reflexivity|].
  change (List.last (y :: l) d1 = List.last (y :: l) d2). apply IH.
Qed.

Lemma changes_dirty_id ps changes :
  let ps' := fold_left protocol_element_changed changes ps in
  (if negb (status_dirty ps' =? 0) then status_dirty_id ps' else INVALID_ELEMENT_ID)
  = List.last (List.filter (fun eid => eid <? element_count ps) changes)
      (if negb (status_dirty ps =? 0) then status_dirty_id ps else INVALID_ELEMENT_ID).
Proof.
  revert ps. induction changes as [|eid rest IH]; intros ps; [reflexivity|].
  cbn [fold_left List.filter]. cbv zeta in IH. rewrite IH, changed_count.
  unfold protocol_element_changed.
  rewrite Z.geb_leb. destruct (Z.leb_spec (element_count ps) eid) as [Hge|Hlt].
  - replace (eid <? element_count ps) with false by (symmetry; apply Z.ltb_ge; lia).
    reflexivity.
  - replace (eid <? element_count ps) with true by (symmetry; apply Z.ltb_lt; lia).
    cbn. destruct (List.filter _ rest) as [|z l]; [reflexivity|].
    apply last_nonempty_default.
Qed.



(** ** Rerender coalescing *)

Section Coalescing.

Implicit Types (a : ssd1306_async_state_t) (ev : async_event).

Lemma request_when_active a :
  active a <> 0 ->
  ssd1306_render_async_request_rerender a
  = {| active := active a; page := page a; stage := stage a;
       rerender_pending := 1; g_pages := g_pages a |}.
Proof.
  intros H. unfold ssd1306_render_async_request_rerender.
  destruct (Z.eqb_spec (active a) 0); [contradiction|reflexivity].
Qed.

Lemma request_idempotent a :
  ssd1306_render_async_request_rerender (ssd1306_render_async_request_rerender a)
  = ssd1306_render_async_request_rerender a.
Proof.
  unfold ssd1306_render_async_request_rerender.
  destruct (Z.eqb_spec (active a) 0) as [H|H]; cbn; [rewrite H; reflexivity|].
  destruct (Z.eqb_spec (active a) 0); [contradiction|reflexivity].
Qed.

Lemma requests_collapse a n :
  async_run a (repeat EvRequest (S n)) = ssd1306_render_async_request_rerender a.
Proof.
  revert a. induction n as [|n IH]; intros a; [reflexivity|].
  change (async_run (ssd1306_render_async_request_rerender a) (repeat EvRequest (S n))
          = ssd1306_render_async_request_rerender a).
  rewrite IH. apply request_idempotent.
Qed.

(** A process step never raises the flag; it clears it on a restart. *)
Lemma process_pending a i x :
  rerender_pending (ssd1306_render_async_process a i x) = rerender_pending a
  \/ (frame_restarts a (EvProcess i x) = true
      /\ rerender_pending (ssd1306_render_async_process a i x) = 0).
Proof.
  unfold ssd1306_render_async_process, frame_restarts, frame_completes.
  destruct (active a =? 0); [left; reflexivity|].
  destruct (stage a =? SSD1306_ASYNC_STAGE_ADDR) eqn:E0;
    [destruct i; left; reflexivity|].
  destruct (stage a =? SSD1306_ASYNC_STAGE_BUILD) eqn:E1;
    [destruct i; left; reflexivity|].
  destruct (stage a =? SSD1306_ASYNC_STAGE_STREAM_START) eqn:E2;
    [destruct i; left; reflexivity|].
  destruct (stage a =? SSD1306_ASYNC_STAGE_STREAMING) eqn:E3; [|left; reflexivity].
  destruct x; [left; reflexivity|].
  destruct (u8 (page a + 1) >=? g_pages a); [|left; reflexivity].
  destruct (rerender_pending a =? 0); [left; reflexivity|right; split; reflexivity].
Qed.

Lemma restart_needs_pending a ev :
  rerender_pending a = 0 -> frame_restarts a ev = false.
Proof.
  intros H. unfold frame_restarts. rewrite H. apply andb_false_r.
Qed.

Lemma restart_starts_frame a ev :
  frame_restarts a ev = true ->
  async_step a ev
  = {| active := 1; page := 0; stage := SSD1306_ASYNC_STAGE_ADDR;
       rerender_pending := 0; g_pages := g_pages a |}.
Proof.
  destruct ev as [|i x]; [discriminate|].
  unfold frame_restarts, frame_completes. intros H.
  apply andb_true_iff in H as [H Hp]. apply andb_true_iff in H as [H Hpg].
  apply andb_true_iff in H as [H Hx]. apply andb_true_iff in H as [Ha Hs].
  cbn [async_step]. unfold ssd1306_render_async_process.
  apply negb_true_iff in Ha, Hx, Hp. rewrite Ha. subst x.
  apply Z.eqb_eq in Hs. rewrite Hs. cbn. rewrite Hpg, Hp. reflexivity.
Qed.

(** Without a request in between, a clear flag stays clear. *)
Lemma no_request_no_restart evs : forall a,
  forallb is_process evs = true ->
  rerender_pending a = 0 ->
  count_restarts a evs = 0%nat.
Proof.
  induction evs as [|ev rest IH]; intros a Hp H0; [reflexivity|].
  cbn [count_restarts]. cbn [forallb] in Hp. apply andb_true_iff in Hp as [Hev Hrest].
  rewrite restart_needs_pending by assumption.
  rewrite IH; [reflexivity|assumption|].
  destruct ev as [|i x]; [discriminate|]. cbn [async_step].
  destruct (process_pending a i x) as [->|[_ ->]]; [assumption|reflexivity].
Qed.

Lemma no_request_one_restart evs : forall a,
  forallb is_process evs = true ->
  (count_restarts a evs <= 1)%nat.
Proof.
  induction evs as [|ev rest IH]; intros a Hp; [cbn; lia|].
  cbn [count_restarts]. pose proof Hp as Hp'.
  cbn [forallb] in Hp. apply andb_true_iff in Hp as [Hev Hrest].
  destruct (frame_restarts a ev) eqn:Hr.
  - rewrite (no_request_no_restart rest); [lia|assumption|].
    rewrite (restart_starts_frame _ _ Hr). reflexivity.
  - specialize (IH (async_step a ev) Hrest). lia.
Qed.

Lemma restart_is_completion a ev :
  frame_restarts a ev = true -> frame_completes a ev = true.
Proof. unfold frame_restarts. intros H. apply andb_true_iff in H. tauto. Qed.

Lemma count_restarts_app pre : forall a post,
  count_restarts a (pre ++ post)
  = (count_restarts a pre + count_restarts (async_run a pre) post)%nat.
Proof.
  induction pre as [|ev rest IH]; intros a post; [reflexivity|].
  cbn [app count_restarts]. rewrite IH. unfold async_run. cbn [fold_left]. lia.
Qed.

Lemma no_completion_no_restart pre : forall a,
  count_completions a pre = 0%nat -> count_restarts a pre = 0%nat.
Proof.
  induction pre as [|ev rest IH]; intros a H; [reflexivity|].
  cbn [count_completions count_restarts] in *.
  destruct (frame_completes a ev) eqn:Hc; [lia|].
  destruct (frame_restarts a ev) eqn:Hr;
    [apply restart_is_completion in Hr; congruence|].
  rewrite IH; lia.
Qed.

(** C9: while a frame is in flight any number of rerender requests leave
    the same single pending flag; once the requests stop, at most one
    further frame is started, whatever the engine is asked to do
    afterwards, and none when no request is pending; the restart itself
    clears the flag and begins at page 0. *)
Theorem rerender_requests_coalesce
    (a : ssd1306_async_state_t) (n : nat) (pre post : list async_event) :
  active a <> 0 ->
  count_completions a pre = 0%nat ->
  forallb is_process post = true ->
  async_run a (repeat EvRequest (S n)) = ssd1306_render_async_request_rerender a
  /\ rerender_pending (async_run a (repeat EvRequest (S n))) = 1
  /\ (count_restarts a (pre ++ post) <= 1)%nat
  /\ (rerender_pending (async_run a pre) = 0 ->
      count_restarts a (pre ++ post) = 0%nat)
  /\ (forall ev, frame_restarts a ev = true ->
        rerender_pending (async_step a ev) = 0
        /\ active (async_step a ev) = 1 /\ page (async_step a ev) = 0
        /\ stage (async_step a ev) = SSD1306_ASYNC_STAGE_ADDR).
Proof.
  intros Hact Hpre Hpost.
  split; [apply requests_collapse|].
  split; [rewrite requests_collapse, request_when_active by assumption; reflexivity|].
  split; [|split].
  - rewrite count_restarts_app, no_completion_no_restart by assumption.
    pose proof (no_request_one_restart post (async_run a pre) Hpost). lia.
  - intros H0. rewrite count_restarts_app, no_completion_no_restart by assumption.
    rewrite no_request_no_restart; auto.
  - intros ev Hr. rewrite (restart_starts_frame _ _ Hr). repeat split.
Qed.

End Coalescing.

(** A 4-page frame at its last page; three requests arrive, then the
    engine runs on through the extra frame and beyond. *)
Lemma rerender_requests_coalesce_witness :
  (count_restarts
     {| active := 1; page := 3; stage := SSD1306_ASYNC_STAGE_STREAM_START;
        rerender_pending := 0; g_pages := 4 |}
     ([EvRequest; EvProcess false false; EvRequest; EvRequest; EvProcess false true]
      ++ repeat (EvProcess false false) 40) <= 1)%nat.
Proof.
  refine (proj1 (proj2 (proj2
    (rerender_requests_coalesce
       {| active := 1; page := 3; stage := SSD1306_ASYNC_STAGE_STREAM_START;
          rerender_pending := 0; g_pages := 4 |} 0
       [EvRequest; EvProcess false false; EvRequest; EvRequest; EvProcess false true]
       (repeat (EvProcess false false) 40) _ _ _)))).
  - cbn. lia.
  - reflexivity.
  - reflexivity.
Defined.

(** ** The arena bound *)


Section ArenaBound.

Variable ps : protocol_state.
Hypothesis Hok : arena_ok ps.

Lemma alloc_tail_fits size :
  0 <= size < 65536 ->
  head_used (runtime ps) + used_tail (runtime ps) + size <= UI_ATTR_ARENA_CAP ->
  arena_step ps (OpAllocTail size)
  = (RES_OK, set_runtime (set_used_tail (used_tail (runtime ps) + size) (runtime ps)) ps).
Proof using Hok.
  intros Hs Hfit. destruct Hok as (Hh & Ht & _). unfold UI_ATTR_ARENA_CAP in *.
  cbn [arena_step]. unfold ur__alloc_tail, UI_ATTR_ARENA_CAP.
  rewrite Zgtb_false by lia. rewrite (u16_small (used_tail _ + size)) by lia.
  reflexivity.
Qed.

Lemma alloc_tail_breach size :
  head_used (runtime ps) + used_tail (runtime ps) + size > UI_ATTR_ARENA_CAP ->
  arena_step ps (OpAllocTail size) = (RES_NO_SPACE, ps).
Proof.
  intros Hb. cbn [arena_step]. unfold ur__alloc_tail.
  rewrite Zgtb_true by lia. reflexivity.
Qed.

Lemma append_breach element_id tag payload len_prefix payload_len :
  would_breach ps (OpAppend element_id tag payload len_prefix payload_len) ->
  snd (arena_step ps (OpAppend element_id tag payload len_prefix payload_len)) = ps
  /\ fst (arena_step ps (OpAppend element_id tag payload len_prefix payload_len))
     <> RES_OK
  /\ (initialized ps = 0 -> element_id < element_capacity ps ->
      fst (arena_step ps (OpAppend element_id tag payload len_prefix payload_len))
      = RES_NO_SPACE).
Proof.
  cbn [would_breach arena_step]. intros Hb. unfold ui_attr_append.
  destruct (Z.eqb_spec (initialized ps) 0) as [Hi|Hi]; cbn [negb].
  - destruct (Z.geb_spec element_id (element_capacity ps)) as [Hc|Hc].
    + repeat split; [discriminate|intros; lia].
    + rewrite Zgtb_true by exact Hb. repeat split. discriminate.
  - repeat split; [discriminate|]. intros. contradiction.
Qed.

Lemma append_used element_id tag payload len_prefix payload_len :
  arena_ok (snd (arena_step ps (OpAppend element_id tag payload len_prefix payload_len))).
Proof using Hok.
  cbn [arena_step]. unfold ui_attr_append.
  destruct (negb (initialized ps =? 0)); [exact Hok|].
  destruct (element_id >=? element_capacity ps); [exact Hok|].
  set (need := u16 _).
  destruct (Z.gtb_spec (head_used (runtime ps) + need + used_tail (runtime ps))
              UI_ATTR_ARENA_CAP) as [Hgt|Hle]; [exact Hok|].
  destruct Hok as (Hh & Ht & Hsum). pose proof (u16_range (2 + payload_len +
    (if len_prefix =? 0 then 0 else 1))) as Hn. fold need in Hn.
  unfold arena_ok, arena_used, UI_ATTR_ARENA_CAP in *. cbn.
  rewrite u16_small by lia. lia.
Qed.

Lemma reserve_breach capacity :
  0 <= capacity < 256 ->
  used_tail (runtime ps) = 0 ->
  would_breach ps (OpReserve capacity) ->
  snd (arena_step ps (OpReserve capacity)) = ps
  /\ fst (arena_step ps (OpReserve capacity)) <> RES_OK
  /\ (capacity <> 0 -> element_capacity ps = 0 ->
      fst (arena_step ps (OpReserve capacity)) = RES_NO_SPACE).
Proof.
  cbn [would_breach arena_step]. unfold UI_ATTR_ARENA_CAP. intros Hc Ht Hb.
  unfold protocol_reserve_element_storage, SIZEOF_ELEMENT, UI_ATTR_ARENA_CAP.
  destruct (Z.eqb_spec capacity 0) as [->|Hc0]; [lia|].
  destruct (Z.eqb_spec (element_capacity ps) 0) as [He|He]; cbn [negb].
  - rewrite u16_small by lia. rewrite Zgtb_true by lia.
    repeat split. discriminate.
  - repeat split; [discriminate|]. intros. contradiction.
Qed.

Lemma reserve_used capacity :
  0 <= capacity < 256 ->
  used_tail (runtime ps) = 0 ->
  arena_ok (snd (arena_step ps (OpReserve capacity))).
Proof using Hok.
  intros Hc Ht. cbn [arena_step].
  unfold protocol_reserve_element_storage, SIZEOF_ELEMENT.
  destruct (capacity =? 0); [exact Hok|].
  destruct (negb (element_capacity ps =? 0)); [exact Hok|].
  rewrite (u16_small (capacity * (2 + 2))) by lia.
  destruct (Z.gtb_spec (capacity * (2 + 2)) UI_ATTR_ARENA_CAP) as [Hgt|Hle];
    [exact Hok|].
  unfold arena_ok, arena_used, UI_ATTR_ARENA_CAP in *. cbn.
  rewrite Ht. rewrite (u16_small (capacity * 2)) by lia.
  rewrite (u16_small (capacity * 2 + capacity)) by lia.
  rewrite u16_small by lia. lia.
Qed.

Lemma alloc_tail_used size :
  0 <= size < 65536 ->
  arena_ok (snd (arena_step ps (OpAllocTail size))).
Proof using Hok.
  intros Hs.
  destruct (Z.gtb_spec (head_used (runtime ps) + used_tail (runtime ps) + size)
              UI_ATTR_ARENA_CAP) as [Hgt|Hle].
  - rewrite alloc_tail_breach by lia. exact Hok.
  - rewrite alloc_tail_fits by assumption.
    destruct Hok as (Hh & Ht & Hsum).
    unfold arena_ok, arena_used, UI_ATTR_ARENA_CAP in *. cbn. lia.
Qed.

End ArenaBound.

Lemma arena_run_ok ops : forall ps,
  arena_ok ps -> Forall op_in_range ops -> reserve_on_empty_tail ps ops ->
  arena_ok (arena_run ps ops).
Proof.
  induction ops as [|op rest IH]; intros ps Hok Hr He; [exact Hok|].
  inversion Hr as [|? ? Hop Hrest]; subst. destruct He as [He1 He2].
  unfold arena_run. cbn [fold_left]. apply IH; [|assumption|assumption].
  destruct op as [capacity|element_id tag payload len_prefix payload_len|size].
  - apply reserve_used; assumption.
  - apply append_used; assumption.
  - apply alloc_tail_used; assumption.
Qed.



(** ** Creating elements *)

Lemma store_position_frame ps id x y :
  let ps' := snd (ui_attr_store_position ps id x y) in
  element_count ps' = element_count ps
  /\ element_capacity ps' = element_capacity ps
  /\ runtime ps' = runtime ps
  /\ elements ps' = elements ps
  /\ initialized ps' = initialized ps
  /\ screen_count ps' = screen_count ps.
Proof.
  unfold ui_attr_store_position.
  destruct (pos_x ps); [repeat split|].
  destruct (pos_y ps); [repeat split|].
  destruct (id >=? element_capacity ps); repeat split.
Qed.

Lemma add_basic_element_full ps parent ty x y :
  element_capacity ps <= element_count ps ->
  add_basic_element ps parent ty x y = (255, ps).
Proof.
  intros H. unfold add_basic_element.
  destruct (element_capacity ps =? 0); [reflexivity|].
  rewrite Zgeb_true by lia. reflexivity.
Qed.

Lemma add_basic_element_cases ps parent ty x y :
  add_basic_element ps parent ty x y = (255, ps)
  \/ exists ps1,
       add_basic_element ps parent ty x y = (element_count ps, ps1)
       /\ element_count ps < element_capacity ps
       /\ element_capacity ps <> 0
       /\ element_count ps1 = u8 (element_count ps + 1)
       /\ runtime ps1 = runtime ps
       /\ element_capacity ps1 = element_capacity ps
       /\ initialized ps1 = initialized ps
       /\ screen_count ps1 = screen_count ps
       /\ elements ps1
          = <[Z.to_nat (element_count ps) := {| parent_id := parent; type := ty |}]>
              (elements ps).
Proof.
  unfold add_basic_element.
  destruct (Z.eqb_spec (element_capacity ps) 0); [left; reflexivity|].
  destruct (Z.geb_spec (element_count ps) (element_capacity ps)); [left; reflexivity|].
  destruct (elements ps) as [|e0 es] eqn:E1; [left; reflexivity|].
  destruct (pos_x ps) as [|x0 xs] eqn:E2; [left; reflexivity|].
  destruct (pos_y ps) as [|y0 ys] eqn:E3; [left; reflexivity|].
  right. eexists. split; [reflexivity|].
  match goal with |- context [ui_attr_store_position ?p ?i ?a ?b] =>
    destruct (store_position_frame p i a b) as (H1 & H2 & H3 & H4 & H5 & H6) end.
  cbv zeta in *. rewrite H1, H2, H3, H4, H5, H6. proj_simpl.
  rewrite ?E1. repeat split; try lia; try reflexivity.
Qed.

(** ** Barrel values *)

Lemma clamp_i16_range v : -32768 <= clamp_i16 v <= 32767.
Proof.
  unfold clamp_i16. destruct (Z.ltb_spec v (-32768)); [lia|].
  destruct (Z.gtb_spec v 32767); lia.
Qed.

Lemma barrel_find_modify f l id :
  (forall n, b_element_id (f n) = b_element_id n) ->
  ur_barrel_find_in (ur_barrel_modify_in f l id) id
  = option_map f (ur_barrel_find_in l id).
Proof.
  intros Hf. induction l as [|n rest IH]; [reflexivity|]. cbn.
  destruct (Z.eqb_spec (b_element_id n) id) as [He|Hne]; cbn.
  - rewrite Hf. destruct (Z.eqb_spec (b_element_id n) id); [reflexivity|contradiction].
  - destruct (Z.eqb_spec (b_element_id n) id); [contradiction|]. exact IH.
Qed.

Lemma numeric_set_value_existing ps id v st :
  id < element_count ps ->
  ur_barrel_find (runtime ps) id = Some st ->
  protocol_numeric_value (numeric_set_value ps id v) id = clamp_i16 v.
Proof.
  intros Hid Hfind. unfold numeric_set_value, ur_barrel_get_or_add.
  rewrite Zgeb_false by lia. rewrite Hfind.
  unfold protocol_numeric_value, ur_barrel_find, ur_barrel_modify. cbn.
  rewrite barrel_find_modify by reflexivity.
  unfold ur_barrel_find in Hfind. rewrite Hfind. cbn.
  apply i16_small, clamp_i16_range.
Qed.

Lemma numeric_store_zero ps id a :
  id < element_count ps ->
  protocol_numeric_value (numeric_store ps id 0 a) id = 0.
Proof.
  intros Hid. unfold numeric_store, ur_barrel_get_or_add.
  rewrite Zgeb_false by lia.
  destruct (ur_barrel_find (runtime ps) id) as [st|] eqn:Hfind.
  - unfold protocol_numeric_value, ur_barrel_find, ur_barrel_modify. cbn.
    rewrite barrel_find_modify by reflexivity.
    unfold ur_barrel_find in Hfind. rewrite Hfind. reflexivity.
  - unfold ur__alloc_tail.
    destruct (head_used (runtime ps) + used_tail (runtime ps) + SIZEOF_BARREL_NODE
              >? UI_ATTR_ARENA_CAP).
    + unfold protocol_numeric_value. rewrite Hfind. reflexivity.
    + unfold protocol_numeric_value, ur_barrel_find, ur_barrel_modify. cbn.
      destruct (ur__off _ =? 0); cbn; [reflexivity|].
      rewrite Z.eqb_refl. cbn. rewrite Z.eqb_refl. reflexivity.
Qed.

Lemma type_not_header tb :
  tb = [] \/ In (map_type_key tb) creatable_types ->
  match tb with [c] => c =? 104 | _ => false end = false.
Proof.
  intros [-> | Hin]; [reflexivity|].
  destruct tb as [|c [|c1 tl]]; try reflexivity.
  destruct (Z.eqb_spec c 104) as [->|]; [|reflexivity].
  exfalso. cbn in Hin. unfold ELEMENT_SCREEN, ELEMENT_LIST_VIEW, ELEMENT_TEXT,
    ELEMENT_BARREL, ELEMENT_TRIGGER in Hin. intuition discriminate.
Qed.



(** ** Exhaustion while provisioning *)


Lemma set_same_state s : set_g_protocol_state (g_protocol_state s) s = s.
Proof. destruct s; reflexivity. Qed.

Lemma removelast_snoc {A} (l : list A) (x : A) : removelast (l ++ [x]) = l.
Proof. apply removelast_last. Qed.

Lemma parse_braced ps body :
  parse_single_element_object ps (123 :: body ++ [125])
  = handle_element_object ps (123 :: body).
Proof.
  unfold parse_single_element_object.
  assert (Hl : len (123 :: body ++ [125]) = 2 + len body) by (len_simpl; lia).
  pose proof (len_nonneg body) as Hb.
  rewrite Hl, Zltb_false by lia.
  change (skip_spaces (123 :: body ++ [125])) with (123 :: body ++ [125]).
  change (123 :: body ++ [125]) with ((123 :: body) ++ [125]).
  rewrite rev_app_distr.
  change (skip_spaces (rev [125] ++ rev (123 :: body)))
    with (rev [125] ++ rev (123 :: body)).
  rewrite <- rev_app_distr, rev_involutive.
  replace (len ((123 :: body) ++ [125]) <=? 1) with false
    by (symmetry; apply Z.leb_gt; len_simpl; lia).
  rewrite List.last_last, removelast_snoc. reflexivity.
Qed.

Lemma cmd_json_plain s flags body :
  Z.land flags JSON_FLAG_HEAD = 0 ->
  Z.land flags JSON_FLAG_COMMIT = 0 ->
  cmd_json s (flags :: 123 :: body ++ [125]) (len (flags :: 123 :: body ++ [125]))
  = (fst (handle_element_object (g_protocol_state s) (123 :: body)),
     set_g_protocol_state
       (snd (handle_element_object (g_protocol_state s) (123 :: body))) s).
Proof.
  intros Hh Hc. unfold cmd_json. pose proof (len_nonneg body).
  rewrite Zeqb_false by (len_simpl; lia).
  cbn [drop nth]. unfold protocol_apply_json_object_internal.
  rewrite Hh, Hc. cbn [Z.eqb negb].
  rewrite Zgtb_true by (len_simpl; lia).
  rewrite parse_braced.
  destruct (handle_element_object (g_protocol_state s) (123 :: body)). reflexivity.
Qed.

Lemma creation_when_full ps obj :
  element_capacity ps <> 0 ->
  element_capacity ps <= element_count ps ->
  In (map_type_key (descriptor_type obj)) creatable_types ->
  not_an_update ps obj ->
  handle_element_object ps obj = (RES_PARSE_FAIL, ps).
Proof.
  intros Hcap Hfull Hin Hnu. unfold handle_element_object. fold (descriptor_type obj).
  rewrite type_not_header by (right; assumption).
  rewrite Zeqb_false by assumption.
  assert (Hupd : match extract_int_key obj key_e with Some _ => true | None => false end
                 && (int_key_or obj key_e (-1) >=? 0)
                 && (int_key_or obj key_e (-1) <? element_count ps) = false).
  { unfold not_an_update, int_key_or in *.
    destruct (extract_int_key obj key_e) as [e|]; [|reflexivity]. cbn [andb].
    destruct Hnu; [rewrite Zgeb_false by lia; reflexivity|].
    rewrite Zltb_false by lia. apply andb_false_r. }
  rewrite Hupd.
  unfold creatable_types in Hin. cbn [In] in Hin.
  destruct Hin as [H|[H|[H|[H|[H|[]]]]]]; rewrite <- H; cbn [find_handler
    k_element_handlers List.find h_type h_create Z.eqb ELEMENT_SCREEN ELEMENT_LIST_VIEW
    ELEMENT_TEXT ELEMENT_BARREL ELEMENT_TRIGGER Pos.eqb];
    unfold handle_create_screen, handle_create_list, handle_create_text,
      handle_create_barrel, handle_create_trigger; cbn [c_parent_id c_x c_y c_obj];
    try destruct (negb _ && _); rewrite add_basic_element_full by assumption;
    reflexivity.
Qed.

Lemma header_too_large ps obj n :
  descriptor_type obj = [104] ->
  element_capacity ps = 0 ->
  extract_int_key obj key_n = Some n ->
  192 < n <= 255 ->
  handle_element_object ps obj = (RES_NO_SPACE, ps).
Proof.
  intros Hty Hcap Hn Hr. unfold handle_element_object. fold (descriptor_type obj).
  rewrite Hty, Hn. cbn [Z.eqb Pos.eqb].
  replace ((n <=? 0) || (n >? 255)) with false
    by (symmetry; apply orb_false_iff; split; [apply Z.leb_gt; lia|apply Zgtb_false; lia]).
  unfold protocol_reserve_element_storage, SIZEOF_ELEMENT, UI_ATTR_ARENA_CAP.
  rewrite u8_small by lia. rewrite Zeqb_false by lia. rewrite Hcap. cbn [Z.eqb negb].
  rewrite u16_small by lia. rewrite Zgtb_true by lia. reflexivity.
Qed.

(** *** Text creation never reports the arena *)

Lemma attr_modify_frame f ps id tag :
  let ps' := ui_attr_modify f ps id tag in
  element_count ps' = element_count ps /\ elements ps' = elements ps
  /\ element_capacity ps' = element_capacity ps.
Proof. repeat split. Qed.

Lemma attr_append_frame ps id tag payload lp pl :
  let ps' := snd (ui_attr_append ps id tag payload lp pl) in
  element_count ps' = element_count ps /\ elements ps' = elements ps
  /\ element_capacity ps' = element_capacity ps.
Proof.
  unfold ui_attr_append. destruct (negb _); [repeat split|].
  destruct (_ >=? _); [repeat split|]. destruct (_ >? _); repeat split.
Qed.

Lemma store_text_frame ps id text cap :
  let ps' := snd (ui_attr_store_text_with_cap ps id text cap) in
  element_count ps' = element_count ps /\ elements ps' = elements ps.
Proof.
  unfold ui_attr_store_text_with_cap.
  destruct (ui_attr_find ps id UI_ATTR_TAG_TEXT) as [e|].
  - destruct (_ =? 0); repeat split.
  - destruct (ui_attr_append ps id UI_ATTR_TAG_TEXT None 1 _) as [res ps1] eqn:Ha.
    pose proof (attr_append_frame ps id UI_ATTR_TAG_TEXT None 1
      (u16 ((if cap =? 0 then u8 (len text) else cap) + 1))) as Hf.
    rewrite Ha in Hf. cbv zeta in Hf. cbn [snd] in Hf. destruct Hf as (H1 & H2 & _).
    destruct (negb (res =? RES_OK)); [split; assumption|].
    destruct (ui_attr_find ps1 id UI_ATTR_TAG_TEXT); split; assumption.
Qed.

Lemma store_text_no_room ps id text cap :
  0 <= cap < 256 ->
  id < element_capacity ps ->
  ui_attr_find ps id UI_ATTR_TAG_TEXT = None ->
  head_used (runtime ps) + used_tail (runtime ps) > 764 ->
  snd (ui_attr_store_text_with_cap ps id text cap) = ps.
Proof.
  intros Hcap Hid Hfind Hfull. unfold ui_attr_store_text_with_cap. rewrite Hfind.
  set (c := if cap =? 0 then u8 (len text) else cap).
  assert (Hc : 0 <= c < 256).
  { subst c. destruct (cap =? 0); [apply u8_range|assumption]. }
  unfold ui_attr_append.
  destruct (negb (initialized ps =? 0)); [reflexivity|].
  rewrite Zgeb_false by lia.
  rewrite (u16_small (c + 1)) by lia. cbn [Z.eqb].
  rewrite u16_small by lia. unfold UI_ATTR_ARENA_CAP.
  rewrite Zgtb_true by lia. reflexivity.
Qed.

Lemma list_child_frame ps list_id id :
  let ps' := list_set_last_text_child ps list_id id in
  element_count ps' = element_count ps /\ elements ps' = elements ps
  /\ attrs (runtime ps') = attrs (runtime ps)
  /\ element_capacity ps' = element_capacity ps.
Proof.
  unfold list_set_last_text_child, ur_list_get_or_add.
  destruct (ur_list_find (runtime ps) list_id); [repeat split|].
  unfold ur__alloc_tail. destruct (_ >? _); repeat split.
Qed.

Lemma create_text_free_slot ps ctx :
  0 <= element_count ps < element_capacity ps ->
  element_capacity ps <= 255 ->
  elements ps <> [] -> pos_x ps <> [] -> pos_y ps <> [] ->
  let r := handle_create_text ps ctx in
  fst r = 0
  /\ element_count (snd r) = element_count ps + 1
  /\ (ui_attr_find ps (element_count ps) UI_ATTR_TAG_TEXT = None ->
      head_used (runtime ps) + used_tail (runtime ps) > 764 ->
      attrs (runtime (snd r)) = attrs (runtime ps)
      /\ ui_attr_get_text (snd r) (element_count ps) = None).
Proof.
  intros Hcnt Hcap He Hx Hy r. subst r. unfold handle_create_text.
  set (is_item := negb _ && _).
  assert (Hadd : forall y, exists ps1,
    add_basic_element ps (c_parent_id ctx) ELEMENT_TEXT (c_x ctx) y
      = (element_count ps, ps1)
    /\ element_count ps1 = element_count ps + 1
    /\ runtime ps1 = runtime ps
    /\ element_capacity ps1 = element_capacity ps).
  { intros y.
    destruct (add_basic_element_cases ps (c_parent_id ctx) ELEMENT_TEXT (c_x ctx) y)
      as [Hfail | (ps1 & Hadd & _ & _ & Hc1 & Hrt & Hcap1 & _)].
    - exfalso. unfold add_basic_element in Hfail.
      rewrite Zeqb_false, Zgeb_false in Hfail by lia.
      destruct (elements ps); [contradiction|].
      destruct (pos_x ps); [contradiction|].
      destruct (pos_y ps); [contradiction|].
      injection Hfail as Hf _. lia.
    - exists ps1. rewrite u8_small in Hc1 by lia. auto. }
  assert (Hcapv : forall obj, 0 <= u8 (snd (text_key_values obj)) < 256)
    by (intros; apply u8_range).
  assert (Hfind1 : forall ps1, runtime ps1 = runtime ps ->
            element_capacity ps1 = element_capacity ps ->
            ui_attr_find ps1 (element_count ps) UI_ATTR_TAG_TEXT
            = ui_attr_find ps (element_count ps) UI_ATTR_TAG_TEXT).
  { intros ps1 Hrt Hc. unfold ui_attr_find. rewrite Hrt, Hc. reflexivity. }
  destruct is_item.
  - destruct (Hadd (u8 (list_item_count ps (c_parent_id ctx) * 8)))
      as (ps1 & Ha & Hc1 & Hrt & Hcap1).
    rewrite Ha. rewrite Zeqb_false by lia.
    destruct (text_key_values (c_obj ctx)) as [tb cap] eqn:Htk. cbn [fst snd].
    destruct (store_text_frame ps1 (element_count ps) tb (u8 cap)) as (Hs1 & Hs2).
    cbv zeta in Hs1, Hs2.
    match goal with |- context [list_set_last_text_child ?p ?l ?i] =>
      destruct (list_child_frame p l i) as (Hl1 & Hl2 & Hl3 & Hl4) end.
    cbv zeta in Hl1, Hl2, Hl3, Hl4.
    split; [reflexivity|]. split; [rewrite Hl1, Hs1; exact Hc1|].
    intros Hnone Hfull.
    assert (Hsame : snd (ui_attr_store_text_with_cap ps1 (element_count ps) tb (u8 cap)) = ps1).
    { apply store_text_no_room; [apply u8_range|lia| |rewrite Hrt; assumption].
      rewrite Hfind1; assumption. }
    rewrite Hsame in *. split; [rewrite Hl3, Hrt; reflexivity|].
    unfold ui_attr_get_text, ui_attr_find. rewrite Hl3, Hl4, Hrt, Hcap1.
    unfold ui_attr_find in Hnone. rewrite Hnone. reflexivity.
  - destruct (Hadd (c_y ctx)) as (ps1 & Ha & Hc1 & Hrt & Hcap1).
    rewrite Ha. rewrite Zeqb_false by lia.
    destruct (text_key_values (c_obj ctx)) as [tb cap] eqn:Htk.
    destruct (store_text_frame ps1 (element_count ps) tb (u8 cap)) as (Hs1 & Hs2).
    cbv zeta in Hs1, Hs2.
    set (ps2 := snd (ui_attr_store_text_with_cap ps1 (element_count ps) tb (u8 cap))) in *.
    destruct (list_child_frame ps2 (c_parent_id ctx) (element_count ps))
      as (Hl1 & Hl2 & Hl3 & Hl4).
    cbv zeta in Hl1, Hl2, Hl3, Hl4.
    assert (Hsame : ui_attr_find ps (element_count ps) UI_ATTR_TAG_TEXT = None ->
                    head_used (runtime ps) + used_tail (runtime ps) > 764 -> ps2 = ps1).
    { intros Hnone Hfull. subst ps2.
      apply store_text_no_room; [apply u8_range|lia| |rewrite Hrt; assumption].
      rewrite Hfind1; assumption. }
    destruct (negb _ && _); cbn [fst snd].
    + split; [reflexivity|]. split; [rewrite Hl1, Hs1; exact Hc1|].
      intros Hnone Hfull. rewrite (Hsame Hnone Hfull) in *.
      split; [rewrite Hl3, Hrt; reflexivity|].
      unfold ui_attr_get_text, ui_attr_find. rewrite Hl3, Hl4, Hrt, Hcap1.
      unfold ui_attr_find in Hnone. rewrite Hnone. reflexivity.
    + split; [reflexivity|]. split; [rewrite Hs1; exact Hc1|].
      intros Hnone Hfull. rewrite (Hsame Hnone Hfull) in *.
      split; [rewrite Hrt; reflexivity|].
      unfold ui_attr_get_text. rewrite Hfind1 by assumption. rewrite Hnone. reflexivity.
Qed.

Lemma text_dispatch ps obj :
  element_capacity ps <> 0 ->
  map_type_key (descriptor_type obj) = ELEMENT_TEXT ->
  not_an_update ps obj ->
  exists ctx, handle_element_object ps obj = handle_create_text ps ctx.
Proof.
  intros Hcap Hty Hnu. unfold handle_element_object. fold (descriptor_type obj).
  rewrite type_not_header by (right; rewrite Hty; cbn; tauto).
  rewrite Zeqb_false by assumption.
  assert (Hupd : match extract_int_key obj key_e with Some _ => true | None => false end
                 && (int_key_or obj key_e (-1) >=? 0)
                 && (int_key_or obj key_e (-1) <? element_count ps) = false).
  { unfold not_an_update, int_key_or in *.
    destruct (extract_int_key obj key_e) as [e|]; [|reflexivity]. cbn [andb].
    destruct Hnu; [rewrite Zgeb_false by lia; reflexivity|].
    rewrite Zltb_false by lia. apply andb_false_r. }
  rewrite Hupd, Hty. cbn. eexists. reflexivity.
Qed.



(** ** Navigation stack *)

Section Navigation.

Implicit Types (ps : protocol_state) (rt : ui_runtime).

Lemma nth_insert_same {A} (l : list A) (i : nat) (x d : A) :
  (i < length l)%nat -> nth i (<[i := x]> l) d = x.
Proof.
  intros H. rewrite nth_lookup, list_lookup_insert_eq by assumption. reflexivity.
Qed.

Lemma set_focus_same ps : set_focused_element (focused_element ps) ps = ps.
Proof. destruct ps; reflexivity. Qed.

Lemma ids_range n i : In i (ids n) -> 0 <= i < n.
Proof.
  unfold ids. rewrite in_map_iff. intros [k [<- Hk]]. apply in_seq in Hk. lia.
Qed.

(** *** What visibility depends on *)

Lemma same_view_refl ps : same_view ps ps.
Proof. repeat split. Qed.

Lemma same_view_sym ps ps' : same_view ps ps' -> same_view ps' ps.
Proof.
  unfold same_view. intros (H1 & H2 & H3 & H4 & H5 & H6 & H7 & H8).
  repeat split; try congruence.
  intros i Hi Hd. symmetry. apply H8; [assumption|]. rewrite H5. exact Hd.
Qed.

Section Tree.

Variables ps ps' : protocol_state.
Hypothesis Htree : same_tree ps ps'.

Lemma tree_count_eq : element_count ps = element_count ps'.
Proof using Htree. apply Htree. Qed.

Lemma tree_els_eq : elements ps = elements ps'.
Proof using Htree. apply Htree. Qed.

Lemma tree_cap_eq : element_capacity ps = element_capacity ps'.
Proof using Htree. apply Htree. Qed.

Lemma tree_attrs_eq : attrs (runtime ps) = attrs (runtime ps').
Proof using Htree. apply Htree. Qed.

Lemma tree_el i : el ps i = el ps' i.
Proof using Htree. unfold el. rewrite tree_els_eq. reflexivity. Qed.

Lemma tree_screen_role i : protocol_screen_role ps i = protocol_screen_role ps' i.
Proof using Htree.
  unfold protocol_screen_role, ui_attr_get_screen_role, ui_attr_find.
  rewrite tree_count_eq, tree_els_eq, tree_cap_eq, tree_attrs_eq, tree_el. reflexivity.
Qed.

Lemma tree_find_screen_id sord :
  find_screen_id_by_ordinal ps sord = find_screen_id_by_ordinal ps' sord.
Proof using Htree.
  unfold find_screen_id_by_ordinal. rewrite tree_count_eq.
  generalize (ids (element_count ps')) 0.
  induction l as [|i rest IH]; intros seen; [reflexivity|].
  cbn [find_screen_id_by_ordinal_loop].
  rewrite tree_el, tree_screen_role, !IH. reflexivity.
Qed.

Lemma tree_find_screen_ordinal id :
  find_screen_ordinal_by_id ps id = find_screen_ordinal_by_id ps' id.
Proof using Htree.
  unfold find_screen_ordinal_by_id. rewrite tree_count_eq, tree_el.
  destruct (_ >=? _); [reflexivity|]. destruct (negb _); [reflexivity|].
  destruct (negb _); [reflexivity|].
  generalize (ids (element_count ps')) 0.
  induction l as [|i rest IH]; intros ord; [reflexivity|].
  cbn [find_screen_ordinal_by_id_loop].
  rewrite tree_el, tree_screen_role, !IH. reflexivity.
Qed.

Lemma tree_descendant e a : is_descendant_of ps e a = is_descendant_of ps' e a.
Proof using Htree.
  unfold is_descendant_of. rewrite tree_count_eq.
  generalize (Z.to_nat (element_count ps')). intros n. destruct (a =? _); [reflexivity|].
  revert e. induction n as [|n IH]; intros e; [reflexivity|].
  cbn [is_descendant_of_walk]. rewrite tree_count_eq, tree_el, IH. reflexivity.
Qed.

Lemma tree_root_screen e : element_root_screen ps e = element_root_screen ps' e.
Proof using Htree.
  unfold element_root_screen. rewrite tree_count_eq.
  generalize (Z.to_nat (element_count ps')). intros n. destruct (_ >=? _); [reflexivity|].
  revert e. induction n as [|n IH]; intros e; [reflexivity|].
  cbn [element_root_screen_walk]. rewrite tree_count_eq, tree_el, IH. reflexivity.
Qed.

Lemma tree_screen_is_local e : screen_is_local ps e = screen_is_local ps' e.
Proof using Htree.
  unfold screen_is_local. rewrite tree_count_eq, !tree_el. reflexivity.
Qed.

End Tree.

Lemma view_tree ps ps' : same_view ps ps' -> same_tree ps ps'.
Proof. unfold same_view, same_tree. intuition. Qed.

Section View.

Variables ps ps' : protocol_state.
Hypothesis Hview : same_view ps ps'.

Lemma view_count_eq : element_count ps = element_count ps'.
Proof using Hview. apply tree_count_eq, view_tree, Hview. Qed.

Lemma view_els_eq : elements ps = elements ps'.
Proof using Hview. apply tree_els_eq, view_tree, Hview. Qed.

Lemma view_cap_eq : element_capacity ps = element_capacity ps'.
Proof using Hview. apply tree_cap_eq, view_tree, Hview. Qed.

Lemma view_attrs_eq : attrs (runtime ps) = attrs (runtime ps').
Proof using Hview. apply tree_attrs_eq, view_tree, Hview. Qed.

Lemma view_depth_eq : nav_depth ps = nav_depth ps'.
Proof using Hview. apply Hview. Qed.

Lemma view_stack_eq i :
  0 <= i -> i < nav_depth ps \/ nav_depth ps < 0 ->
  nav_entry ps i = nav_entry ps' i.
Proof using Hview. apply Hview. Qed.

Lemma view_top_eq :
  (nav_depth ps =? 0) = false ->
  nav_entry ps (u8 (nav_depth ps - 1)) = nav_entry ps' (u8 (nav_depth ps - 1)).
Proof using Hview.
  intros Hd. apply Z.eqb_neq in Hd. apply view_stack_eq.
  - apply u8_range.
  - destruct (Z.lt_ge_cases (nav_depth ps) 0) as [Hn|Hp]; [right; assumption|].
    left. unfold u8. pose proof (Z.mod_le (nav_depth ps - 1) 256). lia.
Qed.

Lemma view_active_eq : active_screen ps = active_screen ps'.
Proof using Hview. apply Hview. Qed.

Lemma view_anim_eq : screen_anim ps = screen_anim ps'.
Proof using Hview. apply Hview. Qed.

Lemma view_el i : el ps i = el ps' i.
Proof using Hview. unfold el. rewrite view_els_eq. reflexivity. Qed.

Lemma view_screen_role i : protocol_screen_role ps i = protocol_screen_role ps' i.
Proof using Hview. apply tree_screen_role, view_tree, Hview. Qed.

Lemma view_find_screen_id sord :
  find_screen_id_by_ordinal ps sord = find_screen_id_by_ordinal ps' sord.
Proof using Hview. apply tree_find_screen_id, view_tree, Hview. Qed.

Lemma view_find_screen_ordinal id :
  find_screen_ordinal_by_id ps id = find_screen_ordinal_by_id ps' id.
Proof using Hview. apply tree_find_screen_ordinal, view_tree, Hview. Qed.

Lemma view_descendant e a : is_descendant_of ps e a = is_descendant_of ps' e a.
Proof using Hview. apply tree_descendant, view_tree, Hview. Qed.

Lemma view_root_screen e : element_root_screen ps e = element_root_screen ps' e.
Proof using Hview. apply tree_root_screen, view_tree, Hview. Qed.

Lemma view_screen_is_local e : screen_is_local ps e = screen_is_local ps' e.
Proof using Hview. apply tree_screen_is_local, view_tree, Hview. Qed.

Lemma view_target_active t : nav_target_active ps t = nav_target_active ps' t.
Proof using Hview.
  unfold nav_target_active. rewrite <- view_depth_eq.
  destruct (t =? INVALID_ELEMENT_ID); [reflexivity|]. cbv zeta.
  set (depth := if nav_depth ps >? NAV_STACK_MAX_DEPTH then NAV_STACK_MAX_DEPTH
                else nav_depth ps).
  assert (Hle : forall i, In i (ids depth) -> 0 <= i < nav_depth ps).
  { intros i Hi. apply ids_range in Hi. subst depth. unfold NAV_STACK_MAX_DEPTH in *.
    destruct (Z.gtb_spec (nav_depth ps) 4); lia. }
  assert (Heq : existsb (fun i => target_element (nav_entry ps i) =? t) (ids depth)
                = existsb (fun i => target_element (nav_entry ps' i) =? t) (ids depth)).
  { induction (ids depth) as [|i rest IH]; [reflexivity|].
    cbn [existsb]. rewrite IH by (intros j Hj; apply Hle; right; exact Hj).
    rewrite (view_stack_eq i); [reflexivity| |].
    - apply (Hle i). left. reflexivity.
    - left. apply (Hle i). left. reflexivity. }
  rewrite Heq. reflexivity.
Qed.

Lemma view_nested n e : nested_lists_entered ps n e = nested_lists_entered ps' n e.
Proof using Hview.
  revert e. induction n as [|n IH]; intros e; [reflexivity|].
  cbn [nested_lists_entered].
  rewrite view_count_eq, !view_el, view_target_active, IH. reflexivity.
Qed.

Lemma view_active_context : nav_active_context ps = nav_active_context ps'.
Proof using Hview.
  unfold nav_active_context.
  rewrite <- view_depth_eq, <- view_active_eq, view_find_screen_id.
  destruct (nav_depth ps =? 0) eqn:Hd; [reflexivity|].
  cbv zeta. rewrite (view_top_eq Hd). reflexivity.
Qed.

Lemma view_visible e :
  protocol_is_element_visible ps e = protocol_is_element_visible ps' e.
Proof using Hview.
  unfold protocol_is_element_visible.
  rewrite <- view_count_eq, <- view_depth_eq, <- view_anim_eq, <- view_active_context.
  rewrite <- !view_find_screen_id, <- view_root_screen.
  rewrite <- view_screen_is_local, <- view_target_active, <- view_nested.
  repeat match goal with
  | |- context [is_descendant_of ps' ?a ?b] => rewrite <- (view_descendant a b)
  end.
  destruct (nav_depth ps =? 0) eqn:Hd; [reflexivity|].
  rewrite <- (view_top_eq Hd). reflexivity.
Qed.

Lemma view_focusable e : element_focusable ps e = element_focusable ps' e.
Proof using Hview. unfold element_focusable. rewrite view_count_eq, view_el. reflexivity. Qed.

Lemma view_candidate owner i : focus_candidate ps owner i = focus_candidate ps' owner i.
Proof using Hview.
  unfold focus_candidate. rewrite view_visible, view_descendant, view_focusable.
  reflexivity.
Qed.

Lemma view_first_focusable owner :
  first_focusable_under ps owner = first_focusable_under ps' owner.
Proof using Hview.
  unfold first_focusable_under. rewrite view_count_eq.
  induction (ids (element_count ps')) as [|i rest IH]; [reflexivity|].
  cbn [List.find]. rewrite view_candidate, IH. reflexivity.
Qed.

End View.

Lemma set_focus_eq ps e :
  protocol_set_focus ps e
  = if (e <? element_count ps)
       && negb (protocol_is_element_visible ps e =? 0)
       && negb (element_focusable ps e =? 0)
    then set_focused_element e ps else ps.
Proof.
  unfold protocol_set_focus. rewrite Z.geb_leb.
  destruct (Z.leb_spec (element_count ps) e).
  - rewrite Zltb_false by lia. reflexivity.
  - rewrite Zltb_true by lia. cbn [andb].
    destruct (protocol_is_element_visible ps e =? 0); [reflexivity|].
    destruct (element_focusable ps e =? 0); reflexivity.
Qed.

Lemma update_local_eq ps :
  nav_update_active_local_screen ps
  = set_active_local_screen (local_screen_of ps) ps.
Proof.
  unfold nav_update_active_local_screen, local_screen_of. proj_simpl.
  destruct (nav_depth ps =? 0); [reflexivity|].
  destruct (_ >=? _); [reflexivity|].
  unfold nav_entry. proj_simpl. destruct (_ =? NAV_CTX_LOCAL_SCREEN); reflexivity.
Qed.

Lemma list_find_modify f l id id' :
  (forall n, l_element_id (f n) = l_element_id n) ->
  ur_list_find_in (ur_list_modify_in f l id') id
  = if id =? id' then option_map f (ur_list_find_in l id)
    else ur_list_find_in l id.
Proof.
  intros Hf. induction l as [|n rest IH]; [destruct (id =? id'); reflexivity|].
  cbn [ur_list_modify_in ur_list_find_in].
  destruct (Z.eqb_spec (l_element_id n) id') as [He|Hne].
  - cbn [ur_list_find_in]. rewrite Hf.
    destruct (Z.eqb_spec id id') as [->|Hd].
    + subst id'. rewrite Z.eqb_refl. reflexivity.
    + rewrite He. rewrite Zeqb_false by congruence. reflexivity.
  - cbn [ur_list_find_in].
    destruct (Z.eqb_spec (l_element_id n) id) as [He'|Hne'].
    + destruct (Z.eqb_spec id id'); [congruence|reflexivity].
    + exact IH.
Qed.

Lemma list_get_or_add_found rt id st :
  ur_list_find rt id = Some st -> ur_list_get_or_add rt id = (Some st, rt).
Proof. intros H. unfold ur_list_get_or_add. rewrite H. reflexivity. Qed.

(** A second lookup never loses a node that is already linked, as long as
    the arena head is in use (no node can land on offset 0). *)
Lemma list_get_or_add_keeps rt id id' st :
  0 < head_used rt -> 0 <= used_tail rt ->
  ur_list_find rt id = Some st ->
  forall r rt', ur_list_get_or_add rt id' = (r, rt') ->
  ur_list_find rt' id = Some st.
Proof.
  intros Hh Ht Hfind r rt' Hg. unfold ur_list_get_or_add in Hg.
  destruct (ur_list_find rt id') as [st'|] eqn:Hf'.
  - injection Hg as _ <-. assumption.
  - unfold ur__alloc_tail, SIZEOF_LIST_NODE, UI_ATTR_ARENA_CAP in Hg.
    destruct (Z.gtb_spec (head_used rt + used_tail rt + 12) 768).
    + injection Hg as _ <-. assumption.
    + injection Hg as _ <-. unfold ur_list_find. proj_simpl.
      rewrite (u16_small (768 - used_tail rt - 12)) by lia.
      unfold ur__off, UI_ATTR_ARENA_CAP.
      rewrite Zltb_false, Zgeb_false by lia. cbn [orb].
      rewrite Zeqb_false by lia. cbn [ur_list_find_in l_element_id ur_list_node_init].
      destruct (Z.eqb_spec id' id) as [->|]; [|exact Hfind].
      unfold ur_list_find in *. congruence.
Qed.

Lemma push_list_full ps parent target :
  NAV_STACK_MAX_DEPTH <= nav_depth ps -> nav_push_list ps parent target = (0, ps).
Proof. intros H. unfold nav_push_list. rewrite Zgeb_true by lia. reflexivity. Qed.

Lemma push_local_full ps parent screen_id :
  NAV_STACK_MAX_DEPTH <= nav_depth ps ->
  nav_push_local_screen ps parent screen_id = (0, ps).
Proof. intros H. unfold nav_push_local_screen. rewrite Zgeb_true by lia. reflexivity. Qed.

(** What a pop does to a stack whose top entry is [entry]. *)
Lemma nav_pop_top ps d entry :
  0 <= d < NAV_STACK_MAX_DEPTH ->
  nav_depth ps = d + 1 ->
  nav_entry ps d = entry ->
  return_list entry <> INVALID_ELEMENT_ID ->
  forall st, ur_list_find (runtime ps) (return_list entry) = Some st ->
  let r := nav_pop ps in
  fst r = 1
  /\ nav_depth (snd r) = d
  /\ same_tree (snd r) ps
  /\ screen_anim (snd r) = screen_anim ps
  /\ nav_stack (snd r) = nav_stack ps
  /\ active_screen (snd r)
     = (if ctx_type entry =? NAV_CTX_LOCAL_SCREEN then saved_active_screen entry
        else active_screen ps)
  /\ ur_list_find (runtime (snd r)) (return_list entry)
     = Some (list_leave entry st)
  /\ focused_element (snd r)
     = (if (return_list entry <? element_count ps)
           && negb (protocol_is_element_visible (snd r) (return_list entry) =? 0)
           && negb (element_focusable (snd r) (return_list entry) =? 0)
        then return_list entry else focused_element ps).
Proof.
  unfold NAV_STACK_MAX_DEPTH. intros Hd Hdepth Hentry Hret st Hfind. cbv zeta.
  unfold nav_pop. rewrite Hdepth. rewrite Zeqb_false by lia.
  replace (d + 1 - 1) with d by lia. rewrite u8_small by lia.
  unfold NAV_STACK_MAX_DEPTH. rewrite Zgeb_false by lia. rewrite Hentry.
  rewrite update_local_eq. rewrite Zeqb_false by assumption. cbn [negb].
  proj_simpl. rewrite (list_get_or_add_found _ _ _ Hfind).
  set (rtL := ur_list_modify (list_leave entry) (runtime ps) (return_list entry)).
  assert (HfindL : ur_list_find rtL (return_list entry) = Some (list_leave entry st)).
  { subst rtL. unfold ur_list_find, ur_list_modify. proj_simpl.
    rewrite list_find_modify by reflexivity. rewrite Z.eqb_refl.
    unfold ur_list_find in Hfind. rewrite Hfind. reflexivity. }
  rewrite set_focus_eq.
  destruct (ctx_type entry =? NAV_CTX_LOCAL_SCREEN); proj_simpl;
    match goal with |- context [if ?c then set_focused_element _ ?p else _] =>
      set (cond := c); set (base := p) end;
    (assert (Hvis : forall v, protocol_is_element_visible (set_focused_element v base)
                                (return_list entry)
                              = protocol_is_element_visible base (return_list entry))
       by (intros; apply view_visible; repeat split));
    (assert (Hfoc : forall v, element_focusable (set_focused_element v base)
                                (return_list entry)
                              = element_focusable base (return_list entry))
       by (intros; apply view_focusable; repeat split));
    destruct cond eqn:Hc; subst cond; proj_simpl;
    rewrite ?Hvis, ?Hfoc; subst base; proj_simpl; rewrite ?Hc;
    repeat split; try reflexivity; try exact HfindL.
Qed.

End Navigation.

(** ** Pushing and popping navigation contexts *)

Section NavigationPush.

Implicit Types (ps : protocol_state) (rt : ui_runtime).

Lemma visible_in_range ps i :
  (protocol_is_element_visible ps i =? 0) = false -> i < element_count ps.
Proof.
  unfold protocol_is_element_visible. rewrite Z.geb_leb.
  destruct (Z.leb_spec (element_count ps) i); [discriminate|]. intros _. lia.
Qed.

Lemma focus_choice_eq ps owner :
  focus_choice ps owner (ids (element_count ps))
  = match first_focusable_under ps owner with
    | Some i => i
    | None => INVALID_ELEMENT_ID
    end.
Proof. reflexivity. Qed.

Lemma focus_first_under_loop_eq ps owner l :
  protocol_focus_first_under_loop ps owner l
  = set_focused_element (focus_choice ps owner l) ps.
Proof.
  unfold focus_choice.
  induction l as [|i rest IH]; [reflexivity|].
  cbn [protocol_focus_first_under_loop List.find]. unfold focus_candidate at 1.
  destruct (protocol_is_element_visible ps i =? 0) eqn:Hv; cbn [negb andb];
    [exact IH|].
  pose proof (visible_in_range _ _ Hv) as Hr.
  destruct (i =? owner); cbn [negb andb orb].
  - destruct (element_focusable ps i =? 0) eqn:Hf; cbn [negb]; [exact IH|].
    rewrite set_focus_eq, Hv, Hf, Zltb_true by lia. reflexivity.
  - destruct (is_descendant_of ps i owner =? 0); cbn [negb]; [exact IH|].
    destruct (element_focusable ps i =? 0) eqn:Hf; cbn [negb]; [exact IH|].
    rewrite set_focus_eq, Hv, Hf, Zltb_true by lia. reflexivity.
Qed.

Lemma local_no_ordinal ps id :
  screen_is_local ps id = 1 -> find_screen_ordinal_by_id ps id = INVALID_ELEMENT_ID.
Proof.
  unfold screen_is_local, find_screen_ordinal_by_id.
  destruct (id >=? element_count ps); [discriminate|].
  destruct (negb (type (el ps id) =? ELEMENT_SCREEN)); [discriminate|].
  cbv zeta. destruct (parent_id (el ps id) =? INVALID_ELEMENT_ID);
    cbn [orb negb]; [discriminate|reflexivity].
Qed.

Lemma set_runtime_same ps : set_runtime (runtime ps) ps = ps.
Proof. destruct ps; reflexivity. Qed.

Lemma push_list_eq ps parent target pst :
  0 <= nav_depth ps < NAV_STACK_MAX_DEPTH ->
  ur_list_find (runtime ps) parent = Some pst ->
  nav_push_list ps parent target
  = match ur_list_get_or_add (runtime ps) target with
    | (Some _, rt2) =>
        (1, protocol_set_focus
              (pushed ps (ur_list_modify list_enter rt2 target)
                 (pushed_entry ps NAV_CTX_LIST target parent pst)) target)
    | (None, rt2) => (0, set_runtime rt2 ps)
    end.
Proof.
  unfold NAV_STACK_MAX_DEPTH. intros Hd Hfind. unfold nav_push_list.
  unfold NAV_STACK_MAX_DEPTH. rewrite Zgeb_false by lia.
  rewrite (list_get_or_add_found _ _ _ Hfind).
  destruct (ur_list_get_or_add (runtime ps) target) as [[cst|] rt2]; [|reflexivity].
  cbv zeta. rewrite update_local_eq. proj_simpl. rewrite u8_small by lia.
  reflexivity.
Qed.

Lemma list_get_or_add_attrs rt id r rt' :
  ur_list_get_or_add rt id = (r, rt') -> attrs rt' = attrs rt.
Proof.
  unfold ur_list_get_or_add, ur__alloc_tail.
  destruct (ur_list_find rt id); [intros [= _ <-]; reflexivity|].
  destruct (_ >? _); intros [= _ <-]; reflexivity.
Qed.

Lemma push_local_eq ps parent screen_id pst rt1 :
  0 <= nav_depth ps < NAV_STACK_MAX_DEPTH ->
  ur_list_get_or_add (runtime ps) parent = (Some pst, rt1) ->
  nav_push_local_screen ps parent screen_id
  = (1,
     let ord := find_screen_ordinal_by_id ps screen_id in
     let base :=
       if negb (ord =? INVALID_ELEMENT_ID)
       then set_scroll_x (i16 (i16 ord * 128)) (set_active_screen ord ps)
       else ps in
     let psL :=
       pushed base rt1 (pushed_entry ps NAV_CTX_LOCAL_SCREEN screen_id parent pst) in
     let ps4 :=
       set_focused_element
         (focus_choice psL screen_id (ids (element_count psL))) psL in
     if focused_element ps4 =? INVALID_ELEMENT_ID
     then protocol_set_focus ps4 parent else ps4).
Proof.
  unfold NAV_STACK_MAX_DEPTH. intros Hd Hget. unfold nav_push_local_screen.
  unfold NAV_STACK_MAX_DEPTH. rewrite Zgeb_false by lia. rewrite Hget. cbv zeta.
  set (ps1 := set_nav_stack _ (set_runtime rt1 ps)).
  rewrite (tree_find_screen_ordinal ps1 ps)
    by (repeat split; exact (list_get_or_add_attrs _ _ _ _ Hget)).
  subst ps1.
  unfold protocol_focus_first_under. rewrite focus_first_under_loop_eq.
  rewrite update_local_eq.
  destruct (negb (find_screen_ordinal_by_id ps screen_id =? INVALID_ELEMENT_ID));
    proj_simpl; rewrite u8_small by lia; reflexivity.
Qed.

Lemma ids_in n i : 0 <= i < n -> In i (ids n).
Proof.
  intros H. unfold ids. apply in_map_iff. exists (Z.to_nat i).
  split; [lia|]. apply in_seq. lia.
Qed.

(** With a context on the stack only its target and what lies below the
    target can be visible. *)
Lemma visible_under_top ps e :
  nav_depth ps <> 0 ->
  (protocol_is_element_visible ps e =? 0) = false ->
  (e =? target_element (nav_entry ps (u8 (nav_depth ps - 1))))
  || negb (is_descendant_of ps e
             (target_element (nav_entry ps (u8 (nav_depth ps - 1)))) =? 0)
  = true.
Proof.
  intros Hd. unfold protocol_is_element_visible.
  rewrite (Zeqb_false (nav_depth ps) 0) by assumption.
  destruct (e >=? element_count ps); [discriminate|]. cbv zeta. cbn [andb negb].
  destruct (_ && _); [discriminate|].
  destruct (_ >=? NAV_STACK_MAX_DEPTH); [discriminate|].
  destruct (e =? _); [reflexivity|]. cbn [orb].
  destruct (is_descendant_of _ _ _ =? 0); [discriminate|reflexivity].
Qed.

(** The fallback of [nav_push_local_screen] never finds the parent list
    focusable: whatever is visible and focusable inside the pushed context
    was already a candidate of the search. *)
Lemma fallback_idle ps owner parent :
  nav_depth ps <> 0 ->
  target_element (nav_entry ps (u8 (nav_depth ps - 1))) = owner ->
  0 <= parent ->
  first_focusable_under ps owner = None ->
  protocol_set_focus (set_focused_element INVALID_ELEMENT_ID ps) parent
  = set_focused_element INVALID_ELEMENT_ID ps.
Proof.
  intros Hd Htop Hp Hnone. rewrite set_focus_eq.
  rewrite (view_visible _ ps), (view_focusable _ ps) by (repeat split).
  proj_simpl.
  destruct (Z.ltb_spec parent (element_count ps)) as [Hlt|]; [|reflexivity].
  cbn [andb].
  destruct (protocol_is_element_visible ps parent =? 0) eqn:Hv; [reflexivity|].
  destruct (element_focusable ps parent =? 0) eqn:Hf; [reflexivity|].
  exfalso. unfold first_focusable_under in Hnone.
  pose proof (find_none _ _ Hnone parent (ids_in _ _ (conj Hp Hlt))) as Hc.
  unfold focus_candidate in Hc. rewrite Hv, Hf in Hc.
  pose proof (visible_under_top ps parent Hd Hv) as Hu. rewrite Htop in Hu.
  rewrite Hu in Hc. discriminate Hc.
Qed.

End NavigationPush.

(** ** Claims on the navigation stack *)

Lemma pushed_depth ps rt entry : nav_depth (pushed ps rt entry) = nav_depth ps + 1.
Proof. reflexivity. Qed.

Lemma pushed_entry_at ps rt entry :
  length (nav_stack ps) = 4%nat -> 0 <= nav_depth ps < NAV_STACK_MAX_DEPTH ->
  nav_entry (pushed ps rt entry) (nav_depth ps) = entry.
Proof.
  unfold NAV_STACK_MAX_DEPTH. intros Hlen Hd. unfold nav_entry, pushed. proj_simpl.
  apply nth_insert_same. lia.
Qed.

Lemma pushed_top ps rt entry :
  length (nav_stack ps) = 4%nat -> 0 <= nav_depth ps < NAV_STACK_MAX_DEPTH ->
  nav_entry (pushed ps rt entry) (u8 (nav_depth (pushed ps rt entry) - 1)) = entry.
Proof.
  intros Hlen Hd. rewrite pushed_depth.
  replace (nav_depth ps + 1 - 1) with (nav_depth ps) by lia.
  unfold NAV_STACK_MAX_DEPTH in Hd. rewrite u8_small by lia.
  apply pushed_entry_at; [assumption|unfold NAV_STACK_MAX_DEPTH; lia].
Qed.

Lemma pushed_local ps rt entry :
  length (nav_stack ps) = 4%nat -> 0 <= nav_depth ps < NAV_STACK_MAX_DEPTH ->
  active_local_screen (pushed ps rt entry)
  = if ctx_type entry =? NAV_CTX_LOCAL_SCREEN then target_element entry
    else INVALID_ELEMENT_ID.
Proof.
  intros Hlen Hd. pose proof (pushed_entry_at ps rt entry Hlen Hd) as He.
  unfold NAV_STACK_MAX_DEPTH in Hd.
  unfold pushed in *. proj_simpl. unfold local_screen_of. proj_simpl.
  rewrite Zeqb_false by lia.
  replace (nav_depth ps + 1 - 1) with (nav_depth ps) by lia.
  rewrite u8_small by lia. unfold NAV_STACK_MAX_DEPTH. rewrite Zgeb_false by lia.
  unfold nav_entry in *. proj_simpl. rewrite He. reflexivity.
Qed.


(** *** A push followed by its pop *)

Section PushPop.

Implicit Types (ps s : protocol_state) (rt : ui_runtime).

Lemma list_modify_attrs f rt id : attrs (ur_list_modify f rt id) = attrs rt.
Proof. reflexivity. Qed.

(** The depth stays within the stack whatever is pushed or popped. *)
Lemma nav_step_depth ps op :
  0 <= nav_depth ps <= NAV_STACK_MAX_DEPTH ->
  0 <= nav_depth (snd (nav_step ps op)) <= NAV_STACK_MAX_DEPTH.
Proof.
  unfold NAV_STACK_MAX_DEPTH. intros Hd. destruct op as [p t|p t|]; cbn [nav_step].
  - unfold nav_push_list, NAV_STACK_MAX_DEPTH.
    destruct (Z.geb_spec (nav_depth ps) 4); [cbn [snd]; lia|].
    destruct (ur_list_get_or_add (runtime ps) p) as [[pst|] rt1];
      destruct (ur_list_get_or_add rt1 t) as [[cst|] rt2]; cbn [snd];
      try (proj_simpl; lia).
    rewrite set_focus_eq, update_local_eq.
    destruct (_ && _); proj_simpl; rewrite u8_small by lia; lia.
  - unfold nav_push_local_screen, NAV_STACK_MAX_DEPTH.
    destruct (Z.geb_spec (nav_depth ps) 4); [cbn [snd]; lia|].
    destruct (ur_list_get_or_add (runtime ps) p) as [[pst|] rt1]; cbn [snd];
      [|proj_simpl; lia].
    cbv zeta. unfold protocol_focus_first_under.
    rewrite focus_first_under_loop_eq, update_local_eq, set_focus_eq.
    destruct (negb (_ =? INVALID_ELEMENT_ID)); proj_simpl;
      destruct (_ =? INVALID_ELEMENT_ID); try destruct (_ && _); proj_simpl;
      rewrite u8_small by lia; lia.
  - unfold nav_pop, NAV_STACK_MAX_DEPTH.
    destruct (Z.eqb_spec (nav_depth ps) 0); [cbn [snd]; lia|].
    rewrite u8_small by lia. destruct (Z.geb_spec (nav_depth ps - 1) 4); [lia|].
    cbv zeta. rewrite update_local_eq. cbn [snd].
    destruct (negb (_ =? INVALID_ELEMENT_ID)).
    + rewrite set_focus_eq.
      destruct (ur_list_get_or_add _ _) as [[st|] rt1];
        destruct (_ =? NAV_CTX_LOCAL_SCREEN); destruct (_ && _); proj_simpl; lia.
    + unfold protocol_clear_focus.
      destruct (_ =? NAV_CTX_LOCAL_SCREEN); proj_simpl; lia.
Qed.

Lemma nav_run_depth ops : forall ps,
  0 <= nav_depth ps <= NAV_STACK_MAX_DEPTH ->
  0 <= nav_depth (nav_run ps ops) <= NAV_STACK_MAX_DEPTH.
Proof.
  induction ops as [|op rest IH]; intros ps Hd; [exact Hd|].
  cbn [nav_run fold_left]. apply IH. apply nav_step_depth. exact Hd.
Qed.

Lemma nav_entry_insert_ne ps ps' d entry i :
  nav_stack ps' = <[Z.to_nat d := entry]> (nav_stack ps) ->
  0 <= i < d -> nav_entry ps' i = nav_entry ps i.
Proof.
  intros Hst Hi. unfold nav_entry. rewrite Hst, !nth_lookup.
  rewrite list_lookup_insert_ne by lia. reflexivity.
Qed.

(** Popping the entry that a push has just written. *)
Lemma pop_after_push s base rt entry f st :
  length (nav_stack s) = 4%nat ->
  0 <= nav_depth s < NAV_STACK_MAX_DEPTH ->
  nav_depth base = nav_depth s ->
  nav_stack base = nav_stack s ->
  same_tree base s ->
  screen_anim base = screen_anim s ->
  attrs rt = attrs (runtime s) ->
  return_list entry <> INVALID_ELEMENT_ID ->
  ur_list_find rt (return_list entry) = Some st ->
  saved_active_screen entry = active_screen s ->
  (ctx_type entry =? NAV_CTX_LOCAL_SCREEN) = true \/ active_screen base = active_screen s ->
  let sn := set_focused_element f (pushed base rt entry) in
  let pop := nav_pop sn in
  fst pop = 1
  /\ nav_depth (snd pop) = nav_depth s
  /\ active_screen (snd pop) = active_screen s
  /\ ur_list_find (runtime (snd pop)) (return_list entry)
     = Some (list_leave entry st)
  /\ focused_element (snd pop)
     = (if (return_list entry <? element_count s)
           && negb (protocol_is_element_visible s (return_list entry) =? 0)
           && negb (element_focusable s (return_list entry) =? 0)
        then return_list entry else f).
Proof.
  intros Hlen Hd Hbd Hbs Hbt Hba Hattrs Hret Hfind Hsaved Hact sn pop.
  assert (Hlen' : length (nav_stack base) = 4%nat) by (rewrite Hbs; exact Hlen).
  assert (Hd' : 0 <= nav_depth base < NAV_STACK_MAX_DEPTH) by (rewrite Hbd; exact Hd).
  assert (Hent : nav_entry sn (nav_depth s) = entry).
  { rewrite <- Hbd. exact (pushed_entry_at base rt entry Hlen' Hd'). }
  assert (Hdep : nav_depth sn = nav_depth s + 1).
  { rewrite <- Hbd. reflexivity. }
  assert (Hfind' : ur_list_find (runtime sn) (return_list entry) = Some st)
    by exact Hfind.
  destruct (nav_pop_top sn (nav_depth s) entry Hd Hdep Hent Hret st Hfind')
    as (H1 & H2 & H3 & H4 & H5 & H6 & H7 & H8).
  fold pop in H1, H2, H3, H4, H5, H6, H7, H8.
  assert (Hact' : active_screen (snd pop) = active_screen s).
  { rewrite H6. destruct (ctx_type entry =? NAV_CTX_LOCAL_SCREEN); [exact Hsaved|].
    destruct Hact as [Hc|Hc]; [discriminate Hc|exact Hc]. }
  assert (Hview : same_view (snd pop) s).
  { destruct H3 as (T1 & T2 & T3 & T4). destruct Hbt as (B1 & B2 & B3 & B4).
    unfold same_view. rewrite T1, T2, T3, T4, H2, H4, Hact'.
    repeat split; try assumption.
    intros i Hi0 Hi. unfold NAV_STACK_MAX_DEPTH in Hd.
    apply (nav_entry_insert_ne s (snd pop) (nav_depth s) entry).
    - rewrite H5. subst sn. unfold pushed. proj_simpl. rewrite Hbs, Hbd. reflexivity.
    - lia. }
  rewrite (view_visible _ _ Hview), (view_focusable _ _ Hview) in H8.
  destruct H3 as (T1 & _). destruct Hbt as (B1 & _).
  change (element_count sn) with (element_count base) in H8. rewrite B1 in H8.
  change (focused_element sn) with f in H8.
  repeat split; assumption.
Qed.

(** The state a successful push leaves, whichever kind it is. *)
Lemma push_shape local s parent target pst :
  0 <= nav_depth s < NAV_STACK_MAX_DEPTH ->
  0 < head_used (runtime s) -> 0 <= used_tail (runtime s) ->
  ur_list_find (runtime s) parent = Some pst ->
  fst (nav_push local s parent target) = 1 ->
  exists f base rt st,
    snd (nav_push local s parent target)
    = set_focused_element f
        (pushed base rt
           (pushed_entry s (if local then NAV_CTX_LOCAL_SCREEN else NAV_CTX_LIST)
              target parent pst))
    /\ nav_depth base = nav_depth s
    /\ nav_stack base = nav_stack s
    /\ same_tree base s
    /\ screen_anim base = screen_anim s
    /\ attrs rt = attrs (runtime s)
    /\ ur_list_find rt parent = Some st
    /\ (local = true \/ active_screen base = active_screen s).
Proof.
  intros Hd Hh Ht Hfind Hok. destruct local; cbn [nav_push] in *.
  - pose proof (list_get_or_add_found _ _ _ Hfind) as Hget.
    rewrite (push_local_eq _ _ _ _ _ Hd Hget) in *. cbn [snd]. cbv zeta.
    set (base := if negb (find_screen_ordinal_by_id s target =? INVALID_ELEMENT_ID)
                 then _ else s).
    set (entry := pushed_entry s NAV_CTX_LOCAL_SCREEN target parent pst).
    set (psL := pushed base (runtime s) entry).
    set (fc := focus_choice psL target (ids (element_count psL))).
    assert (Hbase : nav_depth base = nav_depth s /\ nav_stack base = nav_stack s
                    /\ same_tree base s /\ screen_anim base = screen_anim s).
    { subst base. destruct (negb _); repeat split. }
    destruct Hbase as (B1 & B2 & B3 & B4).
    rewrite set_focus_eq.
    destruct (focused_element (set_focused_element fc psL) =? INVALID_ELEMENT_ID);
      [destruct (_ && _)|].
    + exists parent, base, (runtime s), pst.
      repeat (split; [first [assumption|reflexivity]|]). left. reflexivity.
    + exists fc, base, (runtime s), pst.
      repeat (split; [first [assumption|reflexivity]|]). left. reflexivity.
    + exists fc, base, (runtime s), pst.
      repeat (split; [first [assumption|reflexivity]|]). left. reflexivity.
  - rewrite (push_list_eq _ _ _ _ Hd Hfind) in *.
    destruct (ur_list_get_or_add (runtime s) target) as [[cst|] rt2] eqn:Hget;
      [|discriminate Hok].
    cbn [snd]. rewrite set_focus_eq.
    set (entry := pushed_entry s NAV_CTX_LIST target parent pst).
    set (rtM := ur_list_modify list_enter rt2 target).
    assert (Hfind2 : exists st, ur_list_find rtM parent = Some st).
    { pose proof (list_get_or_add_keeps _ _ _ _ Hh Ht Hfind _ _ Hget) as Hk.
      subst rtM. unfold ur_list_find, ur_list_modify in *. proj_simpl.
      rewrite list_find_modify by reflexivity. rewrite Hk.
      destruct (parent =? target); eexists; reflexivity. }
    destruct Hfind2 as [st Hst].
    assert (Hattrs : attrs rtM = attrs (runtime s))
      by exact (list_get_or_add_attrs _ _ _ _ Hget).
    destruct (_ && _).
    + exists target, s, rtM, st.
      repeat (split; [first [assumption|reflexivity|repeat split]|]).
      right. reflexivity.
    + exists (focused_element s), s, rtM, st.
      split; [symmetry; apply (set_focus_same (pushed s rtM entry))|].
      repeat (split; [first [assumption|reflexivity|repeat split]|]).
      right. reflexivity.
Qed.

End PushPop.


(** *** Scenarios on the navigation stack *)





(* ===================================================================== *)
(** * Further properties *)
(* ===================================================================== *)

(** ** The COBS codec on inputs of any length *)

Section CobsAnyLength.

Lemma cobs_frame_nonempty d inp : exists c r, cobs_frame d inp = c :: r.
Proof.
  revert d. induction inp as [|b rest IH]; intros d; simpl.
  - eauto.
  - destruct (b =? 0); [simpl; eauto|]. destruct (len d =? 253); simpl; eauto.
Qed.

Lemma cobs_frame_length d inp :
  len d <= 253 ->
  1 + len d + len inp <= len (cobs_frame d inp)
  /\ len (cobs_frame d inp) <= 1 + len d + len inp + (len d + len inp) / 254.
Proof.
  revert d. induction inp as [|b rest IH]; intros d Hd; simpl;
    pose proof (len_nonneg d) as Hd0.
  - len_simpl. Z.div_mod_to_equations. lia.
  - pose proof (len_nonneg rest) as Hr0. rewrite !len_cons.
    destruct (b =? 0).
    + rewrite len_cons, len_app. destruct (IH [] ltac:(rewrite len_nil; lia)) as [L U].
      rewrite len_nil in *. len_simpl.
      Z.div_mod_to_equations. lia.
    + destruct (Z.eqb_spec (len d) 253) as [He|Hne].
      * cbn [app]. rewrite len_cons, !len_app.
        destruct (IH [] ltac:(rewrite len_nil; lia)) as [L U].
        rewrite len_nil in *. len_simpl. Z.div_mod_to_equations. lia.
      * destruct (IH (d ++ [b]) ltac:(len_simpl; lia)) as [L U].
        revert L U. len_simpl. intros L U. Z.div_mod_to_equations. lia.
Qed.

Lemma cobs_frame_nonzero d inp :
  len d <= 253 ->
  Forall (fun b => 0 < b < 256) d -> Forall is_byte inp ->
  Forall (fun b => 0 < b < 256) (cobs_frame d inp).
Proof.
  revert d. induction inp as [|b rest IH]; intros d Hd Hdb Hb; simpl;
    pose proof (len_nonneg d) as Hd0.
  - constructor; [lia|assumption].
  - inversion Hb as [|? ? Hb1 Hb2]; subst. unfold is_byte in Hb1.
    destruct (Z.eqb_spec b 0).
    + constructor; [lia|]. apply Forall_app. split; [assumption|].
      apply IH; [rewrite len_nil; lia|constructor|assumption].
    + destruct (Z.eqb_spec (len d) 253).
      * cbn [app]. constructor; [lia|]. rewrite <- app_assoc.
        apply Forall_app. split; [assumption|]. constructor; [lia|].
        apply IH; [rewrite len_nil; lia|constructor|assumption].
      * apply IH; [len_simpl; lia| |assumption].
        apply Forall_app. split; [assumption|]. constructor; [lia|constructor].
Qed.

Lemma cobs_encode_loop_frame inp : forall E ph d out_max,
  Forall is_byte inp ->
  len d <= 253 ->
  len E + len (cobs_frame d inp) <= out_max ->
  exists out ci code,
    cobs_encode_loop inp out_max (E ++ ph :: d) (length E) (1 + len d)
      = (true, (out, ci, code))
    /\ <[ci := code]> out = E ++ cobs_frame d inp.
Proof.
  induction inp as [|b rest IH]; intros E ph d out_max Hb Hd Hmax.
  - simpl. eexists _, _, _. split; [reflexivity|]. apply insert_middle.
  - inversion Hb as [|? ? Hb1 Hb2]; subst. unfold is_byte in Hb1.
    pose proof (len_nonneg rest). pose proof (len_nonneg d). pose proof (len_nonneg E).
    simpl in Hmax |- *. destruct (Z.eqb_spec b 0) as [->|Hnz].
    + rewrite insert_middle. rewrite len_cons, len_app in Hmax.
      destruct (cobs_frame_length [] rest ltac:(rewrite len_nil; lia)) as [L _].
      rewrite len_nil in L.
      replace (len (E ++ (1 + len d) :: d) + 1 >? out_max) with false
        by (symmetry; apply Zgtb_false; len_simpl; lia).
      change ((E ++ (1 + len d) :: d) ++ [0]) with ((E ++ (1 + len d) :: d) ++ 0 :: []).
      destruct (IH (E ++ (1 + len d) :: d) 0 [] out_max Hb2)
        as (out & ci & code & Hrun & Hout).
      * rewrite len_nil. lia.
      * len_simpl. lia.
      * change (1 + len []) with 1 in Hrun. rewrite Hrun.
        eexists _, _, _. split; [reflexivity|]. rewrite Hout.
        rewrite <- app_assoc. reflexivity.
    + unfold u8. rewrite Z.mod_small by lia.
      destruct (Z.eqb_spec (len d) 253) as [He|Hne].
      * cbn [app] in Hmax. rewrite len_cons, !len_app, len_cons, len_nil in Hmax.
        destruct (cobs_frame_length [] rest ltac:(rewrite len_nil; lia)) as [L _].
        rewrite len_nil in L.
        replace (len (E ++ ph :: d) >=? out_max) with false
          by (symmetry; apply Zgeb_false; len_simpl; lia).
        replace (1 + len d + 1 =? 255) with true by (symmetry; apply Z.eqb_eq; lia).
        replace ((E ++ ph :: d) ++ [b]) with (E ++ ph :: (d ++ [b]))
          by (rewrite <- app_assoc; reflexivity).
        rewrite insert_middle.
        replace (len (E ++ 255 :: d ++ [b]) + 1 >? out_max) with false
          by (symmetry; apply Zgtb_false; len_simpl; lia).
        change ((E ++ 255 :: d ++ [b]) ++ [0]) with ((E ++ 255 :: d ++ [b]) ++ 0 :: []).
        destruct (IH (E ++ 255 :: d ++ [b]) 0 [] out_max Hb2)
          as (out & ci & code & Hrun & Hout).
        -- rewrite len_nil. lia.
        -- len_simpl. lia.
        -- change (1 + len []) with 1 in Hrun. rewrite Hrun.
           eexists _, _, _. split; [reflexivity|]. rewrite Hout.
           cbn [app]. rewrite <- !app_assoc. cbn [app]. rewrite <- !app_assoc.
           reflexivity.
      * assert (L : 1 + (len d + 1) + len rest <= len (cobs_frame (d ++ [b]) rest)).
        { destruct (cobs_frame_length (d ++ [b]) rest) as [L _];
            [rewrite len_app, len_cons, len_nil; lia|].
          rewrite len_app, len_cons, len_nil in L. lia. }
        replace (len (E ++ ph :: d) >=? out_max) with false
          by (symmetry; apply Zgeb_false; len_simpl; lia).
        replace (1 + len d + 1 =? 255) with false by (symmetry; apply Z.eqb_neq; lia).
        replace ((E ++ ph :: d) ++ [b]) with (E ++ ph :: (d ++ [b]))
          by (rewrite <- app_assoc; reflexivity).
        destruct (IH E ph (d ++ [b]) out_max Hb2) as (out & ci & code & Hrun & Hout).
        -- len_simpl. lia.
        -- assumption.
        -- replace (1 + len (d ++ [b])) with (1 + len d + 1) in Hrun by (len_simpl; lia).
           rewrite Hrun. eexists _, _, _. split; [reflexivity|]. exact Hout.
Qed.

Lemma cobs_decode_loop_frame inp : forall d out out_max fuel,
  Forall is_byte inp ->
  len d <= 253 ->
  len out + len d + len inp <= out_max ->
  (length (cobs_frame d inp) <= fuel)%nat ->
  cobs_decode_loop fuel (cobs_frame d inp) out out_max
    = (len (out ++ d ++ inp), out ++ d ++ inp).
Proof.
  induction inp as [|b rest IH]; intros d out out_max fuel Hb Hd Hmax Hfuel.
  - simpl in *. destruct fuel as [|fuel]; [lia|].
    pose proof (len_nonneg d). cbn [cobs_decode_loop].
    destruct (Z.eqb_spec (1 + len d) 0); [lia|].
    replace (Z.to_nat (1 + len d - 1)) with (length d) by (unfold len; lia).
    pose proof (cobs_decode_copy_app d [] out out_max) as Hc.
    rewrite app_nil_r in Hc. rewrite Hc by (len_simpl; lia).
    destruct fuel; simpl; rewrite app_nil_r; reflexivity.
  - inversion Hb as [|? ? Hb1 Hb2]; subst. rewrite len_cons in *.
    pose proof (len_nonneg rest). pose proof (len_nonneg d). pose proof (len_nonneg out).
    simpl in *. destruct (Z.eqb_spec b 0) as [->|Hnz].
    + destruct fuel as [|fuel]; [simpl in Hfuel; lia|].
      cbn [cobs_decode_loop app]. destruct (Z.eqb_spec (1 + len d) 0); [lia|].
      replace (Z.to_nat (1 + len d - 1)) with (length d) by (unfold len; lia).
      rewrite cobs_decode_copy_app by lia.
      destruct (cobs_frame_nonempty [] rest) as (c & r & Hcr).
      rewrite Hcr. destruct (Z.eqb_spec (1 + len d) 255); [lia|]. simpl negb. cbv iota.
      replace (len (out ++ d) >=? out_max) with false
        by (symmetry; apply Zgeb_false; len_simpl; lia).
      rewrite <- Hcr.
      rewrite IH; try assumption.
      * simpl. rewrite <- !app_assoc. reflexivity.
      * rewrite len_nil. lia.
      * len_simpl. lia.
      * simpl in Hfuel. rewrite length_app in Hfuel. lia.
    + destruct (Z.eqb_spec (len d) 253) as [He|Hne].
      * destruct fuel as [|fuel]; [simpl in Hfuel; lia|].
        cbn [cobs_decode_loop app]. change (255 =? 0) with false.
        change (255 =? 255) with true. cbv iota. cbn [negb].
        replace (Z.to_nat (255 - 1)) with (length (d ++ [b]))
          by (rewrite length_app; simpl; unfold len in He; lia).
        rewrite cobs_decode_copy_app by (len_simpl; lia).
        destruct (cobs_frame_nonempty [] rest) as (c & r & Hcr).
        rewrite Hcr. rewrite <- Hcr.
        rewrite IH; try assumption.
        -- simpl. rewrite <- !app_assoc. reflexivity.
        -- rewrite len_nil. lia.
        -- len_simpl. lia.
        -- simpl in Hfuel. rewrite !length_app in Hfuel. simpl in Hfuel. lia.
      * rewrite IH; try assumption.
        -- rewrite <- !app_assoc. reflexivity.
        -- len_simpl. lia.
        -- len_simpl. lia.
Qed.

Lemma cobs_frame_bounds inp :
  len inp + 1 <= len (cobs_frame [] inp) <= len inp + len inp / 254 + 1.
Proof.
  destruct (cobs_frame_length [] inp) as [L U]; [rewrite len_nil; lia|].
  rewrite len_nil in L, U. replace (0 + len inp) with (len inp) in U by lia. lia.
Qed.

Lemma cobs_encode_frame input out_max :
  Forall is_byte input ->
  len input + len input / 254 + 1 <= out_max ->
  cobs_encode input out_max = (len (cobs_frame [] input), cobs_frame [] input).
Proof.
  intros Hb Hout. pose proof (len_nonneg input) as Hnn.
  destruct (cobs_frame_bounds input) as [L U].
  destruct (cobs_encode_loop_frame input [] 0 [] out_max Hb)
    as (out & ci & code & Hrun & Hres);
    [rewrite len_nil; lia|rewrite len_nil; lia|].
  unfold cobs_encode. destruct (Z.eqb_spec out_max 0); [lia|].
  change ([] ++ [0]) with [0] in Hrun. change (1 + len []) with 1 in Hrun.
  cbn [length] in Hrun. rewrite Hrun, Hres. reflexivity.
Qed.

Lemma cobs_decode_frame input dec_max :
  Forall is_byte input ->
  len input <= dec_max ->
  cobs_decode (cobs_frame [] input) dec_max = (len input, input).
Proof.
  intros Hb Hdec. unfold cobs_decode.
  rewrite (cobs_decode_loop_frame input [] [] dec_max); try assumption;
    [reflexivity|rewrite len_nil; lia|lia].
Qed.

End CobsAnyLength.

(** X1: for every byte sequence, of any length, [cobs_encode] into a
    buffer of at least len + len/254 + 1 bytes succeeds, and [cobs_decode]
    of the bytes it wrote, into a buffer that can hold the input, returns
    the input and its length. *)
Theorem cobs_roundtrip_any_length (input : list Z) (out_max dec_max : Z) :
  Forall is_byte input ->
  len input + len input / 254 + 1 <= out_max ->
  len input <= dec_max ->
  exists enc,
    cobs_encode input out_max = (len enc, enc)
    /\ cobs_decode enc dec_max = (len input, input).
Proof.
  intros Hb Hout Hdec. exists (cobs_frame [] input). split.
  - apply cobs_encode_frame; assumption.
  - apply cobs_decode_frame; assumption.
Qed.

Lemma cobs_roundtrip_any_length_witness :
  exists enc,
    cobs_encode (repeat 7 300) 400 = (len enc, enc)
    /\ cobs_decode enc 300 = (len (repeat 7 300), repeat 7 300).
Proof.
  apply (cobs_roundtrip_any_length (repeat 7 300) 400 300).
  - apply List.Forall_forall. intros x Hx. apply repeat_spec in Hx. subst.
    unfold is_byte. lia.
  - vm_compute. discriminate.
  - vm_compute. discriminate.
Defined.

(** X2: the bytes [cobs_encode] writes for a byte sequence contain no zero
    byte, and there are at least len + 1 and at most len + len/254 + 1 of
    them. *)
Theorem cobs_encode_no_zero (input : list Z) (out_max : Z) :
  Forall is_byte input ->
  len input + len input / 254 + 1 <= out_max ->
  Forall (fun b => 0 < b < 256) (snd (cobs_encode input out_max))
  /\ fst (cobs_encode input out_max) = len (snd (cobs_encode input out_max))
  /\ len input + 1 <= fst (cobs_encode input out_max)
     <= len input + len input / 254 + 1.
Proof.
  intros Hb Hout. rewrite cobs_encode_frame by assumption. cbn [fst snd].
  destruct (cobs_frame_bounds input) as [L U].
  split; [|split; [reflexivity|lia]].
  apply cobs_frame_nonzero; [rewrite len_nil; lia|constructor|assumption].
Qed.

Lemma cobs_encode_no_zero_witness :
  Forall (fun b => 0 < b < 256) (snd (cobs_encode [0; 0; 5; 0] 8)).
Proof.
  refine (proj1 (cobs_encode_no_zero [0; 0; 5; 0] 8 _ _)).
  - repeat constructor; unfold is_byte; lia.
  - vm_compute. discriminate.
Defined.

(** ** The codec never leaves its buffers *)

Lemma cobs_encode_loop_within inp : forall out_max out ci code r out' ci' code',
  cobs_encode_loop inp out_max out ci code = (r, (out', ci', code')) ->
  len out <= out_max ->
  len out' <= out_max /\ (r = true -> len out + len inp <= len out').
Proof.
  induction inp as [|b rest IH]; intros out_max out ci code r out' ci' code' H Hle.
  - simpl in H. injection H as <- <- <- <-. rewrite len_nil. split; [assumption|lia].
  - simpl in H. rewrite len_cons. pose proof (len_nonneg rest).
    destruct (b =? 0).
    + destruct (Z.gtb_spec (len (<[ci := code]> out) + 1) out_max) as [Hg|Hg].
      * injection H as <- <- <- <-. rewrite len_insert. split; [assumption|discriminate].
      * apply IH in H; [|rewrite len_app, len_cons, len_nil; lia].
        rewrite len_app, len_cons, len_nil, len_insert in *. destruct H as [H1 H2].
        split; [assumption|]. intros Hr. specialize (H2 Hr). lia.
    + destruct (Z.geb_spec (len out) out_max) as [Hg|Hg].
      * injection H as <- <- <- <-. split; [assumption|discriminate].
      * destruct (u8 (code + 1) =? 255).
        -- destruct (Z.gtb_spec (len (<[ci := 255]> (out ++ [b])) + 1) out_max) as [Hg'|Hg'].
           ++ injection H as <- <- <- <-. rewrite len_insert, len_app, len_cons, len_nil.
              split; [lia|discriminate].
           ++ apply IH in H; [|rewrite len_app, len_cons, len_nil; lia].
              rewrite !len_app, !len_cons, !len_nil, len_insert, len_app, len_cons, len_nil in *.
              destruct H as [H1 H2]. split; [assumption|].
              intros Hr. specialize (H2 Hr). lia.
        -- apply IH in H; [|rewrite len_app, len_cons, len_nil; lia].
           rewrite !len_app, !len_cons, !len_nil in *.
           destruct H as [H1 H2]. split; [assumption|].
           intros Hr. specialize (H2 Hr). lia.
Qed.

Lemma cobs_encode_facts input out_max :
  0 <= out_max ->
  len (snd (cobs_encode input out_max)) <= out_max
  /\ (fst (cobs_encode input out_max) = 0
      \/ fst (cobs_encode input out_max) = len (snd (cobs_encode input out_max)))
  /\ (out_max < len input + 1 -> fst (cobs_encode input out_max) = 0).
Proof.
  intros Hmax. unfold cobs_encode.
  destruct (Z.eqb_spec out_max 0) as [->|Hnz].
  - cbn [fst snd]. rewrite len_nil. repeat split; lia.
  - destruct (cobs_encode_loop input out_max [0] 0%nat 1) as [r [[out ci] code]] eqn:Hrun.
    apply cobs_encode_loop_within in Hrun; [|rewrite len_cons, len_nil; lia].
    rewrite len_cons, len_nil in Hrun. destruct Hrun as [H1 H2].
    destruct r; cbn [fst snd]; rewrite ?len_insert.
    + specialize (H2 eq_refl). repeat split; lia.
    + repeat split; lia.
Qed.

(** X3: whatever the input and the capacity, [cobs_encode] stores at most
    [out_max] bytes; a non-zero return value is the number of bytes stored;
    and a buffer shorter than the input plus one code byte makes it
    return 0. *)
Theorem cobs_encode_within_buffer (input : list Z) (out_max : Z) :
  0 <= out_max ->
  len (snd (cobs_encode input out_max)) <= out_max
  /\ (fst (cobs_encode input out_max) = 0
      \/ fst (cobs_encode input out_max) = len (snd (cobs_encode input out_max)))
  /\ (out_max < len input + 1 -> fst (cobs_encode input out_max) = 0).
Proof. apply cobs_encode_facts. Qed.

Lemma cobs_encode_within_buffer_witness :
  fst (cobs_encode [1; 2; 3] 3) = 0.
Proof.
  refine (proj2 (proj2 (cobs_encode_within_buffer [1; 2; 3] 3 _)) _).
  - lia.
  - vm_compute. reflexivity.
Defined.

Lemma cobs_decode_copy_within n : forall inp out out_max rest' out',
  cobs_decode_copy n inp out out_max = Some (rest', out') ->
  len out' <= Z.max (len out) out_max
  /\ length out' = (length out + n)%nat
  /\ length inp = (n + length rest')%nat.
Proof.
  induction n as [|n IH]; intros inp out out_max rest' out' H; simpl in H.
  - injection H as <- <-. repeat split; lia.
  - destruct inp as [|b rest]; [discriminate|].
    destruct (Z.geb_spec (len out) out_max) as [Hg|Hg]; [discriminate|].
    apply IH in H. rewrite len_app, len_cons, len_nil, length_app in H. simpl in *.
    destruct H as (H1 & H2 & H3). repeat split; lia.
Qed.

Lemma cobs_decode_loop_within fuel : forall inp out out_max n out',
  cobs_decode_loop fuel inp out out_max = (n, out') ->
  len out <= out_max ->
  n <> 0 ->
  n = len out' /\ n <= out_max
  /\ n <= len out + len inp - (match inp with [] => 0 | _ :: _ => 1 end).
Proof.
  induction fuel as [|fuel IH]; intros inp out out_max n out' H Hle Hn.
  - destruct inp as [|code rest]; simpl in H; injection H as <- <-;
      [|contradiction].
    rewrite len_nil. repeat split; lia.
  - destruct inp as [|code rest].
    + simpl in H. injection H as <- <-. rewrite len_nil. repeat split; lia.
    + cbn [cobs_decode_loop] in H.
      destruct (code =? 0); [injection H as <- <-; contradiction|].
      destruct (cobs_decode_copy _ rest out out_max) as [[rest' o1]|] eqn:Hc;
        [|injection H as <- <-; contradiction].
      apply cobs_decode_copy_within in Hc. destruct Hc as (C1 & C2 & C3).
      assert (Ho1 : len o1 <= out_max) by lia.
      assert (Hlen : len o1 + len rest' = len out + len rest).
      { unfold len. rewrite C2, C3, !Nat2Z.inj_add. lia. }
      rewrite len_cons.
      destruct rest' as [|c r].
      * apply IH in H; [|assumption|assumption]. destruct H as (H1 & H2 & H3).
        rewrite len_nil in Hlen, H3. repeat split; try assumption. lia.
      * pose proof (len_nonneg r). rewrite len_cons in Hlen.
        destruct (negb (code =? 255)).
        -- destruct (Z.geb_spec (len o1) out_max); [injection H as <- <-; contradiction|].
           apply IH in H; [|rewrite len_app, len_cons, len_nil; lia|assumption].
           destruct H as (R1 & R2 & R3).
           rewrite len_app, !len_cons, len_nil in R3.
           repeat split; try assumption. lia.
        -- apply IH in H; [|assumption|assumption].
           destruct H as (R1 & R2 & R3). rewrite len_cons in R3.
           repeat split; try assumption. lia.
Qed.

Lemma cobs_decode_copy_grow n : forall inp out m m' r,
  cobs_decode_copy n inp out m = Some r -> m <= m' ->
  cobs_decode_copy n inp out m' = Some r.
Proof.
  induction n as [|n IH]; intros inp out m m' r H Hm; simpl in *; [assumption|].
  destruct inp as [|b rest]; [discriminate|].
  destruct (Z.geb_spec (len out) m); [discriminate|].
  rewrite Zgeb_false by lia. eapply IH; eassumption.
Qed.

(** A decoding that succeeds with some capacity succeeds alike with more. *)
Lemma cobs_decode_loop_grow fuel : forall inp out m m' n o,
  cobs_decode_loop fuel inp out m = (n, o) -> n <> 0 -> m <= m' ->
  cobs_decode_loop fuel inp out m' = (n, o).
Proof.
  induction fuel as [|fuel IH]; intros inp out m m' n o H Hn Hm.
  - destruct inp; simpl in *; assumption.
  - destruct inp as [|code rest]; [simpl in *; assumption|].
    cbn [cobs_decode_loop] in *.
    destruct (code =? 0); [assumption|].
    destruct (cobs_decode_copy _ rest out m) as [[rest' o1]|] eqn:Hc;
      [|injection H as <- <-; contradiction].
    rewrite (cobs_decode_copy_grow _ _ _ _ _ _ Hc Hm).
    destruct rest' as [|c r]; [eapply IH; eassumption|].
    destruct (negb (code =? 255)); [|eapply IH; eassumption].
    destruct (Z.geb_spec (len o1) m); [injection H as <- <-; contradiction|].
    rewrite Zgeb_false by lia. eapply IH; eassumption.
Qed.

Lemma cobs_decode_within_loop_bound enc out_max n out :
  cobs_decode enc out_max = (n, out) -> n <> 0 -> 0 <= out_max -> n <= out_max.
Proof.
  unfold cobs_decode. intros H Hn Hm.
  apply cobs_decode_loop_within in H; [|rewrite len_nil; lia|assumption].
  apply H.
Qed.

(** X4: whenever [cobs_decode] returns a non-zero count, that count is
    the number of bytes it produced, it does not exceed [out_max], and it
    is smaller than the number of encoded bytes read. *)
Theorem cobs_decode_within_buffer (enc : list Z) (out_max : Z) :
  0 <= out_max ->
  fst (cobs_decode enc out_max) <> 0 ->
  fst (cobs_decode enc out_max) = len (snd (cobs_decode enc out_max))
  /\ fst (cobs_decode enc out_max) <= out_max
  /\ fst (cobs_decode enc out_max) < len enc.
Proof.
  intros Hmax Hn. unfold cobs_decode in *.
  destruct (cobs_decode_loop (length enc) enc [] out_max) as [n out] eqn:Hrun.
  cbn [fst snd] in *.
  apply cobs_decode_loop_within in Hrun; [|rewrite len_nil; lia|assumption].
  destruct Hrun as (H1 & H2 & H3). repeat split; try assumption.
  rewrite len_nil in H3. destruct enc as [|c r]; [rewrite len_nil in *; lia|].
  rewrite len_cons in *. lia.
Qed.

Lemma cobs_decode_within_buffer_witness :
  fst (cobs_decode [1; 2; 1; 1; 1] 64) < len [1; 2; 1; 1; 1].
Proof.
  refine (proj2 (proj2 (cobs_decode_within_buffer [1; 2; 1; 1; 1] 64 _ _))).
  - lia.
  - vm_compute. discriminate.
Defined.

(** ** Framing on the SPI link *)

Section Framing.

Implicit Types (rx : rx_globals) (s : slave).

Lemma receive_bytes_rx bytes : forall s,
  receive_bytes s bytes
  = set_g_rx (fold_left (fun rx b => ui_spi_rx_irq rx false b) bytes (g_rx s)) s.
Proof.
  unfold receive_bytes.
  induction bytes as [|b rest IH]; intros s; cbn [fold_left].
  - destruct s; reflexivity.
  - rewrite IH. reflexivity.
Qed.

Lemma rx_ignores_when_ready bytes : forall rx,
  g_rx_frame_ready rx <> 0 ->
  fold_left (fun rx b => ui_spi_rx_irq rx false b) bytes rx = rx.
Proof.
  induction bytes as [|b rest IH]; intros rx Hr; cbn [fold_left]; [reflexivity|].
  unfold ui_spi_rx_irq at 2. rewrite Zeqb_false by assumption. cbn [negb].
  apply IH. assumption.
Qed.

(** Collecting the body of a frame, [k] bytes of it being stored already. *)
Lemma rx_collect body : forall rx,
  g_rx_state rx = RX_STATE_COLLECT_COBS ->
  g_rx_frame_ready rx = 0 ->
  0 <= g_rx_enc_len rx ->
  g_rx_enc_len rx + len body = g_rx_frame_len rx ->
  g_rx_frame_len rx <= RX_ENC_BUF_SIZE ->
  length (g_rx_enc_buf rx) = Z.to_nat RX_ENC_BUF_SIZE ->
  body <> [] ->
  fold_left (fun rx b => ui_spi_rx_irq rx false b) body rx
  = set_g_rx_state RX_STATE_WAIT_SYNC0
      (set_g_rx_frame_ready 1
         (set_g_rx_enc_len (g_rx_frame_len rx)
            (set_g_rx_enc_buf
               (take (Z.to_nat (g_rx_enc_len rx)) (g_rx_enc_buf rx) ++ body
                  ++ drop (Z.to_nat (g_rx_frame_len rx)) (g_rx_enc_buf rx)) rx))).
Proof.
  unfold RX_ENC_BUF_SIZE.
  induction body as [|b rest IH]; intros rx Hst Hrdy Hk Hlen Hcap Hbuf Hne;
    [contradiction|].
  rewrite len_cons in Hlen. pose proof (len_nonneg rest) as Hr.
  cbn [fold_left]. unfold ui_spi_rx_irq at 2. rewrite Hrdy, Hst. cbn [negb Z.eqb].
  unfold RX_ENC_BUF_SIZE. rewrite Zltb_true by lia. cbv zeta. proj_simpl.
  rewrite u8_small by lia.
  assert (Hins : <[Z.to_nat (g_rx_enc_len rx) := b]> (g_rx_enc_buf rx)
                 = take (Z.to_nat (g_rx_enc_len rx)) (g_rx_enc_buf rx) ++ b
                   :: drop (S (Z.to_nat (g_rx_enc_len rx))) (g_rx_enc_buf rx)).
  { apply insert_take_drop. lia. }
  destruct rest as [|b' rest'].
  - rewrite len_nil in Hlen. rewrite Zgeb_true by lia. cbn [fold_left].
    rewrite Hins. replace (g_rx_frame_len rx) with (g_rx_enc_len rx + 1) by lia.
    replace (Z.to_nat (g_rx_enc_len rx + 1)) with (S (Z.to_nat (g_rx_enc_len rx))) by lia.
    destruct rx; reflexivity.
  - rewrite len_cons in Hlen. pose proof (len_nonneg rest').
    rewrite Zgeb_false by lia.
    rewrite IH; proj_simpl; try assumption; try lia; try discriminate.
    + rewrite Hins.
      replace (Z.to_nat (g_rx_enc_len rx + 1)) with (S (Z.to_nat (g_rx_enc_len rx))) by lia.
      replace (take (Z.to_nat (g_rx_enc_len rx)) (g_rx_enc_buf rx)
                 ++ b :: drop (S (Z.to_nat (g_rx_enc_len rx))) (g_rx_enc_buf rx))
        with ((take (Z.to_nat (g_rx_enc_len rx)) (g_rx_enc_buf rx) ++ [b])
                 ++ drop (S (Z.to_nat (g_rx_enc_len rx))) (g_rx_enc_buf rx))
        by (rewrite <- app_assoc; reflexivity).
      rewrite take_app_length' by (rewrite length_app, length_take; simpl; lia).
      assert (Hd : drop (Z.to_nat (g_rx_frame_len rx))
                     ((take (Z.to_nat (g_rx_enc_len rx)) (g_rx_enc_buf rx) ++ [b])
                        ++ drop (S (Z.to_nat (g_rx_enc_len rx))) (g_rx_enc_buf rx))
                   = drop (Z.to_nat (g_rx_frame_len rx)) (g_rx_enc_buf rx)).
      { rewrite <- app_assoc. cbn [app]. rewrite <- Hins.
        rewrite drop_insert_lt by lia. reflexivity. }
      rewrite Hd. rewrite <- !app_assoc. destruct rx; reflexivity.
    + rewrite len_cons. lia.
    + rewrite length_insert. assumption.
Qed.

Lemma rx_header rx n :
  g_rx_state rx = RX_STATE_WAIT_SYNC0 ->
  g_rx_frame_ready rx = 0 ->
  fold_left (fun rx b => ui_spi_rx_irq rx false b)
    [SPI_RESP_SYNC0; SPI_RESP_SYNC1; n] rx
  = let rx1 := set_g_rx_enc_len 0 (set_g_rx_frame_len n rx) in
    if (n >? 0) && (n <=? RX_ENC_BUF_SIZE)
    then set_g_rx_state RX_STATE_COLLECT_COBS rx1
    else set_g_rx_state RX_STATE_WAIT_SYNC0 rx1.
Proof.
  intros Hst Hrdy. cbn [fold_left].
  assert (H0 : ui_spi_rx_irq rx false SPI_RESP_SYNC0
               = set_g_rx_state RX_STATE_WAIT_SYNC1 rx).
  { unfold ui_spi_rx_irq. rewrite Hrdy, Hst. reflexivity. }
  rewrite H0.
  assert (H1 : ui_spi_rx_irq (set_g_rx_state RX_STATE_WAIT_SYNC1 rx) false SPI_RESP_SYNC1
               = set_g_rx_state RX_STATE_WAIT_LEN rx).
  { unfold ui_spi_rx_irq. proj_simpl. rewrite Hrdy. reflexivity. }
  rewrite H1. unfold ui_spi_rx_irq. proj_simpl. rewrite Hrdy.
  change (negb (0 =? 0)) with false. cbv iota zeta. proj_simpl.
  destruct ((n >? 0) && (n <=? RX_ENC_BUF_SIZE)); destruct rx; reflexivity.
Qed.

Lemma rx_frame_state s body :
  g_rx_state (g_rx s) = RX_STATE_WAIT_SYNC0 ->
  g_rx_frame_ready (g_rx s) = 0 ->
  length (g_rx_enc_buf (g_rx s)) = Z.to_nat RX_ENC_BUF_SIZE ->
  1 <= len body <= RX_ENC_BUF_SIZE ->
  g_rx (receive_bytes s ([SPI_RESP_SYNC0; SPI_RESP_SYNC1; len body] ++ body))
  = set_g_rx_state RX_STATE_WAIT_SYNC0
      (set_g_rx_frame_ready 1
         (set_g_rx_enc_len (len body)
            (set_g_rx_frame_len (len body)
               (set_g_rx_enc_buf
                  (body ++ drop (length body) (g_rx_enc_buf (g_rx s))) (g_rx s))))).
Proof.
  intros Hst Hrdy Hbuf Hlen. rewrite receive_bytes_rx.
  change ([SPI_RESP_SYNC0; SPI_RESP_SYNC1; len body] ++ body)
    with ([SPI_RESP_SYNC0; SPI_RESP_SYNC1; len body] ++ body).
  rewrite fold_left_app, rx_header by assumption. cbv zeta.
  rewrite Zgtb_true by lia.
  replace (len body <=? RX_ENC_BUF_SIZE) with true by (symmetry; apply Z.leb_le; lia).
  cbn [andb].
  rewrite rx_collect; proj_simpl; try assumption; try reflexivity; try lia.
  - cbn [take app]. replace (Z.to_nat (len body)) with (length body) by (unfold len; lia).
    destruct (g_rx s); reflexivity.
  - destruct body; [rewrite len_nil in Hlen; lia|discriminate].
Qed.

End Framing.

(** X5: from the idle receiver, the bytes A5 5A n followed by n body bytes
    (1 <= n <= 112) leave a complete frame: the ready flag is set, the
    length is n, the buffer starts with the body and the state machine is
    back at the first sync byte; whatever arrives before the frame is
    serviced is ignored.  A length byte of 0 or above 112 abandons the
    frame. *)
Theorem rx_collects_one_frame (s : slave) (body more : list Z) (n : Z) :
  g_rx_state (g_rx s) = RX_STATE_WAIT_SYNC0 ->
  g_rx_frame_ready (g_rx s) = 0 ->
  length (g_rx_enc_buf (g_rx s)) = Z.to_nat RX_ENC_BUF_SIZE ->
  let s1 := receive_bytes s ([SPI_RESP_SYNC0; SPI_RESP_SYNC1; len body] ++ body) in
  let s0 := receive_bytes s [SPI_RESP_SYNC0; SPI_RESP_SYNC1; n] in
  (1 <= len body <= RX_ENC_BUF_SIZE ->
     g_rx_frame_ready (g_rx s1) = 1
     /\ g_rx_enc_len (g_rx s1) = len body
     /\ take (length body) (g_rx_enc_buf (g_rx s1)) = body
     /\ g_rx_state (g_rx s1) = RX_STATE_WAIT_SYNC0
     /\ receive_bytes s1 more = s1)
  /\ (n <= 0 \/ RX_ENC_BUF_SIZE < n ->
     g_rx_frame_ready (g_rx s0) = 0 /\ g_rx_state (g_rx s0) = RX_STATE_WAIT_SYNC0).
Proof.
  intros Hst Hrdy Hbuf s1 s0. split.
  - intros Hlen. assert (Hrx := rx_frame_state s body Hst Hrdy Hbuf Hlen).
    fold s1 in Hrx. rewrite (receive_bytes_rx more s1), Hrx. proj_simpl.
    repeat split.
    + apply take_app_length.
    + rewrite rx_ignores_when_ready by (proj_simpl; discriminate).
      rewrite <- Hrx. destruct s1; reflexivity.
  - intros Hn. subst s0. rewrite receive_bytes_rx. proj_simpl.
    rewrite rx_header by assumption. cbv zeta.
    destruct (Z.gtb_spec n 0); cbn [andb]; [|proj_simpl; split; [assumption|reflexivity]].
    replace (n <=? RX_ENC_BUF_SIZE) with false by (symmetry; apply Z.leb_gt; lia).
    proj_simpl. split; [assumption|reflexivity].
Qed.

Lemma rx_collects_one_frame_witness :
  g_rx_frame_ready
    (g_rx (receive_bytes slave_init ([SPI_RESP_SYNC0; SPI_RESP_SYNC1; len [2; 1]] ++ [2; 1])))
  = 1.
Proof.
  refine (proj1 (proj1 (rx_collects_one_frame slave_init [2; 1] [] 0 _ _ _) _)).
  - reflexivity.
  - reflexivity.
  - reflexivity.
  - vm_compute. split; intros H; discriminate H.
Defined.

(** ** From the master's frame to the slave's dispatcher *)

Section Link.

Variable cmd_input_event : slave -> list Z -> Z -> Z * slave.

Implicit Types (s : slave).

Lemma tx_queue_idle tx : g_tx_queue_pending tx = 0 -> protocol_tx_process_queue tx = tx.
Proof. intros H. unfold protocol_tx_process_queue. rewrite H. reflexivity. Qed.

Lemma set_g_tx_same s : set_g_tx (g_tx s) s = s.
Proof. destruct s; reflexivity. Qed.

(** What the master clocks out for a command that fits. *)
Lemma master_frame_bytes cmd payload :
  is_byte cmd -> Forall is_byte payload -> len payload <= 92 ->
  master_send_command_no_response cmd payload (len payload)
  = (0, [SPI_RESP_SYNC0; SPI_RESP_SYNC1; len (cobs_frame [] (cmd :: payload))]
          ++ cobs_frame [] (cmd :: payload)).
Proof.
  intros Hc Hp Hlen. pose proof (len_nonneg payload) as Hnn.
  unfold master_send_command_no_response, MASTER_SPI_BUFFER_SIZE, MASTER_MAX_COBS_BYTES.
  change (u8 (96 - 4)) with 92. change (u8 (96 - 1)) with 95.
  rewrite (Zgtb_false (len payload) 92) by lia. rewrite Zgtb_false by lia.
  replace (Z.to_nat (len payload)) with (length payload) by (unfold len; lia).
  rewrite firstn_all.
  assert (Hraw : Forall is_byte (cmd :: payload)) by (constructor; assumption).
  destruct (cobs_frame_bounds (cmd :: payload)) as [L U]. rewrite len_cons in L, U.
  assert (Hdiv : (1 + len payload) / 254 = 0) by (apply Z.div_small; lia).
  rewrite Hdiv in U.
  rewrite cobs_encode_frame by (try assumption; rewrite len_cons, Hdiv; lia).
  rewrite Zeqb_false by lia. rewrite Zgeb_false by lia. cbn [orb].
  rewrite !u8_small by lia. f_equal.
  apply take_ge. cbn [app length]. unfold len in *. lia.
Qed.

(** The receiver after the master's frame, and the bytes the service
    routine decodes. *)
Lemma master_frame_received s cmd payload :
  is_byte cmd -> Forall is_byte payload -> len payload <= 92 ->
  g_rx_state (g_rx s) = RX_STATE_WAIT_SYNC0 ->
  g_rx_frame_ready (g_rx s) = 0 ->
  length (g_rx_enc_buf (g_rx s)) = Z.to_nat RX_ENC_BUF_SIZE ->
  let s1 := receive_bytes s
              (snd (master_send_command_no_response cmd payload (len payload))) in
  g_rx_frame_ready (g_rx s1) = 1
  /\ g_rx_overrun (g_rx s1) = g_rx_overrun (g_rx s)
  /\ g_tx s1 = g_tx s
  /\ take (Z.to_nat (g_rx_enc_len (g_rx s1))) (g_rx_enc_buf (g_rx s1))
     = cobs_frame [] (cmd :: payload).
Proof.
  intros Hc Hp Hlen Hst Hrdy Hbuf s1. subst s1.
  rewrite master_frame_bytes by assumption. cbn [snd].
  pose proof (len_nonneg payload) as Hnn.
  destruct (cobs_frame_bounds (cmd :: payload)) as [L U]. rewrite len_cons in L, U.
  assert (Hdiv : (1 + len payload) / 254 = 0) by (apply Z.div_small; lia).
  rewrite Hdiv in U.
  assert (Hrx := rx_frame_state s (cobs_frame [] (cmd :: payload)) Hst Hrdy Hbuf
                   ltac:(unfold RX_ENC_BUF_SIZE; lia)).
  rewrite Hrx. proj_simpl. repeat split.
  - rewrite receive_bytes_rx. reflexivity.
  - replace (Z.to_nat (len (cobs_frame [] (cmd :: payload))))
      with (length (cobs_frame [] (cmd :: payload))) by (unfold len; lia).
    apply take_app_length.
Qed.

(** Dispatch of a received command that fits. *)
Lemma command_dispatch s cmd payload :
  is_byte cmd -> Forall is_byte payload -> len payload <= 63 ->
  g_rx_state (g_rx s) = RX_STATE_WAIT_SYNC0 ->
  g_rx_frame_ready (g_rx s) = 0 ->
  g_rx_overrun (g_rx s) = 0 ->
  length (g_rx_enc_buf (g_rx s)) = Z.to_nat RX_ENC_BUF_SIZE ->
  g_tx_queue_pending (g_tx s) = 0 ->
  let frame := master_send_command_no_response cmd payload (len payload) in
  let s1 := receive_bytes s (snd frame) in
  fst frame = 0
  /\ protocol_service_deferred_ops cmd_input_event s1
     = (let '(r, s') :=
          handle_binary_command cmd_input_event s1 cmd payload (len payload) in
        let s'' :=
          if negb (r =? PROTOCOL_RESP_SENT)
          then send s' cmd [protocol_map_result_to_rc r] else s' in
        let s3 := set_g_rx (spi_rx_reset (set_g_rx_frame_ready 0 (g_rx s''))) s'' in
        set_g_tx (protocol_tx_process_queue (g_tx s3)) s3).
Proof.
  intros Hc Hp Hlen Hst Hrdy Hovr Hbuf Hq frame s1. subst frame.
  pose proof (len_nonneg payload) as Hnn.
  split; [rewrite master_frame_bytes by (try assumption; lia); reflexivity|].
  destruct (master_frame_received s cmd payload Hc Hp ltac:(lia) Hst Hrdy Hbuf)
    as (R1 & R2 & R3 & R4). fold s1 in R1, R2, R3, R4.
  unfold protocol_service_deferred_ops. rewrite R2, Hovr.
  change (negb (0 =? 0)) with false. cbv iota.
  rewrite (tx_queue_idle (g_tx s1)) by (rewrite R3; assumption).
  rewrite set_g_tx_same.
  rewrite R1. change (negb (1 =? 0)) with true. cbv iota.
  rewrite R4.
  rewrite cobs_decode_frame
    by (try (constructor; assumption); rewrite len_cons; unfold SPI_BUFFER_SIZE; lia).
  rewrite len_cons. unfold SPI_BUFFER_SIZE.
  replace (1 + len payload <=? 64) with true by (symmetry; apply Z.leb_le; lia).
  rewrite Zgeb_true by lia. cbn [andb nth].
  replace (1 + len payload - 1) with (len payload) by lia.
  destruct (Z.gtb_spec (1 + len payload) 1) as [Hg|Hg].
  - cbn [drop]. rewrite drop_0, u8_small by lia.
    destruct (handle_binary_command cmd_input_event s1 cmd payload (len payload));
      reflexivity.
  - assert (He : payload = []).
    { destruct payload; [reflexivity|rewrite len_cons in Hg; pose proof (len_nonneg payload); lia]. }
    subst payload. change (len []) with 0.
    destruct (handle_binary_command cmd_input_event s1 cmd [] 0); reflexivity.
Qed.

(** A received command too long for the decode buffer. *)
Lemma oversized_dropped s cmd payload :
  is_byte cmd -> Forall is_byte payload -> 64 <= len payload <= 92 ->
  g_rx_state (g_rx s) = RX_STATE_WAIT_SYNC0 ->
  g_rx_frame_ready (g_rx s) = 0 ->
  g_rx_overrun (g_rx s) = 0 ->
  length (g_rx_enc_buf (g_rx s)) = Z.to_nat RX_ENC_BUF_SIZE ->
  g_tx_queue_pending (g_tx s) = 0 ->
  let frame := master_send_command_no_response cmd payload (len payload) in
  let s1 := receive_bytes s (snd frame) in
  fst frame = 0
  /\ g_rx_frame_ready (g_rx s1) = 1
  /\ protocol_service_deferred_ops cmd_input_event s1
     = set_g_rx (spi_rx_reset (set_g_rx_frame_ready 0 (g_rx s1))) s1
  /\ g_tx (protocol_service_deferred_ops cmd_input_event s1) = g_tx s
  /\ g_protocol_state (protocol_service_deferred_ops cmd_input_event s1)
     = g_protocol_state s.
Proof.
  intros Hc Hp Hlen Hst Hrdy Hovr Hbuf Hq frame s1. subst frame.
  split; [rewrite master_frame_bytes by (try assumption; lia); reflexivity|].
  destruct (master_frame_received s cmd payload Hc Hp ltac:(lia) Hst Hrdy Hbuf)
    as (R1 & R2 & R3 & R4). fold s1 in R1, R2, R3, R4.
  split; [exact R1|].
  assert (Hops : protocol_service_deferred_ops cmd_input_event s1
                 = set_g_rx (spi_rx_reset (set_g_rx_frame_ready 0 (g_rx s1))) s1).
  { unfold protocol_service_deferred_ops. rewrite R2, Hovr.
    change (negb (0 =? 0)) with false. cbv iota.
    rewrite (tx_queue_idle (g_tx s1)) by (rewrite R3; assumption).
    rewrite set_g_tx_same.
    rewrite R1. change (negb (1 =? 0)) with true. cbv iota. rewrite R4.
    destruct (cobs_decode (cobs_frame [] (cmd :: payload)) SPI_BUFFER_SIZE)
      as [dec decoded] eqn:Hdec.
    assert (Hz : dec = 0).
    { destruct (Z.eq_dec dec 0) as [|Hnz]; [assumption|exfalso].
      pose proof (cobs_decode_within_loop_bound _ _ _ _ Hdec Hnz) as Hb.
      unfold cobs_decode in Hdec.
      apply (cobs_decode_loop_grow _ _ _ _ 96) in Hdec;
        [|assumption|unfold SPI_BUFFER_SIZE; lia].
      fold (cobs_decode (cobs_frame [] (cmd :: payload)) 96) in Hdec.
      rewrite cobs_decode_frame in Hdec
        by (try (constructor; assumption); rewrite len_cons; lia).
      injection Hdec as Hd _. rewrite len_cons in Hd. unfold SPI_BUFFER_SIZE in Hb. lia. }
    subst dec. change ((0 <=? SPI_BUFFER_SIZE) && (0 >=? 1)) with false. cbv iota.
    rewrite tx_queue_idle by (proj_simpl; rewrite R3; assumption).
    apply set_g_tx_same. }
  split; [exact Hops|]. rewrite Hops. proj_simpl. split; [exact R3|].
  subst s1. rewrite receive_bytes_rx. reflexivity.
Qed.

End Link.

(** X6: a command of up to 63 payload bytes, framed by
    [master_send_command_no_response] and received byte by byte by an idle
    slave, is handed by [protocol_service_deferred_ops] to
    [handle_binary_command] with the same opcode, payload and length; a
    result other than "response sent" is answered with its one-byte
    response code, and the receiver is reset for the next frame. *)
Theorem master_command_dispatched
    (cmd_input_event : slave -> list Z -> Z -> Z * slave) (s : slave) (cmd : Z) (payload : list Z) :
  is_byte cmd -> Forall is_byte payload -> len payload <= 63 ->
  g_rx_state (g_rx s) = RX_STATE_WAIT_SYNC0 ->
  g_rx_frame_ready (g_rx s) = 0 ->
  g_rx_overrun (g_rx s) = 0 ->
  length (g_rx_enc_buf (g_rx s)) = Z.to_nat RX_ENC_BUF_SIZE ->
  g_tx_queue_pending (g_tx s) = 0 ->
  let frame := master_send_command_no_response cmd payload (len payload) in
  let s1 := receive_bytes s (snd frame) in
  fst frame = 0
  /\ protocol_service_deferred_ops cmd_input_event s1
     = (let '(r, s') :=
          handle_binary_command cmd_input_event s1 cmd payload (len payload) in
        let s'' :=
          if negb (r =? PROTOCOL_RESP_SENT)
          then send s' cmd [protocol_map_result_to_rc r] else s' in
        let s3 := set_g_rx (spi_rx_reset (set_g_rx_frame_ready 0 (g_rx s''))) s'' in
        set_g_tx (protocol_tx_process_queue (g_tx s3)) s3).
Proof. apply command_dispatch. Qed.

Lemma master_command_dispatched_witness :
  fst (master_send_command_no_response SPI_CMD_SET_ACTIVE_SCREEN [0] (len [0])) = 0.
Proof.
  refine (proj1 (master_command_dispatched ignore_input slave_init SPI_CMD_SET_ACTIVE_SCREEN [0]
                   _ _ _ _ _ _ _ _)).
  - unfold is_byte, SPI_CMD_SET_ACTIVE_SCREEN. lia.
  - repeat constructor; unfold is_byte; lia.
  - vm_compute. discriminate.
  - reflexivity.
  - reflexivity.
  - reflexivity.
  - reflexivity.
  - reflexivity.
Defined.

(** X7: a command of 64 to 92 payload bytes is framed and sent by the
    master and collected by the slave, but it does not fit the slave's
    64-byte decode buffer: the service routine drops it, calls no handler,
    sends no response and only resets the receiver. *)
Theorem oversized_command_dropped
    (cmd_input_event : slave -> list Z -> Z -> Z * slave) (s : slave) (cmd : Z) (payload : list Z) :
  is_byte cmd -> Forall is_byte payload -> 64 <= len payload <= 92 ->
  g_rx_state (g_rx s) = RX_STATE_WAIT_SYNC0 ->
  g_rx_frame_ready (g_rx s) = 0 ->
  g_rx_overrun (g_rx s) = 0 ->
  length (g_rx_enc_buf (g_rx s)) = Z.to_nat RX_ENC_BUF_SIZE ->
  g_tx_queue_pending (g_tx s) = 0 ->
  let frame := master_send_command_no_response cmd payload (len payload) in
  let s1 := receive_bytes s (snd frame) in
  fst frame = 0
  /\ g_rx_frame_ready (g_rx s1) = 1
  /\ protocol_service_deferred_ops cmd_input_event s1
     = set_g_rx (spi_rx_reset (set_g_rx_frame_ready 0 (g_rx s1))) s1
  /\ g_tx (protocol_service_deferred_ops cmd_input_event s1) = g_tx s
  /\ g_protocol_state (protocol_service_deferred_ops cmd_input_event s1)
     = g_protocol_state s.
Proof. apply oversized_dropped. Qed.

Lemma oversized_command_dropped_witness :
  g_tx (protocol_service_deferred_ops ignore_input
          (receive_bytes slave_init
             (snd (master_send_command_no_response SPI_CMD_JSON (repeat 32 64)
                     (len (repeat 32 64))))))
  = g_tx slave_init.
Proof.
  refine (proj1 (proj2 (proj2 (proj2
    (oversized_command_dropped ignore_input slave_init SPI_CMD_JSON (repeat 32 64)
       _ _ _ _ _ _ _ _))))).
  - unfold is_byte, SPI_CMD_JSON. lia.
  - apply List.Forall_forall. intros x Hx. apply repeat_spec in Hx. subst.
    unfold is_byte. lia.
  - vm_compute. split; intros H; discriminate H.
  - reflexivity.
  - reflexivity.
  - reflexivity.
  - reflexivity.
  - reflexivity.
Defined.

(** ** Responses on the link *)

Section Responses.

Implicit Types (tx : tx_globals).

(** A response sent while the TX DMA is idle and nothing is queued. *)
Lemma send_response_idle tx cmd payload :
  length (g_tx_buf tx) = Z.to_nat SPI_BUFFER_SIZE ->
  Forall is_byte payload ->
  len payload <= 60 ->
  g_tx_queue_pending tx = 0 ->
  dma_cntr tx = 0 ->
  fst (protocol_send_response tx cmd payload) = RES_OK
  /\ dma_frame (snd (protocol_send_response tx cmd payload))
     = [SPI_RESP_SYNC0; SPI_RESP_SYNC1; len (cobs_frame [] payload)]
         ++ cobs_frame [] payload
  /\ dma_cntr (snd (protocol_send_response tx cmd payload))
     = 3 + len (cobs_frame [] payload).
Proof.
  unfold SPI_BUFFER_SIZE. intros Hbuf Hp Hlen Hq Hdma.
  pose proof (len_nonneg payload) as Hnn.
  destruct (cobs_frame_bounds payload) as [L U].
  assert (Hdiv : len payload / 254 = 0) by (apply Z.div_small; lia).
  rewrite Hdiv in U.
  destruct (g_tx_buf tx) as [|b0 [|b1 [|b2 rest]]] eqn:Hb; simpl in Hbuf; try lia.
  unfold protocol_send_response, SPI_BUFFER_SIZE, SPI_TX_QUEUE_SIZE,
    spi_slave_tx_dma_is_complete, spi_slave_tx_dma_start.
  rewrite cobs_encode_frame by (try assumption; lia).
  rewrite Hb. unfold blit. cbn [insert list_insert take drop app].
  rewrite Zeqb_false by lia. proj_simpl. rewrite Hq, Hdma.
  change (negb (0 =? 0)) with false. change ((if 0 =? 0 then 1 else 0) =? 0) with false.
  cbv iota. proj_simpl. rewrite !u8_small by lia.
  rewrite u16_small by lia.
  replace (2 + len (cobs_frame [] payload) + 1) with (3 + len (cobs_frame [] payload))
    by lia.
  repeat split.
  replace (Z.to_nat (3 + len (cobs_frame [] payload)))
    with (S (S (S (length (cobs_frame [] payload))))) by (unfold len; lia).
  rewrite take_0, drop_0. cbn [app firstn]. rewrite take_app_length. reflexivity.
Qed.

Lemma send_response_too_long tx cmd payload :
  61 <= len payload ->
  fst (protocol_send_response tx cmd payload) = RES_INTERNAL
  /\ dma_frame (snd (protocol_send_response tx cmd payload)) = dma_frame tx
  /\ dma_cntr (snd (protocol_send_response tx cmd payload)) = dma_cntr tx
  /\ g_tx_queue_pending (snd (protocol_send_response tx cmd payload))
     = g_tx_queue_pending tx.
Proof.
  intros Hlen. unfold protocol_send_response, SPI_BUFFER_SIZE.
  destruct (cobs_encode_facts payload (64 - 3)) as (_ & _ & H); [lia|].
  specialize (H ltac:(lia)).
  destruct (cobs_encode payload (64 - 3)) as [enc bytes]. cbn [fst] in H. subst enc.
  cbn [Z.eqb]. repeat split.
Qed.

(** What the master reads back from such a response. *)
Lemma response_read tx cmd payload cap :
  length (g_tx_buf tx) = Z.to_nat SPI_BUFFER_SIZE ->
  Forall is_byte payload ->
  1 <= len payload <= 60 ->
  g_tx_queue_pending tx = 0 ->
  dma_cntr tx = 0 ->
  let r := protocol_send_response tx cmd payload in
  let frame := dma_frame (snd r) in
  fst r = RES_OK
  /\ dma_cntr (snd r) = len frame
  /\ take 2 frame = [SPI_RESP_SYNC0; SPI_RESP_SYNC1]
  /\ nth 2 frame 0 = len frame - 3
  /\ master_read_response (nth 2 frame 0) (drop 3 frame) cap
     = (let rc := master_map_rc_to_result (nth 0 payload 0) in
        if negb (rc =? RES_OK) then rc else len payload,
        take (Z.to_nat (if cap >? len payload then len payload else cap)) payload).
Proof.
  intros Hbuf Hp Hlen Hq Hdma r frame.
  destruct (send_response_idle tx cmd payload Hbuf Hp ltac:(lia) Hq Hdma)
    as (R1 & R2 & R3).
  fold r in R1, R2, R3. fold frame in R2.
  destruct (cobs_frame_bounds payload) as [L U].
  assert (Hdiv : len payload / 254 = 0) by (apply Z.div_small; lia).
  rewrite Hdiv in U.
  split; [exact R1|]. rewrite R3, R2. cbn [app nth take drop firstn skipn].
  rewrite !len_cons.
  split; [lia|]. split; [reflexivity|]. split; [lia|].
  unfold master_read_response, MASTER_MAX_COBS_LEN_LIMIT, MASTER_SPI_BUFFER_SIZE.
  rewrite Zeqb_false by lia. rewrite Zgtb_false by lia. cbn [orb].
  replace (Z.to_nat (len (cobs_frame [] payload)))
    with (length (cobs_frame [] payload)) by (unfold len; lia).
  rewrite firstn_all, drop_0.
  rewrite cobs_decode_frame by (try assumption; lia).
  rewrite Zltb_false by lia. rewrite u8_small by lia. cbv zeta.
  destruct (negb (master_map_rc_to_result (nth 0 payload 0) =? RES_OK)); reflexivity.
Qed.

End Responses.

(** X8: a response of 1 to 60 bytes sent while the TX DMA is idle and
    nothing is queued goes out as A5 5A, the length of its byte-stuffed
    body, and the body; the master's response reader, given that length
    byte and the bytes after it, gets the payload back, cut to its buffer
    capacity, and returns the payload length when the first byte is OK and
    the result code it stands for otherwise. *)
Theorem response_read_by_master
    (tx : tx_globals) (cmd : Z) (payload : list Z) (cap : Z) :
  length (g_tx_buf tx) = Z.to_nat SPI_BUFFER_SIZE ->
  Forall is_byte payload ->
  1 <= len payload <= 60 ->
  g_tx_queue_pending tx = 0 ->
  dma_cntr tx = 0 ->
  let r := protocol_send_response tx cmd payload in
  let frame := dma_frame (snd r) in
  fst r = RES_OK
  /\ dma_cntr (snd r) = len frame
  /\ take 2 frame = [SPI_RESP_SYNC0; SPI_RESP_SYNC1]
  /\ nth 2 frame 0 = len frame - 3
  /\ master_read_response (nth 2 frame 0) (drop 3 frame) cap
     = (let rc := master_map_rc_to_result (nth 0 payload 0) in
        if negb (rc =? RES_OK) then rc else len payload,
        take (Z.to_nat (if cap >? len payload then len payload else cap)) payload).
Proof. apply response_read. Qed.

Lemma response_read_by_master_witness :
  fst (protocol_send_response tx_init SPI_CMD_GET_STATUS [RC_RANGE]) = RES_OK.
Proof.
  refine (proj1 (response_read_by_master tx_init SPI_CMD_GET_STATUS [RC_RANGE] 8
                   _ _ _ _ _)).
  - reflexivity.
  - repeat constructor; unfold is_byte, RC_RANGE; lia.
  - vm_compute. split; intros H; discriminate H.
  - reflexivity.
  - reflexivity.
Defined.

(** X9: a response longer than 60 bytes does not fit the 64-byte TX
    buffer: [protocol_send_response] returns INTERNAL and neither starts
    the DMA nor queues anything. *)
Theorem response_too_long_not_sent (tx : tx_globals) (cmd : Z) (payload : list Z) :
  61 <= len payload ->
  fst (protocol_send_response tx cmd payload) = RES_INTERNAL
  /\ dma_frame (snd (protocol_send_response tx cmd payload)) = dma_frame tx
  /\ dma_cntr (snd (protocol_send_response tx cmd payload)) = dma_cntr tx
  /\ g_tx_queue_pending (snd (protocol_send_response tx cmd payload))
     = g_tx_queue_pending tx.
Proof. apply send_response_too_long. Qed.

Lemma response_too_long_not_sent_witness :
  fst (protocol_send_response tx_init SPI_CMD_GET_ELEMENT_STATE (repeat 1 61))
  = RES_INTERNAL.
Proof.
  refine (proj1 (response_too_long_not_sent tx_init SPI_CMD_GET_ELEMENT_STATE
                   (repeat 1 61) _)).
  vm_compute. intros H. discriminate H.
Defined.

(** ** Result codes and the deferred TX queue *)

(** X10: each of the eight result codes of the slave is mapped by
    [protocol_map_result_to_rc] to a response byte that the master's
    [master_map_rc_to_result] maps back to the same code. *)
Theorem result_code_survives_wire (r : Z) :
  In r [RES_OK; RES_BAD_LEN; RES_BAD_STATE; RES_UNKNOWN_ID; RES_RANGE;
        RES_INTERNAL; RES_NO_SPACE; RES_PARSE_FAIL] ->
  master_map_rc_to_result (protocol_map_result_to_rc r) = r
  /\ is_byte (protocol_map_result_to_rc r).
Proof.
  intros H. cbn [In] in H.
  repeat (destruct H as [<-|H];
          [split; [reflexivity|vm_compute; split; [intros X; discriminate X|reflexivity]]|]).
  contradiction.
Qed.

Lemma result_code_survives_wire_witness :
  master_map_rc_to_result (protocol_map_result_to_rc RES_NO_SPACE) = RES_NO_SPACE.
Proof.
  refine (proj1 (result_code_survives_wire RES_NO_SPACE _)).
  cbn [In]. do 6 right. left. reflexivity.
Defined.

Section TxQueue.

Implicit Types (tx : tx_globals).

Lemma send_response_busy tx cmd payload :
  length (g_tx_buf tx) = Z.to_nat SPI_BUFFER_SIZE ->
  length (g_tx_queue tx) = Z.to_nat SPI_TX_QUEUE_SIZE ->
  Forall is_byte payload ->
  len payload <= 60 ->
  g_tx_queue_pending tx = 0 ->
  dma_cntr tx <> 0 ->
  fst (protocol_send_response tx cmd payload) = RES_OK
  /\ g_tx_queue_pending (snd (protocol_send_response tx cmd payload)) = 1
  /\ g_tx_queue_len (snd (protocol_send_response tx cmd payload))
     = 3 + len (cobs_frame [] payload)
  /\ take (Z.to_nat (3 + len (cobs_frame [] payload)))
       (g_tx_queue (snd (protocol_send_response tx cmd payload)))
     = [SPI_RESP_SYNC0; SPI_RESP_SYNC1; len (cobs_frame [] payload)]
         ++ cobs_frame [] payload
  /\ dma_cntr (snd (protocol_send_response tx cmd payload)) = dma_cntr tx
  /\ dma_frame (snd (protocol_send_response tx cmd payload)) = dma_frame tx.
Proof.
  unfold SPI_BUFFER_SIZE, SPI_TX_QUEUE_SIZE. intros Hbuf Hqb Hp Hlen Hq Hdma.
  pose proof (len_nonneg payload) as Hnn.
  destruct (cobs_frame_bounds payload) as [L U].
  assert (Hdiv : len payload / 254 = 0) by (apply Z.div_small; lia).
  rewrite Hdiv in U.
  destruct (g_tx_buf tx) as [|b0 [|b1 [|b2 rest]]] eqn:Hb; simpl in Hbuf; try lia.
  unfold protocol_send_response, SPI_BUFFER_SIZE, SPI_TX_QUEUE_SIZE,
    spi_slave_tx_dma_is_complete.
  rewrite cobs_encode_frame by (try assumption; lia).
  rewrite Hb. unfold blit. cbn [insert list_insert take drop app].
  rewrite Zeqb_false by lia. proj_simpl. rewrite Hq.
  rewrite (Zeqb_false (dma_cntr tx) 0) by assumption.
  change (negb (0 =? 0)) with false. change (0 =? 0) with true.
  cbv iota. proj_simpl. rewrite !u8_small by lia.
  replace (2 + len (cobs_frame [] payload) + 1) with (3 + len (cobs_frame [] payload))
    by lia.
  rewrite Zgtb_false by lia. cbn [fst snd]. proj_simpl.
  repeat split.
  replace (Z.to_nat (3 + len (cobs_frame [] payload)))
    with (S (S (S (length (cobs_frame [] payload))))) by (unfold len; lia).
  rewrite take_0, drop_0. cbn [app firstn]. rewrite take_app_length.
  cbn [app]. rewrite take_app_length'; [reflexivity|].
  cbn [length]. reflexivity.
Qed.

Lemma send_response_refused tx cmd payload :
  g_tx_queue_pending tx <> 0 ->
  let r := protocol_send_response tx cmd payload in
  (fst r = RES_BAD_STATE \/ fst r = RES_INTERNAL)
  /\ g_tx_queue (snd r) = g_tx_queue tx
  /\ g_tx_queue_len (snd r) = g_tx_queue_len tx
  /\ g_tx_queue_pending (snd r) = g_tx_queue_pending tx
  /\ dma_cntr (snd r) = dma_cntr tx
  /\ dma_frame (snd r) = dma_frame tx.
Proof.
  intros Hq. unfold protocol_send_response.
  destruct (cobs_encode payload (SPI_BUFFER_SIZE - 3)) as [enc bytes].
  cbv zeta. destruct (enc =? 0); [cbn [fst snd]; proj_simpl; tauto|].
  proj_simpl. rewrite (Zeqb_false _ 0 Hq). cbn [negb fst snd]. proj_simpl. tauto.
Qed.

End TxQueue.

(** X11: a response sent while the TX DMA is still busy is copied to the
    one-deep queue and the transfer in flight is not restarted; the queue
    is left alone until the DMA counter reaches zero, and then
    [protocol_tx_process_queue] starts the DMA on exactly the frame an idle
    DMA would have been given and empties the queue.  While a frame is
    queued a further response is refused and the queue is unchanged. *)
Theorem response_queued_until_dma_idle
    (tx : tx_globals) (cmd cmd2 : Z) (payload payload2 : list Z) :
  length (g_tx_buf tx) = Z.to_nat SPI_BUFFER_SIZE ->
  length (g_tx_queue tx) = Z.to_nat SPI_TX_QUEUE_SIZE ->
  Forall is_byte payload ->
  len payload <= 60 ->
  g_tx_queue_pending tx = 0 ->
  dma_cntr tx <> 0 ->
  let r := protocol_send_response tx cmd payload in
  let direct := snd (protocol_send_response (set_dma_cntr 0 tx) cmd payload) in
  let started := protocol_tx_process_queue (set_dma_cntr 0 (snd r)) in
  let r2 := protocol_send_response (snd r) cmd2 payload2 in
  fst r = RES_OK
  /\ g_tx_queue_pending (snd r) = 1
  /\ dma_cntr (snd r) = dma_cntr tx /\ dma_frame (snd r) = dma_frame tx
  /\ protocol_tx_process_queue (snd r) = snd r
  /\ dma_frame started = dma_frame direct
  /\ dma_cntr started = dma_cntr direct
  /\ g_tx_queue_pending started = 0
  /\ (fst r2 = RES_BAD_STATE \/ fst r2 = RES_INTERNAL)
  /\ g_tx_queue (snd r2) = g_tx_queue (snd r)
  /\ g_tx_queue_pending (snd r2) = 1.
Proof.
  intros Hbuf Hqb Hp Hlen Hq Hdma r direct started r2.
  destruct (send_response_busy tx cmd payload Hbuf Hqb Hp Hlen Hq Hdma)
    as (B1 & B2 & B3 & B4 & B5 & B6).
  fold r in B1, B2, B3, B4, B5, B6.
  destruct (send_response_idle (set_dma_cntr 0 tx) cmd payload Hbuf Hp Hlen Hq eq_refl)
    as (_ & D2 & D3).
  fold direct in D2, D3.
  destruct (cobs_frame_bounds payload) as [L U]. pose proof (len_nonneg payload).
  assert (Hdiv : len payload / 254 = 0) by (apply Z.div_small; lia).
  rewrite Hdiv in U.
  destruct (send_response_refused (snd r) cmd2 payload2) as (F1 & F2 & _ & F4 & _);
    [rewrite B2; discriminate|].
  fold r2 in F1, F2, F4.
  split; [exact B1|]. split; [exact B2|]. split; [exact B5|]. split; [exact B6|].
  split.
  { unfold protocol_tx_process_queue, spi_slave_tx_dma_is_complete.
    rewrite B2, B5. rewrite (Zeqb_false _ 0 Hdma). reflexivity. }
  assert (Hs : started
    = set_g_tx_queue_len 0
        (set_g_tx_queue_pending 0
           (spi_slave_tx_dma_start (set_dma_cntr 0 (snd r)) (g_tx_queue (snd r))
              (g_tx_queue_len (snd r))))).
  { subst started. unfold protocol_tx_process_queue, spi_slave_tx_dma_is_complete.
    proj_simpl. rewrite B2. reflexivity. }
  rewrite Hs. unfold spi_slave_tx_dma_start. proj_simpl.
  rewrite B3, B4, D2, D3. rewrite u16_small by lia.
  split; [reflexivity|]. split; [reflexivity|]. split; [reflexivity|].
  split; [exact F1|]. split; [exact F2|]. rewrite F4. exact B2.
Qed.

Lemma response_queued_until_dma_idle_witness :
  g_tx_queue_pending
    (snd (protocol_send_response (set_dma_cntr 5 tx_init) SPI_CMD_PING [RC_OK; 1; 0; 0]))
  = 1.
Proof.
  refine (proj1 (proj2 (response_queued_until_dma_idle (set_dma_cntr 5 tx_init)
                          SPI_CMD_PING SPI_CMD_PING [RC_OK; 1; 0; 0] []
                          _ _ _ _ _ _))).
  - reflexivity.
  - reflexivity.
  - repeat constructor; unfold is_byte, RC_OK; lia.
  - vm_compute. discriminate.
  - reflexivity.
  - vm_compute. discriminate.
Defined.

(** ** A command and its answer over the link *)

Section Exchange.

Variable cmd_input_event : slave -> list Z -> Z -> Z * slave.

Implicit Types (s : slave) (ps : protocol_state).

Lemma focus_first_on_screen_focus_only ps sord :
  exists f, protocol_focus_first_on_screen ps sord = set_focused_element f ps.
Proof.
  assert (Hset : forall i, exists f, protocol_set_focus ps i = set_focused_element f ps).
  { intros i. rewrite set_focus_eq. destruct (_ && _).
    - eexists; reflexivity.
    - exists (focused_element ps). symmetry. apply set_focus_same. }
  unfold protocol_focus_first_on_screen.
  destruct (negb (nav_depth ps =? 0)).
  { exists (focused_element ps). symmetry. apply set_focus_same. }
  cbv zeta. destruct (find_screen_id_by_ordinal ps sord =? INVALID_ELEMENT_ID).
  { eexists; reflexivity. }
  induction (ids (element_count ps)) as [|i rest IH];
    cbn [protocol_focus_first_on_screen_loop].
  - eexists; reflexivity.
  - destruct (protocol_is_element_visible ps i =? 0); [exact IH|].
    destruct (is_descendant_of ps i _ =? 0); [exact IH|].
    destruct (element_focusable ps i =? 0); [exact IH|apply Hset].
Qed.

(** The service routine on a received one-byte command whose handler
    leaves the transmitter alone and returns [r]. *)
Lemma exchange_one_byte s cmd b r s' cap :
  is_byte cmd -> is_byte b ->
  g_rx_state (g_rx s) = RX_STATE_WAIT_SYNC0 ->
  g_rx_frame_ready (g_rx s) = 0 ->
  g_rx_overrun (g_rx s) = 0 ->
  length (g_rx_enc_buf (g_rx s)) = Z.to_nat RX_ENC_BUF_SIZE ->
  length (g_tx_buf (g_tx s)) = Z.to_nat SPI_BUFFER_SIZE ->
  g_tx_queue_pending (g_tx s) = 0 ->
  dma_cntr (g_tx s) = 0 ->
  let s1 := receive_bytes s (snd (master_send_command_no_response cmd [b] 1)) in
  handle_binary_command cmd_input_event s1 cmd [b] 1 = (r, s') ->
  r <> PROTOCOL_RESP_SENT ->
  g_tx s' = g_tx s ->
  let s2 := protocol_service_deferred_ops cmd_input_event s1 in
  let resp := dma_frame (g_tx s2) in
  g_protocol_state s2 = g_protocol_state s'
  /\ fst (master_read_response (nth 2 resp 0) (drop 3 resp) cap)
     = (let rc := master_map_rc_to_result (protocol_map_result_to_rc r) in
        if negb (rc =? RES_OK) then rc else 1).
Proof.
  intros Hc Hb Hst Hrdy Hovr Hbuf Htb Hq Hdma s1 Hh Hr Htx s2 resp.
  assert (Hp : Forall is_byte [b]) by (constructor; [assumption|constructor]).
  destruct (command_dispatch cmd_input_event s cmd [b] Hc Hp ltac:(vm_compute; discriminate)
              Hst Hrdy Hovr Hbuf Hq) as [_ Hops].
  change (len [b]) with 1 in Hops. fold s1 in Hops. rewrite Hh in Hops.
  rewrite (proj2 (Z.eqb_neq r PROTOCOL_RESP_SENT) Hr) in Hops. cbn [negb] in Hops.
  assert (Hrc : Forall is_byte [protocol_map_result_to_rc r]).
  { constructor; [|constructor]. unfold is_byte, protocol_map_result_to_rc.
    repeat match goal with |- context [if ?c then _ else _] => destruct c end;
      vm_compute; split; (discriminate || reflexivity). }
  destruct (response_read (g_tx s') cmd [protocol_map_result_to_rc r] cap)
    as (R1 & R2 & R3 & R4 & R5);
    try (rewrite Htx; assumption); try assumption;
    [vm_compute; split; discriminate|].
  assert (Hq' : g_tx_queue_pending
                  (snd (protocol_send_response (g_tx s') cmd [protocol_map_result_to_rc r])) = 0).
  { unfold protocol_send_response in *.
    destruct (cobs_encode _ _) as [enc bytes]. cbv zeta in *.
    destruct (enc =? 0); [proj_simpl; rewrite ?Htx; exact Hq|].
    proj_simpl. rewrite ?Htx, Hq. change (negb (0 =? 0)) with false. cbv iota.
    unfold spi_slave_tx_dma_is_complete. proj_simpl. rewrite ?Htx, Hdma.
    change ((if 0 =? 0 then 1 else 0) =? 0) with false. cbv iota.
    unfold spi_slave_tx_dma_start. proj_simpl. rewrite ?Htx. exact Hq. }
  assert (Hs2 : s2 = set_g_rx
                       (spi_rx_reset (set_g_rx_frame_ready 0 (g_rx (send s' cmd [protocol_map_result_to_rc r]))))
                       (send s' cmd [protocol_map_result_to_rc r])).
  { subst s2. rewrite Hops. cbv zeta. proj_simpl.
    rewrite tx_queue_idle by (unfold send; proj_simpl; exact Hq').
    destruct (send s' cmd [protocol_map_result_to_rc r]); reflexivity. }
  split.
  - rewrite Hs2. unfold send. proj_simpl. reflexivity.
  - subst resp. rewrite Hs2. unfold send. proj_simpl. rewrite R5.
    cbn [fst nth]. change (len [protocol_map_result_to_rc r]) with 1. reflexivity.
Qed.

End Exchange.

(** X12: SET_ACTIVE_SCREEN sent by the master to an idle slave.  For a
    screen ordinal below the screen count the slave makes it the active
    screen, snaps the scroll offset to 128 pixels per ordinal and stops
    the slide animation, and the master reads a positive result (the
    response length 1); for any other ordinal the slave's UI state stays
    as it was and the master reads RANGE. *)
Theorem set_active_screen_over_link
    (cmd_input_event : slave -> list Z -> Z -> Z * slave)
    (s : slave) (sid cap : Z) :
  is_byte sid ->
  g_rx_state (g_rx s) = RX_STATE_WAIT_SYNC0 ->
  g_rx_frame_ready (g_rx s) = 0 ->
  g_rx_overrun (g_rx s) = 0 ->
  length (g_rx_enc_buf (g_rx s)) = Z.to_nat RX_ENC_BUF_SIZE ->
  length (g_tx_buf (g_tx s)) = Z.to_nat SPI_BUFFER_SIZE ->
  g_tx_queue_pending (g_tx s) = 0 ->
  dma_cntr (g_tx s) = 0 ->
  let frame := master_send_command_no_response SPI_CMD_SET_ACTIVE_SCREEN [sid] 1 in
  let s2 := protocol_service_deferred_ops cmd_input_event
              (receive_bytes s (snd frame)) in
  let resp := dma_frame (g_tx s2) in
  let answer := fst (master_read_response (nth 2 resp 0) (drop 3 resp) cap) in
  (sid < screen_count (g_protocol_state s) ->
     active_screen (g_protocol_state s2) = sid
     /\ scroll_x (g_protocol_state s2) = sid * 128
     /\ sa_active (screen_anim (g_protocol_state s2)) = 0
     /\ answer = 1)
  /\ (screen_count (g_protocol_state s) <= sid ->
        g_protocol_state s2 = g_protocol_state s /\ answer = RES_RANGE).
Proof.
  intros Hb Hst Hrdy Hovr Hbuf Htb Hq Hdma frame s2 resp answer.
  subst frame.
  set (s1 := receive_bytes s
               (snd (master_send_command_no_response SPI_CMD_SET_ACTIVE_SCREEN [sid] 1)))
    in *.
  assert (Hps1 : g_protocol_state s1 = g_protocol_state s)
    by (subst s1; rewrite receive_bytes_rx; reflexivity).
  assert (Htx1 : g_tx s1 = g_tx s)
    by (subst s1; rewrite receive_bytes_rx; reflexivity).
  assert (Hc : is_byte SPI_CMD_SET_ACTIVE_SCREEN) by (vm_compute; split; [discriminate|reflexivity]).
  assert (Hh : handle_binary_command cmd_input_event s1 SPI_CMD_SET_ACTIVE_SCREEN [sid] 1
               = cmd_set_active_screen s1 [sid] 1) by reflexivity.
  unfold cmd_set_active_screen in Hh. change (negb (1 =? 1)) with false in Hh.
  cbv iota zeta in Hh. cbn [nth] in Hh. rewrite Hps1 in Hh.
  split; intros Hsid.
  - rewrite Zgeb_false in Hh by lia.
    destruct (exchange_one_byte cmd_input_event s SPI_CMD_SET_ACTIVE_SCREEN sid _ _ cap
                Hc Hb Hst Hrdy Hovr Hbuf Htb Hq Hdma Hh) as [Hst2 Hans].
    + vm_compute. discriminate.
    + unfold on_state. proj_simpl. exact Htx1.
    + fold s1 in Hst2, Hans. fold s2 in Hst2. fold s2 in Hans. fold resp in Hans.
      fold answer in Hans.
      rewrite Hst2. unfold on_state. proj_simpl. rewrite Hps1.
      destruct (focus_first_on_screen_focus_only
                  (anim_snap sid (set_scroll_x (i16 (sid * 128))
                                    (set_active_screen sid (g_protocol_state s)))) sid)
        as [f ->].
      unfold anim_snap. proj_simpl.
      rewrite i16_small by (unfold is_byte in Hb; lia).
      repeat split. exact Hans.
  - rewrite Zgeb_true in Hh by lia.
    destruct (exchange_one_byte cmd_input_event s SPI_CMD_SET_ACTIVE_SCREEN sid _ _ cap
                Hc Hb Hst Hrdy Hovr Hbuf Htb Hq Hdma Hh) as [Hst2 Hans].
    + vm_compute. discriminate.
    + exact Htx1.
    + fold s1 in Hst2, Hans. fold s2 in Hst2. fold s2 in Hans. fold resp in Hans.
      fold answer in Hans.
      split; [rewrite Hst2; exact Hps1|exact Hans].
Qed.

Lemma set_active_screen_over_link_witness :
  active_screen
    (g_protocol_state
       (protocol_service_deferred_ops ignore_input
          (receive_bytes
             (set_g_tx tx_init (set_g_rx rx_init tree_local_between))
             (snd (master_send_command_no_response SPI_CMD_SET_ACTIVE_SCREEN [1] 1)))))
  = 1.
Proof.
  refine (proj1 (proj1 (set_active_screen_over_link ignore_input
    (set_g_tx tx_init (set_g_rx rx_init tree_local_between)) 1 4
    _ _ _ _ _ _ _ _) _)).
  - vm_compute. split; [discriminate|reflexivity].
  - reflexivity.
  - reflexivity.
  - reflexivity.
  - reflexivity.
  - reflexivity.
  - reflexivity.
  - reflexivity.
  - vm_compute. reflexivity.
Defined.

(** ** Runtime nodes in the arena tail *)

Section RuntimeNodes.

Implicit Types (rt : ui_runtime) (ps : protocol_state).

Lemma list_find_in_other l n id :
  l_element_id n <> id ->
  ur_list_find_in (n :: l) id = ur_list_find_in l id.
Proof. intros H. cbn. rewrite Zeqb_false by assumption. reflexivity. Qed.

(** What [ur_list_get_or_add] does when the node is not there yet. *)
Lemma list_get_or_add_new rt id :
  0 < head_used rt -> 0 <= used_tail rt ->
  ur_list_find rt id = None ->
  ur_list_get_or_add rt id
  = if head_used rt + used_tail rt + SIZEOF_LIST_NODE >? UI_ATTR_ARENA_CAP
    then (None, rt)
    else (Some (ur_list_node_init id),
          set_lists (ur_list_node_init id :: lists rt)
            (set_used_tail (used_tail rt + SIZEOF_LIST_NODE) rt)).
Proof.
  intros Hh Ht Hf. unfold ur_list_get_or_add, ur__alloc_tail. rewrite Hf.
  unfold SIZEOF_LIST_NODE, UI_ATTR_ARENA_CAP.
  destruct (Z.gtb_spec (head_used rt + used_tail rt + 12) 768); [reflexivity|].
  rewrite !u16_small by lia. unfold ur__off, UI_ATTR_ARENA_CAP.
  rewrite Zltb_false, Zgeb_false by lia. cbn [orb]. rewrite Zeqb_false by lia.
  reflexivity.
Qed.

End RuntimeNodes.

(** X13: with the arena head in use, [ur_list_get_or_add] returns the node
    already linked for the id and leaves the arena as it is; otherwise it
    takes 12 bytes from the tail for a fresh node (cursor 0, top 0, four
    visible rows), or returns null and changes nothing when
    head_used + used_tail + 12 exceeds 768.  Afterwards [ur_list_find]
    returns that node for the id, every other id is looked up as before,
    and asking again returns the same node without allocating. *)
Theorem list_node_get_or_add (rt : ui_runtime) (id id' : Z) :
  0 < head_used rt -> 0 <= used_tail rt ->
  let r := ur_list_get_or_add rt id in
  (forall st, ur_list_find rt id = Some st -> r = (Some st, rt))
  /\ (ur_list_find rt id = None ->
      head_used rt + used_tail rt + SIZEOF_LIST_NODE > UI_ATTR_ARENA_CAP ->
      r = (None, rt))
  /\ (ur_list_find rt id = None ->
      head_used rt + used_tail rt + SIZEOF_LIST_NODE <= UI_ATTR_ARENA_CAP ->
      fst r = Some (ur_list_node_init id)
      /\ used_tail (snd r) = used_tail rt + SIZEOF_LIST_NODE
      /\ head_used (snd r) = head_used rt)
  /\ (fst r <> None ->
      ur_list_find (snd r) id = fst r
      /\ ur_list_get_or_add (snd r) id = r)
  /\ (id' <> id -> ur_list_find (snd r) id' = ur_list_find rt id').
Proof.
  intros Hh Ht r. subst r.
  destruct (ur_list_find rt id) as [st|] eqn:Hf.
  - rewrite (list_get_or_add_found _ _ _ Hf). cbn [fst snd].
    split; [intros st' [= <-]; reflexivity|].
    split; [discriminate|]. split; [discriminate|].
    split; [|reflexivity]. intros _. split; [exact Hf|].
    apply list_get_or_add_found. exact Hf.
  - rewrite (list_get_or_add_new _ _ Hh Ht Hf).
    split; [discriminate|].
    split; [intros _ Hg; rewrite Zgtb_true by lia; reflexivity|].
    split.
    { intros _ Hg. rewrite Zgtb_false by lia. repeat split. }
    destruct (head_used rt + used_tail rt + SIZEOF_LIST_NODE >? UI_ATTR_ARENA_CAP);
      cbn [fst snd].
    + split; [intros H; contradiction|reflexivity].
    + split.
      * intros _.
        assert (Hfind : ur_list_find
                  (set_lists (ur_list_node_init id :: lists rt)
                     (set_used_tail (used_tail rt + SIZEOF_LIST_NODE) rt)) id
                = Some (ur_list_node_init id)).
        { unfold ur_list_find. proj_simpl. cbn [ur_list_find_in ur_list_node_init l_element_id].
          rewrite Z.eqb_refl. reflexivity. }
        split; [exact Hfind|]. apply list_get_or_add_found. exact Hfind.
      * intros Hne. unfold ur_list_find. proj_simpl.
        apply list_find_in_other. cbn. congruence.
Qed.

Lemma list_node_get_or_add_witness :
  ur_list_find (snd (ur_list_get_or_add (runtime (g_protocol_state tree_nested_list)) 7)) 7
  = fst (ur_list_get_or_add (runtime (g_protocol_state tree_nested_list)) 7).
Proof.
  refine (proj1 (proj1 (proj2 (proj2 (proj2
    (list_node_get_or_add (runtime (g_protocol_state tree_nested_list)) 7 1 _ _)))) _)).
  - vm_compute. reflexivity.
  - vm_compute. intros H. discriminate H.
  - vm_compute. discriminate.
Defined.

(** ** Barrel values (ui_numeric.c) *)

Section Numeric.

Implicit Types (rt : ui_runtime) (ps : protocol_state).

Lemma barrel_find_modify_other f l id id' :
  (forall n, b_element_id (f n) = b_element_id n) ->
  id' <> id ->
  ur_barrel_find_in (ur_barrel_modify_in f l id) id' = ur_barrel_find_in l id'.
Proof.
  intros Hf Hne. induction l as [|n rest IH]; [reflexivity|].
  cbn [ur_barrel_modify_in ur_barrel_find_in].
  destruct (Z.eqb_spec (b_element_id n) id) as [He|Hn].
  - cbn [ur_barrel_find_in]. rewrite Hf, He, !Zeqb_false by congruence. reflexivity.
  - cbn [ur_barrel_find_in]. rewrite IH. reflexivity.
Qed.

(** The node a numeric helper writes through, and the arena it leaves. *)
Lemma barrel_get_or_add_cases rt id :
  0 < head_used rt -> 0 <= used_tail rt ->
  ur_barrel_find rt id <> None
  \/ head_used rt + used_tail rt + SIZEOF_BARREL_NODE <= UI_ATTR_ARENA_CAP ->
  exists st0 rt1,
    ur_barrel_get_or_add rt id = (Some st0, rt1)
    /\ ur_barrel_find rt1 id = Some st0
    /\ b_element_id st0 = id
    /\ (forall id', id' <> id -> ur_barrel_find rt1 id' = ur_barrel_find rt id').
Proof.
  intros Hh Ht Hroom. unfold ur_barrel_get_or_add.
  destruct (ur_barrel_find rt id) as [st|] eqn:Hf.
  - exists st, rt. repeat split; try assumption.
    unfold ur_barrel_find in Hf. induction (barrels rt) as [|n rest IH]; [discriminate|].
    cbn in Hf. destruct (Z.eqb_spec (b_element_id n) id); [congruence|auto].
  - destruct Hroom as [Hc|Hroom]; [contradiction|].
    unfold ur__alloc_tail, SIZEOF_BARREL_NODE, UI_ATTR_ARENA_CAP in *.
    rewrite Zgtb_false by lia. rewrite !u16_small by lia.
    unfold ur__off, UI_ATTR_ARENA_CAP. rewrite Zltb_false, Zgeb_false by lia.
    cbn [orb]. rewrite Zeqb_false by lia.
    eexists _, _. split; [reflexivity|]. unfold ur_barrel_find. proj_simpl.
    cbn [ur_barrel_find_in b_element_id]. rewrite Z.eqb_refl.
    repeat split. intros id' Hne. rewrite Zeqb_false by congruence. reflexivity.
Qed.

Lemma barrel_written ps id f :
  0 < head_used (runtime ps) -> 0 <= used_tail (runtime ps) ->
  ur_barrel_find (runtime ps) id <> None
  \/ head_used (runtime ps) + used_tail (runtime ps) + SIZEOF_BARREL_NODE
     <= UI_ATTR_ARENA_CAP ->
  (forall n, b_element_id (f n) = b_element_id n) ->
  exists st0,
    fst (ur_barrel_get_or_add (runtime ps) id) = Some st0
    /\ (forall st, ur_barrel_find (runtime ps) id = Some st -> st0 = st)
    /\ (ur_barrel_find (runtime ps) id = None
        -> st0 = {| b_element_id := id; aux := 0; value := 0 |})
    /\ ur_barrel_find
         (ur_barrel_modify f (snd (ur_barrel_get_or_add (runtime ps) id)) id) id
       = Some (f st0)
    /\ (forall id', id' <> id ->
        ur_barrel_find
          (ur_barrel_modify f (snd (ur_barrel_get_or_add (runtime ps) id)) id) id'
        = ur_barrel_find (runtime ps) id').
Proof.
  intros Hh Ht Hroom Hf.
  destruct (barrel_get_or_add_cases _ id Hh Ht Hroom) as (st0 & rt1 & Hg & Hfind & Hid & Hoth).
  exists st0. rewrite Hg. cbn [fst snd]. split; [reflexivity|].
  split.
  { intros st Hs. unfold ur_barrel_get_or_add in Hg. rewrite Hs in Hg. congruence. }
  split.
  { intros Hn. unfold ur_barrel_get_or_add in Hg. rewrite Hn in Hg.
    destruct (ur__alloc_tail (runtime ps) SIZEOF_BARREL_NODE) as [[off|] rt2];
      [|discriminate]. congruence. }
  unfold ur_barrel_find, ur_barrel_modify in *. proj_simpl. split.
  - rewrite barrel_find_modify by assumption. rewrite Hfind. reflexivity.
  - intros id' Hne. rewrite barrel_find_modify_other by assumption. apply Hoth, Hne.
Qed.

End Numeric.

(** X14: for an element in range whose barrel node exists or can still be
    allocated, [numeric_store] makes [protocol_numeric_value] read the
    value clamped to the int16 range and [protocol_numeric_aux] read the
    aux byte; [barrel_is_editing] reports bit 7 of that byte; the value and
    aux of every other element read as before. *)
Theorem numeric_store_read_back (ps : protocol_state) (id id' v a : Z) :
  0 <= id < element_count ps ->
  0 < head_used (runtime ps) -> 0 <= used_tail (runtime ps) ->
  ur_barrel_find (runtime ps) id <> None
  \/ head_used (runtime ps) + used_tail (runtime ps) + SIZEOF_BARREL_NODE
     <= UI_ATTR_ARENA_CAP ->
  let ps1 := numeric_store ps id v a in
  protocol_numeric_value ps1 id = clamp_i16 v
  /\ -32768 <= protocol_numeric_value ps1 id <= 32767
  /\ protocol_numeric_aux ps1 id = a
  /\ barrel_is_editing ps1 id = (if Z.land a 128 =? 0 then 0 else 1)
  /\ (id' <> id ->
      protocol_numeric_value ps1 id' = protocol_numeric_value ps id'
      /\ protocol_numeric_aux ps1 id' = protocol_numeric_aux ps id').
Proof.
  intros Hid Hh Ht Hroom ps1.
  destruct (barrel_written ps id (fun st => set_aux a (set_value (i16 (clamp_i16 v)) st))
              Hh Ht Hroom ltac:(reflexivity)) as (st0 & Hg & _ & _ & Hw & Ho).
  assert (Hps1 : runtime ps1
    = ur_barrel_modify (fun st => set_aux a (set_value (i16 (clamp_i16 v)) st))
        (snd (ur_barrel_get_or_add (runtime ps) id)) id).
  { subst ps1. unfold numeric_store. rewrite Zgeb_false by lia.
    destruct (ur_barrel_get_or_add (runtime ps) id) as [[s|] rt1];
      [reflexivity|discriminate Hg]. }
  assert (Hcnt : element_count ps1 = element_count ps).
  { subst ps1. unfold numeric_store. rewrite Zgeb_false by lia.
    destruct (ur_barrel_get_or_add (runtime ps) id) as [[s|] rt1]; reflexivity. }
  pose proof (clamp_i16_range v) as Hc.
  unfold barrel_is_editing, protocol_numeric_value, protocol_numeric_aux.
  rewrite Hcnt, Hps1, Hw. cbn [aux value set_aux set_value].
  rewrite (i16_small (clamp_i16 v)) at 1 2 3 by assumption.
  rewrite Zgeb_false by lia.
  split; [reflexivity|]. split; [assumption|]. split; [reflexivity|].
  split; [destruct (Z.land a 128 =? 0); reflexivity|].
  intros Hne. rewrite (Ho id' Hne). split; reflexivity.
Qed.

Lemma numeric_store_read_back_witness :
  protocol_numeric_value (numeric_store (g_protocol_state tree_local_trigger) 2 40000 129) 2
  = clamp_i16 40000.
Proof.
  refine (proj1 (numeric_store_read_back (g_protocol_state tree_local_trigger)
                   2 0 40000 129 _ _ _ _)).
  - vm_compute. split; [intros H; discriminate H|reflexivity].
  - vm_compute. reflexivity.
  - vm_compute. intros H. discriminate H.
  - right. vm_compute. intros H. discriminate H.
Defined.

(** X15: [numeric_set_value] changes the value and keeps the aux byte,
    [numeric_set_aux] changes the aux byte and keeps the value. *)
Theorem numeric_fields_independent (ps : protocol_state) (id v a : Z) :
  0 <= id < element_count ps ->
  0 < head_used (runtime ps) -> 0 <= used_tail (runtime ps) ->
  ur_barrel_find (runtime ps) id <> None
  \/ head_used (runtime ps) + used_tail (runtime ps) + SIZEOF_BARREL_NODE
     <= UI_ATTR_ARENA_CAP ->
  protocol_numeric_value (numeric_set_value ps id v) id = clamp_i16 v
  /\ protocol_numeric_aux (numeric_set_value ps id v) id = protocol_numeric_aux ps id
  /\ protocol_numeric_aux (numeric_set_aux ps id a) id = a
  /\ protocol_numeric_value (numeric_set_aux ps id a) id = protocol_numeric_value ps id.
Proof.
  intros Hid Hh Ht Hroom.
  assert (Hold : forall st0,
    (forall st, ur_barrel_find (runtime ps) id = Some st -> st0 = st) ->
    (ur_barrel_find (runtime ps) id = None
      -> st0 = {| b_element_id := id; aux := 0; value := 0 |}) ->
    aux st0 = protocol_numeric_aux ps id /\ value st0 = protocol_numeric_value ps id).
  { intros st0 Hs Hn. unfold protocol_numeric_aux, protocol_numeric_value.
    destruct (ur_barrel_find (runtime ps) id) as [st|].
    - rewrite (Hs st eq_refl). split; reflexivity.
    - rewrite (Hn eq_refl). split; reflexivity. }
  pose proof (clamp_i16_range v) as Hc.
  destruct (barrel_written ps id (set_value (i16 (clamp_i16 v)))
              Hh Ht Hroom ltac:(reflexivity)) as (st0 & Hg & Hs & Hn & Hw & _).
  destruct (barrel_written ps id (set_aux a)
              Hh Ht Hroom ltac:(reflexivity)) as (st1 & Hg1 & Hs1 & Hn1 & Hw1 & _).
  destruct (Hold st0 Hs Hn) as [Ha0 Hv0]. destruct (Hold st1 Hs1 Hn1) as [Ha1 Hv1].
  unfold numeric_set_value, numeric_set_aux. rewrite Zgeb_false by lia.
  destruct (ur_barrel_get_or_add (runtime ps) id) as [[s|] rt1]; [|discriminate Hg].
  cbn [snd] in Hw, Hw1.
  assert (Hr : forall rt', ur_barrel_find (runtime (set_runtime rt' ps)) id
                           = ur_barrel_find rt' id) by reflexivity.
  repeat split.
  - unfold protocol_numeric_value. rewrite Hr, Hw. cbn [value set_value].
    apply i16_small. assumption.
  - unfold protocol_numeric_aux at 1. rewrite Hr, Hw. exact Ha0.
  - unfold protocol_numeric_aux. rewrite Hr, Hw1. reflexivity.
  - unfold protocol_numeric_value at 1. rewrite Hr, Hw1. exact Hv1.
Qed.

Lemma numeric_fields_independent_witness :
  protocol_numeric_aux (numeric_set_aux (g_protocol_state tree_local_trigger) 2 128) 2
  = 128.
Proof.
  refine (proj1 (proj2 (proj2 (numeric_fields_independent
                   (g_protocol_state tree_local_trigger) 2 0 128 _ _ _ _)))).
  - vm_compute. split; [intros H; discriminate H|reflexivity].
  - vm_compute. reflexivity.
  - vm_compute. intros H. discriminate H.
  - right. vm_compute. intros H. discriminate H.
Defined.

(** X16: a numeric write for an id that is not an element, or for an
    element without a barrel node when fewer than 6 arena bytes are free,
    is dropped without any error: the state is unchanged. *)
Theorem numeric_write_dropped (ps : protocol_state) (id v a : Z) :
  element_count ps <= id
  \/ (ur_barrel_find (runtime ps) id = None
      /\ head_used (runtime ps) + used_tail (runtime ps) + SIZEOF_BARREL_NODE
         > UI_ATTR_ARENA_CAP) ->
  numeric_store ps id v a = ps
  /\ numeric_set_value ps id v = ps
  /\ numeric_set_aux ps id a = ps.
Proof.
  intros H. unfold numeric_store, numeric_set_value, numeric_set_aux.
  destruct (Z.geb_spec id (element_count ps)) as [|Hlt]; [repeat split|].
  destruct H as [H|[Hf Hroom]]; [lia|].
  unfold ur_barrel_get_or_add, ur__alloc_tail. rewrite Hf.
  rewrite Zgtb_true by lia. repeat split.
Qed.

Lemma numeric_write_dropped_witness :
  numeric_store (g_protocol_state tree_local_trigger) 9 5 0
  = g_protocol_state tree_local_trigger.
Proof.
  refine (proj1 (numeric_write_dropped (g_protocol_state tree_local_trigger) 9 5 0 _)).
  left. vm_compute. intros H. discriminate H.
Defined.

(** ** Attribute entries in the arena head *)

Section Attributes.

Implicit Types (ps : protocol_state) (e : attr_entry) (l : list attr_entry).

Lemma attr_entry_ok_skip e : attr_entry_ok e -> ui_attr_skip_entry e <> 0.
Proof.
  unfold attr_entry_ok, ui_attr_skip_entry, UI_ATTR_TAG_TEXT, UI_ATTR_TAG_SCREEN_ROLE,
    UI_ATTR_SIZE_TEXT_HDR, UI_ATTR_SIZE_SCREEN_ROLE.
  intros [(Ht & Hs & _)|(Ht & _)]; rewrite Ht; cbn [Z.eqb Pos.eqb].
  - rewrite u16_small by lia. lia.
  - discriminate.
Qed.

Lemma attr_find_in_app l e id tag :
  Forall attr_entry_ok l ->
  ui_attr_find_in (l ++ [e]) id tag
  = match ui_attr_find_in l id tag with
    | Some x => Some x
    | None => if attr_matches e id tag then Some e else None
    end.
Proof.
  unfold attr_matches. intros Hok. induction Hok as [|x l Hx Hl IH].
  - cbn. destruct ((a_tag e =? tag) && (a_element_id e =? id)); [reflexivity|].
    destruct (_ =? 0); reflexivity.
  - cbn [app ui_attr_find_in].
    destruct ((a_tag x =? tag) && (a_element_id x =? id)); [reflexivity|].
    rewrite Zeqb_false by (apply attr_entry_ok_skip; assumption). exact IH.
Qed.

Lemma attr_find_in_matches l id tag e :
  ui_attr_find_in l id tag = Some e -> attr_matches e id tag = true /\ In e l.
Proof.
  unfold attr_matches. induction l as [|x l IH]; [discriminate|].
  cbn [ui_attr_find_in]. destruct ((a_tag x =? tag) && (a_element_id x =? id)) eqn:Hm.
  - intros [= <-]. split; [assumption|left; reflexivity].
  - destruct (_ =? 0); [discriminate|]. intros H. apply IH in H.
    split; [apply H|right; apply H].
Qed.

(** Reading back what a store through the found pointer wrote. *)
Lemma attr_find_modify_same f l id tag :
  (forall e, a_tag (f e) = a_tag e /\ a_element_id (f e) = a_element_id e) ->
  ui_attr_find_in (ui_attr_modify_in f l id tag) id tag
  = option_map f (ui_attr_find_in l id tag).
Proof.
  intros Hf. induction l as [|x l IH]; [reflexivity|].
  cbn [ui_attr_modify_in ui_attr_find_in].
  destruct ((a_tag x =? tag) && (a_element_id x =? id)) eqn:Hm.
  - cbn [ui_attr_find_in]. destruct (Hf x) as [-> ->]. rewrite Hm. reflexivity.
  - destruct (ui_attr_skip_entry x =? 0) eqn:Hs; cbn [ui_attr_find_in];
      rewrite Hm, Hs; [reflexivity|exact IH].
Qed.

Lemma attr_find_modify_other f l id tag id' tag' :
  (forall e, a_tag (f e) = a_tag e /\ a_element_id (f e) = a_element_id e) ->
  (forall e, In e l -> attr_matches e id tag = true ->
             ui_attr_skip_entry (f e) = ui_attr_skip_entry e) ->
  (id', tag') <> (id, tag) ->
  ui_attr_find_in (ui_attr_modify_in f l id tag) id' tag'
  = ui_attr_find_in l id' tag'.
Proof.
  intros Hf Hs Hne. induction l as [|x l IH]; [reflexivity|].
  cbn [ui_attr_modify_in ui_attr_find_in].
  destruct ((a_tag x =? tag) && (a_element_id x =? id)) eqn:Hm.
  - cbn [ui_attr_find_in]. destruct (Hf x) as [-> ->].
    rewrite (Hs x (or_introl eq_refl) Hm).
    destruct ((a_tag x =? tag') && (a_element_id x =? id')) eqn:Hm'; [|reflexivity].
    exfalso. apply andb_prop in Hm, Hm'. destruct Hm as [A B], Hm' as [C D].
    apply Z.eqb_eq in A, B, C, D. apply Hne. congruence.
  - destruct (ui_attr_skip_entry x =? 0) eqn:Hsk; cbn [ui_attr_find_in];
      rewrite ?Hsk; [reflexivity|].
    destruct ((a_tag x =? tag') && (a_element_id x =? id')); [reflexivity|].
    apply IH. intros e He. apply Hs. right. assumption.
Qed.

Lemma c_string_app t rest :
  Forall (fun c => 0 < c < 256) t -> c_string (t ++ 0 :: rest) = t.
Proof.
  induction 1 as [|c t Hc Ht IH]; [reflexivity|].
  cbn [app c_string]. rewrite Zeqb_false by lia. rewrite IH. reflexivity.
Qed.

Lemma text_entry_write_tag text w e :
  a_tag (text_entry_write text w e) = a_tag e
  /\ a_element_id (text_entry_write text w e) = a_element_id e.
Proof. split; reflexivity. Qed.

Lemma text_entry_write_skip text w e :
  attr_entry_ok e ->
  ui_attr_skip_entry (text_entry_write text w e) = ui_attr_skip_entry e.
Proof.
  intros Hok. unfold ui_attr_skip_entry, text_entry_write. cbn [a_tag a_body].
  destruct Hok as [(Ht & Hs & Hl)|(Ht & Hl)].
  - destruct (a_body e) as [|s0 payload]; [rewrite len_nil in Hl; cbn in Hs; lia|].
    reflexivity.
  - rewrite Ht. reflexivity.
Qed.

(** Writing [w] characters into a text entry of allocated size [w + 1] or
    more. *)
Lemma text_entry_write_ok text w e :
  attr_entry_ok e -> a_tag e = UI_ATTR_TAG_TEXT ->
  Forall (fun c => 0 < c < 256) text ->
  0 <= w -> w + 1 <= nth 0 (a_body e) 0 ->
  attr_entry_ok (text_entry_write text w e)
  /\ nth 0 (a_body (text_entry_write text w e)) 0 = nth 0 (a_body e) 0
  /\ c_string (drop 1 (a_body (text_entry_write text w e))) = take (Z.to_nat w) text.
Proof.
  intros Hok Ht Hnz Hw Hsz. destruct Hok as [(_ & Hs & Hl)|(Hr & _)];
    [|rewrite Ht in Hr; discriminate Hr].
  unfold text_entry_write. cbn [a_tag a_body a_element_id].
  destruct (a_body e) as [|s0 payload] eqn:Hb; [rewrite len_nil in Hl; cbn in Hs; lia|].
  cbn [nth] in *. rewrite len_cons in Hl. cbn [take drop firstn skipn app].
  assert (Hlt : (length (take (Z.to_nat w) text) <= Z.to_nat w)%nat)
    by (rewrite length_take; lia).
  split; [|split; [reflexivity|]].
  - left. cbn [a_tag a_body nth]. split; [assumption|]. split; [assumption|].
    unfold blit, len in *. cbn [length]. rewrite take_0, drop_0. cbn [app].
    rewrite length_app, length_drop, !length_app. cbn [length] in *. lia.
  - rewrite take_0, drop_0. cbn [app]. unfold blit. rewrite <- app_assoc. cbn [app].
    apply c_string_app. apply Forall_take. assumption.
Qed.

Lemma attr_find_unfold ps id tag :
  id < element_capacity ps ->
  ui_attr_find ps id tag = ui_attr_find_in (attrs (runtime ps)) id tag.
Proof. intros H. unfold ui_attr_find. rewrite Zgeb_false by lia. reflexivity. Qed.

End Attributes.

(** X17: storing a text for an element that has none yet, on a state that
    is not committed and has room, appends one entry of capacity + 4 bytes
    (the capacity defaulting to the length of the text) and makes
    [ui_attr_get_text] return the text, cut to the capacity; the texts of
    the other elements read as before. *)
Theorem text_store_read_back
    (ps : protocol_state) (id id' : Z) (text : list Z) (cap : Z) :
  initialized ps = 0 ->
  0 <= id < element_capacity ps ->
  Forall attr_entry_ok (attrs (runtime ps)) ->
  ui_attr_find ps id UI_ATTR_TAG_TEXT = None ->
  Forall (fun c => 0 < c < 256) text ->
  len text <= 254 -> 0 <= cap <= 254 ->
  0 <= head_used (runtime ps) -> 0 <= used_tail (runtime ps) ->
  let c := if cap =? 0 then len text else cap in
  head_used (runtime ps) + used_tail (runtime ps) + c + 4 <= UI_ATTR_ARENA_CAP ->
  let r := ui_attr_store_text_with_cap ps id text cap in
  fst r = RES_OK
  /\ ui_attr_get_text (snd r) id = Some (take (Z.to_nat c) text)
  /\ head_used (runtime (snd r)) = head_used (runtime ps) + c + 4
  /\ Forall attr_entry_ok (attrs (runtime (snd r)))
  /\ (id' <> id -> ui_attr_get_text (snd r) id' = ui_attr_get_text ps id').
Proof.
  intros Hinit Hid Hok Hnone Hnz Hlen Hcap Hh Ht c Hroom r.
  pose proof (len_nonneg text) as Hnn.
  assert (Hc : 0 <= c <= 254) by (subst c; destruct (cap =? 0); lia).
  set (e0 := {| a_tag := UI_ATTR_TAG_TEXT; a_element_id := id;
                a_body := [c + 1] ++ repeat 0 (Z.to_nat (c + 1)) |}).
  assert (He0 : attr_entry_ok e0).
  { left. cbn [e0 a_tag a_body app nth]. split; [reflexivity|]. split; [lia|].
    rewrite len_cons. unfold len. rewrite repeat_length. lia. }
  set (w := if len text <? c then len text else c).
  assert (Hw : 0 <= w /\ w + 1 <= c + 1) by (subst w; destruct (Z.ltb_spec (len text) c); lia).
  assert (Htake : take (Z.to_nat w) text = take (Z.to_nat c) text).
  { subst w. destruct (Z.ltb_spec (len text) c); [|reflexivity].
    rewrite !take_ge by (unfold len in *; lia). reflexivity. }
  set (ps1 := set_runtime
                (set_head_used (head_used (runtime ps) + (c + 4))
                   (set_attrs (attrs (runtime ps) ++ [e0]) (runtime ps))) ps).
  assert (Hr : r = (RES_OK, ui_attr_modify (text_entry_write text w) ps1 id UI_ATTR_TAG_TEXT)).
  { subst r. unfold ui_attr_store_text_with_cap. rewrite Hnone.
    rewrite (u8_small (len text)) by lia. fold c.
    unfold ui_attr_append. rewrite Hinit. cbn [negb Z.eqb].
    rewrite Zgeb_false by lia. cbv zeta.
    rewrite (u16_small (c + 1)) by lia. cbn [Z.eqb].
    replace (u16 (2 + (c + 1) + 1)) with (c + 4) by (rewrite u16_small; lia).
    unfold UI_ATTR_ARENA_CAP in *. rewrite Zgtb_false by lia.
    rewrite (u8_small (c + 1)) by lia. rewrite u16_small by lia.
    fold e0. fold ps1. cbn [negb Z.eqb RES_OK].
    change (negb (RES_OK =? RES_OK)) with false. cbv iota.
    assert (Hf1 : ui_attr_find ps1 id UI_ATTR_TAG_TEXT = Some e0).
    { rewrite attr_find_unfold by (cbn; lia). subst ps1. proj_simpl.
      rewrite attr_find_in_app by assumption.
      rewrite attr_find_unfold in Hnone by lia. rewrite Hnone.
      unfold attr_matches. cbn [e0 a_tag a_element_id]. rewrite !Z.eqb_refl. reflexivity. }
    rewrite Hf1. fold w. reflexivity. }
  rewrite Hr. cbn [fst snd]. split; [reflexivity|].
  assert (Hfind_in : ui_attr_find_in (attrs (runtime ps)) id UI_ATTR_TAG_TEXT = None)
    by (rewrite attr_find_unfold in Hnone by lia; exact Hnone).
  assert (Hall : Forall attr_entry_ok (attrs (runtime ps) ++ [e0])).
  { apply Forall_app. split; [assumption|]. constructor; [assumption|constructor]. }
  destruct (text_entry_write_ok text w e0 He0 eq_refl Hnz (proj1 Hw))
    as (W1 & W2 & W3); [cbn; lia|].
  split.
  { unfold ui_attr_get_text. rewrite attr_find_unfold by (cbn; lia).
    unfold ui_attr_modify. subst ps1. proj_simpl.
    rewrite attr_find_modify_same by (intros; apply text_entry_write_tag).
    rewrite attr_find_in_app, Hfind_in by assumption.
    unfold attr_matches. cbn [e0 a_tag a_element_id]. rewrite !Z.eqb_refl.
    cbn [andb option_map]. rewrite W3, Htake. reflexivity. }
  split; [cbn; lia|].
  split.
  { unfold ui_attr_modify. subst ps1. proj_simpl.
    assert (Hmod : forall l, Forall attr_entry_ok l ->
      (forall e, In e l -> attr_matches e id UI_ATTR_TAG_TEXT = true -> e = e0) ->
      Forall attr_entry_ok (ui_attr_modify_in (text_entry_write text w) l id UI_ATTR_TAG_TEXT)).
    { intros l Hl. induction Hl as [|x l Hx Hl IH]; intros Hm; [constructor|].
      cbn [ui_attr_modify_in]. fold (attr_matches x id UI_ATTR_TAG_TEXT).
      destruct (attr_matches x id UI_ATTR_TAG_TEXT) eqn:Hmx.
      - constructor; [|assumption].
        rewrite (Hm x (or_introl eq_refl) Hmx). exact W1.
      - destruct (ui_attr_skip_entry x =? 0); constructor; try assumption.
        apply IH. intros e He. apply Hm. right. assumption. }
    apply Hmod; [assumption|].
    intros e He Hm. apply in_app_or in He. destruct He as [He|[He|[]]]; [|congruence].
    exfalso. clear - Hfind_in He Hm Hok.
    induction Hok as [|x l Hx Hl IH]; [contradiction|].
    cbn [ui_attr_find_in] in Hfind_in. fold (attr_matches x id UI_ATTR_TAG_TEXT) in Hfind_in.
    destruct (attr_matches x id UI_ATTR_TAG_TEXT) eqn:Hmx; [discriminate|].
    rewrite Zeqb_false in Hfind_in by (apply attr_entry_ok_skip; assumption).
    destruct He as [->|He]; [congruence|auto]. }
  intros Hne. unfold ui_attr_get_text, ui_attr_find, ui_attr_modify. subst ps1. proj_simpl.
  destruct (id' >=? element_capacity ps); [reflexivity|].
  rewrite attr_find_modify_other.
  - rewrite attr_find_in_app by assumption.
    destruct (ui_attr_find_in (attrs (runtime ps)) id' UI_ATTR_TAG_TEXT); [reflexivity|].
    unfold attr_matches. cbn [e0 a_tag a_element_id].
    rewrite (Zeqb_false id id') by congruence. rewrite andb_false_r. reflexivity.
  - intros; apply text_entry_write_tag.
  - intros e He _. apply text_entry_write_skip.
    rewrite List.Forall_forall in Hall. apply Hall. assumption.
  - congruence.
Qed.

Lemma text_store_read_back_witness :
  ui_attr_get_text
    (snd (ui_attr_store_text_with_cap
            (g_protocol_state
               (provision [ (1, [field_str "t" "h"; field_int "n" "3"]);
                            (0, [field_str "t" "s"]) ]))
            1 (chars "Hi") 0)) 1
  = Some (take (Z.to_nat (if 0 =? 0 then len (chars "Hi") else 0)) (chars "Hi")).
Proof.
  refine (proj1 (proj2 (text_store_read_back
    (g_protocol_state
       (provision [ (1, [field_str "t" "h"; field_int "n" "3"]);
                    (0, [field_str "t" "s"]) ]))
    1 0 (chars "Hi") 0 _ _ _ _ _ _ _ _ _ _))).
  - vm_compute. reflexivity.
  - vm_compute. split; [intros H; discriminate H|reflexivity].
  - vm_compute. constructor.
  - vm_compute. reflexivity.
  - vm_compute. repeat constructor.
  - vm_compute. intros H. discriminate H.
  - vm_compute. split; intros H; discriminate H.
  - vm_compute. intros H. discriminate H.
  - vm_compute. intros H. discriminate H.
  - vm_compute. intros H. discriminate H.
Defined.

(** X18: an update of a text that has an entry is done in place: it
    returns OK, the arena usage is unchanged, and the text reads back cut
    to the allocated size minus the terminator; the other texts read as
    before.  A store with a capacity on such an element is the same
    update: the capacity is ignored. *)
Theorem text_update_in_place
    (ps : protocol_state) (id id' : Z) (new : list Z) (cap : Z) (e : attr_entry) :
  Forall attr_entry_ok (attrs (runtime ps)) ->
  ui_attr_find ps id UI_ATTR_TAG_TEXT = Some e ->
  Forall (fun c => 0 < c < 256) new ->
  len new <= 255 ->
  let r := ui_attr_update_text ps id new in
  let size := nth 0 (a_body e) 0 in
  fst r = RES_OK
  /\ 1 <= size <= 255
  /\ ui_attr_get_text (snd r) id = Some (take (Z.to_nat (size - 1)) new)
  /\ head_used (runtime (snd r)) = head_used (runtime ps)
  /\ used_tail (runtime (snd r)) = used_tail (runtime ps)
  /\ Forall attr_entry_ok (attrs (runtime (snd r)))
  /\ (id' <> id -> ui_attr_get_text (snd r) id' = ui_attr_get_text ps id')
  /\ ui_attr_store_text_with_cap ps id new cap = r.
Proof.
  intros Hok Hfind Hnz Hlen r size. pose proof (len_nonneg new) as Hnn.
  assert (Hidc : id < element_capacity ps).
  { unfold ui_attr_find in Hfind. destruct (Z.geb_spec id (element_capacity ps));
      [discriminate|assumption]. }
  assert (Hfin : ui_attr_find_in (attrs (runtime ps)) id UI_ATTR_TAG_TEXT = Some e)
    by (rewrite attr_find_unfold in Hfind by assumption; exact Hfind).
  destruct (attr_find_in_matches _ _ _ _ Hfin) as [Hm Hin].
  assert (Hte : a_tag e = UI_ATTR_TAG_TEXT).
  { unfold attr_matches in Hm. apply andb_prop in Hm. apply Z.eqb_eq. apply Hm. }
  assert (Hoke : attr_entry_ok e) by (rewrite List.Forall_forall in Hok; auto).
  assert (Hsize : 1 <= size <= 255).
  { destruct Hoke as [(_ & Hs & _)|(Hr & _)]; [exact Hs|].
    rewrite Hte in Hr. discriminate Hr. }
  set (w := if len new <? size - 1 then len new else size - 1).
  assert (Hw : 0 <= w /\ w + 1 <= size)
    by (subst w; destruct (Z.ltb_spec (len new) (size - 1)); lia).
  assert (Htake : take (Z.to_nat w) new = take (Z.to_nat (size - 1)) new).
  { subst w. destruct (Z.ltb_spec (len new) (size - 1)); [|reflexivity].
    rewrite !take_ge by (unfold len in *; lia). reflexivity. }
  assert (Hr : r = (RES_OK, ui_attr_modify (text_entry_write new w) ps id UI_ATTR_TAG_TEXT)).
  { subst r. unfold ui_attr_update_text. rewrite Hfind. fold size. cbv zeta.
    rewrite Zeqb_false by lia. rewrite (u8_small (len new)), (u8_small (size - 1)) by lia.
    reflexivity. }
  assert (Hst : ui_attr_store_text_with_cap ps id new cap = r).
  { rewrite Hr. unfold ui_attr_store_text_with_cap. rewrite Hfind. fold size. cbv zeta.
    rewrite Zeqb_false by lia. rewrite (u8_small (len new)), (u8_small (size - 1)) by lia.
    reflexivity. }
  rewrite Hr. cbn [fst snd].
  destruct (text_entry_write_ok new w e Hoke Hte Hnz (proj1 Hw) (proj2 Hw))
    as (W1 & W2 & W3).
  split; [reflexivity|]. split; [exact Hsize|].
  split.
  { unfold ui_attr_get_text. rewrite attr_find_unfold by (cbn; assumption).
    unfold ui_attr_modify. proj_simpl.
    rewrite attr_find_modify_same by (intros; apply text_entry_write_tag).
    rewrite Hfin. cbn [option_map]. rewrite W3, Htake. reflexivity. }
  split; [reflexivity|]. split; [reflexivity|].
  split.
  { unfold ui_attr_modify. proj_simpl. clear - Hok W1 Hfin.
    induction Hok as [|x l Hx Hl IH]; [constructor|].
    cbn [ui_attr_modify_in ui_attr_find_in] in *.
    destruct ((a_tag x =? UI_ATTR_TAG_TEXT) && (a_element_id x =? id)).
    - injection Hfin as ->. constructor; assumption.
    - rewrite Zeqb_false in * by (apply attr_entry_ok_skip; assumption).
      constructor; [assumption|]. apply IH. assumption. }
  split; [|rewrite <- Hr; exact Hst].
  intros Hne. unfold ui_attr_get_text, ui_attr_find, ui_attr_modify. proj_simpl.
  destruct (id' >=? element_capacity ps); [reflexivity|].
  rewrite attr_find_modify_other; [reflexivity| | |congruence].
  - intros; apply text_entry_write_tag.
  - intros x Hx _. apply text_entry_write_skip.
    rewrite List.Forall_forall in Hok. apply Hok. assumption.
Qed.

Lemma text_update_in_place_witness :
  ui_attr_get_text
    (snd (ui_attr_update_text (g_protocol_state tree_local_trigger) 2 (chars "Hello"))) 2
  = Some (take (Z.to_nat (nth 0 [2; 65; 0] 0 - 1)) (chars "Hello")).
Proof.
  refine (proj1 (proj2 (proj2 (text_update_in_place
    (g_protocol_state tree_local_trigger) 2 0 (chars "Hello") 0
    {| a_tag := 16; a_element_id := 2; a_body := [2; 65; 0] |} _ _ _ _)))).
  - vm_compute. constructor; [|constructor]. left. vm_compute.
    repeat split; intros H; discriminate H.
  - vm_compute. reflexivity.
  - vm_compute. repeat constructor.
  - vm_compute. intros H. discriminate H.
Defined.

(** ** Screen roles and positions *)

Section Roles.

Implicit Types (ps : protocol_state) (e : attr_entry) (l : list attr_entry).

Lemma attr_modify_in_ok f l id tag :
  (forall e, attr_entry_ok e -> attr_matches e id tag = true -> attr_entry_ok (f e)) ->
  Forall attr_entry_ok l ->
  Forall attr_entry_ok (ui_attr_modify_in f l id tag).
Proof.
  intros Hf Hok. induction Hok as [|x l Hx Hl IH]; [constructor|].
  cbn [ui_attr_modify_in].
  destruct ((a_tag x =? tag) && (a_element_id x =? id)) eqn:Hm.
  - constructor; [apply Hf; assumption|assumption].
  - destruct (ui_attr_skip_entry x =? 0); constructor; assumption.
Qed.

Lemma role_entry_body e id :
  attr_entry_ok e -> attr_matches e id UI_ATTR_TAG_SCREEN_ROLE = true ->
  exists b, a_body e = [b].
Proof.
  unfold attr_matches. intros Hok Hm. apply andb_prop in Hm. destruct Hm as [Ht _].
  apply Z.eqb_eq in Ht.
  destruct Hok as [(Hx & _)|(_ & Hl)]; [rewrite Ht in Hx; discriminate Hx|].
  destruct (a_body e) as [|b [|b' rest]].
  - discriminate Hl.
  - exists b. reflexivity.
  - rewrite !len_cons in Hl. pose proof (len_nonneg rest). lia.
Qed.

End Roles.

(** X19: storing a screen role on a state that is not committed, for an
    element that has a role entry or with three arena bytes left, returns
    OK and the role reads back; the roles of the other elements and every
    stored text read as before. *)
Theorem screen_role_store_read_back
    (ps : protocol_state) (id id' role : Z) :
  initialized ps = 0 ->
  0 <= id < element_capacity ps ->
  Forall attr_entry_ok (attrs (runtime ps)) ->
  0 <= head_used (runtime ps) -> 0 <= used_tail (runtime ps) ->
  head_used (runtime ps) + used_tail (runtime ps) + 3 <= UI_ATTR_ARENA_CAP ->
  let r := ui_attr_store_screen_role ps id role in
  fst r = RES_OK
  /\ ui_attr_get_screen_role (snd r) id = (RES_OK, role)
  /\ Forall attr_entry_ok (attrs (runtime (snd r)))
  /\ (id' <> id ->
      ui_attr_get_screen_role (snd r) id' = ui_attr_get_screen_role ps id')
  /\ ui_attr_get_text (snd r) id' = ui_attr_get_text ps id'.
Proof.
  intros Hinit Hid Hok Hh Ht Hroom r.
  set (f := fun e => {| a_tag := a_tag e; a_element_id := a_element_id e;
                        a_body := <[0%nat := role]> (a_body e) |}).
  assert (Hcap : element_capacity (snd r) = element_capacity ps).
  { subst r. unfold ui_attr_store_screen_role, ui_attr_append.
    destruct (ui_attr_find ps id UI_ATTR_TAG_SCREEN_ROLE); [reflexivity|].
    destruct (negb (initialized ps =? 0)); [reflexivity|].
    destruct (id >=? element_capacity ps); [reflexivity|]. cbv zeta.
    destruct (_ >? UI_ATTR_ARENA_CAP); reflexivity. }
  assert (Hfind : forall i t,
            ui_attr_find (snd r) i t
            = if i >=? element_capacity ps then None
              else ui_attr_find_in (attrs (runtime (snd r))) i t).
  { intros i t. unfold ui_attr_find. rewrite Hcap. reflexivity. }
  destruct (ui_attr_find ps id UI_ATTR_TAG_SCREEN_ROLE) as [e|] eqn:Hf.
  - assert (Hr : r = (RES_OK, ui_attr_modify f ps id UI_ATTR_TAG_SCREEN_ROLE)).
    { subst r. unfold ui_attr_store_screen_role. rewrite Hf. reflexivity. }
    rewrite attr_find_unfold in Hf by lia.
    destruct (attr_find_in_matches _ _ _ _ Hf) as [Hm Hin].
    assert (Hoke : attr_entry_ok e) by (rewrite List.Forall_forall in Hok; auto).
    destruct (role_entry_body e id Hoke Hm) as [b Hb].
    assert (Hsk : forall x, In x (attrs (runtime ps)) ->
              attr_matches x id UI_ATTR_TAG_SCREEN_ROLE = true ->
              ui_attr_skip_entry (f x) = ui_attr_skip_entry x).
    { intros x Hx Hxm. unfold attr_matches in Hxm. apply andb_prop in Hxm.
      destruct Hxm as [Hxt _]. apply Z.eqb_eq in Hxt.
      unfold ui_attr_skip_entry, f. cbn [a_tag]. rewrite Hxt. reflexivity. }
    assert (Hft : forall x, a_tag (f x) = a_tag x /\ a_element_id (f x) = a_element_id x)
      by (intros x; split; reflexivity).
    assert (Hattrs : attrs (runtime (snd r))
                     = ui_attr_modify_in f (attrs (runtime ps)) id UI_ATTR_TAG_SCREEN_ROLE)
      by (rewrite Hr; reflexivity).
    split; [rewrite Hr; reflexivity|].
    split.
    { unfold ui_attr_get_screen_role. rewrite Hfind, Zgeb_false, Hattrs by lia.
      rewrite attr_find_modify_same by exact Hft. rewrite Hf. cbn [option_map].
      unfold f. cbn [a_body]. rewrite Hb. reflexivity. }
    split.
    { rewrite Hattrs. apply attr_modify_in_ok; [|assumption].
      intros x Hx Hxm. destruct (role_entry_body x id Hx Hxm) as [bx Hbx].
      unfold attr_matches in Hxm. apply andb_prop in Hxm. destruct Hxm as [Hxt _].
      apply Z.eqb_eq in Hxt.
      right. unfold f. cbn [a_tag a_body]. rewrite Hbx. split; [assumption|reflexivity]. }
    split.
    { intros Hne. unfold ui_attr_get_screen_role. rewrite Hfind, Hattrs.
      unfold ui_attr_find. destruct (id' >=? element_capacity ps); [reflexivity|].
      rewrite attr_find_modify_other; [reflexivity|exact Hft|exact Hsk|congruence]. }
    { unfold ui_attr_get_text. rewrite Hfind, Hattrs.
      unfold ui_attr_find. destruct (id' >=? element_capacity ps); [reflexivity|].
      rewrite attr_find_modify_other; [reflexivity|exact Hft|exact Hsk|].
      unfold UI_ATTR_TAG_TEXT, UI_ATTR_TAG_SCREEN_ROLE. intros [= _ H]. }
  - set (e0 := {| a_tag := UI_ATTR_TAG_SCREEN_ROLE; a_element_id := id;
                  a_body := [role] |}).
    assert (Hr : r = (RES_OK,
                      set_runtime
                        (set_head_used (head_used (runtime ps) + 3)
                           (set_attrs (attrs (runtime ps) ++ [e0]) (runtime ps))) ps)).
    { subst r. unfold ui_attr_store_screen_role. rewrite Hf. unfold ui_attr_append.
      rewrite Hinit. change (negb (0 =? 0)) with false. cbv iota.
      rewrite Zgeb_false by lia. cbv zeta.
      change (1 =? 0) with false. change (0 =? 0) with true. cbv iota.
      change (u16 (2 + 1 + 0)) with 3.
      unfold UI_ATTR_ARENA_CAP in *. rewrite Zgtb_false by lia.
      rewrite u16_small by lia. reflexivity. }
    rewrite attr_find_unfold in Hf by lia.
    assert (Hattrs : attrs (runtime (snd r)) = attrs (runtime ps) ++ [e0])
      by (rewrite Hr; reflexivity).
    split; [rewrite Hr; reflexivity|].
    split.
    { unfold ui_attr_get_screen_role. rewrite Hfind, Zgeb_false, Hattrs by lia.
      rewrite attr_find_in_app, Hf by assumption.
      unfold attr_matches, e0. cbn [a_tag a_element_id]. rewrite !Z.eqb_refl.
      reflexivity. }
    split.
    { rewrite Hattrs. apply Forall_app. split; [assumption|].
      constructor; [|constructor]. right. split; reflexivity. }
    split.
    { intros Hne. unfold ui_attr_get_screen_role. rewrite Hfind, Hattrs.
      unfold ui_attr_find. destruct (id' >=? element_capacity ps); [reflexivity|].
      rewrite attr_find_in_app by assumption.
      destruct (ui_attr_find_in (attrs (runtime ps)) id' UI_ATTR_TAG_SCREEN_ROLE);
        [reflexivity|].
      unfold attr_matches, e0. cbn [a_tag a_element_id].
      rewrite (Zeqb_false id id') by congruence. rewrite andb_false_r. reflexivity. }
    { unfold ui_attr_get_text. rewrite Hfind, Hattrs.
      unfold ui_attr_find. destruct (id' >=? element_capacity ps); [reflexivity|].
      rewrite attr_find_in_app by assumption.
      destruct (ui_attr_find_in (attrs (runtime ps)) id' UI_ATTR_TAG_TEXT);
        reflexivity. }
Qed.

Lemma screen_role_store_read_back_witness :
  ui_attr_get_screen_role
    (snd (ui_attr_store_screen_role
            (g_protocol_state
               (provision [ (1, [field_str "t" "h"; field_int "n" "3"]);
                            (0, [field_str "t" "s"]);
                            (0, [field_str "t" "t"; field_int "p" "0";
                                 field_str "tx" "A"]) ]))
            0 OVERLAY_FULL)) 0
  = (RES_OK, OVERLAY_FULL).
Proof.
  refine (proj1 (proj2 (screen_role_store_read_back
    (g_protocol_state
       (provision [ (1, [field_str "t" "h"; field_int "n" "3"]);
                    (0, [field_str "t" "s"]);
                    (0, [field_str "t" "t"; field_int "p" "0";
                         field_str "tx" "A"]) ]))
    0 1 OVERLAY_FULL _ _ _ _ _ _))).
  - vm_compute. reflexivity.
  - vm_compute. split; [intros H; discriminate H|reflexivity].
  - vm_compute. constructor; [|constructor]. left. vm_compute.
    repeat split; intros H; discriminate H.
  - vm_compute. intros H. discriminate H.
  - vm_compute. intros H. discriminate H.
  - vm_compute. intros H. discriminate H.
Defined.

(** X20: a position stored for an element id below the capacity returns
    OK and leaves the other positions alone, but it reads back only when
    the id is also below the element count: the getter answers UNKNOWN_ID
    for a slot that is reserved and not yet created. *)
Theorem position_store_read_back
    (ps : protocol_state) (id id' x y : Z) :
  len (pos_x ps) = element_capacity ps ->
  len (pos_y ps) = element_capacity ps ->
  0 <= id < element_capacity ps ->
  let r := ui_attr_store_position ps id x y in
  fst r = RES_OK
  /\ (id < element_count ps ->
      ui_attr_get_position (snd r) id = (RES_OK, Some (x, y, 8, LAYOUT_ABSOLUTE)))
  /\ (element_count ps <= id ->
      ui_attr_get_position (snd r) id = (RES_UNKNOWN_ID, None))
  /\ (0 <= id' -> id' <> id ->
      ui_attr_get_position (snd r) id' = ui_attr_get_position ps id').
Proof.
  intros Hx Hy Hid r.
  assert (Hr : r = (RES_OK,
                    set_pos_y (<[Z.to_nat id := y]> (pos_y ps))
                      (set_pos_x (<[Z.to_nat id := x]> (pos_x ps)) ps))).
  { subst r. unfold ui_attr_store_position.
    destruct (pos_x ps) as [|x0 xs] eqn:Ex; [rewrite len_nil in Hx; lia|].
    destruct (pos_y ps) as [|y0 ys] eqn:Ey; [rewrite len_nil in Hy; lia|].
    rewrite Zgeb_false by lia. reflexivity. }
  assert (Hnx : forall l : list Z, l <> [] -> forall i v, <[i := v]> l <> []).
  { intros l Hl i v E. apply Hl. apply (f_equal (@length Z)) in E.
    rewrite length_insert in E. destruct l; [reflexivity|discriminate E]. }
  assert (Hxn : pos_x ps <> []) by (intros E; rewrite E, len_nil in Hx; lia).
  assert (Hyn : pos_y ps <> []) by (intros E; rewrite E, len_nil in Hy; lia).
  rewrite Hr. cbn [fst snd]. split; [reflexivity|].
  unfold ui_attr_get_position. proj_simpl.
  split; [|split].
  - intros Hc. rewrite Zgeb_false by lia.
    destruct (<[Z.to_nat id := x]> (pos_x ps)) as [|a l] eqn:Ea;
      [exfalso; exact (Hnx _ Hxn _ _ Ea)|].
    destruct (<[Z.to_nat id := y]> (pos_y ps)) as [|b m] eqn:Eb;
      [exfalso; exact (Hnx _ Hyn _ _ Eb)|].
    rewrite <- Ea, <- Eb.
    rewrite !nth_insert_same by (unfold len in *; lia). reflexivity.
  - intros Hc. rewrite Zgeb_true by lia. reflexivity.
  - intros H0 Hne. destruct (id' >=? element_count ps); [reflexivity|].
    destruct (pos_x ps) as [|x0 xs] eqn:Ex; [congruence|].
    destruct (pos_y ps) as [|y0 ys] eqn:Ey; [congruence|].
    destruct (<[Z.to_nat id := x]> (x0 :: xs)) as [|a l] eqn:Ea;
      [exfalso; eapply Hnx; [|exact Ea]; discriminate|].
    destruct (<[Z.to_nat id := y]> (y0 :: ys)) as [|b m] eqn:Eb;
      [exfalso; eapply Hnx; [|exact Eb]; discriminate|].
    rewrite <- Ea, <- Eb.
    rewrite !nth_lookup, !list_lookup_insert_ne by lia. reflexivity.
Qed.

Lemma position_store_read_back_witness :
  ui_attr_get_position
    (snd (ui_attr_store_position
            (g_protocol_state
               (provision [ (1, [field_str "t" "h"; field_int "n" "3"]);
                            (0, [field_str "t" "s"]) ]))
            2 10 20)) 2
  = (RES_UNKNOWN_ID, None).
Proof.
  refine (proj1 (proj2 (proj2 (position_store_read_back
    (g_protocol_state
       (provision [ (1, [field_str "t" "h"; field_int "n" "3"]);
                    (0, [field_str "t" "s"]) ]))
    2 0 10 20 _ _ _))) _).
  - vm_compute. reflexivity.
  - vm_compute. reflexivity.
  - vm_compute. split; [intros H; discriminate H|reflexivity].
  - vm_compute. intros H. discriminate H.
Defined.

(** ** Screen ordinals without local screens *)

Section Ordinals.

Implicit Types (ps : protocol_state).

Lemma ids_split n i :
  0 <= i < n ->
  exists rest, ids n = ids i ++ i :: rest /\ (forall j, In j rest -> i < j).
Proof.
  intros H. unfold ids.
  replace (Z.to_nat n) with (Z.to_nat i + S (Z.to_nat n - S (Z.to_nat i)))%nat by lia.
  rewrite seq_app, map_app. cbn [seq map Nat.add].
  rewrite Z2Nat.id by lia.
  eexists. split; [reflexivity|].
  intros j Hj. apply in_map_iff in Hj. destruct Hj as [k [<- Hk]].
  apply in_seq in Hk. lia.
Qed.

Lemma ordinal_loop_prefix ps sid l2 : forall l1 c,
  (forall i, In i l1 ->
     i <> sid /\ (type (el ps i) = ELEMENT_SCREEN ->
                  protocol_screen_role ps i = OVERLAY_NONE ->
                  parent_id (el ps i) = INVALID_ELEMENT_ID)) ->
  type (el ps sid) = ELEMENT_SCREEN ->
  protocol_screen_role ps sid = OVERLAY_NONE ->
  parent_id (el ps sid) = INVALID_ELEMENT_ID ->
  0 <= c -> c + len l1 <= 255 ->
  let ord := find_screen_ordinal_by_id_loop ps sid (l1 ++ sid :: l2) c in
  c <= ord <= c + len l1
  /\ find_screen_id_by_ordinal_loop ps ord (l1 ++ sid :: l2) c = sid.
Proof.
  induction l1 as [|i l1 IH]; intros c Hl Ht Hr Hp Hc Hb; cbv zeta.
  - cbn [app find_screen_ordinal_by_id_loop find_screen_id_by_ordinal_loop].
    rewrite Ht, Hr, Hp, !Z.eqb_refl. cbn [negb andb]. rewrite ?Z.eqb_refl.
    change (len []) with 0. split; [lia|reflexivity].
  - cbn [app find_screen_ordinal_by_id_loop find_screen_id_by_ordinal_loop].
    rewrite len_cons in Hb. pose proof (len_nonneg l1) as Hn.
    destruct (Hl i (or_introl eq_refl)) as [Hne Hloc].
    assert (Hl' : forall j, In j l1 ->
       j <> sid /\ (type (el ps j) = ELEMENT_SCREEN ->
                    protocol_screen_role ps j = OVERLAY_NONE ->
                    parent_id (el ps j) = INVALID_ELEMENT_ID))
      by (intros j Hj; apply Hl; right; exact Hj).
    rewrite len_cons.
    destruct (Z.eqb_spec (type (el ps i)) ELEMENT_SCREEN) as [Eti|Eti]; cbn [negb andb].
    + destruct (Z.eqb_spec (protocol_screen_role ps i) OVERLAY_NONE) as [Eri|Eri];
        cbn [negb andb].
      * rewrite (Hloc Eti Eri), Z.eqb_refl.
        rewrite (Zeqb_false i sid) by assumption.
        rewrite (u8_small (c + 1)) by lia.
        destruct (IH (c + 1) Hl' Ht Hr Hp) as [Hord Hid]; [lia|lia|].
        rewrite (Zeqb_false c) by lia.
        split; [lia|exact Hid].
      * destruct (IH c Hl' Ht Hr Hp) as [Hord Hid]; [lia|lia|].
        split; [lia|exact Hid].
    + destruct (IH c Hl' Ht Hr Hp) as [Hord Hid]; [lia|lia|].
      split; [lia|exact Hid].
Qed.

End Ordinals.

(** X21: for a root screen with no local screen declared before it, the
    two ordinal lookups are inverse: the ordinal of the screen is at most
    its id, and looking that ordinal up gives the screen back. *)
Theorem screen_ordinal_inverse_without_local (ps : protocol_state) (sid : Z) :
  0 <= sid < element_count ps ->
  element_count ps <= 255 ->
  type (el ps sid) = ELEMENT_SCREEN ->
  protocol_screen_role ps sid = OVERLAY_NONE ->
  parent_id (el ps sid) = INVALID_ELEMENT_ID ->
  (forall i, 0 <= i < sid ->
     type (el ps i) = ELEMENT_SCREEN ->
     protocol_screen_role ps i = OVERLAY_NONE ->
     parent_id (el ps i) = INVALID_ELEMENT_ID) ->
  let ord := find_screen_ordinal_by_id ps sid in
  0 <= ord <= sid /\ find_screen_id_by_ordinal ps ord = sid.
Proof.
  intros Hs Hc Ht Hr Hp Hloc ord.
  destruct (ids_split (element_count ps) sid Hs) as [rest [Hids _]].
  assert (Hl : forall i, In i (ids sid) ->
     i <> sid /\ (type (el ps i) = ELEMENT_SCREEN ->
                  protocol_screen_role ps i = OVERLAY_NONE ->
                  parent_id (el ps i) = INVALID_ELEMENT_ID)).
  { intros i Hi. apply ids_range in Hi. split; [lia|]. apply Hloc. exact Hi. }
  assert (Hlen : len (ids sid) = sid).
  { unfold len, ids. rewrite length_map, length_seq. lia. }
  destruct (ordinal_loop_prefix ps sid rest (ids sid) 0 Hl Ht Hr Hp) as [Hord Hid];
    [lia|lia|].
  assert (Eo : ord = find_screen_ordinal_by_id_loop ps sid (ids sid ++ sid :: rest) 0).
  { subst ord. unfold find_screen_ordinal_by_id.
    rewrite Zgeb_false by lia. rewrite Ht, Hp, !Z.eqb_refl. cbn [negb].
    rewrite Hids. reflexivity. }
  rewrite Eo. split; [lia|].
  unfold find_screen_id_by_ordinal. rewrite Hids. exact Hid.
Qed.

Lemma screen_ordinal_inverse_without_local_witness :
  find_screen_id_by_ordinal
    (g_protocol_state
       (provision [ (1, [field_str "t" "h"; field_int "n" "3"]);
                    (0, [field_str "t" "s"]);
                    (0, [field_str "t" "t"; field_int "p" "0"; field_str "tx" "A"]);
                    (2, [field_str "t" "s"]) ]))
    (find_screen_ordinal_by_id
       (g_protocol_state
          (provision [ (1, [field_str "t" "h"; field_int "n" "3"]);
                       (0, [field_str "t" "s"]);
                       (0, [field_str "t" "t"; field_int "p" "0"; field_str "tx" "A"]);
                       (2, [field_str "t" "s"]) ])) 2) = 2.
Proof.
  refine (proj2 (screen_ordinal_inverse_without_local
    (g_protocol_state
       (provision [ (1, [field_str "t" "h"; field_int "n" "3"]);
                    (0, [field_str "t" "s"]);
                    (0, [field_str "t" "t"; field_int "p" "0"; field_str "tx" "A"]);
                    (2, [field_str "t" "s"]) ])) 2 _ _ _ _ _ _)).
  - vm_compute. split; [intros H; discriminate H|reflexivity].
  - vm_compute. intros H. discriminate H.
  - vm_compute. reflexivity.
  - vm_compute. reflexivity.
  - vm_compute. reflexivity.
  - intros i Hi Ht _.
    assert (E : i = 0 \/ i = 1) by lia.
    destruct E as [-> | ->]; [vm_compute; reflexivity|].
    vm_compute in Ht. discriminate Ht.
Defined.

(** ** Rows of a list *)

Section Rows.

Implicit Types (ps : protocol_state).

Lemma row_count_bounds ps list_eid : forall l c,
  0 <= c -> c + len l <= 255 ->
  c <= fold_left
         (fun count i =>
            if negb (parent_id (el ps i) =? list_eid) then count
            else if negb (type (el ps i) =? ELEMENT_TEXT) then count
            else if protocol_is_element_visible ps i =? 0 then count
            else u8 (count + 1)) l c
    <= c + len l.
Proof.
  induction l as [|i l IH]; intros c Hc Hb; cbn [fold_left].
  - rewrite len_nil. lia.
  - rewrite len_cons in *. pose proof (len_nonneg l).
    destruct (negb (parent_id (el ps i) =? list_eid));
      [specialize (IH c); lia|].
    destruct (negb (type (el ps i) =? ELEMENT_TEXT)); [specialize (IH c); lia|].
    destruct (protocol_is_element_visible ps i =? 0); [specialize (IH c); lia|].
    rewrite u8_small by lia. specialize (IH (c + 1)). lia.
Qed.

Lemma rows_loop_prefix ps list_eid t l2 : forall l1 c,
  (forall i, In i l1 -> i <> t) ->
  parent_id (el ps t) = list_eid ->
  type (el ps t) = ELEMENT_TEXT ->
  protocol_is_element_visible ps t <> 0 ->
  0 <= c -> c + len (l1 ++ t :: l2) <= 255 ->
  let row := list_row_index_of_text_loop ps list_eid t (l1 ++ t :: l2) c in
  c <= row <= c + len l1
  /\ row < fold_left
             (fun count i =>
                if negb (parent_id (el ps i) =? list_eid) then count
                else if negb (type (el ps i) =? ELEMENT_TEXT) then count
                else if protocol_is_element_visible ps i =? 0 then count
                else u8 (count + 1)) (l1 ++ t :: l2) c
  /\ list_child_by_index_loop ps list_eid row (l1 ++ t :: l2) c = t.
Proof.
  induction l1 as [|i l1 IH]; intros c Hl Hp Ht Hv Hc Hb; cbv zeta.
  - cbn [app list_row_index_of_text_loop list_child_by_index_loop fold_left].
    rewrite Hp, Ht, !Z.eqb_refl. rewrite (Zeqb_false _ 0 Hv). cbn [negb].
    rewrite ?Z.eqb_refl. change (len []) with 0.
    cbn [app] in Hb. rewrite len_cons in Hb. pose proof (len_nonneg l2).
    rewrite u8_small by lia.
    pose proof (row_count_bounds ps list_eid l2 (c + 1) ltac:(lia) ltac:(lia)).
    split; [lia|]. split; [lia|reflexivity].
  - cbn [app list_row_index_of_text_loop list_child_by_index_loop fold_left].
    cbn [app] in Hb. rewrite len_cons in Hb. rewrite len_cons.
    pose proof (len_nonneg l1). pose proof (len_nonneg (l1 ++ t :: l2)).
    assert (Hne : i <> t) by (apply Hl; left; reflexivity).
    assert (Hl' : forall j, In j l1 -> j <> t) by (intros j Hj; apply Hl; right; exact Hj).
    assert (Hlen : len l1 <= len (l1 ++ t :: l2)).
    { rewrite len_app. pose proof (len_nonneg (t :: l2)). lia. }
    destruct (negb (parent_id (el ps i) =? list_eid)).
    { destruct (IH c Hl' Hp Ht Hv) as (A & B & C); [lia|lia|].
      split; [lia|]. split; [exact B|exact C]. }
    destruct (negb (type (el ps i) =? ELEMENT_TEXT)).
    { destruct (IH c Hl' Hp Ht Hv) as (A & B & C); [lia|lia|].
      split; [lia|]. split; [exact B|exact C]. }
    destruct (protocol_is_element_visible ps i =? 0).
    { destruct (IH c Hl' Hp Ht Hv) as (A & B & C); [lia|lia|].
      split; [lia|]. split; [exact B|exact C]. }
    rewrite (Zeqb_false i t) by assumption. rewrite (u8_small (c + 1)) by lia.
    destruct (IH (c + 1) Hl' Hp Ht Hv) as (A & B & C); [lia|lia|].
    rewrite (Zeqb_false c) by lia.
    split; [lia|]. split; [exact B|exact C].
Qed.

End Rows.

(** X22: the two row lookups of a list are inverse on its visible text
    children: the row index of such a text is at most its id and below
    the row count of the list, and the child at that row index is the
    text itself. *)
Theorem list_row_lookups_inverse (ps : protocol_state) (list_eid text_eid : Z) :
  element_count ps <= 255 ->
  0 <= list_eid < element_count ps ->
  0 <= text_eid < element_count ps ->
  parent_id (el ps text_eid) = list_eid ->
  type (el ps text_eid) = ELEMENT_TEXT ->
  protocol_is_element_visible ps text_eid <> 0 ->
  let row := list_row_index_of_text ps list_eid text_eid in
  0 <= row <= text_eid
  /\ row < list_row_count ps list_eid
  /\ list_child_by_index ps list_eid row = text_eid.
Proof.
  intros Hc Hl Ht Hp Hty Hv row.
  destruct (ids_split (element_count ps) text_eid Ht) as [rest [Hids _]].
  assert (Hne : forall i, In i (ids text_eid) -> i <> text_eid)
    by (intros i Hi; apply ids_range in Hi; lia).
  assert (Hlen : len (ids text_eid) = text_eid).
  { unfold len, ids. rewrite length_map, length_seq. lia. }
  assert (Hall : len (ids text_eid ++ text_eid :: rest) = element_count ps).
  { rewrite <- Hids. unfold len, ids. rewrite length_map, length_seq. lia. }
  destruct (rows_loop_prefix ps list_eid text_eid rest (ids text_eid) 0 Hne Hp Hty Hv)
    as (A & B & C); [lia|lia|].
  assert (Er : row = list_row_index_of_text_loop ps list_eid text_eid
                       (ids text_eid ++ text_eid :: rest) 0).
  { subst row. unfold list_row_index_of_text. rewrite !Zgeb_false by lia.
    rewrite Hids. reflexivity. }
  rewrite Er. split; [lia|]. split.
  - unfold list_row_count. rewrite Hids. exact B.
  - unfold list_child_by_index. rewrite Hids. exact C.
Qed.

Lemma list_row_lookups_inverse_witness :
  list_child_by_index (activated tree_nested_list) 1
    (list_row_index_of_text (activated tree_nested_list) 1 2) = 2.
Proof.
  refine (proj2 (proj2 (list_row_lookups_inverse (activated tree_nested_list) 1 2
                          _ _ _ _ _ _))).
  - vm_compute. intros H. discriminate H.
  - vm_compute. split; [intros H; discriminate H|reflexivity].
  - vm_compute. split; [intros H; discriminate H|reflexivity].
  - vm_compute. reflexivity.
  - vm_compute. reflexivity.
  - vm_compute. intros H. discriminate H.
Defined.

(** ** The parent walks *)

Section Walks.

Implicit Types (ps : protocol_state).

Lemma root_walk_ancestor ps r : forall rounds cur,
  element_root_screen_walk ps rounds cur = r ->
  r <> INVALID_ELEMENT_ID ->
  r < element_count ps /\ type (el ps r) = ELEMENT_SCREEN
  /\ is_descendant_of_walk ps rounds cur r = 1.
Proof.
  induction rounds as [|rounds IH]; intros cur Hw Hr;
    cbn [element_root_screen_walk is_descendant_of_walk] in *.
  - congruence.
  - destruct (cur =? INVALID_ELEMENT_ID); [congruence|].
    destruct (Z.geb_spec cur (element_count ps)); [congruence|].
    destruct (Z.eqb_spec (type (el ps cur)) ELEMENT_SCREEN) as [Hs|Hs].
    + subst r. rewrite Z.eqb_refl. repeat split; [lia|assumption].
    + destruct (IH _ Hw Hr) as (A & B & C).
      destruct (cur =? r); repeat split; assumption.
Qed.

Lemma list_walk_ancestor ps p : forall rounds cur,
  element_parent_list_walk ps rounds cur = p ->
  p <> INVALID_ELEMENT_ID ->
  p < element_count ps /\ type (el ps p) = ELEMENT_LIST_VIEW
  /\ is_descendant_of_walk ps rounds cur p = 1.
Proof.
  induction rounds as [|rounds IH]; intros cur Hw Hr;
    cbn [element_parent_list_walk is_descendant_of_walk] in *.
  - congruence.
  - destruct (cur =? INVALID_ELEMENT_ID); [congruence|].
    destruct (Z.geb_spec cur (element_count ps)); [congruence|].
    destruct (Z.eqb_spec (type (el ps cur)) ELEMENT_LIST_VIEW) as [Hs|Hs].
    + subst p. rewrite Z.eqb_refl. repeat split; [lia|assumption].
    + destruct (IH _ Hw Hr) as (A & B & C).
      destruct (cur =? p); repeat split; assumption.
Qed.

End Walks.

(** X23: what the parent walks return is an ancestor of the right kind:
    the root screen of an element, when there is one, is a screen and the
    element is that screen or a descendant of it; the parent list of an
    element, when there is one, is a list view at or above the element's
    parent. *)
Theorem parent_walks_return_ancestors (ps : protocol_state) (eid : Z) :
  (element_root_screen ps eid <> INVALID_ELEMENT_ID ->
     element_root_screen ps eid < element_count ps
     /\ type (el ps (element_root_screen ps eid)) = ELEMENT_SCREEN
     /\ is_descendant_of ps eid (element_root_screen ps eid) = 1)
  /\ (element_parent_list ps eid <> INVALID_ELEMENT_ID ->
        element_parent_list ps eid < element_count ps
        /\ type (el ps (element_parent_list ps eid)) = ELEMENT_LIST_VIEW
        /\ is_descendant_of ps (parent_id (el ps eid)) (element_parent_list ps eid) = 1).
Proof.
  split; intros Hr.
  - unfold is_descendant_of. rewrite (Zeqb_false _ _ Hr).
    unfold element_root_screen in *.
    destruct (eid >=? element_count ps); [congruence|].
    apply root_walk_ancestor; [reflexivity|assumption].
  - unfold is_descendant_of. rewrite (Zeqb_false _ _ Hr).
    unfold element_parent_list in *.
    destruct (eid >=? element_count ps); [congruence|].
    apply list_walk_ancestor; [reflexivity|assumption].
Qed.

Lemma parent_walks_return_ancestors_witness :
  is_descendant_of (g_protocol_state tree_local_trigger) 4
    (element_root_screen (g_protocol_state tree_local_trigger) 4) = 1.
Proof.
  refine (proj2 (proj2 (proj1 (parent_walks_return_ancestors
                                 (g_protocol_state tree_local_trigger) 4) _))).
  vm_compute. intros H. discriminate H.
Defined.



(** ** The shape of a provisioned tree *)

Section TreeShape.

Implicit Types (ps : protocol_state) (rt : ui_runtime).

Lemma tree_ok_shape ps ps' : same_shape ps ps' -> tree_ok ps -> tree_ok ps'.
Proof.
  intros (A & B & C & D & E & F) (T1 & T2 & T3 & T4 & T5 & T6 & T7).
  unfold tree_ok, el. rewrite A, B, C, D, E, F. repeat split; try assumption; lia.
Qed.

Lemma shape_refl ps : same_shape ps ps.
Proof. repeat split. Qed.

Lemma shape_trans ps ps1 ps2 :
  same_shape ps ps1 -> same_shape ps1 ps2 -> same_shape ps ps2.
Proof.
  intros (A & B & C & D & E & F) (A' & B' & C' & D' & E' & F').
  repeat split; congruence.
Qed.

Lemma shape_store_position ps id x y :
  same_shape ps (snd (ui_attr_store_position ps id x y)).
Proof.
  unfold ui_attr_store_position.
  destruct (pos_x ps) eqn:Ex; [apply shape_refl|].
  destruct (pos_y ps) eqn:Ey; [apply shape_refl|].
  destruct (id >=? element_capacity ps); [apply shape_refl|].
  repeat split; cbn; rewrite ?Ex, ?Ey; apply len_insert.
Qed.

Lemma shape_attr_append ps id tag payload lp pl :
  same_shape ps (snd (ui_attr_append ps id tag payload lp pl)).
Proof.
  unfold ui_attr_append. destruct (negb _); [apply shape_refl|].
  destruct (_ >=? _); [apply shape_refl|]. destruct (_ >? _); repeat split.
Qed.

Lemma shape_attr_modify f ps id tag : same_shape ps (ui_attr_modify f ps id tag).
Proof. repeat split. Qed.

Lemma shape_store_screen_role ps id role :
  same_shape ps (snd (ui_attr_store_screen_role ps id role)).
Proof.
  unfold ui_attr_store_screen_role.
  destruct (ui_attr_find ps id UI_ATTR_TAG_SCREEN_ROLE);
    [apply shape_attr_modify|apply shape_attr_append].
Qed.

Lemma shape_store_text ps id text cap :
  same_shape ps (snd (ui_attr_store_text_with_cap ps id text cap)).
Proof.
  unfold ui_attr_store_text_with_cap.
  destruct (ui_attr_find ps id UI_ATTR_TAG_TEXT) as [e|].
  - destruct (_ =? 0); [apply shape_refl|apply shape_attr_modify].
  - pose proof (shape_attr_append ps id UI_ATTR_TAG_TEXT None 1
      (u16 ((if cap =? 0 then u8 (len text) else cap) + 1))) as Hf.
    cbv zeta.
    destruct (ui_attr_append ps id UI_ATTR_TAG_TEXT None 1 _) as [res ps1].
    cbn [snd] in Hf.
    destruct (negb (res =? RES_OK)); [exact Hf|].
    destruct (ui_attr_find ps1 id UI_ATTR_TAG_TEXT); [|exact Hf].
    eapply shape_trans; [exact Hf|apply shape_attr_modify].
Qed.

Lemma shape_update_text ps id text :
  same_shape ps (snd (ui_attr_update_text ps id text)).
Proof.
  unfold ui_attr_update_text.
  destruct (ui_attr_find ps id UI_ATTR_TAG_TEXT) as [e|]; [|apply shape_refl].
  cbv zeta. destruct (_ =? 0); [apply shape_refl|apply shape_attr_modify].
Qed.

Lemma barrel_get_or_add_lists rt id :
  lists (snd (ur_barrel_get_or_add rt id)) = lists rt.
Proof.
  unfold ur_barrel_get_or_add, ur__alloc_tail.
  destruct (ur_barrel_find rt id); [reflexivity|].
  destruct (_ >? _); reflexivity.
Qed.

Lemma shape_numeric_store ps id v a : same_shape ps (numeric_store ps id v a).
Proof.
  unfold numeric_store. destruct (id >=? element_count ps); [apply shape_refl|].
  cbv zeta. pose proof (barrel_get_or_add_lists (runtime ps) id) as H.
  destruct (ur_barrel_get_or_add (runtime ps) id) as [[st|] rt1]; [|apply shape_refl].
  repeat split. exact H.
Qed.

Lemma shape_numeric_set_value ps id v : same_shape ps (numeric_set_value ps id v).
Proof.
  unfold numeric_set_value. destruct (id >=? element_count ps); [apply shape_refl|].
  cbv zeta. pose proof (barrel_get_or_add_lists (runtime ps) id) as H.
  destruct (ur_barrel_get_or_add (runtime ps) id) as [[st|] rt1]; [|apply shape_refl].
  repeat split. exact H.
Qed.

Lemma trigger_get_or_add_lists rt id :
  lists (snd (ur_trigger_get_or_add rt id)) = lists rt.
Proof.
  unfold ur_trigger_get_or_add, ur__alloc_tail.
  destruct (ur_trigger_find rt id); [reflexivity|].
  destruct (_ >? _); reflexivity.
Qed.

(** *** List nodes *)

Lemma child_ok_mono n m st : n <= m -> list_child_ok n st -> list_child_ok m st.
Proof. unfold list_child_ok. intros H [E|B]; [left; exact E|right; lia]. Qed.

Lemma children_ok_mono n m (l : list ur_list_state) :
  n <= m -> Forall (list_child_ok n) l -> Forall (list_child_ok m) l.
Proof.
  intros H Hl. eapply Forall_impl; [exact Hl|].
  intros st. apply child_ok_mono. exact H.
Qed.

Lemma list_find_in_ok n (l : list ur_list_state) id st :
  Forall (list_child_ok n) l -> ur_list_find_in l id = Some st -> list_child_ok n st.
Proof.
  induction 1 as [|x l Hx Hl IH]; cbn [ur_list_find_in]; [discriminate|].
  destruct (l_element_id x =? id); [intros [= <-]; exact Hx|exact IH].
Qed.

Lemma list_get_or_add_ok n rt id :
  Forall (list_child_ok n) (lists rt) ->
  Forall (list_child_ok n) (lists (snd (ur_list_get_or_add rt id)))
  /\ (forall st, fst (ur_list_get_or_add rt id) = Some st -> list_child_ok n st).
Proof.
  intros H. unfold ur_list_get_or_add, ur_list_find.
  destruct (ur_list_find_in (lists rt) id) as [st|] eqn:E.
  - split; [exact H|]. intros st' [= <-]. apply (list_find_in_ok n _ _ _ H E).
  - unfold ur__alloc_tail. destruct (_ >? _).
    + split; [exact H|]. intros st' Hs. discriminate Hs.
    + cbv zeta. cbn [fst snd]. split.
      * destruct (ur__off _ =? 0); cbn; [constructor|].
        constructor; [left; reflexivity|exact H].
      * intros st' [= <-]. left. reflexivity.
Qed.

Lemma list_modify_in_ok n f (l : list ur_list_state) id :
  (forall st, list_child_ok n st -> list_child_ok n (f st)) ->
  Forall (list_child_ok n) l -> Forall (list_child_ok n) (ur_list_modify_in f l id).
Proof.
  intros Hf. induction 1 as [|x l Hx Hl IH]; cbn [ur_list_modify_in]; [constructor|].
  destruct (l_element_id x =? id); constructor; auto.
Qed.

Lemma tree_ok_runtime ps rt' :
  tree_ok ps ->
  Forall (list_child_ok (element_count ps)) (lists rt') ->
  tree_ok (set_runtime rt' ps).
Proof.
  intros (T1 & T2 & T3 & T4 & T5 & T6 & T7) H.
  split; [exact T1|]. split; [exact T2|]. split; [exact T3|]. split; [exact T4|].
  split; [exact T5|]. split; [exact T6|exact H].
Qed.

Lemma tree_ok_lists ps : tree_ok ps -> Forall (list_child_ok (element_count ps)) (lists (runtime ps)).
Proof. intros T. apply T. Qed.

Lemma el_insert_same ps' ps i e :
  elements ps' = <[Z.to_nat i := e]> (elements ps) ->
  0 <= i < len (elements ps) -> el ps' i = e.
Proof.
  intros E H. unfold el. rewrite E. apply nth_insert_same. unfold len in H. lia.
Qed.

Lemma el_insert_other ps' ps i j e :
  elements ps' = <[Z.to_nat i := e]> (elements ps) ->
  0 <= i -> 0 <= j -> j <> i -> el ps' j = el ps j.
Proof.
  intros E Hi Hj Hne. unfold el. rewrite E.
  rewrite !nth_lookup, list_lookup_insert_ne by lia. reflexivity.
Qed.

(** *** Adding an element *)

Lemma add_basic_ok ps parent ty x y :
  tree_ok ps ->
  parent = INVALID_ELEMENT_ID \/ 0 <= parent < element_count ps ->
  let r := add_basic_element ps parent ty x y in
  (fst r = 255 /\ snd r = ps)
  \/ (fst r = element_count ps /\ fst r <> 255
      /\ tree_ok (snd r)
      /\ element_count (snd r) = element_count ps + 1
      /\ runtime (snd r) = runtime ps
      /\ el (snd r) (fst r) = {| parent_id := parent; type := ty |}).
Proof.
  intros T Hp r. subst r. unfold add_basic_element.
  destruct (element_capacity ps =? 0); [left; split; reflexivity|].
  destruct (Z.geb_spec (element_count ps) (element_capacity ps)) as [|Hlt];
    [left; split; reflexivity|].
  destruct (elements ps) as [|e0 es] eqn:Ee; [left; split; reflexivity|].
  destruct (pos_x ps) as [|x0 xs] eqn:Ex; [left; split; reflexivity|].
  destruct (pos_y ps) as [|y0 ys] eqn:Ey; [left; split; reflexivity|].
  right. cbv zeta. clear Ee Ex Ey.
  pose proof T as (T1 & T2 & T3 & T4 & T5 & T6 & T7).
  set (id := element_count ps) in *.
  set (ps2 := set_elements _ _).
  assert (E2 : elements ps2 = <[Z.to_nat id := {| parent_id := parent; type := ty |}]> (elements ps))
    by reflexivity.
  assert (C2 : element_count ps2 = id + 1) by (cbn; apply u8_small; lia).
  assert (T' : tree_ok ps2).
  { unfold tree_ok. rewrite C2, E2, len_insert.
    change (element_capacity ps2) with (element_capacity ps).
    change (pos_x ps2) with (pos_x ps). change (pos_y ps2) with (pos_y ps).
    change (runtime ps2) with (runtime ps).
    repeat split; try assumption; try lia.
    - intros i Hi. destruct (Z.eq_dec i id) as [->|Hne].
      + rewrite (el_insert_same ps2 ps id _ E2) by lia. cbn [parent_id].
        destruct Hp; [left; assumption|right; assumption].
      + rewrite (el_insert_other ps2 ps id i _ E2) by lia. apply T6. lia.
    - apply (children_ok_mono id); [lia|assumption]. }
  pose proof (shape_store_position ps2 id (u8 x) (u8 y)) as Hs.
  pose proof (store_position_frame ps2 id (u8 x) (u8 y)) as Hf. cbv zeta in Hf.
  destruct Hf as (F1 & F2 & F3 & F4 & _).
  cbn [fst snd].
  split; [reflexivity|]. split; [unfold id; lia|].
  split; [apply (tree_ok_shape ps2); assumption|].
  split; [rewrite F1; exact C2|]. split; [rewrite F3; reflexivity|].
  unfold el. rewrite F4. apply (el_insert_same ps2 ps id _ E2). lia.
Qed.

Lemma register_local_ok ps sid owner :
  tree_ok ps ->
  owner = INVALID_ELEMENT_ID \/ 0 <= owner < sid ->
  0 <= sid ->
  tree_ok (protocol_register_local_screen ps sid owner).
Proof.
  intros T Ho Hs. pose proof T as (T1 & T2 & T3 & T4 & T5 & T6 & T7).
  unfold protocol_register_local_screen.
  destruct (Z.geb_spec sid (element_count ps)); [exact T|]. cbv zeta.
  destruct (Z.geb_spec owner (element_count ps)); [exact T|].
  destruct (Z.eqb_spec owner INVALID_ELEMENT_ID) as [|Hne]; [exact T|]. cbn [negb].
  set (ps' := set_elements _ ps).
  assert (E : elements ps' = <[Z.to_nat sid := {| parent_id := owner; type := type (el ps sid) |}]> (elements ps))
    by reflexivity.
  unfold tree_ok. rewrite E, len_insert.
  change (element_count ps') with (element_count ps).
  change (element_capacity ps') with (element_capacity ps).
  change (pos_x ps') with (pos_x ps). change (pos_y ps') with (pos_y ps).
  change (runtime ps') with (runtime ps).
  repeat split; try assumption; try lia.
  intros i Hi. destruct (Z.eq_dec i sid) as [->|Hd].
  - rewrite (el_insert_same ps' ps sid _ E) by lia. cbn [parent_id].
    destruct Ho; [contradiction|right; assumption].
  - rewrite (el_insert_other ps' ps sid i _ E) by lia. apply T6. lia.
Qed.

Lemma list_set_last_ok ps list_id id :
  tree_ok ps -> 0 <= id < element_count ps ->
  tree_ok (list_set_last_text_child ps list_id id).
Proof.
  intros T Hid. unfold list_set_last_text_child.
  destruct (list_get_or_add_ok (element_count ps) (runtime ps) list_id (tree_ok_lists ps T))
    as [Hl _].
  destruct (ur_list_get_or_add (runtime ps) list_id) as [[st|] rt1]; cbn [snd] in Hl.
  - apply tree_ok_runtime; [exact T|]. unfold ur_list_modify. cbn [lists set_lists].
    apply list_modify_in_ok; [|exact Hl]. intros s _. right. exact Hid.
  - apply tree_ok_runtime; assumption.
Qed.

(** *** The handlers *)

Lemma create_list_ok ps ctx :
  tree_ok ps ->
  c_parent_id ctx = INVALID_ELEMENT_ID \/ 0 <= c_parent_id ctx < element_count ps ->
  tree_ok (snd (handle_create_list ps ctx)).
Proof.
  intros T Hp. unfold handle_create_list.
  pose proof (add_basic_ok ps (c_parent_id ctx) ELEMENT_LIST_VIEW (c_x ctx) (c_y ctx) T Hp)
    as H. cbv zeta in H.
  destruct (add_basic_element ps _ _ _ _) as [lid ps1]. cbn [fst snd] in H.
  destruct H as [[-> ->]|(Hl & Hn & T1 & C1 & R1 & _)]; [exact T|].
  rewrite (Zeqb_false lid 255 Hn).
  destruct (list_get_or_add_ok (element_count ps1) (runtime ps1) lid (tree_ok_lists ps1 T1))
    as [Hok _].
  destruct (ur_list_get_or_add (runtime ps1) lid) as [[st|] rt1]; cbn [snd] in Hok |- *.
  - apply tree_ok_runtime; [exact T1|]. unfold ur_list_modify. cbn [lists set_lists].
    apply list_modify_in_ok; [|exact Hok]. intros s _. left. reflexivity.
  - apply tree_ok_runtime; assumption.
Qed.

Lemma store_text_after_add ps parent x y tb cap :
  tree_ok ps ->
  parent = INVALID_ELEMENT_ID \/ 0 <= parent < element_count ps ->
  let r := add_basic_element ps parent ELEMENT_TEXT x y in
  (fst r = 255 /\ snd r = ps)
  \/ (fst r <> 255
      /\ tree_ok (snd (ui_attr_store_text_with_cap (snd r) (fst r) tb cap))
      /\ 0 <= fst r
             < element_count (snd (ui_attr_store_text_with_cap (snd r) (fst r) tb cap))).
Proof.
  intros T Hp r. subst r.
  destruct (add_basic_ok ps parent ELEMENT_TEXT x y T Hp)
    as [H|(Hl & Hn & T1 & C1 & R1 & _)]; [left; exact H|right].
  pose proof (shape_store_text (snd (add_basic_element ps parent ELEMENT_TEXT x y))
                (fst (add_basic_element ps parent ELEMENT_TEXT x y)) tb cap) as Hs.
  split; [exact Hn|]. split; [apply (tree_ok_shape _ _ Hs T1)|].
  destruct Hs as (Hc & _). rewrite Hc, C1, Hl. destruct T as ((? & ?) & _). lia.
Qed.

Lemma create_text_ok ps ctx :
  tree_ok ps ->
  c_parent_id ctx = INVALID_ELEMENT_ID \/ 0 <= c_parent_id ctx < element_count ps ->
  tree_ok (snd (handle_create_text ps ctx)).
Proof.
  intros T Hp. unfold handle_create_text.
  destruct (text_key_values (c_obj ctx)) as [tb cap].
  destruct (negb (c_parent_id ctx =? INVALID_ELEMENT_ID)
            && (type (el ps (c_parent_id ctx)) =? ELEMENT_LIST_VIEW)).
  - pose proof (store_text_after_add ps (c_parent_id ctx) (c_x ctx)
                  (u8 (list_item_count ps (c_parent_id ctx) * 8)) tb (u8 cap) T Hp) as H.
    cbv zeta in H.
    destruct (add_basic_element ps _ _ _ _) as [id ps1]. cbn [fst snd] in H.
    destruct H as [[-> ->]|(Hn & T2 & Hid)]; [exact T|].
    rewrite (Zeqb_false id 255 Hn). cbn [snd].
    apply list_set_last_ok; assumption.
  - pose proof (store_text_after_add ps (c_parent_id ctx) (c_x ctx) (c_y ctx)
                  tb (u8 cap) T Hp) as H.
    cbv zeta in H.
    destruct (add_basic_element ps _ _ _ _) as [id ps1]. cbn [fst snd] in H.
    destruct H as [[-> ->]|(Hn & T2 & Hid)]; [exact T|].
    rewrite (Zeqb_false id 255 Hn).
    destruct (negb (c_parent_id ctx =? INVALID_ELEMENT_ID) && _); cbn [snd];
      [apply list_set_last_ok; assumption|exact T2].
Qed.

Lemma create_barrel_ok ps ctx :
  tree_ok ps ->
  c_parent_id ctx = INVALID_ELEMENT_ID \/ 0 <= c_parent_id ctx < element_count ps ->
  tree_ok (snd (handle_create_barrel ps ctx)).
Proof.
  intros T Hp. unfold handle_create_barrel.
  pose proof (add_basic_ok ps (c_parent_id ctx) ELEMENT_BARREL (c_x ctx) (c_y ctx) T Hp)
    as H. cbv zeta in H.
  destruct (add_basic_element ps _ _ _ _) as [id ps1]. cbn [fst snd] in H.
  destruct H as [[-> ->]|(Hl & Hn & T1 & _)]; [exact T|].
  rewrite (Zeqb_false id 255 Hn). cbn [snd].
  apply (tree_ok_shape ps1); [apply shape_numeric_store|exact T1].
Qed.

Lemma create_trigger_ok ps ctx :
  tree_ok ps ->
  c_parent_id ctx = INVALID_ELEMENT_ID \/ 0 <= c_parent_id ctx < element_count ps ->
  tree_ok (snd (handle_create_trigger ps ctx)).
Proof.
  intros T Hp. unfold handle_create_trigger.
  pose proof (add_basic_ok ps (c_parent_id ctx) ELEMENT_TRIGGER (c_x ctx) (c_y ctx) T Hp)
    as H. cbv zeta in H.
  destruct (add_basic_element ps _ _ _ _) as [id ps1]. cbn [fst snd] in H.
  destruct H as [[-> ->]|(Hl & Hn & T1 & _)]; [exact T|].
  rewrite (Zeqb_false id 255 Hn).
  pose proof (trigger_get_or_add_lists (runtime ps1) id) as Hg.
  destruct (ur_trigger_get_or_add (runtime ps1) id) as [[st|] rt1]; cbn [snd] in *.
  - apply (tree_ok_shape (set_runtime rt1 ps1)); [repeat split|].
    apply tree_ok_runtime; [exact T1|]. rewrite Hg. apply tree_ok_lists. exact T1.
  - apply tree_ok_runtime; [exact T1|]. rewrite Hg. apply tree_ok_lists. exact T1.
Qed.

Lemma create_screen_ok ps ctx :
  tree_ok ps ->
  c_parent_id ctx = INVALID_ELEMENT_ID \/ 0 <= c_parent_id ctx < element_count ps ->
  tree_ok (snd (handle_create_screen ps ctx)).
Proof.
  intros T Hp. unfold handle_create_screen.
  pose proof (add_basic_ok ps (c_parent_id ctx) ELEMENT_SCREEN (c_x ctx) (c_y ctx) T Hp)
    as H. cbv zeta in H.
  destruct (add_basic_element ps _ _ _ _) as [sid ps1]. cbn [fst snd] in H.
  destruct H as [[-> ->]|(Hl & Hn & T1 & C1 & R1 & _)]; [exact T|].
  rewrite (Zeqb_false sid 255 Hn).
  pose proof (tree_ok_lists ps T) as L0. rewrite <- R1, <- Hl in L0.
  assert (Hsid : 0 <= sid) by (destruct T as ((? & ?) & _); lia).
  set (ps2 := if c_parent_id ctx =? INVALID_ELEMENT_ID then _ else ps1).
  assert (S2 : same_shape ps1 ps2).
  { subst ps2. destruct (c_parent_id ctx =? INVALID_ELEMENT_ID); [|apply shape_refl].
    cbv zeta.
    set (ov := match extract_int_key (c_obj ctx) key_ov with
               | Some v => if v <? 0 then 0 else if v >? 1 then 1 else v
               | None => 0
               end).
    pose proof (shape_store_screen_role ps1 sid (u8 ov)) as Hr.
    destruct (ov =? 0); cbn [negb].
    - destruct (_ =? 1); repeat split.
    - exact Hr. }
  pose proof (tree_ok_shape _ _ S2 T1) as T2.
  assert (L2 : Forall (list_child_ok sid) (lists (runtime ps2)))
    by (destruct S2 as (_ & _ & _ & _ & _ & ->); exact L0).
  set (pr := if negb (c_parent_id ctx =? INVALID_ELEMENT_ID) then _
             else (INVALID_ELEMENT_ID, ps2)).
  assert (Hpr : tree_ok (snd pr)
                /\ (fst pr = INVALID_ELEMENT_ID \/ 0 <= fst pr < sid)).
  { subst pr. destruct (Z.eqb_spec (c_parent_id ctx) INVALID_ELEMENT_ID) as [E|E];
      cbn [negb]; [split; [exact T2|left; reflexivity]|].
    destruct (type (el ps2 (c_parent_id ctx)) =? ELEMENT_TEXT).
    { cbn [fst snd]. split; [exact T2|]. destruct Hp as [Hp|Hp]; [contradiction|right; lia]. }
    destruct (type (el ps2 (c_parent_id ctx)) =? ELEMENT_LIST_VIEW);
      [|split; [exact T2|left; reflexivity]].
    destruct (list_get_or_add_ok sid (runtime ps2) (c_parent_id ctx) L2) as [Hok Hst].
    destruct (list_get_or_add_ok (element_count ps2) (runtime ps2) (c_parent_id ctx)
                (tree_ok_lists ps2 T2)) as [Hok2 _].
    destruct (ur_list_get_or_add (runtime ps2) (c_parent_id ctx)) as [[ls|] rt1];
      cbn [fst snd] in *.
    - split; [apply tree_ok_runtime; assumption|]. apply (Hst ls eq_refl).
    - split; [apply tree_ok_runtime; assumption|left; reflexivity]. }
  destruct pr as [owner_text ps3]. cbn [fst snd] in *.
  apply register_local_ok; [apply Hpr|apply Hpr|exact Hsid].
Qed.

Lemma update_text_ok ps id obj : tree_ok ps -> tree_ok (snd (handle_update_text ps id obj)).
Proof.
  intros T. unfold handle_update_text.
  destruct (extract_string_key obj key_tx 21) as [[tb|] rest]; [|exact T].
  cbn [snd]. apply (tree_ok_shape ps); [apply shape_update_text|exact T].
Qed.

Lemma update_barrel_ok ps id obj : tree_ok ps -> tree_ok (snd (handle_update_barrel ps id obj)).
Proof.
  intros T. unfold handle_update_barrel. cbn [snd].
  apply (tree_ok_shape ps); [apply shape_numeric_set_value|exact T].
Qed.

Lemma reserve_ok ps capacity :
  tree_ok ps -> 0 < capacity <= 255 ->
  tree_ok (snd (protocol_reserve_element_storage ps capacity)).
Proof.
  intros T Hc. pose proof T as (T1 & T2 & T3 & T4 & T5 & T6 & T7).
  unfold protocol_reserve_element_storage.
  destruct (capacity =? 0); [exact T|].
  destruct (Z.eqb_spec (element_capacity ps) 0) as [E|E]; [|exact T]. cbn [negb].
  cbv zeta. destruct (_ >? UI_ATTR_ARENA_CAP); [exact T|]. cbn [snd].
  unfold tree_ok. proj_simpl. unfold len. rewrite !repeat_length.
  repeat split; try lia. exact T7.
Qed.

Lemma element_object_ok ps obj :
  tree_ok ps -> tree_ok (snd (handle_element_object ps obj)).
Proof.
  intros T. pose proof T as ((T0 & T1) & T2 & _). unfold handle_element_object.
  cbv zeta.
  destruct (match c_string (snd (extract_string_key obj key_t 16)) with
            | [c] => c =? 104 | _ => false end).
  { destruct (extract_int_key obj key_n) as [n|]; [|exact T].
    destruct (Z.leb_spec n 0) as [Hn0|Hn0]; [exact T|].
    destruct (Z.gtb_spec n 255) as [Hn1|Hn1]; [exact T|].
    cbn [orb].
    pose proof (reserve_ok ps (u8 n) T ltac:(rewrite u8_small by lia; lia)) as Hres.
    destruct (protocol_reserve_element_storage ps (u8 n)) as [res ps1]. cbn [snd] in Hres.
    destruct (negb (res =? RES_OK)); [exact Hres|].
    cbn [snd]. apply (tree_ok_shape ps1); [repeat split|exact Hres]. }
  destruct (element_capacity ps =? 0); [exact T|].
  destruct (_ && (int_key_or obj key_e (-1) <? element_count ps)).
  { destruct (_ && negb _); [exact T|].
    unfold find_handler, k_element_handlers. cbn [List.find h_type].
    repeat match goal with
    | |- context [if ?c then Some _ else _] => destruct c
    end; cbn [snd]; try exact T;
      [apply update_text_ok|apply update_barrel_ok]; exact T. }
  set (pid := if (int_key_or obj key_p (-1) >=? 0)
                 && (int_key_or obj key_p (-1) <? element_count ps)
              then u8 (int_key_or obj key_p (-1)) else INVALID_ELEMENT_ID).
  assert (Hpid : pid = INVALID_ELEMENT_ID \/ 0 <= pid < element_count ps).
  { subst pid. destruct (Z.geb_spec (int_key_or obj key_p (-1)) 0); cbn [andb];
      [|left; reflexivity].
    destruct (Z.ltb_spec (int_key_or obj key_p (-1)) (element_count ps));
      [|left; reflexivity].
    right. rewrite u8_small by lia. lia. }
  unfold find_handler, k_element_handlers. cbn [List.find h_type].
  repeat match goal with
  | |- context [if ?c then Some _ else _] => destruct c
  end; try exact T;
    [apply create_screen_ok|apply create_list_ok|apply create_text_ok
    |apply create_barrel_ok|apply create_trigger_ok]; assumption.
Qed.

Lemma reset_ok : tree_ok protocol_reset_state.
Proof.
  unfold tree_ok.
  split; [split; vm_compute; discriminate|].
  split; [vm_compute; discriminate|].
  split; [reflexivity|]. split; [reflexivity|]. split; [reflexivity|].
  split; [|constructor].
  intros i Hi. change (element_count protocol_reset_state) with 0 in Hi. lia.
Qed.

Lemma cmd_json_ok s p l :
  tree_ok (g_protocol_state s) -> tree_ok (g_protocol_state (snd (cmd_json s p l))).
Proof.
  intros T. unfold cmd_json. destruct (l =? 0); [exact T|].
  unfold protocol_apply_json_object_internal.
  set (s1 := if negb (Z.land (nth 0 p 0) JSON_FLAG_HEAD =? 0)
             then set_g_protocol_state protocol_reset_state s else s).
  assert (T1 : tree_ok (g_protocol_state s1)).
  { subst s1. destruct (negb _); [apply reset_ok|exact T]. }
  set (r := if len (drop 1 p) >? 0 then _ else (0, s1)).
  assert (T2 : tree_ok (g_protocol_state (snd r))).
  { subst r. destruct (len (drop 1 p) >? 0); [|exact T1].
    unfold parse_single_element_object.
    destruct (len (drop 1 p) <? 2); [exact T1|]. cbv zeta.
    destruct (_ <=? 1); [exact T1|]. destruct (_ || _); [exact T1|].
    pose proof (element_object_ok (g_protocol_state s1)
                  (removelast (rev (skip_spaces (rev (skip_spaces (drop 1 p)))))) T1) as H.
    destruct (handle_element_object _ _) as [rc ps]. exact H. }
  destruct r as [rc s2]. cbn [snd] in T2.
  destruct (negb (Z.land (nth 0 p 0) JSON_FLAG_COMMIT =? 0)); [|exact T2].
  destruct (element_capacity (g_protocol_state s2) =? 0); [exact T2|].
  cbn [snd]. apply (tree_ok_shape (g_protocol_state s2)); [repeat split|exact T2].
Qed.

Lemma json_run_ok cmds : forall s,
  tree_ok (g_protocol_state s) -> tree_ok (g_protocol_state (json_run s cmds)).
Proof.
  unfold json_run. induction cmds as [|p cmds IH]; intros s T; cbn [fold_left].
  - exact T.
  - apply IH. apply cmd_json_ok. exact T.
Qed.

Lemma descendant_walk_le ps anc :
  tree_ok ps ->
  forall rounds cur, 0 <= cur ->
    is_descendant_of_walk ps rounds cur anc = 1 -> anc <= cur.
Proof.
  intros T. induction rounds as [|rounds IH]; intros cur Hc;
    cbn [is_descendant_of_walk]; [discriminate|].
  destruct (cur =? INVALID_ELEMENT_ID); [discriminate|].
  destruct (Z.geb_spec cur (element_count ps)); [discriminate|].
  destruct (Z.eqb_spec cur anc) as [->|Hne]; [intros _; lia|].
  destruct T as (_ & _ & _ & _ & _ & T6 & _).
  destruct (T6 cur ltac:(lia)) as [E|B].
  - rewrite E. destruct rounds; cbn [is_descendant_of_walk]; [discriminate|].
    rewrite Z.eqb_refl. discriminate.
  - intros Hw. apply IH in Hw; lia.
Qed.

End TreeShape.

(** X25: the json commands keep the element tables well formed: the three
    tables are as long as the reserved capacity (at most 255), the elements
    created so far fit in them, every element's parent is the sentinel or
    an element created before it, and the last text child a list node
    remembers is an existing element. *)
Theorem provisioning_keeps_tree_well_formed (s : slave) (cmds : list (list Z)) :
  tree_ok (g_protocol_state s) ->
  tree_ok (g_protocol_state (json_run s cmds)).
Proof. apply json_run_ok. Qed.

Lemma provisioning_keeps_tree_well_formed_witness :
  tree_ok (g_protocol_state
             (json_run slave_init
                [ 1 :: descriptor [field_str "t" "h"; field_int "n" "3"];
                  0 :: descriptor [field_str "t" "s"];
                  0 :: descriptor [field_str "t" "l"; field_int "p" "0"];
                  2 :: descriptor [field_str "t" "t"; field_int "p" "1";
                                   field_str "tx" "A"] ])).
Proof.
  refine (provisioning_keeps_tree_well_formed slave_init _ _).
  unfold tree_ok.
  split; [split; vm_compute; discriminate|].
  split; [vm_compute; discriminate|].
  split; [reflexivity|]. split; [reflexivity|]. split; [reflexivity|].
  split; [|constructor].
  intros i Hi. change (element_count (g_protocol_state slave_init)) with 0 in Hi. lia.
Defined.

(** X26: in every state reached from boot by json commands an ancestor
    has a smaller id than its descendants: when [is_descendant_of] reports
    an element under an ancestor, the ancestor's id is at most the
    element's, and so is the id of the element's root screen. *)
Theorem ancestors_precede_descendants (cmds : list (list Z)) (eid anc : Z) :
  let ps := g_protocol_state (json_run slave_init cmds) in
  0 <= eid ->
  is_descendant_of ps eid anc = 1 ->
  anc <= eid
  /\ (element_root_screen ps eid = INVALID_ELEMENT_ID
      \/ element_root_screen ps eid <= eid).
Proof.
  intros ps He Hd.
  assert (T : tree_ok ps) by (apply json_run_ok; apply reset_ok).
  split.
  - unfold is_descendant_of in Hd.
    destruct (anc =? INVALID_ELEMENT_ID); [discriminate Hd|].
    apply (descendant_walk_le ps anc T _ eid He Hd).
  - destruct (Z.eq_dec (element_root_screen ps eid) INVALID_ELEMENT_ID) as [E|E];
      [left; exact E|right].
    unfold element_root_screen in *.
    destruct (eid >=? element_count ps); [contradiction|].
    destruct (root_walk_ancestor ps _ _ eid eq_refl E) as (_ & _ & Hw).
    apply (descendant_walk_le ps _ T _ eid He Hw).
Qed.

Lemma ancestors_precede_descendants_witness :
  1 <= 2
  /\ (element_root_screen
        (g_protocol_state
           (json_run slave_init
              [ 1 :: descriptor [field_str "t" "h"; field_int "n" "3"];
                0 :: descriptor [field_str "t" "s"];
                0 :: descriptor [field_str "t" "l"; field_int "p" "0"];
                2 :: descriptor [field_str "t" "t"; field_int "p" "1";
                                 field_str "tx" "A"] ])) 2
      = INVALID_ELEMENT_ID
      \/ element_root_screen
           (g_protocol_state
              (json_run slave_init
                 [ 1 :: descriptor [field_str "t" "h"; field_int "n" "3"];
                   0 :: descriptor [field_str "t" "s"];
                   0 :: descriptor [field_str "t" "l"; field_int "p" "0"];
                   2 :: descriptor [field_str "t" "t"; field_int "p" "1";
                                    field_str "tx" "A"] ])) 2 <= 2).
Proof.
  refine (ancestors_precede_descendants
    [ 1 :: descriptor [field_str "t" "h"; field_int "n" "3"];
      0 :: descriptor [field_str "t" "s"];
      0 :: descriptor [field_str "t" "l"; field_int "p" "0"];
      2 :: descriptor [field_str "t" "t"; field_int "p" "1"; field_str "tx" "A"] ]
    2 1 _ _).
  - lia.
  - vm_compute. reflexivity.
Defined.

(** ** A frame of the asynchronous engine *)

Section Frame.

Implicit Types (a : ssd1306_async_state_t).

Lemma async_run_app a l1 l2 :
  async_run a (l1 ++ l2) = async_run (async_run a l1) l2.
Proof. unfold async_run. apply fold_left_app. Qed.

(** The four calls that send one page, with the bus free at each. *)
Lemma page_steps n p j :
  0 <= p -> p < n -> n <= 255 -> (j < 4)%nat ->
  async_run {| active := 1; page := p; stage := SSD1306_ASYNC_STAGE_ADDR;
               rerender_pending := 0; g_pages := n |}
    (repeat (EvProcess false false) j)
  = {| active := 1; page := p; stage := Z.of_nat j;
       rerender_pending := 0; g_pages := n |}.
Proof.
  intros Hp Hn Hb Hj.
  destruct j as [|[|[|[|j]]]]; [reflexivity|reflexivity|reflexivity|reflexivity|lia].
Qed.

Lemma page_done n p :
  0 <= p -> p < n -> n <= 255 ->
  async_run {| active := 1; page := p; stage := SSD1306_ASYNC_STAGE_ADDR;
               rerender_pending := 0; g_pages := n |}
    (repeat (EvProcess false false) 4)
  = if p + 1 >=? n
    then {| active := 0; page := p + 1; stage := SSD1306_ASYNC_STAGE_STREAMING;
            rerender_pending := 0; g_pages := n |}
    else {| active := 1; page := p + 1; stage := SSD1306_ASYNC_STAGE_ADDR;
            rerender_pending := 0; g_pages := n |}.
Proof.
  intros Hp Hn Hb.
  change (repeat (EvProcess false false) 4)
    with (repeat (EvProcess false false) 3 ++ [EvProcess false false]).
  rewrite async_run_app, (page_steps n p 3) by lia.
  cbn [async_run fold_left async_step]. unfold ssd1306_render_async_process.
  cbn [active stage page g_pages rerender_pending Z.of_nat Pos.of_succ_nat Pos.succ].
  change (1 =? 0) with false. cbv iota.
  change (3 =? SSD1306_ASYNC_STAGE_ADDR) with false.
  change (3 =? SSD1306_ASYNC_STAGE_BUILD) with false.
  change (3 =? SSD1306_ASYNC_STAGE_STREAM_START) with false.
  change (3 =? SSD1306_ASYNC_STAGE_STREAMING) with true.
  cbv iota zeta. rewrite u8_small by lia.
  change (negb (0 =? 0)) with false. cbv iota.
  destruct (p + 1 >=? n); reflexivity.
Qed.

Lemma pages_done n : forall (q : nat) p,
  0 <= p -> p + Z.of_nat q < n -> n <= 255 ->
  async_run {| active := 1; page := p; stage := SSD1306_ASYNC_STAGE_ADDR;
               rerender_pending := 0; g_pages := n |}
    (repeat (EvProcess false false) (4 * q))
  = {| active := 1; page := p + Z.of_nat q; stage := SSD1306_ASYNC_STAGE_ADDR;
       rerender_pending := 0; g_pages := n |}.
Proof.
  induction q as [|q IH]; intros p Hp Hn Hb.
  - cbn [Nat.mul repeat async_run fold_left]. rewrite Z.add_0_r. reflexivity.
  - replace (4 * S q)%nat with (4 + 4 * q)%nat by lia.
    rewrite repeat_app, async_run_app, page_done by lia.
    rewrite Zgeb_false by lia. rewrite IH by lia.
    replace (p + 1 + Z.of_nat q) with (p + Z.of_nat (S q)) by lia. reflexivity.
Qed.

End Frame.



(** ** Stepping the focus *)

Section FocusStep.

Implicit Types (ps : protocol_state).

Lemma find_ids_shift (f : Z -> bool) : forall (m a : nat) k,
  List.find f (map Z.of_nat (seq a m)) = Some k <->
  (Z.of_nat a <= k < Z.of_nat a + Z.of_nat m /\ f k = true
   /\ forall j, Z.of_nat a <= j < k -> f j = false).
Proof.
  induction m as [|m IH]; intros a k; cbn [seq map List.find].
  - split; [discriminate|]. intros [H _]. lia.
  - destruct (f (Z.of_nat a)) eqn:Hf.
    + split.
      * intros [= <-]. split; [lia|]. split; [assumption|]. intros j Hj. lia.
      * intros (Hk & Hfk & Hmin). f_equal.
        destruct (Z.eq_dec k (Z.of_nat a)) as [->|Hne]; [reflexivity|].
        rewrite Hmin in Hf by lia. discriminate Hf.
    + rewrite IH. split.
      * intros (Hk & Hfk & Hmin). split; [lia|]. split; [assumption|].
        intros j Hj. destruct (Z.eq_dec j (Z.of_nat a)) as [->|Hne]; [assumption|].
        apply Hmin. lia.
      * intros (Hk & Hfk & Hmin).
        assert (k <> Z.of_nat a) by (intros ->; congruence).
        split; [lia|]. split; [assumption|]. intros j Hj. apply Hmin. lia.
Qed.

Lemma find_ids_first (f : Z -> bool) n k :
  0 <= n ->
  List.find f (ids n) = Some k <->
  (0 <= k < n /\ f k = true /\ forall j, 0 <= j < k -> f j = false).
Proof.
  intros Hn. unfold ids. rewrite find_ids_shift.
  change (Z.of_nat 0) with 0. rewrite Z2Nat.id by lia. rewrite Z.add_0_l. reflexivity.
Qed.

Lemma find_ids_none (f : Z -> bool) n :
  (forall j, 0 <= j < n -> f j = false) -> List.find f (ids n) = None.
Proof.
  intros H. destruct (List.find f (ids n)) as [k|] eqn:E; [|reflexivity].
  apply find_some in E. destruct E as [Hin Hf]. apply ids_range in Hin.
  rewrite H in Hf by assumption. discriminate Hf.
Qed.

Lemma target_in_range ps i : focus_target ps i = true -> i < element_count ps.
Proof.
  unfold focus_target, protocol_is_element_visible. intros H.
  destruct (Z.geb_spec i (element_count ps)); [discriminate H|lia].
Qed.

Lemma set_focus_target ps c :
  focus_target ps c = true -> protocol_set_focus ps c = set_focused_element c ps.
Proof.
  intros H. pose proof (target_in_range ps c H) as Hc.
  rewrite set_focus_eq. rewrite Zltb_true by lia.
  unfold focus_target in H. cbn [andb]. rewrite H. reflexivity.
Qed.

Lemma next_loop_find ps count start l :
  protocol_focus_next_loop ps count start l
  = match List.find (fun step => focus_target ps (u8 ((start + step) mod count))) l with
    | Some step => set_focused_element (u8 ((start + step) mod count)) ps
    | None => protocol_clear_focus ps
    end.
Proof.
  induction l as [|step rest IH]; [reflexivity|].
  cbn [protocol_focus_next_loop List.find]. cbv zeta.
  destruct (focus_target ps (u8 ((start + step) mod count))) eqn:Hf.
  - rewrite <- (set_focus_target _ _ Hf). unfold focus_target in Hf.
    destruct (protocol_is_element_visible ps _ =? 0); [discriminate Hf|].
    destruct (element_focusable ps _ =? 0); [discriminate Hf|reflexivity].
  - unfold focus_target in Hf.
    destruct (protocol_is_element_visible ps _ =? 0); [exact IH|].
    destruct (element_focusable ps _ =? 0); [exact IH|discriminate Hf].
Qed.

Lemma find_ext {A} (f g : A -> bool) (l : list A) :
  (forall x, In x l -> f x = g x) -> List.find f l = List.find g l.
Proof.
  induction l as [|x l IH]; intros H; [reflexivity|].
  cbn [List.find]. rewrite (H x (or_introl eq_refl)).
  destruct (g x); [reflexivity|]. apply IH. intros y Hy. apply H. right. exact Hy.
Qed.

Lemma next_find ps :
  0 < element_count ps <= 255 ->
  let count := element_count ps in
  let start := if focused_element ps =? INVALID_ELEMENT_ID then 0
               else (focused_element ps + 1) mod count in
  protocol_focus_next ps
  = match List.find (fun k => focus_target ps ((start + k) mod count)) (ids count) with
    | Some k => set_focused_element ((start + k) mod count) ps
    | None => protocol_clear_focus ps
    end.
Proof.
  intros Hc count start. unfold protocol_focus_next. fold count.
  rewrite Zeqb_false by lia. cbv zeta.
  assert (Hm : forall x, 0 <= x mod count < 256)
    by (intros x; pose proof (Z.mod_pos_bound x count ltac:(lia)); lia).
  rewrite (u8_small ((focused_element ps + 1) mod count)) by apply Hm.
  fold start. rewrite next_loop_find.
  rewrite (find_ext _ (fun k => focus_target ps ((start + k) mod count)))
    by (intros x _; rewrite u8_small by apply Hm; reflexivity).
  destruct (List.find _ _); [|reflexivity].
  rewrite u8_small by apply Hm. reflexivity.
Qed.

Lemma ids_succ (m : nat) :
  ids (Z.of_nat (S m)) = 0 :: map Z.succ (ids (Z.of_nat m)).
Proof.
  unfold ids. rewrite !Nat2Z.id. cbn [seq map]. f_equal.
  rewrite <- seq_shift, !map_map. apply map_ext. intros x. apply Nat2Z.inj_succ.
Qed.

Lemma find_map {A B} (f : B -> bool) (g : A -> B) (l : list A) :
  List.find f (map g l) = option_map g (List.find (fun x => f (g x)) l).
Proof.
  induction l as [|x l IH]; [reflexivity|].
  cbn [map List.find]. destruct (f (g x)); [reflexivity|exact IH].
Qed.

Lemma prev_loop_find ps count : forall (m : nat) start,
  0 < count <= 255 -> -1 <= start < count ->
  protocol_focus_prev_loop ps count start m
  = match List.find (fun j => focus_target ps ((start - j) mod count))
            (ids (Z.of_nat m)) with
    | Some j => set_focused_element ((start - j) mod count) ps
    | None => protocol_clear_focus ps
    end.
Proof.
  induction m as [|m IH]; intros start Hc Hs; [reflexivity|].
  rewrite ids_succ. cbn [protocol_focus_prev_loop List.find]. cbv zeta.
  rewrite (i16_small (count - 1)) by lia.
  set (start1 := if start <? 0 then count - 1 else start).
  assert (H1 : 0 <= start1 < count)
    by (subst start1; destruct (Z.ltb_spec start 0); lia).
  assert (E1 : start mod count = start1).
  { subst start1. destruct (Z.ltb_spec start 0).
    - symmetry. apply (Z.mod_unique start count (-1)); lia.
    - apply Z.mod_small. lia. }
  rewrite Z.sub_0_r, E1. rewrite (u8_small start1), (i16_small (start1 - 1)) by lia.
  assert (Ej : forall j, (start1 - 1 - j) mod count = (start - Z.succ j) mod count).
  { intros j. rewrite <- E1.
    replace (start mod count - 1 - j) with (start mod count - (1 + j)) by lia.
    rewrite Zminus_mod_idemp_l. f_equal. lia. }
  rewrite find_map.
  rewrite (find_ext (fun x => focus_target ps ((start - Z.succ x) mod count))
             (fun j => focus_target ps ((start1 - 1 - j) mod count)))
    by (intros x _; rewrite Ej; reflexivity).
  specialize (IH (start1 - 1) Hc ltac:(lia)).
  destruct (focus_target ps start1) eqn:Hf.
  - cbv iota. rewrite Z.sub_0_r, E1.
    rewrite <- (set_focus_target _ _ Hf). unfold focus_target in Hf.
    destruct (protocol_is_element_visible ps _ =? 0); [discriminate Hf|].
    destruct (element_focusable ps _ =? 0); [discriminate Hf|reflexivity].
  - assert (Hrest : protocol_focus_prev_loop ps count (start1 - 1) m
                    = match option_map Z.succ
                              (List.find (fun j => focus_target ps ((start1 - 1 - j) mod count))
                                 (ids (Z.of_nat m))) with
                      | Some j => set_focused_element ((start - j) mod count) ps
                      | None => protocol_clear_focus ps
                      end).
    { rewrite IH. destruct (List.find _ _) as [j|]; [|reflexivity].
      cbn [option_map]. rewrite Ej. reflexivity. }
    unfold focus_target in Hf.
    destruct (protocol_is_element_visible ps _ =? 0); [exact Hrest|].
    destruct (element_focusable ps _ =? 0); [exact Hrest|discriminate Hf].
Qed.

Lemma prev_find ps :
  0 < element_count ps <= 255 ->
  focused_element ps = INVALID_ELEMENT_ID \/ 0 <= focused_element ps < element_count ps ->
  let count := element_count ps in
  let start := if focused_element ps =? INVALID_ELEMENT_ID then count - 1
               else focused_element ps - 1 in
  protocol_focus_prev ps
  = match List.find (fun j => focus_target ps ((start - j) mod count)) (ids count) with
    | Some j => set_focused_element ((start - j) mod count) ps
    | None => protocol_clear_focus ps
    end.
Proof.
  intros Hc Hf count start. unfold protocol_focus_prev. fold count.
  rewrite Zeqb_false by lia. cbv zeta.
  assert (Hs : -1 <= start < count).
  { subst start count. unfold INVALID_ELEMENT_ID in *.
    destruct (Z.eqb_spec (focused_element ps) 255); lia. }
  assert (Es : (if focused_element ps =? INVALID_ELEMENT_ID then i16 (count - 1)
                else i16 (focused_element ps - 1)) = start).
  { subst start count. unfold INVALID_ELEMENT_ID in *.
    destruct (Z.eqb_spec (focused_element ps) 255);
      rewrite i16_small; try reflexivity; lia. }
  rewrite Es, prev_loop_find by (subst count; lia).
  rewrite Z2Nat.id by lia. reflexivity.
Qed.

Lemma focus_view ps c : same_view ps (set_focused_element c ps).
Proof. repeat split. Qed.

Lemma focus_target_focus ps c i :
  focus_target (set_focused_element c ps) i = focus_target ps i.
Proof.
  unfold focus_target.
  rewrite <- (view_visible ps _ (focus_view ps c)).
  rewrite <- (view_focusable ps _ (focus_view ps c)). reflexivity.
Qed.

Lemma set_focus_twice ps c :
  set_focused_element (focused_element ps) (set_focused_element c ps) = ps.
Proof. destruct ps; reflexivity. Qed.

End FocusStep.

(** X28: stepping the focus forward changes the focused element only and
    never lands on an element that is hidden or not focusable: it moves to
    the first visible, focusable element found cyclically after the
    focused one (from element 0 when nothing is focused), and clears the
    focus when no element qualifies. *)
Theorem focus_next_finds_next_target (ps : protocol_state) (k : Z) :
  0 < element_count ps <= 255 ->
  let count := element_count ps in
  let start := if focused_element ps =? INVALID_ELEMENT_ID then 0
               else (focused_element ps + 1) mod count in
  (exists f, protocol_focus_next ps = set_focused_element f ps
             /\ (f = INVALID_ELEMENT_ID \/ focus_target ps f = true))
  /\ ((forall i, 0 <= i < count -> focus_target ps i = false) ->
      protocol_focus_next ps = protocol_clear_focus ps)
  /\ (0 <= k < count ->
      focus_target ps ((start + k) mod count) = true ->
      (forall j, 0 <= j < k -> focus_target ps ((start + j) mod count) = false) ->
      protocol_focus_next ps = set_focused_element ((start + k) mod count) ps).
Proof.
  intros Hc count start. pose proof (next_find ps Hc) as Hn. cbv zeta in Hn.
  fold count in Hn. fold start in Hn.
  split; [|split].
  - rewrite Hn. destruct (List.find _ _) as [j|] eqn:E.
    + apply find_some in E. destruct E as [_ E]. eexists. split; [reflexivity|].
      right. exact E.
    + exists INVALID_ELEMENT_ID. split; [reflexivity|]. left. reflexivity.
  - intros Hnone. rewrite Hn, find_ids_none; [reflexivity|].
    intros j Hj. apply Hnone. apply Z.mod_pos_bound. lia.
  - intros Hk Hf Hmin. rewrite Hn.
    rewrite (proj2 (find_ids_first _ count k ltac:(lia))); [reflexivity|].
    split; [exact Hk|]. split; [exact Hf|exact Hmin].
Qed.

Lemma focus_next_finds_next_target_witness :
  protocol_focus_next (activated tree_nested_list)
  = set_focused_element
      (((if focused_element (activated tree_nested_list) =? INVALID_ELEMENT_ID
         then 0
         else (focused_element (activated tree_nested_list) + 1)
                mod element_count (activated tree_nested_list)) + 2)
         mod element_count (activated tree_nested_list))
      (activated tree_nested_list).
Proof.
  refine (proj2 (proj2 (focus_next_finds_next_target
                          (activated tree_nested_list) 2 _)) _ _ _).
  - vm_compute. split; [reflexivity|intros H; discriminate H].
  - vm_compute. split; [intros H; discriminate H|reflexivity].
  - vm_compute. reflexivity.
  - intros j Hj. assert (E : j = 0 \/ j = 1) by lia.
    destruct E as [-> | ->]; vm_compute; reflexivity.
Defined.

(** X29: when the focus is on a visible, focusable element, stepping it
    forward and then back, or back and then forward, returns exactly the
    state it started from. *)
Theorem focus_next_prev_inverse (ps : protocol_state) :
  0 < element_count ps <= 255 ->
  0 <= focused_element ps ->
  focus_target ps (focused_element ps) = true ->
  protocol_focus_prev (protocol_focus_next ps) = ps
  /\ protocol_focus_next (protocol_focus_prev ps) = ps.
Proof.
  intros Hc H0 Hft.
  set (n := element_count ps). set (f := focused_element ps).
  assert (Hf : 0 <= f < n) by (pose proof (target_in_range ps f Hft); subst n f; lia).
  assert (Hinv : (f =? INVALID_ELEMENT_ID) = false)
    by (apply Z.eqb_neq; unfold INVALID_ELEMENT_ID; subst n; lia).
  assert (Hmod : forall x, 0 <= x mod n < n) by (intros x; apply Z.mod_pos_bound; lia).
  assert (Hfn : forall x, x mod n = f mod n -> x mod n = f)
    by (intros x E; rewrite E; apply Z.mod_small; lia).
  split.
  - pose proof (next_find ps Hc) as Hn. cbv zeta in Hn.
    fold n in Hn. fold f in Hn. rewrite Hinv in Hn.
    destruct (List.find (fun k => focus_target ps (((f + 1) mod n + k) mod n)) (ids n))
      as [k|] eqn:E.
    + apply find_ids_first in E; [|lia]. destruct E as (Hk & Hck & Hmin).
      set (c := ((f + 1) mod n + k) mod n) in *.
      assert (Hcr : 0 <= c < n) by apply Hmod.
      rewrite Hn.
      pose proof (prev_find (set_focused_element c ps)) as Hp. cbv zeta in Hp.
      cbn [element_count focused_element set_focused_element] in Hp.
      fold n in Hp.
      rewrite (Zeqb_false c INVALID_ELEMENT_ID) in Hp
        by (unfold INVALID_ELEMENT_ID; subst n; lia).
      rewrite Hp; [|subst n; lia|right; lia].
      rewrite (find_ext _ (fun j => focus_target ps ((c - 1 - j) mod n)))
        by (intros x _; apply focus_target_focus).
      assert (Eback : forall j, (c - 1 - j) mod n = (f + k - j) mod n).
      { intros j. subst c. replace (((f + 1) mod n + k) mod n - 1 - j)
          with (((f + 1) mod n + k) mod n - (1 + j)) by lia.
        rewrite Zminus_mod_idemp_l.
        replace ((f + 1) mod n + k - (1 + j)) with ((f + 1) mod n + (k - (1 + j)))
          by lia.
        rewrite Zplus_mod_idemp_l. f_equal. lia. }
      assert (Ek : (c - 1 - k) mod n = f).
      { rewrite Eback. apply Hfn. f_equal. lia. }
      rewrite (proj2 (find_ids_first _ n k ltac:(lia))).
      * rewrite Ek. apply set_focus_twice.
      * split; [exact Hk|]. split; [rewrite Ek; exact Hft|].
        intros j Hj. rewrite Eback.
        replace ((f + k - j) mod n) with (((f + 1) mod n + (k - 1 - j)) mod n)
          by (rewrite Zplus_mod_idemp_l; f_equal; lia).
        apply Hmin. lia.
    + exfalso. apply find_none with (x := n - 1) in E; [|apply ids_in; lia].
      cbv beta in E.
      replace (((f + 1) mod n + (n - 1)) mod n) with f in E;
        [unfold f in E; rewrite Hft in E; discriminate E|].
      rewrite Zplus_mod_idemp_l. apply (Z.mod_unique _ n 1); lia.
  - pose proof (prev_find ps Hc ltac:(right; subst n f; lia)) as Hp. cbv zeta in Hp.
    fold n in Hp. fold f in Hp. rewrite Hinv in Hp.
    destruct (List.find (fun j => focus_target ps ((f - 1 - j) mod n)) (ids n))
      as [k|] eqn:E.
    + apply find_ids_first in E; [|lia]. destruct E as (Hk & Hck & Hmin).
      set (c := (f - 1 - k) mod n) in *.
      assert (Hcr : 0 <= c < n) by apply Hmod.
      rewrite Hp.
      pose proof (next_find (set_focused_element c ps)) as Hn. cbv zeta in Hn.
      cbn [element_count focused_element set_focused_element] in Hn.
      fold n in Hn.
      rewrite (Zeqb_false c INVALID_ELEMENT_ID) in Hn
        by (unfold INVALID_ELEMENT_ID; subst n; lia).
      rewrite Hn; [|subst n; lia].
      rewrite (find_ext _ (fun j => focus_target ps (((c + 1) mod n + j) mod n)))
        by (intros x _; apply focus_target_focus).
      assert (Efwd : forall j, ((c + 1) mod n + j) mod n = (f - k + j) mod n).
      { intros j. subst c. rewrite Zplus_mod_idemp_l.
        replace ((f - 1 - k) mod n + 1 + j) with ((f - 1 - k) mod n + (1 + j)) by lia.
        rewrite Zplus_mod_idemp_l. f_equal. lia. }
      assert (Ek : ((c + 1) mod n + k) mod n = f).
      { rewrite Efwd. apply Hfn. f_equal. lia. }
      rewrite (proj2 (find_ids_first _ n k ltac:(lia))).
      * rewrite Ek. apply set_focus_twice.
      * split; [exact Hk|]. split; [rewrite Ek; exact Hft|].
        intros j Hj. rewrite Efwd.
        replace ((f - k + j) mod n) with ((f - 1 - (k - 1 - j)) mod n)
          by (f_equal; lia).
        apply Hmin. lia.
    + exfalso. apply find_none with (x := n - 1) in E; [|apply ids_in; lia].
      cbv beta in E.
      replace ((f - 1 - (n - 1)) mod n) with f in E;
        [unfold f in E; rewrite Hft in E; discriminate E|].
      apply (Z.mod_unique _ n (-1)); lia.
Qed.

Lemma focus_next_prev_inverse_witness :
  protocol_focus_prev (protocol_focus_next (activated tree_nested_list))
  = activated tree_nested_list.
Proof.
  refine (proj1 (focus_next_prev_inverse (activated tree_nested_list) _ _ _)).
  - vm_compute. split; [reflexivity|intros H; discriminate H].
  - vm_compute. intros H. discriminate H.
  - vm_compute. reflexivity.
Defined.
